(** * A shallow embedding of the self-replicating factory simulator

    The development follows [self_replicating_factory_sim.py]: the energy
    store, the transport dispatcher, the module state, recipe expansion
    and the task scheduler of the [Factory] class.

    Conventions of the embedding.
    - Python floats and ints that carry quantities are rationals ([Q]),
      i.e. arithmetic is exact; integer priorities and counters are [Z]
      or [nat].
    - A [ResourceType] member is identified with its [.value] string.
    - Python dicts whose iteration order is observable are insertion
      ordered association lists; inventories are [gmap string Q]; sets of
      identifiers are [gset string].
    - [random.random], [random.gauss], the trigonometric solar model and
      the float power [**] are oracles: the fields of the [Oracles] record
      that the methods take as an argument.
    - A method that can raise returns an [Outcome]: the state it leaves
      and either its value or the exception. *)

From Stdlib Require Import QArith Qminmax Qabs Qround ZArith Lia Lqa.
From Stdlib Require Import String Ascii List DecimalString DecimalNat Sorted.
From stdpp Require Import gmap strings list fin_maps.
Import ListNotations.

Local Open Scope Q_scope.
Local Open Scope string_scope.

(** ** Python primitives *)

Module Py.

(** [a < b] on floats read as rationals. *)
Definition ltb (a b : Q) : bool := negb (Qle_bool b a).
Definition leb (a b : Q) : bool := Qle_bool a b.
Definition gtb (a b : Q) : bool := ltb b a.
Definition geb (a b : Q) : bool := leb b a.

(** Truthiness of a float: [0] and [0.0] are false. *)
Definition truthy (a : Q) : bool := negb (Qeq_bool a 0).

(** Truthiness of an [Optional] number. *)
Definition truthy_opt (a : option Q) : bool :=
  match a with Some x => truthy x | None => false end.

(** Truthiness of an [Optional[str]]. *)
Definition truthy_str (a : option string) : bool :=
  match a with Some s => negb (String.eqb s EmptyString) | None => false end.

(** [int(x)]: truncation toward zero. *)
Definition int (a : Q) : Z := Z.quot (Qnum a) (Zpos (Qden a)).

(** [a % b] for a positive [b]. *)
Definition fmod (a b : Q) : Q := a - b * inject_Z (Qfloor (a / b)).

End Py.

(** ** Simulation constants *)

Definition MAX_TASK_STARTS_PER_STEP : nat := 5.
Definition MAX_CONCURRENT_TRANSPORTS : nat := 20.
Definition TRANSPORT_POWER_KW_PER_ACTIVE : Q := 2.
Definition WEEKLY_CLEANING_INTERVAL_HOURS : Z := 168.

(** The keys of [CONFIG] the modelled methods read. *)
Record Config := {
  battery_efficiency : Q;
  factory_area_m2 : Q;
  ambient_temperature : Q;
  agv_fleet_size : nat;
  enable_degradation : bool;
  enable_maintenance : bool;
  enable_weather : bool;
  enable_batch_processing : bool;
  initial_solar_capacity_kw : Q;
  latitude : Q;
  average_cloud_cover : Q;
  max_storage_volume_m3 : Q;
  max_storage_weight_tons : Q;
  enable_storage_limits : bool
}.

(** The defaults of [CONFIG]. *)
Definition CONFIG : Config := {|
  battery_efficiency := 95 # 100;
  factory_area_m2 := 20000;
  ambient_temperature := 25;
  agv_fleet_size := 10;
  enable_degradation := true;
  enable_maintenance := true;
  enable_weather := true;
  enable_batch_processing := true;
  initial_solar_capacity_kw := 100;
  latitude := 35;
  average_cloud_cover := 3 # 10;
  max_storage_volume_m3 := 15000;
  max_storage_weight_tons := 10000;
  enable_storage_limits := true
|}.

(** What the embedding does not compute: the draws of [random.random()]
    and [random.gauss(mu, sigma)], indexed by the number of draws made
    before; the float power [x ** y]; and the clear-sky irradiance of
    [calculate_solar_generation] (the trigonometric part, from latitude,
    hour of day and day of year). *)
Record Oracles := {
  random_random : nat -> Q;
  random_gauss : nat -> Q -> Q -> Q;
  float_pow : Q -> Q -> Q;
  base_irradiance : Q -> Q -> Z -> Q
}.

(** ** Energy system *)

Module Energy.

Record EnergySystem := {
  config : Config;
  solar_capacity_kw : Q;
  battery_capacity_kwh : Q;
  battery_charge_kwh : Q;
  battery_cycles : Q;
  panel_age_days : Q;
  days_since_cleaning : Q
}.

(** [EnergySystem.__init__] *)
Definition init (cfg : Config) : EnergySystem := {|
  config := cfg;
  solar_capacity_kw := initial_solar_capacity_kw cfg;
  battery_capacity_kwh := 1000;
  battery_charge_kwh := 1000 * (5 # 10);
  battery_cycles := 0;
  panel_age_days := 0;
  days_since_cleaning := 0
|}.

(** [EnergySystem.update_battery]: the new state and the returned
    signed amount. [duration_hours] is accepted and never read. *)
Definition update_battery (e : EnergySystem) (energy_delta_kwh duration_hours : Q)
  : EnergySystem * Q :=
  if Py.gtb energy_delta_kwh 0 then
    let charge_rate := Qmin energy_delta_kwh (battery_capacity_kwh e * (5 # 10)) in
    let actual_charge := charge_rate * battery_efficiency (config e) in
    ({| config := config e;
        solar_capacity_kw := solar_capacity_kw e;
        battery_capacity_kwh := battery_capacity_kwh e;
        battery_charge_kwh :=
          Qmin (battery_capacity_kwh e * (95 # 100))
               (battery_charge_kwh e + actual_charge);
        battery_cycles := battery_cycles e + actual_charge / battery_capacity_kwh e;
        panel_age_days := panel_age_days e;
        days_since_cleaning := days_since_cleaning e |},
     actual_charge)
  else
    let discharge_requested := Qabs energy_delta_kwh in
    let max_discharge := battery_capacity_kwh e * (5 # 10) in
    let actual_discharge :=
      Qmin (Qmin discharge_requested max_discharge)
           (battery_charge_kwh e - battery_capacity_kwh e * (2 # 10)) in
    ({| config := config e;
        solar_capacity_kw := solar_capacity_kw e;
        battery_capacity_kwh := battery_capacity_kwh e;
        battery_charge_kwh := battery_charge_kwh e - actual_discharge;
        battery_cycles := battery_cycles e + actual_discharge / battery_capacity_kwh e;
        panel_age_days := panel_age_days e;
        days_since_cleaning := days_since_cleaning e |},
     - actual_discharge).

(** The battery after a sequence of [update_battery] calls, one pair
    [(energy_delta_kwh, duration_hours)] per call. *)
Definition run_updates (e : EnergySystem) (calls : list (Q * Q)) : EnergySystem :=
  fold_left (fun acc c => fst (update_battery acc (fst c) (snd c))) calls e.

(** [EnergySystem.calculate_solar_generation]; [draws] random draws
    were made before the call, the result carries the new count. *)
Definition calculate_solar_generation (orc : Oracles) (e : EnergySystem)
           (draws : nat) (hour_of_day : Q) (day_of_year : Z) : Q * nat :=
  if negb (enable_weather (config e)) then
    (solar_capacity_kw e * 8 / 24, draws)
  else
    let irradiance := base_irradiance orc (latitude (config e)) hour_of_day day_of_year in
    let weather_factor :=
      Qmax (1 # 10)
           (Qmin 1 (1 - average_cloud_cover (config e)
                        * random_gauss orc draws 1 (2 # 10))) in
    let age_factor := float_pow orc (995 # 1000) (panel_age_days e / 365) in
    let dust_factor := Qmax (7 # 10) (1 - (1 # 100) * days_since_cleaning e) in
    let temp_factor := 1 - (4 # 1000) * (ambient_temperature (config e) - 25) in
    let actual_generation :=
      solar_capacity_kw e * (irradiance / 1000) * weather_factor
      * age_factor * dust_factor * temp_factor in
    (Qmax 0 actual_generation, S draws).

Definition in_bounds (e : EnergySystem) : Prop :=
  (2 # 10) * battery_capacity_kwh e <= battery_charge_kwh e /\
  battery_charge_kwh e <= (95 # 100) * battery_capacity_kwh e.

End Energy.

(** ** Insertion-ordered dictionaries and string formatting *)

Module Dict.

Section Ops.
Context {V : Type}.

(** [d.get(k)] *)
Fixpoint get (d : list (string * V)) (k : string) : option V :=
  match d with
  | [] => None
  | (k', v) :: rest => if String.eqb k' k then Some v else get rest k
  end.

Definition mem (d : list (string * V)) (k : string) : bool :=
  match get d k with Some _ => true | None => false end.

(** [d[k] = v]: an existing key keeps its position, a new key goes
    last. *)
Fixpoint set (d : list (string * V)) (k : string) (v : V) : list (string * V) :=
  match d with
  | [] => [(k, v)]
  | (k', v') :: rest =>
      if String.eqb k' k then (k, v) :: rest else (k', v') :: set rest k v
  end.

(** [del d[k]] *)
Fixpoint del (d : list (string * V)) (k : string) : list (string * V) :=
  match d with
  | [] => []
  | (k', v') :: rest =>
      if String.eqb k' k then rest else (k', v') :: del rest k
  end.

Definition keys (d : list (string * V)) : list string := map fst d.
Definition values (d : list (string * V)) : list V := map snd d.
End Ops.

End Dict.

Module Fmt.

Fixpoint zeros (n : nat) : string :=
  match n with O => EmptyString | S n' => String "0" (zeros n') end.

(** [f"{n:0{width}d}"] for a non-negative [n]. *)
Definition padded (width n : nat) : string :=
  let digits := NilEmpty.string_of_uint (Nat.to_uint n) in
  zeros (width - String.length digits) ++ digits.

(** [s.endswith(suffix)] *)
Definition endswith (s suffix : string) : bool :=
  let n := String.length s in
  let m := String.length suffix in
  if Nat.leb m n then String.eqb (substring (n - m) m s) suffix else false.

(** [s.startswith(p)] *)
Definition startswith (s p : string) : bool := String.prefix p s.

(** [s.replace(old, EmptyString)] for a non-empty [old]: every occurrence,
    scanning left to right. *)
Fixpoint remove_all_aux (fuel : nat) (old s : string) : string :=
  match fuel with
  | O => s
  | S fuel' =>
      match s with
      | EmptyString => EmptyString
      | String c rest =>
          if String.prefix old s
          then remove_all_aux fuel'
                 old (substring (String.length old)
                                (String.length s - String.length old) s)
          else String c (remove_all_aux fuel' old rest)
      end
  end.

Definition remove_all (old s : string) : string :=
  remove_all_aux (S (String.length s)) old s.

End Fmt.

(** A binary heap of [(priority, id, item)] tuples used through
    [heapq.heappush] and [heapq.heappop] only is observed as a priority
    queue: the list is kept in ascending [(priority, id)] order and the
    head is the next element popped. This is the heap whose entries
    differ in [(priority, id)]. When a comparison meets two entries
    that tie on both components Python goes on to compare the items,
    tasks or transport jobs, which have no order, and raises
    [TypeError]; the model places an entry pushed with a tied key after
    the existing ones. Task ids are made from a counter and do not
    repeat; the ids of transport jobs are made from the length of the
    queue and can (see [Jobs.tied] and [second_job_replaces_first]). *)
Module Heap.

Section Ops.
Context {A : Type}.

Definition key_le (p1 : Z) (i1 : string) (p2 : Z) (i2 : string) : bool :=
  if Z.ltb p1 p2 then true
  else if Z.eqb p1 p2 then String.leb i1 i2
  else false.

Fixpoint heappush (h : list (Z * string * A)) (e : Z * string * A)
  : list (Z * string * A) :=
  match h with
  | [] => [e]
  | x :: rest =>
      if key_le (fst (fst x)) (snd (fst x)) (fst (fst e)) (snd (fst e))
      then x :: heappush rest e
      else e :: x :: rest
  end.

Definition heappop (h : list (Z * string * A))
  : option ((Z * string * A) * list (Z * string * A)) :=
  match h with
  | [] => None
  | x :: rest => Some (x, rest)
  end.
End Ops.

End Heap.

(** ** Transport system *)

Module Transport.

Record TransportJob := {
  job_id : string;
  from_module : string;
  to_module : string;
  resource_type : string;
  quantity : Q;
  priority : Z;
  distance : Q;
  assigned_vehicle : option string;
  start_time : option Q;
  completion_time : option Q;
  energy_consumed : Q
}.

Inductive AgvStatus := idle | transporting | charging | maintenance.

Definition AgvStatus_eqb (a b : AgvStatus) : bool :=
  match a, b with
  | idle, idle | transporting, transporting
  | charging, charging | maintenance, maintenance => true
  | _, _ => false
  end.

Record Agv := {
  status : AgvStatus;
  battery_level : Q;
  current_load : Q;
  max_load : Q;
  speed_mps : Q;
  location : string;
  maintenance_hours : Q
}.

Record TransportSystem := {
  transport_queue : list (Z * string * TransportJob);
  active_transports : list (string * TransportJob);
  completed_transports : list TransportJob;
  agv_fleet : list (string * Agv);
  conveyor_capacity : Q;
  conveyor_speed : Q;
  conveyor_utilization : Q;
  module_locations : list (string * (Q * Q))
}.

Definition layout_modules : list string :=
  ["mining"; "refining"; "chemical"; "electronics"; "mechanical";
   "cnc"; "laser"; "cleanroom"; "assembly"; "software";
   "transport"; "recycling"; "testing"; "thermal"].

(** [TransportSystem._generate_layout]; [ceil(sqrt(14))] is [4]. *)
Definition _generate_layout : list (string * (Q * Q)) :=
  let grid_size := 4%nat in
  map (fun im : nat * string =>
         let i := fst im in
         (snd im,
          (inject_Z (Z.of_nat (i mod grid_size) * 50),
           inject_Z (Z.of_nat (i / grid_size) * 50))))
      (combine (seq 0 (List.length layout_modules)) layout_modules).

Definition new_agv : Agv := {|
  status := idle;
  battery_level := 1;
  current_load := 0;
  max_load := 2000;
  speed_mps := 1;
  location := "depot";
  maintenance_hours := 0
|}.

(** [TransportSystem.__init__] *)
Definition init (cfg : Config) : TransportSystem := {|
  transport_queue := [];
  active_transports := [];
  completed_transports := [];
  agv_fleet :=
    map (fun i => ("agv_" ++ Fmt.padded 3 i, new_agv))
        (seq 0 (agv_fleet_size cfg));
  conveyor_capacity := 1000;
  conveyor_speed := 2;
  conveyor_utilization := 0;
  module_locations := _generate_layout
|}.

(** [TransportSystem.calculate_distance] *)
Definition calculate_distance (ts : TransportSystem) (a b : string) : Q :=
  match Dict.get (module_locations ts) a, Dict.get (module_locations ts) b with
  | Some (x1, y1), Some (x2, y2) => Qabs (x2 - x1) + Qabs (y2 - y1)
  | _, _ => 100
  end.

Definition with_queue (ts : TransportSystem) q : TransportSystem := {|
  transport_queue := q;
  active_transports := active_transports ts;
  completed_transports := completed_transports ts;
  agv_fleet := agv_fleet ts;
  conveyor_capacity := conveyor_capacity ts;
  conveyor_speed := conveyor_speed ts;
  conveyor_utilization := conveyor_utilization ts;
  module_locations := module_locations ts
|}.

(** [TransportSystem.schedule_transport]: the job always comes back. *)
Definition schedule_transport (ts : TransportSystem)
           (from_m to_m resource : string) (qty : Q) (prio : Z)
  : TransportSystem * TransportJob :=
  let jid := "transport_" ++ Fmt.padded 6 (List.length (transport_queue ts)) in
  let job := {|
    job_id := jid;
    from_module := from_m;
    to_module := to_m;
    resource_type := resource;
    quantity := qty;
    priority := prio;
    distance := calculate_distance ts from_m to_m;
    assigned_vehicle := None;
    start_time := None;
    completion_time := None;
    energy_consumed := 0
  |} in
  (with_queue ts (Heap.heappush (transport_queue ts) (prio, jid, job)), job).

(** [TransportSystem.find_available_agv] *)
Fixpoint find_in_fleet (fleet : list (string * Agv)) (load_weight : Q)
  : option string :=
  match fleet with
  | [] => None
  | (agv_id, agv) :: rest =>
      if AgvStatus_eqb (status agv) idle
         && Py.gtb (battery_level agv) (2 # 10)
         && Py.geb (max_load agv) load_weight
      then Some agv_id
      else find_in_fleet rest load_weight
  end.

Definition find_available_agv (ts : TransportSystem) (load_weight : Q)
  : option string :=
  find_in_fleet (agv_fleet ts) load_weight.

(** One iteration of the [while] loop of [process_transport_queue] on
    the popped entry: [Some ts'] when a job was started, [None] on the
    [break] path (the entry is pushed back by the caller). *)
Definition start_job (ts : TransportSystem) (current_time : Q)
           (jid : string) (job : TransportJob) : option TransportSystem :=
  if Py.ltb (quantity job) 100 && Py.ltb (conveyor_utilization ts) (8 # 10) then
    let travel_time := distance job / conveyor_speed ts / 3600 in
    let job' := {|
      job_id := job_id job;
      from_module := from_module job;
      to_module := to_module job;
      resource_type := resource_type job;
      quantity := quantity job;
      priority := priority job;
      distance := distance job;
      assigned_vehicle := assigned_vehicle job;
      start_time := start_time job;
      completion_time := Some (current_time + travel_time);
      energy_consumed := distance job * (5 # 10)
    |} in
    Some {|
      transport_queue := transport_queue ts;
      active_transports := Dict.set (active_transports ts) jid job';
      completed_transports := completed_transports ts;
      agv_fleet := agv_fleet ts;
      conveyor_capacity := conveyor_capacity ts;
      conveyor_speed := conveyor_speed ts;
      conveyor_utilization :=
        conveyor_utilization ts + quantity job / conveyor_capacity ts;
      module_locations := module_locations ts
    |}
  else
    match find_available_agv ts (quantity job) with
    | None => None
    | Some agv_id =>
        if String.eqb agv_id EmptyString then None else
        match Dict.get (agv_fleet ts) agv_id with
        | None => None
        | Some agv =>
            let load_time := quantity job / 1000 * (1 # 10) in
            let travel_time := distance job / speed_mps agv / 3600 in
            let unload_time := load_time in
            let total_time := load_time + travel_time + unload_time in
            let agv' := {|
              status := transporting;
              battery_level := battery_level agv - distance job * (1 # 1000);
              current_load := quantity job;
              max_load := max_load agv;
              speed_mps := speed_mps agv;
              location := location agv;
              maintenance_hours := maintenance_hours agv
            |} in
            let job' := {|
              job_id := job_id job;
              from_module := from_module job;
              to_module := to_module job;
              resource_type := resource_type job;
              quantity := quantity job;
              priority := priority job;
              distance := distance job;
              assigned_vehicle := Some agv_id;
              start_time := Some current_time;
              completion_time := Some (current_time + total_time);
              energy_consumed := distance job * 2
            |} in
            Some {|
              transport_queue := transport_queue ts;
              active_transports := Dict.set (active_transports ts) jid job';
              completed_transports := completed_transports ts;
              agv_fleet := Dict.set (agv_fleet ts) agv_id agv';
              conveyor_capacity := conveyor_capacity ts;
              conveyor_speed := conveyor_speed ts;
              conveyor_utilization := conveyor_utilization ts;
              module_locations := module_locations ts
            |}
        end
    end.

(** The [while self.transport_queue and jobs_started < max_starts]
    loop, by recursion on [max_starts - jobs_started]: every iteration
    that does not [break] increments [jobs_started]. The result carries
    the number of jobs started. *)
Fixpoint dispatch (remaining : nat) (ts : TransportSystem) (current_time : Q)
  : TransportSystem * nat :=
  match remaining with
  | O => (ts, O)
  | S remaining' =>
      match Heap.heappop (transport_queue ts) with
      | None => (ts, O)
      | Some ((prio, jid, job), rest) =>
          let popped := with_queue ts rest in
          match start_job popped current_time jid job with
          | Some ts' =>
              let r := dispatch remaining' ts' current_time in
              (fst r, S (snd r))
          | None =>
              (with_queue popped (Heap.heappush rest (prio, jid, job)), O)
          end
      end
  end.

Definition max_starts : nat := 5.

(** [TransportSystem.process_transport_queue] *)
Definition process_transport_queue (ts : TransportSystem) (current_time : Q)
  : TransportSystem :=
  fst (dispatch max_starts ts current_time).

(** The body of the [for] loop of [update_active_transports] for one
    entry of [active_transports]; the accumulator holds the system and
    the ids collected in [completed]. An active job always carries a
    completion time. *)
Definition complete_job (acc : TransportSystem * list string) (current_time : Q)
           (entry : string * TransportJob) : TransportSystem * list string :=
  let ts := fst acc in
  let jid := fst entry in
  let job := snd entry in
  match completion_time job with
  | None => acc
  | Some done_at =>
      if Py.geb current_time done_at then
        let fleet :=
          match assigned_vehicle job with
          | Some v =>
              if String.eqb v EmptyString then agv_fleet ts else
              match Dict.get (agv_fleet ts) v with
              | Some agv =>
                  Dict.set (agv_fleet ts) v {|
                    status := idle;
                    battery_level := battery_level agv;
                    current_load := 0;
                    max_load := max_load agv;
                    speed_mps := speed_mps agv;
                    location := to_module job;
                    maintenance_hours :=
                      maintenance_hours agv
                      + (done_at - match start_time job with
                                   | Some s => s | None => 0 end)
                  |}
              | None => agv_fleet ts
              end
          | None => agv_fleet ts
          end in
        ({| transport_queue := transport_queue ts;
            active_transports := active_transports ts;
            completed_transports := (completed_transports ts ++ [job])%list;
            agv_fleet := fleet;
            conveyor_capacity := conveyor_capacity ts;
            conveyor_speed := conveyor_speed ts;
            conveyor_utilization :=
              if Py.ltb (quantity job) 100
              then Qmax 0 (conveyor_utilization ts
                           - quantity job / conveyor_capacity ts)
              else conveyor_utilization ts;
            module_locations := module_locations ts |},
         (snd acc ++ [jid])%list)
      else acc
  end.

Definition with_active (ts : TransportSystem) a : TransportSystem := {|
  transport_queue := transport_queue ts;
  active_transports := a;
  completed_transports := completed_transports ts;
  agv_fleet := agv_fleet ts;
  conveyor_capacity := conveyor_capacity ts;
  conveyor_speed := conveyor_speed ts;
  conveyor_utilization := conveyor_utilization ts;
  module_locations := module_locations ts
|}.

(** [TransportSystem.update_active_transports] *)
Definition update_active_transports (ts : TransportSystem) (current_time : Q)
  : TransportSystem :=
  let r := fold_left (fun acc e => complete_job acc current_time e)
                     (active_transports ts) (ts, []) in
  with_active (fst r)
    (fold_left (fun a jid => Dict.del a jid) (snd r) (active_transports (fst r))).

(** The three consecutive [if] statements of [maintain_agvs] for one
    vehicle. *)
Definition maintain_agv (agv : Agv) : Agv :=
  let with_status (a : Agv) s := {|
    status := s;
    battery_level := battery_level a;
    current_load := current_load a;
    max_load := max_load a;
    speed_mps := speed_mps a;
    location := location a;
    maintenance_hours := maintenance_hours a |} in
  let a1 :=
    if AgvStatus_eqb (status agv) idle && Py.ltb (battery_level agv) (3 # 10)
    then with_status agv charging else agv in
  let a2 :=
    if AgvStatus_eqb (status a1) charging then
      let lvl := Qmin 1 (battery_level a1 + (1 # 10)) in
      let charged := {|
        status := status a1;
        battery_level := lvl;
        current_load := current_load a1;
        max_load := max_load a1;
        speed_mps := speed_mps a1;
        location := location a1;
        maintenance_hours := maintenance_hours a1 |} in
      if Py.geb lvl (95 # 100) then with_status charged idle else charged
    else a1 in
  if Py.gtb (maintenance_hours a2) 100 then {|
    status := maintenance;
    battery_level := battery_level a2;
    current_load := current_load a2;
    max_load := max_load a2;
    speed_mps := speed_mps a2;
    location := location a2;
    maintenance_hours := 0 |}
  else a2.

(** [TransportSystem.maintain_agvs] *)
Definition maintain_agvs (ts : TransportSystem) (current_time : Q)
  : TransportSystem := {|
  transport_queue := transport_queue ts;
  active_transports := active_transports ts;
  completed_transports := completed_transports ts;
  agv_fleet := map (fun e => (fst e, maintain_agv (snd e))) (agv_fleet ts);
  conveyor_capacity := conveyor_capacity ts;
  conveyor_speed := conveyor_speed ts;
  conveyor_utilization := conveyor_utilization ts;
  module_locations := module_locations ts
|}.

(** The transport part of one simulation tick, in the order
    [Factory.simulate_step] calls it. *)
Definition tick (ts : TransportSystem) (current_time : Q) : TransportSystem :=
  maintain_agvs
    (update_active_transports (process_transport_queue ts current_time)
                              current_time)
    current_time.

End Transport.

(** ** Recipes and module specifications *)

Module Rcp.

Record Recipe := {
output : string;
output_quantity : Q;
inputs : list (string * Q);
energy_kwh : Q;
time_hours : Q;
required_module : option string;
parallel_capable : bool;
tolerance_um : option Q;
cleanroom_class : option Z;
software_required : option string;
waste_products : option (list (string * Q))
}.

End Rcp.

Module MSpec.

Record ModuleSpec := {
spec_module_type : string;
max_throughput : Q;
power_consumption_idle : Q;
power_consumption_active : Q;
mtbf_hours : Q;
maintenance_interval : Q;
degradation_rate : Q;
physical_footprint : Q;
max_batch_size : Q;
min_batch_size : Q;
setup_time : Q;
quality_base_rate : Q;
tolerance_capability : option Q;
cleanroom_capable : option Z
}.

End MSpec.

(** A Python float that may be [float('inf')]. *)
Inductive PyFloat := Fin (q : Q) | PosInf.

(** ** Module state *)

Module Mod.

Import MSpec.

Record ModuleState := {
  module_id : string;
  module_type : string;
  spec : option ModuleSpec;
  operating_hours : Q;
  cycles_completed : Z;
  time_since_maintenance : Q;
  current_efficiency : Q;
  is_failed : bool;
  is_in_maintenance : bool;
  maintenance_end_time : Q;
  current_task : option string;
  setup_end_time : Q;
  last_product_type : option string;
  software_version : option string;
  contamination_level : Q;
  temperature : Q
}.

(** [ModuleState(module_id=.., module_type=.., spec=..)] *)
Definition new (mid mtype : string) (sp : option ModuleSpec) : ModuleState := {|
  module_id := mid;
  module_type := mtype;
  spec := sp;
  operating_hours := 0;
  cycles_completed := 0;
  time_since_maintenance := 0;
  current_efficiency := 1;
  is_failed := false;
  is_in_maintenance := false;
  maintenance_end_time := 0;
  current_task := None;
  setup_end_time := 0;
  last_product_type := None;
  software_version := None;
  contamination_level := 0;
  temperature := 22
|}.

(** [ModuleState.get_effective_throughput] *)
Definition get_effective_throughput (m : ModuleState) : PyFloat :=
  if is_failed m || is_in_maintenance m then Fin 0
  else
    match spec m with
    | Some sp =>
        let base_throughput := max_throughput sp * current_efficiency m in
        let base_throughput :=
          if Py.gtb (Qabs (temperature m - 22)) 5
          then base_throughput * (1 - (1 # 100) * Qabs (temperature m - 22))
          else base_throughput in
        let base_throughput :=
          if Py.truthy_str (software_version m)
          then base_throughput * (95 # 100)
          else base_throughput in
        Fin base_throughput
    | None => PosInf
    end.

(** [ModuleState.get_power_consumption] *)
Definition get_power_consumption (m : ModuleState) : Q :=
  match spec m with
  | None => 0
  | Some sp =>
      if is_failed m then 0
      else if is_in_maintenance m then power_consumption_idle sp * (5 # 10)
      else if Py.truthy_str (current_task m) then power_consumption_active sp
      else power_consumption_idle sp
  end.

Inductive Condition := OPERATIONAL | FAILED | MAINTENANCE_REQUIRED.

Definition with_wear (m : ModuleState) (hours tsm eff : Q) (failed : bool)
  : ModuleState := {|
  module_id := module_id m;
  module_type := module_type m;
  spec := spec m;
  operating_hours := hours;
  cycles_completed := cycles_completed m;
  time_since_maintenance := tsm;
  current_efficiency := eff;
  is_failed := failed;
  is_in_maintenance := is_in_maintenance m;
  maintenance_end_time := maintenance_end_time m;
  current_task := current_task m;
  setup_end_time := setup_end_time m;
  last_product_type := last_product_type m;
  software_version := software_version m;
  contamination_level := contamination_level m;
  temperature := temperature m
|}.

(** [hours_operated / self.spec.mtbf_hours] in [update_condition]
    divides by zero: the method raises [ZeroDivisionError] instead of
    returning a condition. *)
Definition update_condition_raises (m : ModuleState) (cfg : Config) : bool :=
  enable_degradation cfg
  && negb (is_failed m)
  && match spec m with
     | Some sp => Qeq_bool (mtbf_hours sp) 0
     | None => false
     end.

(** The module as that exception leaves it: the two hour counters
    were increased before the division. *)
Definition add_hours (m : ModuleState) (hours_operated : Q) : ModuleState :=
  with_wear m (operating_hours m + hours_operated)
            (time_since_maintenance m + hours_operated)
            (current_efficiency m) (is_failed m).

(** [ModuleState.update_condition] where it returns (see
    [update_condition_raises] for where it does not): the state, the
    returned condition and the count of random draws. *)
Definition update_condition (orc : Oracles) (m : ModuleState) (draws : nat)
           (hours_operated : Q) (cfg : Config)
  : ModuleState * Condition * nat :=
  if negb (enable_degradation cfg) then (m, OPERATIONAL, draws)
  else
    let hours := operating_hours m + hours_operated in
    let tsm := time_since_maintenance m + hours_operated in
    let m1 := with_wear m hours tsm (current_efficiency m) (is_failed m) in
    match spec m with
    | None => (m1, OPERATIONAL, draws)
    | Some sp =>
        let degrade (d : nat) :=
          let degradation := degradation_rate sp * (hours_operated / 1000) in
          let eff := Qmax (3 # 10) (current_efficiency m * (1 - degradation)) in
          let m2 := with_wear m hours tsm eff (is_failed m) in
          if enable_maintenance cfg && Py.geb tsm (maintenance_interval sp)
          then (m2, MAINTENANCE_REQUIRED, d)
          else (m2, OPERATIONAL, d) in
        if negb (is_failed m) then
          let failure_probability := hours_operated / mtbf_hours sp in
          if Py.ltb (random_random orc draws) failure_probability
          then (with_wear m hours tsm (current_efficiency m) true, FAILED, S draws)
          else degrade (S draws)
        else degrade draws
    end.

Definition with_task (m : ModuleState) (t : option string) (setup_end : Q)
  : ModuleState := {|
  module_id := module_id m;
  module_type := module_type m;
  spec := spec m;
  operating_hours := operating_hours m;
  cycles_completed := cycles_completed m;
  time_since_maintenance := time_since_maintenance m;
  current_efficiency := current_efficiency m;
  is_failed := is_failed m;
  is_in_maintenance := is_in_maintenance m;
  maintenance_end_time := maintenance_end_time m;
  current_task := t;
  setup_end_time := setup_end;
  last_product_type := last_product_type m;
  software_version := software_version m;
  contamination_level := contamination_level m;
  temperature := temperature m
|}.

Definition with_last_product (m : ModuleState) (p : option string)
  : ModuleState := {|
  module_id := module_id m;
  module_type := module_type m;
  spec := spec m;
  operating_hours := operating_hours m;
  cycles_completed := cycles_completed m;
  time_since_maintenance := time_since_maintenance m;
  current_efficiency := current_efficiency m;
  is_failed := is_failed m;
  is_in_maintenance := is_in_maintenance m;
  maintenance_end_time := maintenance_end_time m;
  current_task := current_task m;
  setup_end_time := setup_end_time m;
  last_product_type := p;
  software_version := software_version m;
  contamination_level := contamination_level m;
  temperature := temperature m
|}.

Definition with_failed (m : ModuleState) (b : bool) : ModuleState :=
  with_wear m (operating_hours m) (time_since_maintenance m)
            (current_efficiency m) b.

Definition with_maintenance (m : ModuleState) (on : bool) (until tsm eff : Q)
  : ModuleState := {|
  module_id := module_id m;
  module_type := module_type m;
  spec := spec m;
  operating_hours := operating_hours m;
  cycles_completed := cycles_completed m;
  time_since_maintenance := tsm;
  current_efficiency := eff;
  is_failed := is_failed m;
  is_in_maintenance := on;
  maintenance_end_time := until;
  current_task := current_task m;
  setup_end_time := setup_end_time m;
  last_product_type := last_product_type m;
  software_version := software_version m;
  contamination_level := contamination_level m;
  temperature := temperature m
|}.

End Mod.

(** ** Storage *)

Module Storage.

Record StorageSystem := {
  total_volume_m3 : Q;
  total_weight_capacity_tons : Q;
  current_inventory : gmap string Q;
  waste_inventory : gmap string Q;
  enabled : bool;
  temperature_controlled : bool;
  contamination_controlled : bool
}.

(** [StorageSystem.MATERIAL_PROPERTIES]: density, storage temperature,
    sensitivity to contamination. *)
Definition MATERIAL_PROPERTIES : list (string * (Q * Q * Q)) :=
  [("silicon_ore", (23 # 10, 25, 1 # 10));
   ("iron_ore", (4, 25, 1 # 10));
   ("silicon_wafer", (23 # 10, 22, 1));
   ("integrated_circuit", (2 # 10, 22, 1));
   ("chemical_pump", (5, 25, 3 # 10));
   ("lithium_compound", (15 # 10, 20, 8 # 10));
   ("sulfuric_acid", (18 # 10, 15, 5 # 10));
   ("organic_solvent", (8 # 10, 10, 6 # 10))].

(** [StorageSystem.get_material_properties] *)
Definition get_material_properties (resource : string) : Q * Q * Q :=
  match Dict.get MATERIAL_PROPERTIES resource with
  | Some p => p
  | None => (1, 25, 5 # 10)
  end.

Definition density (resource : string) : Q :=
  fst (fst (get_material_properties resource)).
Definition storage_temp (resource : string) : Q :=
  snd (fst (get_material_properties resource)).

(** [StorageSystem.can_store] *)
Definition can_store (s : StorageSystem) (resource : string) (quantity : Q)
  : bool * string :=
  if negb (enabled s) then (true, "OK")
  else
    let req_temp := storage_temp resource in
    let volume_needed := quantity / density resource in
    let current_volume :=
      map_fold (fun r q acc => acc + q / density r) 0 (current_inventory s) in
    let current_weight :=
      map_fold (fun _ q acc => acc + q) 0 (current_inventory s) in
    if Py.gtb (current_volume + volume_needed) (total_volume_m3 s)
    then (false, "VOLUME_EXCEEDED")
    else if Py.gtb (current_weight + quantity) (total_weight_capacity_tons s)
    then (false, "WEIGHT_EXCEEDED")
    else if temperature_controlled s
            && existsb (fun rq => Py.gtb (Qabs (storage_temp (fst rq) - req_temp)) 10)
                       (map_to_list (current_inventory s))
    then (false, "TEMPERATURE_INCOMPATIBLE")
    else (true, "OK").

Definition with_inventory (s : StorageSystem) (inv : gmap string Q)
  : StorageSystem := {|
  total_volume_m3 := total_volume_m3 s;
  total_weight_capacity_tons := total_weight_capacity_tons s;
  current_inventory := inv;
  waste_inventory := waste_inventory s;
  enabled := enabled s;
  temperature_controlled := temperature_controlled s;
  contamination_controlled := contamination_controlled s
|}.

(** [StorageSystem.add_resource] *)
Definition add_resource (s : StorageSystem) (resource : string) (quantity : Q)
  : StorageSystem * bool :=
  if fst (can_store s resource quantity) then
    (with_inventory s
       (<[resource := default 0 (current_inventory s !! resource) + quantity]>
          (current_inventory s)),
     true)
  else (s, false).

(** [StorageSystem(total_volume_m3=.., total_weight_capacity_tons=..,
    enabled=..)] *)
Definition new (vol weight : Q) (en : bool) : StorageSystem := {|
  total_volume_m3 := vol;
  total_weight_capacity_tons := weight;
  current_inventory := ∅;
  waste_inventory := ∅;
  enabled := en;
  temperature_controlled := true;
  contamination_controlled := true
|}.

End Storage.

(** ** Waste stream *)

Module Waste.

Record WasteStream := {
  waste_inventory : gmap string Q;
  recyclable_materials : list (string * Q)
}.

(** [WasteStream.__init__] *)
Definition init : WasteStream := {|
  waste_inventory := ∅;
  recyclable_materials :=
    [("steel", 95 # 100); ("aluminum_sheet", 90 # 100);
     ("copper_wire", 85 # 100); ("plastic", 60 # 100);
     ("glass", 80 # 100); ("silicon_wafer", 70 # 100)]
|}.

(** [WasteStream.add_waste]; the inventory is a [defaultdict(float)]. *)
Definition add_waste (w : WasteStream) (waste_type : string) (quantity : Q)
  : WasteStream := {|
  waste_inventory :=
    <[waste_type := default 0 (waste_inventory w !! waste_type) + quantity]>
      (waste_inventory w);
  recyclable_materials := recyclable_materials w
|}.

(** [WasteStream.process_recycling]: the stream after the call and the
    recovered amount. *)
Definition process_recycling (w : WasteStream) (waste_type : string) (quantity : Q)
  : WasteStream * Q :=
  match Dict.get (recyclable_materials w) waste_type with
  | None => (w, 0)
  | Some recovery_rate =>
      let available := Qmin quantity (default 0 (waste_inventory w !! waste_type)) in
      let recovered := available * recovery_rate in
      ({| waste_inventory :=
            <[waste_type := default 0 (waste_inventory w !! waste_type) - available]>
              (waste_inventory w);
          recyclable_materials := recyclable_materials w |},
       recovered)
  end.

(** [WasteStream.get_total_waste] *)
Definition get_total_waste (w : WasteStream) : Q :=
  map_fold (fun _ q acc => acc + q) 0 (waste_inventory w).

End Waste.

(** ** Cleanroom contamination *)

Module CleanRoom.

Record CleanRoomEnvironment := {
  cleanroom_class : Z;
  particle_count : Q;
  time_since_cleaning : Q
}.

(** [CleanRoomEnvironment._get_base_particles] *)
Definition _get_base_particles (c : Z) : Q :=
  if Z.eqb c 1 then 352 # 10
  else if Z.eqb c 10 then 352
  else if Z.eqb c 100 then 3520
  else if Z.eqb c 1000 then 35200
  else if Z.eqb c 10000 then 352000
  else 3520000.

(** [CleanRoomEnvironment.__init__] *)
Definition new (c : Z) : CleanRoomEnvironment := {|
  cleanroom_class := c;
  particle_count := _get_base_particles c;
  time_since_cleaning := 0
|}.

(** [CleanRoomEnvironment.update_contamination] *)
Definition update_contamination (orc : Oracles) (c : CleanRoomEnvironment)
           (activity_level time_hours : Q) : CleanRoomEnvironment :=
  let contamination_rate := activity_level * 100 in
  {| cleanroom_class := cleanroom_class c;
     particle_count :=
       (particle_count c + contamination_rate * time_hours)
       * float_pow orc (1001 # 1000) time_hours;
     time_since_cleaning := time_since_cleaning c + time_hours |}.

(** [CleanRoomEnvironment.calculate_yield_impact] *)
Definition calculate_yield_impact (c : CleanRoomEnvironment)
           (process_sensitivity : Q) : Q :=
  let base_impact := particle_count c / 1000000 in
  let yield_reduction := base_impact * process_sensitivity in
  Qmax 0 (1 - yield_reduction).

(** [CleanRoomEnvironment.perform_cleaning] *)
Definition perform_cleaning (c : CleanRoomEnvironment) : CleanRoomEnvironment := {|
  cleanroom_class := cleanroom_class c;
  particle_count := _get_base_particles (cleanroom_class c);
  time_since_cleaning := 0
|}.

End CleanRoom.

(** ** Thermal management *)

Module Thermal.

Record ThermalManagementSystem := {
  config : Config;
  ambient_temp : Q;
  total_heat_generation : Q;
  cooling_capacity : Q;
  chiller_efficiency : Q
}.

(** [ThermalManagementSystem.__init__] *)
Definition init (cfg : Config) : ThermalManagementSystem := {|
  config := cfg;
  ambient_temp := ambient_temperature cfg;
  total_heat_generation := 0;
  cooling_capacity := 10000;
  chiller_efficiency := 35 # 10
|}.

(** [ThermalManagementSystem.calculate_module_heat] *)
Definition calculate_module_heat (module_states : list (string * Mod.ModuleState)) : Q :=
  fold_left
    (fun total_heat e =>
       match Mod.spec (snd e) with
       | Some _ => total_heat + Mod.get_power_consumption (snd e) * (8 # 10)
       | None => total_heat
       end)
    module_states 0.

(** [ThermalManagementSystem.calculate_cooling_requirement] *)
Definition calculate_cooling_requirement (t : ThermalManagementSystem)
           (heat_generation : Q) : Q :=
  let building_area := factory_area_m2 (config t) in
  let solar_heat_gain := building_area * (1 # 10) in
  let total_heat := heat_generation + solar_heat_gain in
  let target_temp := 22 in
  let temp_diff := ambient_temp t - target_temp in
  let cop := chiller_efficiency t - (5 # 100) * Qabs temp_diff in
  let cop := Qmax (15 # 10) cop in
  total_heat / cop.

(** [ThermalManagementSystem.check_thermal_constraints] *)
Definition check_thermal_constraints (t : ThermalManagementSystem)
           (heat_generation : Q) : bool :=
  Py.leb (calculate_cooling_requirement t heat_generation) (cooling_capacity t).

End Thermal.

(** ** Software production *)

Module Software.

Record SoftwarePackage := {
  type : string;
  version : string;
  bug_rate : Q;
  lines_of_code : Q;
  compatible_modules : list string
}.

Record SoftwareProductionSystem := {
  software_library : list (string * SoftwarePackage);
  development_hours : gmap string Q;
  bug_rates : list (string * Q);
  version_counter : gmap string nat
}.

(** [SoftwareProductionSystem.__init__] *)
Definition init : SoftwareProductionSystem := {|
  software_library := [];
  development_hours := ∅;
  bug_rates :=
    [("plc_program", 5 # 100); ("robot_firmware", 8 # 100);
     ("ai_model", 15 # 100); ("scada_system", 10 # 100)];
  version_counter := ∅
|}.

(** [SoftwareProductionSystem._get_compatible_modules] *)
Definition _get_compatible_modules (software_type : string) : list string :=
  if String.eqb software_type "plc_program"
  then ["mining"; "refining"; "chemical"; "mechanical"]
  else if String.eqb software_type "robot_firmware"
  then ["cnc"; "laser"; "assembly"; "testing"]
  else if String.eqb software_type "ai_model"
  then ["transport"; "recycling"; "software"]
  else if String.eqb software_type "scada_system"
  then ["cleanroom"; "thermal"; "power"; "control"]
  else [].

Definition decimal (n : nat) : string := NilEmpty.string_of_uint (Nat.to_uint n).

(** [SoftwareProductionSystem.develop_software] *)
Definition develop_software (s : SoftwareProductionSystem)
           (software_type : string) (dev_hours : Q)
  : SoftwareProductionSystem * SoftwarePackage :=
  let hours := default 0 (development_hours s !! software_type) + dev_hours in
  let count := S (default O (version_counter s !! software_type)) in
  let ver := "v" ++ decimal count ++ ".0" in
  let base_bug_rate :=
    match Dict.get (bug_rates s) software_type with
    | Some r => r | None => 1 # 10 end in
  let experience_factor := Qmax (5 # 10) (1 - hours / 1000) in
  let actual_bug_rate := base_bug_rate * experience_factor in
  let bugs_after_testing := actual_bug_rate * (1 # 10) in
  let software_package := {|
    type := software_type;
    version := ver;
    bug_rate := bugs_after_testing;
    lines_of_code := dev_hours * 50;
    compatible_modules := _get_compatible_modules software_type
  |} in
  ({| software_library :=
        Dict.set (software_library s) (software_type ++ "_" ++ ver) software_package;
      development_hours := <[software_type := hours]> (development_hours s);
      bug_rates := bug_rates s;
      version_counter := <[software_type := count]> (version_counter s) |},
   software_package).

(** [SoftwareProductionSystem.calculate_software_reliability]. Reading
    [version_counter] (a [defaultdict]) leaves a zero entry behind,
    which no method distinguishes from a missing one. *)
Definition calculate_software_reliability (s : SoftwareProductionSystem)
           (software_type : string) : Q :=
  if negb (Dict.mem (bug_rates s) software_type) then 1
  else
    let latest_version :=
      software_type ++ "_v"
      ++ decimal (default O (version_counter s !! software_type)) ++ ".0" in
    match Dict.get (software_library s) latest_version with
    | Some package => 1 - bug_rate package
    | None => 95 # 100
    end.

(** [software_type not in self.software_library] as written in
    [Factory.create_production_task]: the left operand is a
    [ResourceType] member and the keys of the library are [str], so no
    key ever equals it. *)
Definition resource_in_library (s : SoftwareProductionSystem)
           (software_type : string) : bool := false.

End Software.

(** ** Tasks *)

Module Tk.

Inductive Status :=
| queued
| active
| blocked_dependencies
| blocked_module
| blocked_constraints
| blocked_thermal
| blocked_energy
| blocked_resources
| completed.

Definition Status_eqb (a b : Status) : bool :=
  match a, b with
  | queued, queued | active, active
  | blocked_dependencies, blocked_dependencies
  | blocked_module, blocked_module
  | blocked_constraints, blocked_constraints
  | blocked_thermal, blocked_thermal
  | blocked_energy, blocked_energy
  | blocked_resources, blocked_resources
  | completed, completed => true
  | _, _ => false
  end.

Record Task := {
  task_id : string;
  priority : Z;
  output : string;
  quantity : Q;
  recipe : Rcp.Recipe;
  dependencies : gset string;
  status : Status;
  assigned_module : option string;
  transport_jobs : list string;
  batch_size : Q;
  setup_time : Q;
  process_time : Q;
  quality_yield : Q;
  contamination_impact : Q;
  tolerance_achieved : option Q;
  start_time : option Q;
  completion_time : Q;
  actual_output : Q;
  waste_generated : list (string * Q);
  energy_consumed : Q;
  software_reliability : Q
}.

(** [Task(task_id=.., priority=.., output=.., quantity=.., recipe=..)] *)
Definition new (tid : string) (prio : Z) (out : string) (qty : Q)
           (r : Rcp.Recipe) : Task := {|
  task_id := tid;
  priority := prio;
  output := out;
  quantity := qty;
  recipe := r;
  dependencies := ∅;
  status := queued;
  assigned_module := None;
  transport_jobs := [];
  batch_size := 0;
  setup_time := 0;
  process_time := 0;
  quality_yield := 95 # 100;
  contamination_impact := 1;
  tolerance_achieved := None;
  start_time := None;
  completion_time := 0;
  actual_output := 0;
  waste_generated := [];
  energy_consumed := 0;
  software_reliability := 1
|}.

Definition with_dependencies (t : Task) (d : gset string) : Task := {|
  task_id := task_id t; priority := priority t; output := output t;
  quantity := quantity t; recipe := recipe t;
  dependencies := d;
  status := status t; assigned_module := assigned_module t;
  transport_jobs := transport_jobs t; batch_size := batch_size t;
  setup_time := setup_time t; process_time := process_time t;
  quality_yield := quality_yield t;
  contamination_impact := contamination_impact t;
  tolerance_achieved := tolerance_achieved t; start_time := start_time t;
  completion_time := completion_time t; actual_output := actual_output t;
  waste_generated := waste_generated t; energy_consumed := energy_consumed t;
  software_reliability := software_reliability t
|}.

Definition with_status (t : Task) (s : Status) : Task := {|
  task_id := task_id t; priority := priority t; output := output t;
  quantity := quantity t; recipe := recipe t;
  dependencies := dependencies t;
  status := s; assigned_module := assigned_module t;
  transport_jobs := transport_jobs t; batch_size := batch_size t;
  setup_time := setup_time t; process_time := process_time t;
  quality_yield := quality_yield t;
  contamination_impact := contamination_impact t;
  tolerance_achieved := tolerance_achieved t; start_time := start_time t;
  completion_time := completion_time t; actual_output := actual_output t;
  waste_generated := waste_generated t; energy_consumed := energy_consumed t;
  software_reliability := software_reliability t
|}.

Definition with_contamination_impact (t : Task) (c : Q) : Task := {|
  task_id := task_id t; priority := priority t; output := output t;
  quantity := quantity t; recipe := recipe t;
  dependencies := dependencies t;
  status := status t; assigned_module := assigned_module t;
  transport_jobs := transport_jobs t; batch_size := batch_size t;
  setup_time := setup_time t; process_time := process_time t;
  quality_yield := quality_yield t;
  contamination_impact := c;
  tolerance_achieved := tolerance_achieved t; start_time := start_time t;
  completion_time := completion_time t; actual_output := actual_output t;
  waste_generated := waste_generated t; energy_consumed := energy_consumed t;
  software_reliability := software_reliability t
|}.

Definition with_software_reliability (t : Task) (r : Q) : Task := {|
  task_id := task_id t; priority := priority t; output := output t;
  quantity := quantity t; recipe := recipe t;
  dependencies := dependencies t;
  status := status t; assigned_module := assigned_module t;
  transport_jobs := transport_jobs t; batch_size := batch_size t;
  setup_time := setup_time t; process_time := process_time t;
  quality_yield := quality_yield t;
  contamination_impact := contamination_impact t;
  tolerance_achieved := tolerance_achieved t; start_time := start_time t;
  completion_time := completion_time t; actual_output := actual_output t;
  waste_generated := waste_generated t; energy_consumed := energy_consumed t;
  software_reliability := r
|}.

Definition with_transport_jobs (t : Task) (j : list string) : Task := {|
  task_id := task_id t; priority := priority t; output := output t;
  quantity := quantity t; recipe := recipe t;
  dependencies := dependencies t;
  status := status t; assigned_module := assigned_module t;
  transport_jobs := j; batch_size := batch_size t;
  setup_time := setup_time t; process_time := process_time t;
  quality_yield := quality_yield t;
  contamination_impact := contamination_impact t;
  tolerance_achieved := tolerance_achieved t; start_time := start_time t;
  completion_time := completion_time t; actual_output := actual_output t;
  waste_generated := waste_generated t; energy_consumed := energy_consumed t;
  software_reliability := software_reliability t
|}.

End Tk.

(** ** The factory *)

Module Fac.

(** What [Factory.log] is called with: the message template and the
    values formatted into it. *)
Inductive LogMsg :=
| NoRecipeFound (output : string)
| CannotStore (quantity : Q) (output reason : string)
| CreatedTask (task_id : string) (quantity : Q) (output : string)
| BlockedNoModule (task_id required_module : string)
| CannotAchieveTolerance (module_id : string) (tolerance_um : Q)
| CleanroomInsufficient (module_id : string) (cleanroom_class : Z)
| BlockedThermalExceeded (task_id : string)
| BlockedInsufficientEnergy (task_id : string)
| BlockedNeeds (task_id : string) (required : Q) (input : string)
| StartedTask (task_id module_id : string) (eta : Q)
| CompletedTask (task_id : string) (actual_output : Q) (output : string)
| NewModuleCreated (module_id : string)
| SoftwareDeveloped (output version : string)
| OutputRejected (task_id : string)
| ModuleHasFailed (module_id : string)
| EnteringMaintenance (module_id : string) (until : Q)
| MaintenanceCompleted (module_id : string)
| CleanroomCleaned
| InitializedModule (module_id : string).

Record LogEntry := {
  timestamp : Q;
  level : string;
  message : LogMsg;
  thermal_load : Q;
  waste_total : Q
}.

(** One sample per call of [collect_metrics] that passes the hourly
    guard: the value appended to each list of [self.metrics]. *)
Record MetricSample := {
  m_time : Q;
  m_energy_generated : Q;
  m_battery_charge : Q;
  m_storage_utilization : Q;
  m_waste_generated : Q;
  m_transport_jobs : nat;
  m_software_bugs : Q;
  m_thermal_load : Q;
  m_contamination : Q;
  m_module_efficiency : Q;
  m_tasks_completed : nat;
  m_active_tasks : nat;
  m_blocked_tasks : nat;
  m_modules : nat
}.

(** The state of a [Factory]; [draws] counts the random draws made so
    far. *)
Record Factory := {
  config : Config;
  time : Q;
  task_counter : nat;
  log_entries : list LogEntry;
  module_states : list (string * Mod.ModuleState);
  transport_system : Transport.TransportSystem;
  waste_stream : Waste.WasteStream;
  software_system : Software.SoftwareProductionSystem;
  thermal_system : Thermal.ThermalManagementSystem;
  cleanroom_environments : list (string * CleanRoom.CleanRoomEnvironment);
  storage : Storage.StorageSystem;
  energy_system : Energy.EnergySystem;
  task_queue : list (Z * string * Tk.Task);
  active_tasks : list (string * Tk.Task);
  completed_tasks : list Tk.Task;
  completed_task_ids : gset string;
  blocked_tasks : list (string * Tk.Task);
  last_metric_time : Q;
  metrics : list MetricSample;
  draws : nat
}.

Definition with_time (f : Factory) (v : Q) : Factory := {|
  config := config f;
  time := v;
  task_counter := task_counter f;
  log_entries := log_entries f;
  module_states := module_states f;
  transport_system := transport_system f;
  waste_stream := waste_stream f;
  software_system := software_system f;
  thermal_system := thermal_system f;
  cleanroom_environments := cleanroom_environments f;
  storage := storage f;
  energy_system := energy_system f;
  task_queue := task_queue f;
  active_tasks := active_tasks f;
  completed_tasks := completed_tasks f;
  completed_task_ids := completed_task_ids f;
  blocked_tasks := blocked_tasks f;
  last_metric_time := last_metric_time f;
  metrics := metrics f;
  draws := draws f
|}.

Definition with_task_counter (f : Factory) (v : nat) : Factory := {|
  config := config f;
  time := time f;
  task_counter := v;
  log_entries := log_entries f;
  module_states := module_states f;
  transport_system := transport_system f;
  waste_stream := waste_stream f;
  software_system := software_system f;
  thermal_system := thermal_system f;
  cleanroom_environments := cleanroom_environments f;
  storage := storage f;
  energy_system := energy_system f;
  task_queue := task_queue f;
  active_tasks := active_tasks f;
  completed_tasks := completed_tasks f;
  completed_task_ids := completed_task_ids f;
  blocked_tasks := blocked_tasks f;
  last_metric_time := last_metric_time f;
  metrics := metrics f;
  draws := draws f
|}.

Definition with_log_entries (f : Factory) (v : list LogEntry) : Factory := {|
  config := config f;
  time := time f;
  task_counter := task_counter f;
  log_entries := v;
  module_states := module_states f;
  transport_system := transport_system f;
  waste_stream := waste_stream f;
  software_system := software_system f;
  thermal_system := thermal_system f;
  cleanroom_environments := cleanroom_environments f;
  storage := storage f;
  energy_system := energy_system f;
  task_queue := task_queue f;
  active_tasks := active_tasks f;
  completed_tasks := completed_tasks f;
  completed_task_ids := completed_task_ids f;
  blocked_tasks := blocked_tasks f;
  last_metric_time := last_metric_time f;
  metrics := metrics f;
  draws := draws f
|}.

Definition with_module_states (f : Factory) (v : list (string * Mod.ModuleState)) : Factory := {|
  config := config f;
  time := time f;
  task_counter := task_counter f;
  log_entries := log_entries f;
  module_states := v;
  transport_system := transport_system f;
  waste_stream := waste_stream f;
  software_system := software_system f;
  thermal_system := thermal_system f;
  cleanroom_environments := cleanroom_environments f;
  storage := storage f;
  energy_system := energy_system f;
  task_queue := task_queue f;
  active_tasks := active_tasks f;
  completed_tasks := completed_tasks f;
  completed_task_ids := completed_task_ids f;
  blocked_tasks := blocked_tasks f;
  last_metric_time := last_metric_time f;
  metrics := metrics f;
  draws := draws f
|}.

Definition with_transport_system (f : Factory) (v : Transport.TransportSystem) : Factory := {|
  config := config f;
  time := time f;
  task_counter := task_counter f;
  log_entries := log_entries f;
  module_states := module_states f;
  transport_system := v;
  waste_stream := waste_stream f;
  software_system := software_system f;
  thermal_system := thermal_system f;
  cleanroom_environments := cleanroom_environments f;
  storage := storage f;
  energy_system := energy_system f;
  task_queue := task_queue f;
  active_tasks := active_tasks f;
  completed_tasks := completed_tasks f;
  completed_task_ids := completed_task_ids f;
  blocked_tasks := blocked_tasks f;
  last_metric_time := last_metric_time f;
  metrics := metrics f;
  draws := draws f
|}.

Definition with_waste_stream (f : Factory) (v : Waste.WasteStream) : Factory := {|
  config := config f;
  time := time f;
  task_counter := task_counter f;
  log_entries := log_entries f;
  module_states := module_states f;
  transport_system := transport_system f;
  waste_stream := v;
  software_system := software_system f;
  thermal_system := thermal_system f;
  cleanroom_environments := cleanroom_environments f;
  storage := storage f;
  energy_system := energy_system f;
  task_queue := task_queue f;
  active_tasks := active_tasks f;
  completed_tasks := completed_tasks f;
  completed_task_ids := completed_task_ids f;
  blocked_tasks := blocked_tasks f;
  last_metric_time := last_metric_time f;
  metrics := metrics f;
  draws := draws f
|}.

Definition with_software_system (f : Factory) (v : Software.SoftwareProductionSystem) : Factory := {|
  config := config f;
  time := time f;
  task_counter := task_counter f;
  log_entries := log_entries f;
  module_states := module_states f;
  transport_system := transport_system f;
  waste_stream := waste_stream f;
  software_system := v;
  thermal_system := thermal_system f;
  cleanroom_environments := cleanroom_environments f;
  storage := storage f;
  energy_system := energy_system f;
  task_queue := task_queue f;
  active_tasks := active_tasks f;
  completed_tasks := completed_tasks f;
  completed_task_ids := completed_task_ids f;
  blocked_tasks := blocked_tasks f;
  last_metric_time := last_metric_time f;
  metrics := metrics f;
  draws := draws f
|}.

Definition with_cleanroom_environments (f : Factory) (v : list (string * CleanRoom.CleanRoomEnvironment)) : Factory := {|
  config := config f;
  time := time f;
  task_counter := task_counter f;
  log_entries := log_entries f;
  module_states := module_states f;
  transport_system := transport_system f;
  waste_stream := waste_stream f;
  software_system := software_system f;
  thermal_system := thermal_system f;
  cleanroom_environments := v;
  storage := storage f;
  energy_system := energy_system f;
  task_queue := task_queue f;
  active_tasks := active_tasks f;
  completed_tasks := completed_tasks f;
  completed_task_ids := completed_task_ids f;
  blocked_tasks := blocked_tasks f;
  last_metric_time := last_metric_time f;
  metrics := metrics f;
  draws := draws f
|}.

Definition with_storage (f : Factory) (v : Storage.StorageSystem) : Factory := {|
  config := config f;
  time := time f;
  task_counter := task_counter f;
  log_entries := log_entries f;
  module_states := module_states f;
  transport_system := transport_system f;
  waste_stream := waste_stream f;
  software_system := software_system f;
  thermal_system := thermal_system f;
  cleanroom_environments := cleanroom_environments f;
  storage := v;
  energy_system := energy_system f;
  task_queue := task_queue f;
  active_tasks := active_tasks f;
  completed_tasks := completed_tasks f;
  completed_task_ids := completed_task_ids f;
  blocked_tasks := blocked_tasks f;
  last_metric_time := last_metric_time f;
  metrics := metrics f;
  draws := draws f
|}.

Definition with_energy_system (f : Factory) (v : Energy.EnergySystem) : Factory := {|
  config := config f;
  time := time f;
  task_counter := task_counter f;
  log_entries := log_entries f;
  module_states := module_states f;
  transport_system := transport_system f;
  waste_stream := waste_stream f;
  software_system := software_system f;
  thermal_system := thermal_system f;
  cleanroom_environments := cleanroom_environments f;
  storage := storage f;
  energy_system := v;
  task_queue := task_queue f;
  active_tasks := active_tasks f;
  completed_tasks := completed_tasks f;
  completed_task_ids := completed_task_ids f;
  blocked_tasks := blocked_tasks f;
  last_metric_time := last_metric_time f;
  metrics := metrics f;
  draws := draws f
|}.

Definition with_task_queue (f : Factory) (v : list (Z * string * Tk.Task)) : Factory := {|
  config := config f;
  time := time f;
  task_counter := task_counter f;
  log_entries := log_entries f;
  module_states := module_states f;
  transport_system := transport_system f;
  waste_stream := waste_stream f;
  software_system := software_system f;
  thermal_system := thermal_system f;
  cleanroom_environments := cleanroom_environments f;
  storage := storage f;
  energy_system := energy_system f;
  task_queue := v;
  active_tasks := active_tasks f;
  completed_tasks := completed_tasks f;
  completed_task_ids := completed_task_ids f;
  blocked_tasks := blocked_tasks f;
  last_metric_time := last_metric_time f;
  metrics := metrics f;
  draws := draws f
|}.

Definition with_active_tasks (f : Factory) (v : list (string * Tk.Task)) : Factory := {|
  config := config f;
  time := time f;
  task_counter := task_counter f;
  log_entries := log_entries f;
  module_states := module_states f;
  transport_system := transport_system f;
  waste_stream := waste_stream f;
  software_system := software_system f;
  thermal_system := thermal_system f;
  cleanroom_environments := cleanroom_environments f;
  storage := storage f;
  energy_system := energy_system f;
  task_queue := task_queue f;
  active_tasks := v;
  completed_tasks := completed_tasks f;
  completed_task_ids := completed_task_ids f;
  blocked_tasks := blocked_tasks f;
  last_metric_time := last_metric_time f;
  metrics := metrics f;
  draws := draws f
|}.

Definition with_completed_tasks (f : Factory) (v : list Tk.Task) : Factory := {|
  config := config f;
  time := time f;
  task_counter := task_counter f;
  log_entries := log_entries f;
  module_states := module_states f;
  transport_system := transport_system f;
  waste_stream := waste_stream f;
  software_system := software_system f;
  thermal_system := thermal_system f;
  cleanroom_environments := cleanroom_environments f;
  storage := storage f;
  energy_system := energy_system f;
  task_queue := task_queue f;
  active_tasks := active_tasks f;
  completed_tasks := v;
  completed_task_ids := completed_task_ids f;
  blocked_tasks := blocked_tasks f;
  last_metric_time := last_metric_time f;
  metrics := metrics f;
  draws := draws f
|}.

Definition with_completed_task_ids (f : Factory) (v : gset string) : Factory := {|
  config := config f;
  time := time f;
  task_counter := task_counter f;
  log_entries := log_entries f;
  module_states := module_states f;
  transport_system := transport_system f;
  waste_stream := waste_stream f;
  software_system := software_system f;
  thermal_system := thermal_system f;
  cleanroom_environments := cleanroom_environments f;
  storage := storage f;
  energy_system := energy_system f;
  task_queue := task_queue f;
  active_tasks := active_tasks f;
  completed_tasks := completed_tasks f;
  completed_task_ids := v;
  blocked_tasks := blocked_tasks f;
  last_metric_time := last_metric_time f;
  metrics := metrics f;
  draws := draws f
|}.

Definition with_blocked_tasks (f : Factory) (v : list (string * Tk.Task)) : Factory := {|
  config := config f;
  time := time f;
  task_counter := task_counter f;
  log_entries := log_entries f;
  module_states := module_states f;
  transport_system := transport_system f;
  waste_stream := waste_stream f;
  software_system := software_system f;
  thermal_system := thermal_system f;
  cleanroom_environments := cleanroom_environments f;
  storage := storage f;
  energy_system := energy_system f;
  task_queue := task_queue f;
  active_tasks := active_tasks f;
  completed_tasks := completed_tasks f;
  completed_task_ids := completed_task_ids f;
  blocked_tasks := v;
  last_metric_time := last_metric_time f;
  metrics := metrics f;
  draws := draws f
|}.

Definition with_last_metric_time (f : Factory) (v : Q) : Factory := {|
  config := config f;
  time := time f;
  task_counter := task_counter f;
  log_entries := log_entries f;
  module_states := module_states f;
  transport_system := transport_system f;
  waste_stream := waste_stream f;
  software_system := software_system f;
  thermal_system := thermal_system f;
  cleanroom_environments := cleanroom_environments f;
  storage := storage f;
  energy_system := energy_system f;
  task_queue := task_queue f;
  active_tasks := active_tasks f;
  completed_tasks := completed_tasks f;
  completed_task_ids := completed_task_ids f;
  blocked_tasks := blocked_tasks f;
  last_metric_time := v;
  metrics := metrics f;
  draws := draws f
|}.

Definition with_metrics (f : Factory) (v : list MetricSample) : Factory := {|
  config := config f;
  time := time f;
  task_counter := task_counter f;
  log_entries := log_entries f;
  module_states := module_states f;
  transport_system := transport_system f;
  waste_stream := waste_stream f;
  software_system := software_system f;
  thermal_system := thermal_system f;
  cleanroom_environments := cleanroom_environments f;
  storage := storage f;
  energy_system := energy_system f;
  task_queue := task_queue f;
  active_tasks := active_tasks f;
  completed_tasks := completed_tasks f;
  completed_task_ids := completed_task_ids f;
  blocked_tasks := blocked_tasks f;
  last_metric_time := last_metric_time f;
  metrics := v;
  draws := draws f
|}.

Definition with_draws (f : Factory) (v : nat) : Factory := {|
  config := config f;
  time := time f;
  task_counter := task_counter f;
  log_entries := log_entries f;
  module_states := module_states f;
  transport_system := transport_system f;
  waste_stream := waste_stream f;
  software_system := software_system f;
  thermal_system := thermal_system f;
  cleanroom_environments := cleanroom_environments f;
  storage := storage f;
  energy_system := energy_system f;
  task_queue := task_queue f;
  active_tasks := active_tasks f;
  completed_tasks := completed_tasks f;
  completed_task_ids := completed_task_ids f;
  blocked_tasks := blocked_tasks f;
  last_metric_time := last_metric_time f;
  metrics := metrics f;
  draws := v
|}.

(** The exceptions that leave the methods. [CircularDependencyError]
    is raised with [[r.value for r in _visited] + [output.value]]: the
    members of the set [_visited] in the order in which Python iterates
    it, which the program does not determine (the hash of a string is
    salted per process), followed by the resource. The constructor
    keeps the set and the last element. *)
Inductive Exception :=
| CircularDependencyError (visited : gset string) (output : string)
| KeyError (key : string)
| ZeroDivisionError.

(** The result of a method: it returns a value, or raises, in both
    cases in some state of the factory; [OutOfFuel] belongs to the
    fuel-bounded recursion of recipe expansion only. *)
Inductive Outcome (A : Type) :=
| Returned (f : Factory) (a : A)
| Raised (f : Factory) (e : Exception)
| OutOfFuel.
Arguments Returned {A} f a.
Arguments Raised {A} f e.
Arguments OutOfFuel {A}.

Definition bind {A B : Type} (m : Outcome A) (k : Factory -> A -> Outcome B)
  : Outcome B :=
  match m with
  | Returned f a => k f a
  | Raised f e => Raised f e
  | OutOfFuel => OutOfFuel
  end.

Notation "'let*' ( f , x ) := m 'in' k" :=
  (bind m (fun f x => k))
    (at level 10, f name, x name, m at level 100, k at level 200).

Definition MAX_LOG_ENTRIES : nat := 5000.
Definition LOG_TRIM_SIZE : nat := 2500.

(** [Factory.log] *)
Definition log (f : Factory) (msg : LogMsg) (lvl : string) : Factory :=
  let entry := {|
    timestamp := time f;
    level := lvl;
    message := msg;
    thermal_load := Thermal.calculate_module_heat (module_states f);
    waste_total := Waste.get_total_waste (waste_stream f)
  |} in
  let entries := (log_entries f ++ [entry])%list in
  with_log_entries f
    (if Nat.ltb MAX_LOG_ENTRIES (List.length entries)
     then skipn (List.length entries - LOG_TRIM_SIZE) entries
     else entries).

(** [f"task_{self.task_counter:05d}_{output.value}"] *)
Definition task_id_of (counter : nat) (output : string) : string :=
  "task_" ++ Fmt.padded 5 counter ++ "_" ++ output.

Section Methods.

(** The random and numeric oracles, and the module-level globals
    [RECIPES] and [MODULE_SPECS] (replaced as a whole when a spec
    file is loaded). *)
Variable orc : Oracles.
Variable RECIPES : list Rcp.Recipe.
Variable MODULE_SPECS : list (string * MSpec.ModuleSpec).

(** *** Recipe expansion *)

(** The [for input_resource, input_qty in recipe.inputs.items()]
    loop of [create_production_task]; [rec] is the recursive call and
    [visited] the copy of [_visited] handed to it. *)
Fixpoint expand_inputs
         (rec : Factory -> string -> Q -> Z -> gset string -> Outcome (option Tk.Task))
         (ins : list (string * Q)) (recipe : Rcp.Recipe)
         (quantity : Q) (priority : Z) (visited : gset string)
         (f : Factory) (task : Tk.Task) : Outcome Tk.Task :=
  match ins with
  | [] => Returned f task
  | (input_resource, input_qty) :: rest =>
      if Qeq_bool (Rcp.output_quantity recipe) 0 then Raised f ZeroDivisionError
      else
        let required := input_qty * quantity / Rcp.output_quantity recipe in
        let available :=
          default 0 (Storage.current_inventory (storage f) !! input_resource) in
        let recycled :=
          if Dict.mem (Waste.recyclable_materials (waste_stream f)) input_resource
          then
            let r := Waste.process_recycling (waste_stream f) input_resource required in
            (with_waste_stream f (fst r), available + snd r)
          else (f, available) in
        let f1 := fst recycled in
        let available := snd recycled in
        if Py.ltb available required then
          let deficit := required - available in
          bind (rec f1 input_resource (deficit * (11 # 10)) (priority + 1)%Z visited)
               (fun f2 dep_task =>
                  expand_inputs rec rest recipe quantity priority visited f2
                    match dep_task with
                    | Some d =>
                        Tk.with_dependencies task
                          (Tk.dependencies task ∪ {[Tk.task_id d]})
                    | None => task
                    end)
        else expand_inputs rec rest recipe quantity priority visited f1 task
  end.

(** The body of [create_production_task] with its recursive calls
    going through [rec]. The caller's [_visited] set is as it was
    when the call ends: the cycle check raises before the set is
    touched, and otherwise [output], absent before, is added and
    discarded again by the [finally] clause. *)
Definition create_production_task_body
           (rec : Factory -> string -> Q -> Z -> gset string -> Outcome (option Tk.Task))
           (f : Factory) (output : string) (quantity : Q) (priority : Z)
           (_visited : gset string) : Outcome (option Tk.Task) :=
  if bool_decide (output ∈ _visited) then
    Raised f (CircularDependencyError _visited output)
  else
    let visited := _visited ∪ {[output]} in
    match find (fun r => String.eqb (Rcp.output r) output) RECIPES with
    | None => Returned (log f (NoRecipeFound output) "ERROR") None
    | Some recipe =>
        let cs := Storage.can_store (storage f) output quantity in
        if negb (fst cs) then
          Returned (log f (CannotStore quantity output (snd cs)) "WARNING") None
        else
          let f1 := with_task_counter f (S (task_counter f)) in
          let task_id := task_id_of (task_counter f1) output in
          let task := Tk.new task_id priority output quantity recipe in
          let finish (f3 : Factory) (task3 : Tk.Task) : Outcome (option Tk.Task) :=
            let f4 :=
              with_task_queue f3
                (Heap.heappush (task_queue f3)
                               (Tk.priority task3, Tk.task_id task3, task3)) in
            Returned (log f4 (CreatedTask task_id quantity output) "INFO")
                     (Some task3) in
          bind (expand_inputs rec (Rcp.inputs recipe) recipe quantity priority
                              visited f1 task)
               (fun f2 task2 =>
                  match Rcp.software_required recipe with
                  | Some sw =>
                      if negb (Software.resource_in_library (software_system f2) sw)
                      then
                        bind (rec f2 sw 1 (priority + 2)%Z visited)
                             (fun f3 sw_task =>
                                finish f3
                                  match sw_task with
                                  | Some d =>
                                      Tk.with_dependencies task2
                                        (Tk.dependencies task2 ∪ {[Tk.task_id d]})
                                  | None => task2
                                  end)
                      else finish f2 task2
                  | None => finish f2 task2
                  end)
    end.

(** [Factory.create_production_task]; the recursion depth is bounded
    by [fuel]. *)
Fixpoint create_production_task (fuel : nat) (f : Factory) (output : string)
         (quantity : Q) (priority : Z) (_visited : gset string)
  : Outcome (option Tk.Task) :=
  match fuel with
  | O => OutOfFuel
  | S fuel' =>
      create_production_task_body (create_production_task fuel')
                                  f output quantity priority _visited
  end.

(** Resources that have a recipe. *)
Definition producible : gset string := list_to_set (map Rcp.output RECIPES).

(** Fuel that no expansion exhausts. *)
Definition expansion_fuel : nat := S (size producible).

(** *** Starting a task *)

(** [a > b] on the [(current_efficiency, module_id)] tuples that
    [find_available_module] sorts. *)
Definition tuple_gtb (a b : Q * string) : bool :=
  Py.gtb (fst a) (fst b)
  || (Qeq_bool (fst a) (fst b) && String.ltb (snd b) (snd a)).

(** [Factory.find_available_module]: the first element of the list
    sorted in descending order is its greatest element. *)
Definition find_available_module (f : Factory) (module_type : string)
  : option string :=
  let suitable_modules :=
    flat_map
      (fun e : string * Mod.ModuleState =>
         let module_id := fst e in
         let state := snd e in
         if String.eqb (Mod.module_type state) module_type
            && negb (Mod.is_failed state)
            && negb (Mod.is_in_maintenance state)
            && match Mod.current_task state with None => true | Some _ => false end
         then
           let heat := Thermal.calculate_module_heat [(module_id, state)] in
           if negb (Thermal.check_thermal_constraints (thermal_system f) heat)
           then []
           else [(Mod.current_efficiency state, module_id)]
         else [])
      (module_states f) in
  match suitable_modules with
  | [] => None
  | x :: rest =>
      Some (snd (fold_left (fun best c => if tuple_gtb c best then c else best)
                           rest x))
  end.

(** The dictionary [calculate_production_parameters] returns. *)
Record Params := {
  p_setup_time : Q;
  p_process_time : Q;
  p_total_time : Q;
  p_energy_required : Q;
  p_expected_yield : Q;
  p_transport_time : Q;
  p_waste_generated : list (string * Q)
}.

Definition opt_string_eqb (a b : option string) : bool :=
  match a, b with
  | Some x, Some y => String.eqb x y
  | None, None => true
  | _, _ => false
  end.

(** The batch size of [calculate_production_parameters]. *)
Definition batch_size_of (cfg : Config) (sp : MSpec.ModuleSpec) (quantity : Q) : Q :=
  if enable_batch_processing cfg
  then Qmax (MSpec.min_batch_size sp) (Qmin quantity (MSpec.max_batch_size sp))
  else quantity.

(** [Factory.calculate_production_parameters]. [module_state] is the
    object stored under [mid] in [module_states]; its mutation and
    those of [task] are kept on every path, also when the result is
    [None]. *)
Definition calculate_production_parameters (f : Factory) (task : Tk.Task)
           (mid : string) (module_state : Mod.ModuleState)
  : Outcome (Tk.Task * option Params) :=
  let recipe := Tk.recipe task in
  match Mod.spec module_state with
  | None =>
      if Qeq_bool (Rcp.output_quantity recipe) 0 then Raised f ZeroDivisionError
      else
        let process_time :=
          Rcp.time_hours recipe * Tk.quantity task / Rcp.output_quantity recipe in
        Returned f
          (task,
           Some {| p_setup_time := 0;
                   p_process_time := process_time;
                   p_total_time := process_time;
                   p_energy_required :=
                     Rcp.energy_kwh recipe * Tk.quantity task
                     / Rcp.output_quantity recipe;
                   p_expected_yield := Tk.quantity task;
                   p_transport_time := 0;
                   p_waste_generated := [] |})
  | Some sp =>
      let changeover :=
        negb (opt_string_eqb (Mod.last_product_type module_state)
                             (Some (Tk.output task))) in
      let setup_time := if changeover then MSpec.setup_time sp else 0 in
      let module_state :=
        if changeover
        then Mod.with_last_product module_state (Some (Tk.output task))
        else module_state in
      let f := with_module_states f (Dict.set (module_states f) mid module_state) in
      let batch_size := batch_size_of (config f) sp (Tk.quantity task) in
      let effective_throughput := Mod.get_effective_throughput module_state in
      if match effective_throughput with
         | Fin t => Py.leb t 0
         | PosInf => false
         end
      then Returned f (task, None)
      else
        let process_time :=
          match effective_throughput with
          | Fin t => batch_size / t
          | PosInf => 0
          end in
        if Py.truthy_opt (Rcp.tolerance_um recipe)
           && Py.truthy_opt (MSpec.tolerance_capability sp)
           && Py.gtb (default 0 (MSpec.tolerance_capability sp))
                     (default 0 (Rcp.tolerance_um recipe))
        then
          Returned (log f (CannotAchieveTolerance (Mod.module_id module_state)
                             (default 0 (Rcp.tolerance_um recipe)))
                        "WARNING")
                   (task, None)
        else
          let after_cleanroom : Factory * option Tk.Task :=
            match Rcp.cleanroom_class recipe with
            | Some required_class =>
                if Z.eqb required_class 0 then (f, Some task)
                else
                  match Dict.get (cleanroom_environments f)
                                 (Mod.module_id module_state) with
                  | Some cleanroom =>
                      if Z.gtb (CleanRoom.cleanroom_class cleanroom) required_class
                      then
                        (log f (CleanroomInsufficient
                                  (Mod.module_id module_state)
                                  (CleanRoom.cleanroom_class cleanroom))
                             "WARNING",
                         None)
                      else
                        let process_sensitivity := 1 / inject_Z required_class in
                        let contamination_yield :=
                          CleanRoom.calculate_yield_impact cleanroom
                                                           process_sensitivity in
                        (f, Some (Tk.with_contamination_impact task
                                                               contamination_yield))
                  | None => (f, None)
                  end
            | None => (f, Some task)
            end in
          match after_cleanroom with
          | (f, None) => Returned f (task, None)
          | (f, Some task) =>
              let base_quality := MSpec.quality_base_rate sp in
              let efficiency_factor := Mod.current_efficiency module_state in
              let quality_rate :=
                base_quality * efficiency_factor * Tk.contamination_impact task in
              let with_sw : Q * Tk.Task :=
                if Py.truthy_str (Mod.software_version module_state) then
                  let sw_reliability :=
                    Software.calculate_software_reliability
                      (software_system f)
                      (default "plc_program" (Rcp.software_required recipe)) in
                  (quality_rate * sw_reliability,
                   Tk.with_software_reliability task sw_reliability)
                else (quality_rate, task) in
              let task := snd with_sw in
              let quality_rate :=
                fst with_sw * random_gauss orc (draws f) 1 (2 # 100) in
              let f := with_draws f (S (draws f)) in
              let quality_rate := Qmax (5 # 10) (Qmin 1 quality_rate) in
              let waste_amount := batch_size * (1 - quality_rate) in
              let waste_generated :=
                if Py.gtb waste_amount 0 then
                  if String.eqb (Tk.output task) "steel"
                     || String.eqb (Tk.output task) "aluminum_sheet"
                  then [(Tk.output task, waste_amount * (8 # 10))]
                  else [("plastic", waste_amount * (2 # 10))]
                else [] in
              let setup_energy := MSpec.power_consumption_idle sp * setup_time in
              let process_energy :=
                MSpec.power_consumption_active sp * process_time in
              Returned f
                (task,
                 Some {| p_setup_time := setup_time;
                         p_process_time := process_time;
                         p_total_time := setup_time + process_time;
                         p_energy_required := setup_energy + process_energy;
                         p_expected_yield := batch_size * quality_rate;
                         p_transport_time := 0;
                         p_waste_generated := waste_generated |})
          end
  end.

(** [task.status = st; self.blocked_tasks[task.task_id] = task] *)
Definition block (f : Factory) (task : Tk.Task) (st : Tk.Status) : Factory :=
  with_blocked_tasks f
    (Dict.set (blocked_tasks f) (Tk.task_id task) (Tk.with_status task st)).

(** The first [for] loop over [task.recipe.inputs] in [process_task]:
    one transport job per input. *)
Fixpoint schedule_inputs (ins : list (string * Q)) (f : Factory) (task : Tk.Task)
         (to_module : string) (transport_time : Q) : Outcome (Tk.Task * Q) :=
  match ins with
  | [] => Returned f (task, transport_time)
  | (input_resource, input_qty) :: rest =>
      if Qeq_bool (Rcp.output_quantity (Tk.recipe task)) 0
      then Raised f ZeroDivisionError
      else
        let required :=
          input_qty * Tk.quantity task / Rcp.output_quantity (Tk.recipe task) in
        let r := Transport.schedule_transport
                   (transport_system f) "storage" to_module
                   input_resource required (Tk.priority task + 10)%Z in
        let transport_job := snd r in
        schedule_inputs rest
          (with_transport_system f (fst r))
          (Tk.with_transport_jobs task
             (Tk.transport_jobs task ++ [Transport.job_id transport_job])%list)
          to_module
          (Qmax transport_time
                (Transport.distance transport_job
                 / Transport.conveyor_speed (transport_system f) / 3600))
  end.

(** The second loop: the first input that storage cannot cover,
    with the amount required. *)
Fixpoint missing_input (ins : list (string * Q)) (f : Factory) (task : Tk.Task)
  : Outcome (option (string * Q)) :=
  match ins with
  | [] => Returned f None
  | (input_resource, input_qty) :: rest =>
      if Qeq_bool (Rcp.output_quantity (Tk.recipe task)) 0
      then Raised f ZeroDivisionError
      else
        let required :=
          input_qty * Tk.quantity task / Rcp.output_quantity (Tk.recipe task) in
        let available :=
          default 0 (Storage.current_inventory (storage f) !! input_resource) in
        if Py.ltb available required
        then Returned f (Some (input_resource, required))
        else missing_input rest f task
  end.

(** The third loop: [current_inventory[input_resource] -= required]. *)
Fixpoint consume_inputs (ins : list (string * Q)) (f : Factory) (task : Tk.Task)
  : Outcome unit :=
  match ins with
  | [] => Returned f tt
  | (input_resource, input_qty) :: rest =>
      if Qeq_bool (Rcp.output_quantity (Tk.recipe task)) 0
      then Raised f ZeroDivisionError
      else
        let required :=
          input_qty * Tk.quantity task / Rcp.output_quantity (Tk.recipe task) in
        match Storage.current_inventory (storage f) !! input_resource with
        | None => Raised f (KeyError input_resource)
        | Some have =>
            consume_inputs rest
              (with_storage f
                 (Storage.with_inventory (storage f)
                    (<[input_resource := have - required]>
                       (Storage.current_inventory (storage f)))))
              task
        end
  end.

(** The assignments that turn [task] into a running task. *)
Definition started (task : Tk.Task) (module_id : string) (now : Q)
           (p : Params) : Tk.Task := {|
  Tk.task_id := Tk.task_id task;
  Tk.priority := Tk.priority task;
  Tk.output := Tk.output task;
  Tk.quantity := Tk.quantity task;
  Tk.recipe := Tk.recipe task;
  Tk.dependencies := Tk.dependencies task;
  Tk.status := Tk.active;
  Tk.assigned_module := Some module_id;
  Tk.transport_jobs := Tk.transport_jobs task;
  Tk.batch_size := Tk.batch_size task;
  Tk.setup_time := p_setup_time p;
  Tk.process_time := p_process_time p;
  Tk.quality_yield := Tk.quality_yield task;
  Tk.contamination_impact := Tk.contamination_impact task;
  Tk.tolerance_achieved := Tk.tolerance_achieved task;
  Tk.start_time := Some now;
  Tk.completion_time := now + p_total_time p + p_transport_time p;
  Tk.actual_output := p_expected_yield p;
  Tk.waste_generated := p_waste_generated p;
  Tk.energy_consumed := p_energy_required p;
  Tk.software_reliability := Tk.software_reliability task
|}.

(** The heat the thermal gate of [process_task] tests: that of
    [self.module_states] as they are when the gate runs. *)
Definition projected_heat (f : Factory) : Q :=
  Thermal.calculate_module_heat (module_states f).

(** The steps of [process_task] below its last gate ("All checks
    passed - start production"). *)
Definition start_production (f : Factory) (task : Tk.Task) (module_id : string)
           (production_params : Params) : Outcome bool :=
  let task := started task module_id (time f) production_params in
  let f :=
    match Dict.get (module_states f) module_id with
    | Some m =>
        with_module_states f
          (Dict.set (module_states f) module_id
             (Mod.with_task m (Some (Tk.task_id task))
                            (time f + Tk.setup_time task)))
    | None => f
    end in
  let* (f, _) := consume_inputs (Rcp.inputs (Tk.recipe task)) f task in
  let f :=
    with_energy_system f
      (fst (Energy.update_battery (energy_system f)
              (- p_energy_required production_params)
              (p_total_time production_params))) in
  let f := with_active_tasks f (Dict.set (active_tasks f) (Tk.task_id task) task) in
  Returned (log f (StartedTask (Tk.task_id task) module_id (Tk.completion_time task))
                "INFO")
           true.

(** Transport scheduling and the resource gate. *)
Definition resource_gate (f : Factory) (task : Tk.Task) (module_id : string)
           (production_params : Params) : Outcome bool :=
  let module_type :=
    match Dict.get (module_states f) module_id with
    | Some m => Mod.module_type m
    | None => EmptyString
    end in
  let* (f, tt') := schedule_inputs (Rcp.inputs (Tk.recipe task)) f task module_type
                                   (p_transport_time production_params) in
  let task := fst tt' in
  let production_params := {|
    p_setup_time := p_setup_time production_params;
    p_process_time := p_process_time production_params;
    p_total_time := p_total_time production_params;
    p_energy_required := p_energy_required production_params;
    p_expected_yield := p_expected_yield production_params;
    p_transport_time := snd tt';
    p_waste_generated := p_waste_generated production_params |} in
  let* (f, missing) := missing_input (Rcp.inputs (Tk.recipe task)) f task in
  match missing with
  | Some (input_resource, required) =>
      Returned (log (block f task Tk.blocked_resources)
                    (BlockedNeeds (Tk.task_id task) required input_resource)
                    "INFO")
               false
  | None => start_production f task module_id production_params
  end.

(** The energy gate. *)
Definition energy_gate (f : Factory) (task : Tk.Task) (module_id : string)
           (production_params : Params) : Outcome bool :=
  let solar :=
    Energy.calculate_solar_generation orc (energy_system f) (draws f)
                                      (Py.fmod (time f) 24)
                                      (Py.int (time f / 24)) in
  let f := with_draws f (snd solar) in
  let energy_available :=
    Energy.battery_charge_kwh (energy_system f)
    + fst solar * p_total_time production_params in
  if Py.ltb energy_available (p_energy_required production_params) then
    Returned (log (block f task Tk.blocked_energy)
                  (BlockedInsufficientEnergy (Tk.task_id task)) "INFO")
             false
  else resource_gate f task module_id production_params.

(** The thermal gate ("Check thermal constraints before starting"). *)
Definition thermal_gate (f : Factory) (task : Tk.Task) (module_id : string)
           (production_params : Params) : Outcome bool :=
  if negb (Thermal.check_thermal_constraints (thermal_system f) (projected_heat f))
  then
    Returned (log (block f task Tk.blocked_thermal)
                  (BlockedThermalExceeded (Tk.task_id task)) "INFO")
             false
  else energy_gate f task module_id production_params.

(** [any(dep_id not in [t.task_id for t in self.completed_tasks] ...)]
    under [if task.dependencies]. *)
Definition dependencies_incomplete (f : Factory) (task : Tk.Task) : bool :=
  negb (bool_decide (Tk.dependencies task = ∅))
  && existsb (fun dep_id =>
                negb (existsb (String.eqb dep_id)
                              (map Tk.task_id (completed_tasks f))))
             (elements (Tk.dependencies task)).

(** [task.recipe.required_module or "assembly"] *)
Definition required_module_of (task : Tk.Task) : string :=
  match Rcp.required_module (Tk.recipe task) with
  | Some m => if String.eqb m EmptyString then "assembly" else m
  | None => "assembly"
  end.

(** [Factory.process_task] *)
Definition process_task (f : Factory) (task : Tk.Task) : Outcome bool :=
  if dependencies_incomplete f task
  then Returned (block f task Tk.blocked_dependencies) false
  else
    let required_module := required_module_of task in
    let no_module :=
      Returned (log (block f task Tk.blocked_module)
                    (BlockedNoModule (Tk.task_id task) required_module) "INFO")
               false in
    match find_available_module f required_module with
    | None => no_module
    | Some module_id =>
        if String.eqb module_id EmptyString then no_module
        else
          match Dict.get (module_states f) module_id with
          | None => Raised f (KeyError module_id)
          | Some module_state =>
              let* (f, tp) :=
                calculate_production_parameters f task module_id module_state in
              match snd tp with
              | None => Returned (block f (fst tp) Tk.blocked_constraints) false
              | Some production_params =>
                  thermal_gate f (fst tp) module_id production_params
              end
          end
    end.

(** *** Completing tasks *)

(** [Factory.schedule_maintenance] *)
Definition schedule_maintenance (f : Factory) (module_id : string) : Outcome unit :=
  if negb (enable_maintenance (config f)) then Returned f tt
  else
    match Dict.get (module_states f) module_id with
    | None => Raised f (KeyError module_id)
    | Some module_state =>
        if negb (Mod.is_in_maintenance module_state) then
          let maintenance_duration := 8 in
          let until := time f + maintenance_duration in
          let f :=
            with_module_states f
              (Dict.set (module_states f) module_id
                 (Mod.with_maintenance module_state true until
                    (Mod.time_since_maintenance module_state)
                    (Mod.current_efficiency module_state))) in
          Returned (log f (EnteringMaintenance module_id until) "INFO") tt
        else Returned f tt
    end.

Definition software_kinds : list string :=
  ["plc_program"; "robot_firmware"; "ai_model"; "scada_system"].

(** The branch of [update_active_tasks] taken when storage accepted
    the output ([f] already holds the deposit). The boolean tells
    whether the new module was stored under [module_id], the key of
    the module that ran the task, whose state object then no longer
    belongs to [module_states]. *)
Definition record_completion (f : Factory) (task_id : string) (task : Tk.Task)
           (module_id : string) : Factory * bool :=
  let task := Tk.with_status task Tk.completed in
  let f := with_completed_tasks f (completed_tasks f ++ [task])%list in
  let f := with_completed_task_ids f (completed_task_ids f ∪ {[task_id]}) in
  let f := log f (CompletedTask task_id (Tk.actual_output task) (Tk.output task))
               "INFO" in
  let fd : Factory * bool :=
    if Fmt.endswith (Tk.output task) "_module" then
      let module_type := Fmt.remove_all "_module" (Tk.output task) in
      let new_module_id :=
        module_type ++ "_"
        ++ Fmt.padded 3
             (S (List.length
                   (List.filter (fun m => Fmt.startswith m module_type)
                           (Dict.keys (module_states f))))) in
      let f :=
        match Dict.get MODULE_SPECS module_type with
        | Some sp =>
            let f :=
              with_module_states f
                (Dict.set (module_states f) new_module_id
                          (Mod.new new_module_id module_type (Some sp))) in
            match MSpec.cleanroom_capable sp with
            | Some c =>
                if Z.eqb c 0 then f
                else
                  with_cleanroom_environments f
                    (Dict.set (cleanroom_environments f) new_module_id
                              (CleanRoom.new c))
            | None => f
            end
        | None =>
            with_module_states f
              (Dict.set (module_states f) new_module_id
                        (Mod.new new_module_id module_type None))
        end in
      (log f (NewModuleCreated new_module_id) "INFO",
       String.eqb new_module_id module_id)
    else (f, false) in
  let f := fst fd in
  if existsb (String.eqb (Tk.output task)) software_kinds then
    let r := Software.develop_software (software_system f) (Tk.output task)
                                       (Tk.process_time task) in
    (log (with_software_system f (fst r))
         (SoftwareDeveloped (Tk.output task) (Software.version (snd r))) "INFO",
     snd fd)
  else fd.

(** The first steps of the loop body of [update_active_tasks]: wear
    of the module, contamination of its cleanroom, the waste of the
    task and the transport job for its output. The condition that
    [update_condition] returned comes back with the state. *)
Definition wear_and_waste (f : Factory) (task : Tk.Task) (module_id : string)
           (module_state : Mod.ModuleState) : Factory * Mod.Condition :=
  let hours_operated := Tk.setup_time task + Tk.process_time task in
  let uc := Mod.update_condition orc module_state (draws f)
                                 hours_operated (config f) in
  let condition := snd (fst uc) in
  let f := with_draws f (snd uc) in
  let f := with_module_states f
             (Dict.set (module_states f) module_id (fst (fst uc))) in
  let f :=
    match Dict.get (cleanroom_environments f) module_id with
    | Some cleanroom =>
        let activity_level := Tk.quantity task / 100 in
        with_cleanroom_environments f
          (Dict.set (cleanroom_environments f) module_id
             (CleanRoom.update_contamination orc cleanroom
                                             activity_level hours_operated))
    | None => f
    end in
  let f :=
    fold_left (fun f w =>
                 with_waste_stream f
                   (Waste.add_waste (waste_stream f) (fst w) (snd w)))
              (Tk.waste_generated task) f in
  let f :=
    with_transport_system f
      (fst (Transport.schedule_transport
              (transport_system f) (Mod.module_type module_state)
              "storage" (Tk.output task) (Tk.actual_output task) 50)) in
  (f, condition).

(** [if self.storage.add_resource(task.output, task.actual_output):]
    with its two branches; the boolean is that of
    [record_completion]. *)
Definition deposit_output (f : Factory) (task_id : string) (task : Tk.Task)
           (module_id : string) : Factory * bool :=
  let deposit := Storage.add_resource (storage f) (Tk.output task)
                                      (Tk.actual_output task) in
  if snd deposit
  then record_completion (with_storage f (fst deposit)) task_id task module_id
  else (log f (OutputRejected task_id) "WARNING", false).

(** An assignment to an attribute of the local [module_state]: it
    reaches [module_states] unless the object was replaced there. *)
Definition touch (f : Factory) (module_id : string) (detached : bool)
           (g : Mod.ModuleState -> Mod.ModuleState) : Factory :=
  if detached then f
  else
    match Dict.get (module_states f) module_id with
    | Some m => with_module_states f (Dict.set (module_states f) module_id (g m))
    | None => f
    end.

(** "Free up module" and "Check module condition". *)
Definition release_module (f : Factory) (module_id : string) (detached : bool)
           (condition : Mod.Condition) : Outcome unit :=
  let f := touch f module_id detached
                 (fun m => Mod.with_task m None (Mod.setup_end_time m)) in
  match condition with
  | Mod.FAILED =>
      Returned (log (touch f module_id detached (fun m => Mod.with_failed m true))
                    (ModuleHasFailed module_id) "ERROR")
               tt
  | Mod.MAINTENANCE_REQUIRED => schedule_maintenance f module_id
  | Mod.OPERATIONAL => Returned f tt
  end.

(** The body of the [for] loop of [update_active_tasks] for an entry
    whose completion time has been reached. When [update_condition]
    divides by a zero [mtbf_hours], the exception leaves the loop with
    the hour counters of the module increased and nothing else done. *)
Definition complete_task (f : Factory) (task_id : string) (task : Tk.Task)
  : Outcome unit :=
  match Tk.assigned_module task with
  | None => Raised f (KeyError "None")
  | Some module_id =>
      match Dict.get (module_states f) module_id with
      | None => Raised f (KeyError module_id)
      | Some module_state =>
          if Mod.update_condition_raises module_state (config f) then
            Raised (with_module_states f
                      (Dict.set (module_states f) module_id
                         (Mod.add_hours module_state
                            (Tk.setup_time task + Tk.process_time task))))
                   ZeroDivisionError
          else
            let worn := wear_and_waste f task module_id module_state in
            let fd := deposit_output (fst worn) task_id task module_id in
            release_module (fst fd) module_id (snd fd) (snd worn)
      end
  end.

(** The [for] loop of [update_active_tasks] over the snapshot
    [list(self.active_tasks.items())]; [completed_this_step] is
    accumulated alongside. *)
Fixpoint complete_due (snapshot : list (string * Tk.Task)) (f : Factory)
         (completed_this_step : list string) : Outcome (list string) :=
  match snapshot with
  | [] => Returned f completed_this_step
  | (task_id, task) :: rest =>
      if Py.geb (time f) (Tk.completion_time task) then
        let* (f, _) := complete_task f task_id task in
        complete_due rest f (completed_this_step ++ [task_id])%list
      else complete_due rest f completed_this_step
  end.

(** [Factory.update_active_tasks] *)
Definition update_active_tasks (f : Factory) : Outcome unit :=
  let* (f, completed_this_step) := complete_due (active_tasks f) f [] in
  Returned (with_active_tasks f
              (fold_left (fun a task_id => Dict.del a task_id)
                         completed_this_step (active_tasks f)))
           tt.

(** [Factory.update_maintenance] *)
Definition update_maintenance (f : Factory) : Factory :=
  fold_left
    (fun f e =>
       let module_id := fst e in
       let module_state := snd e in
       if Mod.is_in_maintenance module_state
          && Py.geb (time f) (Mod.maintenance_end_time module_state)
       then
         log (with_module_states f
                (Dict.set (module_states f) module_id
                   (Mod.with_maintenance module_state false
                      (Mod.maintenance_end_time module_state) 0
                      (Qmin 1 (Mod.current_efficiency module_state * (11 # 10))))))
             (MaintenanceCompleted module_id) "INFO"
       else f)
    (module_states f) f.

(** *** Retrying blocked tasks *)

(** The value of [should_retry] at the end of the loop body of
    [check_blocked_tasks]. *)
Definition should_retry (f : Factory) (task : Tk.Task) : bool :=
  match Tk.status task with
  | Tk.blocked_dependencies =>
      forallb (fun dep_id => bool_decide (dep_id ∈ completed_task_ids f))
              (elements (Tk.dependencies task))
  | Tk.blocked_module | Tk.blocked_energy | Tk.blocked_resources
  | Tk.blocked_thermal | Tk.blocked_constraints => true
  | Tk.queued | Tk.active | Tk.completed => false
  end.

(** [Factory.check_blocked_tasks] *)
Definition check_blocked_tasks (f : Factory) : Factory :=
  let r :=
    fold_left
      (fun (acc : Factory * list string) (e : string * Tk.Task) =>
         let f := fst acc in
         let task_id := fst e in
         let task := snd e in
         if should_retry f task then
           let task := Tk.with_status task Tk.queued in
           (with_task_queue f
              (Heap.heappush (task_queue f)
                             (Tk.priority task, Tk.task_id task, task)),
            (snd acc ++ [task_id])%list)
         else acc)
      (blocked_tasks f) (f, []) in
  with_blocked_tasks (fst r)
    (fold_left (fun b task_id => Dict.del b task_id) (snd r)
               (blocked_tasks (fst r))).

(** *** The simulation step *)

(** The [while self.task_queue and tasks_started < MAX_TASK_STARTS_PER_STEP]
    loop of [simulate_step]; the result is the final [tasks_started].
    [process_task] never pushes to the queue, so the loop runs at
    most once per queued task. *)
Fixpoint admission_loop (fuel : nat) (f : Factory) (tasks_started : nat)
  : Outcome nat :=
  match fuel with
  | 0%nat => OutOfFuel
  | S fuel' =>
      match Heap.heappop (task_queue f) with
      | None => Returned f tasks_started
      | Some ((priority, task_id, task), rest) =>
          if Nat.ltb tasks_started MAX_TASK_STARTS_PER_STEP then
            let* (f, ok) := process_task (with_task_queue f rest) task in
            admission_loop fuel' f (if ok then S tasks_started else tasks_started)
          else Returned f tasks_started
      end
  end.

(** The "Process new tasks" phase of [simulate_step]. *)
Definition admit_new_tasks (f : Factory) : Outcome nat :=
  admission_loop (S (List.length (task_queue f))) f 0.

Definition Qsum (l : list Q) : Q := fold_left Qplus l 0.

(** [Factory.collect_metrics] *)
Definition collect_metrics (f : Factory) : Factory :=
  if Py.ltb (time f - last_metric_time f) 1 then f
  else
    let f := with_last_metric_time f (time f) in
    let n := List.length (module_states f) in
    let avg_efficiency :=
      if Nat.eqb n 0 then 0
      else Qsum (map (fun e => Mod.current_efficiency (snd e)) (module_states f))
           / inject_Z (Z.of_nat n) in
    let storage_volume :=
      map_fold (fun r q acc => acc + q / Storage.density r) 0
               (Storage.current_inventory (storage f)) in
    let storage_util :=
      if Storage.enabled (storage f)
      then storage_volume / Storage.total_volume_m3 (storage f) else 0 in
    let total_bugs :=
      Qsum (map (fun e => Software.bug_rate (snd e))
                (Software.software_library (software_system f))) in
    let rooms := List.length (cleanroom_environments f) in
    let avg_contamination :=
      if Nat.eqb rooms 0 then 0
      else Qsum (map (fun e => CleanRoom.particle_count (snd e))
                     (cleanroom_environments f))
           / inject_Z (Z.of_nat rooms) in
    let solar :=
      Energy.calculate_solar_generation orc (energy_system f) (draws f)
                                        (Py.fmod (time f) 24)
                                        (Py.int (time f / 24)) in
    let f := with_draws f (snd solar) in
    with_metrics f
      (metrics f ++
       [{| m_time := time f;
           m_energy_generated := fst solar;
           m_battery_charge := Energy.battery_charge_kwh (energy_system f);
           m_storage_utilization := storage_util;
           m_waste_generated := Waste.get_total_waste (waste_stream f);
           m_transport_jobs :=
             List.length (Transport.active_transports (transport_system f));
           m_software_bugs := total_bugs;
           m_thermal_load := Thermal.calculate_module_heat (module_states f);
           m_contamination := avg_contamination;
           m_module_efficiency := avg_efficiency;
           m_tasks_completed := List.length (completed_tasks f);
           m_active_tasks := List.length (active_tasks f);
           m_blocked_tasks := List.length (blocked_tasks f);
           m_modules := n |}])%list.

(** The energy update that opens [simulate_step]. *)
Definition update_energy (f : Factory) (duration_hours : Q) : Factory :=
  let hour_of_day := Py.fmod (time f) 24 in
  let day_of_year := (Py.int (time f / 24) mod 365)%Z in
  let solar :=
    Energy.calculate_solar_generation orc (energy_system f) (draws f)
                                      hour_of_day day_of_year in
  let f := with_draws f (snd solar) in
  let total_consumption :=
    Qsum (map (fun e => Mod.get_power_consumption (snd e)) (module_states f)) in
  let thermal_load := Thermal.calculate_module_heat (module_states f) in
  let cooling_power :=
    Thermal.calculate_cooling_requirement (thermal_system f) thermal_load in
  let total_consumption := total_consumption + cooling_power in
  let transport_power :=
    inject_Z (Z.of_nat (List.length
                          (Transport.active_transports (transport_system f))))
    * TRANSPORT_POWER_KW_PER_ACTIVE in
  let total_consumption := total_consumption + transport_power in
  let net_energy := (fst solar - total_consumption) * duration_hours in
  with_energy_system f
    (fst (Energy.update_battery (energy_system f) net_energy duration_hours)).

(** The weekly cleaning of [simulate_step]. *)
Definition clean_rooms (f : Factory) : Factory :=
  if Z.eqb (Py.int (time f) mod WEEKLY_CLEANING_INTERVAL_HOURS) 0 then
    fold_left
      (fun f e =>
         if Py.gtb (CleanRoom.time_since_cleaning (snd e))
                   (inject_Z WEEKLY_CLEANING_INTERVAL_HOURS)
         then
           log (with_cleanroom_environments f
                  (Dict.set (cleanroom_environments f) (fst e)
                            (CleanRoom.perform_cleaning (snd e))))
               CleanroomCleaned "INFO"
         else f)
      (cleanroom_environments f) f
  else f.

Definition age_equipment (e : Energy.EnergySystem) (duration_hours : Q)
           (weather : bool) : Energy.EnergySystem := {|
  Energy.config := Energy.config e;
  Energy.solar_capacity_kw := Energy.solar_capacity_kw e;
  Energy.battery_capacity_kwh := Energy.battery_capacity_kwh e;
  Energy.battery_charge_kwh := Energy.battery_charge_kwh e;
  Energy.battery_cycles := Energy.battery_cycles e;
  Energy.panel_age_days := Energy.panel_age_days e + duration_hours / 24;
  Energy.days_since_cleaning :=
    if weather
    then Energy.days_since_cleaning e + duration_hours / 24
    else Energy.days_since_cleaning e
|}.

(** [Factory.simulate_step] *)
Definition simulate_step (f : Factory) (duration_hours : Q) : Outcome unit :=
  let f := update_energy f duration_hours in
  let f := with_transport_system f
             (Transport.tick (transport_system f) (time f)) in
  let* (f, _) := update_active_tasks f in
  let f := update_maintenance f in
  let f := clean_rooms f in
  let* (f, _) := admit_new_tasks f in
  let f :=
    if Z.eqb (Py.int (time f * 10) mod 10) 0 then check_blocked_tasks f else f in
  let f := collect_metrics f in
  let f := with_time f (time f + duration_hours) in
  Returned (with_energy_system f
              (age_equipment (energy_system f) duration_hours
                             (enable_weather (config f))))
           tt.

(** [Factory.initialize_modules] *)
Definition initialize_modules (f : Factory) : Factory :=
  fold_left
    (fun f module_type =>
       let module_id := module_type ++ "_001" in
       let f :=
         match Dict.get MODULE_SPECS module_type with
         | Some sp =>
             let f :=
               with_module_states f
                 (Dict.set (module_states f) module_id
                           (Mod.new module_id module_type (Some sp))) in
             match MSpec.cleanroom_capable sp with
             | Some c =>
                 if Z.eqb c 0 then f
                 else
                   with_cleanroom_environments f
                     (Dict.set (cleanroom_environments f) module_id
                               (CleanRoom.new c))
             | None => f
             end
         | None =>
             with_module_states f
               (Dict.set (module_states f) module_id
                         (Mod.new module_id module_type None))
         end in
       log f (InitializedModule module_id) "INFO")
    ["mining"; "refining"; "chemical"; "electronics";
     "mechanical"; "cnc"; "laser"; "cleanroom";
     "assembly"; "software"; "transport"; "recycling";
     "testing"; "thermal"]
    f.

(** [Factory.__init__] on a validated configuration, default
    subsystems. *)
Definition init (cfg : Config) : Factory :=
  initialize_modules {|
    config := cfg;
    time := 0;
    task_counter := 0;
    log_entries := [];
    module_states := [];
    transport_system := Transport.init cfg;
    waste_stream := Waste.init;
    software_system := Software.init;
    thermal_system := Thermal.init cfg;
    cleanroom_environments := [];
    storage := Storage.new (max_storage_volume_m3 cfg)
                           (max_storage_weight_tons cfg)
                           (enable_storage_limits cfg);
    energy_system := Energy.init cfg;
    task_queue := [];
    active_tasks := [];
    completed_tasks := [];
    completed_task_ids := ∅;
    blocked_tasks := [];
    last_metric_time := 0;
    metrics := [];
    draws := 0
  |}.

End Methods.

(** The [MODULE_SPECS] the source ships. *)
Definition MODULE_SPECS_DEFAULT : list (string * MSpec.ModuleSpec) :=
 [
  ("mining",
   {| MSpec.spec_module_type := "mining";
      MSpec.max_throughput := 10;
      MSpec.power_consumption_idle := 5;
      MSpec.power_consumption_active := 50;
      MSpec.mtbf_hours := 5000;
      MSpec.maintenance_interval := 500;
      MSpec.degradation_rate := 1 # 50;
      MSpec.physical_footprint := 500;
      MSpec.max_batch_size := 100;
      MSpec.min_batch_size := 1;
      MSpec.setup_time := 1 # 2;
      MSpec.quality_base_rate := 49 # 50;
      MSpec.tolerance_capability := None;
      MSpec.cleanroom_capable := None |});
  ("refining",
   {| MSpec.spec_module_type := "refining";
      MSpec.max_throughput := 5;
      MSpec.power_consumption_idle := 10;
      MSpec.power_consumption_active := 100;
      MSpec.mtbf_hours := 4000;
      MSpec.maintenance_interval := 300;
      MSpec.degradation_rate := 3 # 100;
      MSpec.physical_footprint := 300;
      MSpec.max_batch_size := 50;
      MSpec.min_batch_size := 5;
      MSpec.setup_time := 2;
      MSpec.quality_base_rate := 19 # 20;
      MSpec.tolerance_capability := None;
      MSpec.cleanroom_capable := None |});
  ("chemical",
   {| MSpec.spec_module_type := "chemical";
      MSpec.max_throughput := 2;
      MSpec.power_consumption_idle := 20;
      MSpec.power_consumption_active := 200;
      MSpec.mtbf_hours := 3000;
      MSpec.maintenance_interval := 400;
      MSpec.degradation_rate := 1 # 25;
      MSpec.physical_footprint := 250;
      MSpec.max_batch_size := 500;
      MSpec.min_batch_size := 50;
      MSpec.setup_time := 4;
      MSpec.quality_base_rate := 23 # 25;
      MSpec.tolerance_capability := None;
      MSpec.cleanroom_capable := None |});
  ("electronics",
   {| MSpec.spec_module_type := "electronics";
      MSpec.max_throughput := 1000;
      MSpec.power_consumption_idle := 20;
      MSpec.power_consumption_active := 80;
      MSpec.mtbf_hours := 3000;
      MSpec.maintenance_interval := 200;
      MSpec.degradation_rate := 1 # 25;
      MSpec.physical_footprint := 200;
      MSpec.max_batch_size := 10000;
      MSpec.min_batch_size := 100;
      MSpec.setup_time := 3;
      MSpec.quality_base_rate := 9 # 10;
      MSpec.tolerance_capability := None;
      MSpec.cleanroom_capable := None |});
  ("mechanical",
   {| MSpec.spec_module_type := "mechanical";
      MSpec.max_throughput := 100;
      MSpec.power_consumption_idle := 15;
      MSpec.power_consumption_active := 60;
      MSpec.mtbf_hours := 4500;
      MSpec.maintenance_interval := 400;
      MSpec.degradation_rate := 1 # 40;
      MSpec.physical_footprint := 400;
      MSpec.max_batch_size := 500;
      MSpec.min_batch_size := 10;
      MSpec.setup_time := 3 # 2;
      MSpec.quality_base_rate := 97 # 100;
      MSpec.tolerance_capability := None;
      MSpec.cleanroom_capable := None |});
  ("cnc",
   {| MSpec.spec_module_type := "cnc";
      MSpec.max_throughput := 20;
      MSpec.power_consumption_idle := 10;
      MSpec.power_consumption_active := 50;
      MSpec.mtbf_hours := 3000;
      MSpec.maintenance_interval := 100;
      MSpec.degradation_rate := 1 # 20;
      MSpec.physical_footprint := 100;
      MSpec.max_batch_size := 50;
      MSpec.min_batch_size := 1;
      MSpec.setup_time := 1;
      MSpec.quality_base_rate := 49 # 50;
      MSpec.tolerance_capability := Some (5);
      MSpec.cleanroom_capable := None |});
  ("laser",
   {| MSpec.spec_module_type := "laser";
      MSpec.max_throughput := 50;
      MSpec.power_consumption_idle := 5;
      MSpec.power_consumption_active := 100;
      MSpec.mtbf_hours := 2000;
      MSpec.maintenance_interval := 200;
      MSpec.degradation_rate := 3 # 50;
      MSpec.physical_footprint := 80;
      MSpec.max_batch_size := 100;
      MSpec.min_batch_size := 1;
      MSpec.setup_time := 1 # 2;
      MSpec.quality_base_rate := 99 # 100;
      MSpec.tolerance_capability := Some (1);
      MSpec.cleanroom_capable := None |});
  ("cleanroom",
   {| MSpec.spec_module_type := "cleanroom";
      MSpec.max_throughput := 100;
      MSpec.power_consumption_idle := 50;
      MSpec.power_consumption_active := 150;
      MSpec.mtbf_hours := 5000;
      MSpec.maintenance_interval := 100;
      MSpec.degradation_rate := 1 # 50;
      MSpec.physical_footprint := 300;
      MSpec.max_batch_size := 1000;
      MSpec.min_batch_size := 10;
      MSpec.setup_time := 6;
      MSpec.quality_base_rate := 19 # 20;
      MSpec.tolerance_capability := None;
      MSpec.cleanroom_capable := Some 10%Z |});
  ("assembly",
   {| MSpec.spec_module_type := "assembly";
      MSpec.max_throughput := 50;
      MSpec.power_consumption_idle := 10;
      MSpec.power_consumption_active := 40;
      MSpec.mtbf_hours := 6000;
      MSpec.maintenance_interval := 600;
      MSpec.degradation_rate := 3 # 200;
      MSpec.physical_footprint := 600;
      MSpec.max_batch_size := 200;
      MSpec.min_batch_size := 1;
      MSpec.setup_time := 1;
      MSpec.quality_base_rate := 24 # 25;
      MSpec.tolerance_capability := None;
      MSpec.cleanroom_capable := None |});
  ("software",
   {| MSpec.spec_module_type := "software";
      MSpec.max_throughput := 1000;
      MSpec.power_consumption_idle := 1;
      MSpec.power_consumption_active := 5;
      MSpec.mtbf_hours := 50000;
      MSpec.maintenance_interval := 2000;
      MSpec.degradation_rate := 1 # 1000;
      MSpec.physical_footprint := 50;
      MSpec.max_batch_size := 1000000;
      MSpec.min_batch_size := 100;
      MSpec.setup_time := 1;
      MSpec.quality_base_rate := 9 # 10;
      MSpec.tolerance_capability := None;
      MSpec.cleanroom_capable := None |});
  ("transport",
   {| MSpec.spec_module_type := "transport";
      MSpec.max_throughput := 2000;
      MSpec.power_consumption_idle := 2;
      MSpec.power_consumption_active := 20;
      MSpec.mtbf_hours := 8000;
      MSpec.maintenance_interval := 1000;
      MSpec.degradation_rate := 1 # 100;
      MSpec.physical_footprint := 1000;
      MSpec.max_batch_size := 2000;
      MSpec.min_batch_size := 1;
      MSpec.setup_time := 1 # 10;
      MSpec.quality_base_rate := 999 # 1000;
      MSpec.tolerance_capability := None;
      MSpec.cleanroom_capable := None |});
  ("recycling",
   {| MSpec.spec_module_type := "recycling";
      MSpec.max_throughput := 5;
      MSpec.power_consumption_idle := 10;
      MSpec.power_consumption_active := 100;
      MSpec.mtbf_hours := 4000;
      MSpec.maintenance_interval := 500;
      MSpec.degradation_rate := 3 # 100;
      MSpec.physical_footprint := 400;
      MSpec.max_batch_size := 1000;
      MSpec.min_batch_size := 100;
      MSpec.setup_time := 2;
      MSpec.quality_base_rate := 17 # 20;
      MSpec.tolerance_capability := None;
      MSpec.cleanroom_capable := None |});
  ("testing",
   {| MSpec.spec_module_type := "testing";
      MSpec.max_throughput := 100;
      MSpec.power_consumption_idle := 5;
      MSpec.power_consumption_active := 30;
      MSpec.mtbf_hours := 10000;
      MSpec.maintenance_interval := 1000;
      MSpec.degradation_rate := 1 # 100;
      MSpec.physical_footprint := 200;
      MSpec.max_batch_size := 100;
      MSpec.min_batch_size := 1;
      MSpec.setup_time := 1 # 2;
      MSpec.quality_base_rate := 999 # 1000;
      MSpec.tolerance_capability := Some (1 # 10);
      MSpec.cleanroom_capable := None |});
  ("thermal",
   {| MSpec.spec_module_type := "thermal";
      MSpec.max_throughput := 10000;
      MSpec.power_consumption_idle := 50;
      MSpec.power_consumption_active := 500;
      MSpec.mtbf_hours := 6000;
      MSpec.maintenance_interval := 500;
      MSpec.degradation_rate := 1 # 50;
      MSpec.physical_footprint := 300;
      MSpec.max_batch_size := 10000;
      MSpec.min_batch_size := 100;
      MSpec.setup_time := 0;
      MSpec.quality_base_rate := 1;
      MSpec.tolerance_capability := None;
      MSpec.cleanroom_capable := None |})
 ].

End Fac.

(** * Specification predicates

    What the properties below say about a call: the state it ends in,
    the components it leaves alone, and what its loops move. *)

Module Props.

Import Fac.

(** The type of the recursive call of [create_production_task]. *)
Definition expander : Type :=
  Factory -> string -> Q -> Z -> gset string -> Outcome (option Tk.Task).

(** [P] holds of the state a call ends in, whether it returned or
    raised. *)
Definition ends_in {A : Type} (P : Factory -> Prop) (o : Outcome A) : Prop :=
  match o with
  | Returned f _ => P f
  | Raised f _ => P f
  | OutOfFuel => True
  end.

(** The same for methods that take no fuel: they always end. *)
Definition halts_in {A : Type} (P : Factory -> Prop) (o : Outcome A) : Prop :=
  match o with
  | Returned f _ => P f
  | Raised f _ => P f
  | OutOfFuel => False
  end.

(** A component of the state that recipe expansion never assigns:
    it only writes the waste stream, the task counter, the task queue
    and the log. *)
Definition untouched_by_expansion {X : Type} (proj : Factory -> X) : Prop :=
  (forall f v, proj (with_waste_stream f v) = proj f)
  /\ (forall f v, proj (with_task_counter f v) = proj f)
  /\ (forall f v, proj (with_task_queue f v) = proj f)
  /\ (forall f v, proj (with_log_entries f v) = proj f).

Definition terminates {A : Type} (o : Outcome A) : Prop :=
  match o with OutOfFuel => False | _ => True end.

(** A property of the state that survives every assignment
    [process_task] makes: to the blocked and active maps, the log, the
    module states, the draw counter, the transport system, the storage,
    and the battery through [update_battery]. *)
Definition kept_when_starting (P : Factory -> Prop) : Prop :=
  (forall f v, P f -> P (with_blocked_tasks f v))
  /\ (forall f v, P f -> P (with_active_tasks f v))
  /\ (forall f v, P f -> P (with_log_entries f v))
  /\ (forall f v, P f -> P (with_module_states f v))
  /\ (forall f v, P f -> P (with_draws f v))
  /\ (forall f v, P f -> P (with_transport_system f v))
  /\ (forall f v, P f -> P (with_storage f v))
  /\ (forall f delta hours,
        P f -> P (with_energy_system f
                    (fst (Energy.update_battery (energy_system f) delta hours)))).

(** The entry [heapq.heappush] receives for a task put back in the
    queue. *)
Definition requeued (t : Tk.Task) : Z * string * Tk.Task :=
  (Tk.priority t, Tk.task_id t, Tk.with_status t Tk.queued).

(** A blocked task stored under key [k] has moved back to the
    priority queue of [f']. *)
Definition moved_to_queue (f' : Factory) (k : string) (t : Tk.Task) : Prop :=
  Dict.get (blocked_tasks f') k = None /\ In (requeued t) (task_queue f').

(** It is still in the blocked map, as it was. *)
Definition still_blocked (f' : Factory) (k : string) (t : Tk.Task) : Prop :=
  Dict.get (blocked_tasks f') k = Some t.

Definition other_blocked (s : Tk.Status) : Prop :=
  s = Tk.blocked_module \/ s = Tk.blocked_energy \/ s = Tk.blocked_resources
  \/ s = Tk.blocked_thermal \/ s = Tk.blocked_constraints.

(** The entry is in the log with at most [n] entries after it. *)
Definition logged_recently (n : nat) (f : Factory) (msg : LogMsg) (lvl : string) : Prop :=
  exists pre e post,
    log_entries f = (pre ++ e :: post)%list
    /\ message e = msg /\ level e = lvl /\ (List.length post <= n)%nat.

(** The part of the state that records finished work. *)
Definition completion_record (f : Factory) : list Tk.Task * gset string :=
  (completed_tasks f, completed_task_ids f).

(** A component of the state that none of the assignments made while
    a task completes can change. *)
Definition untouched_by_completion {X : Type} (proj : Factory -> X) : Prop :=
  (forall f v, proj (with_draws f v) = proj f)
  /\ (forall f v, proj (with_module_states f v) = proj f)
  /\ (forall f v, proj (with_cleanroom_environments f v) = proj f)
  /\ (forall f v, proj (with_waste_stream f v) = proj f)
  /\ (forall f v, proj (with_transport_system f v) = proj f)
  /\ (forall f v, proj (with_storage f v) = proj f)
  /\ (forall f v, proj (with_completed_tasks f v) = proj f)
  /\ (forall f v, proj (with_completed_task_ids f v) = proj f)
  /\ (forall f v, proj (with_software_system f v) = proj f)
  /\ (forall f v, proj (with_log_entries f v) = proj f).

(** The battery of the factory is within its limits, and its
    efficiency is not negative. *)
Definition battery_ok (f : Factory) : Prop :=
  Energy.in_bounds (energy_system f)
  /\ 0 <= battery_efficiency (Energy.config (energy_system f)).

(** The call ended, by returning or raising, in state [f']. *)
Definition ended_at {A : Type} (o : Outcome A) (f' : Factory) : Prop :=
  match o with
  | Returned f _ => f' = f
  | Raised f _ => f' = f
  | OutOfFuel => False
  end.

(** The states a factory built from [cfg] goes through when its
    client requests products and runs simulation steps, in any order
    and with any step length. *)
Inductive reachable (orc : Oracles) (RECIPES : list Rcp.Recipe)
          (MODULE_SPECS : list (string * MSpec.ModuleSpec)) (cfg : Config)
  : Factory -> Prop :=
| reach_init : reachable orc RECIPES MODULE_SPECS cfg (init MODULE_SPECS cfg)
| reach_request (f f' : Factory) (fuel : nat) (output : string)
                (quantity : Q) (priority : Z) :
    reachable orc RECIPES MODULE_SPECS cfg f ->
    ended_at (create_production_task RECIPES fuel f output quantity priority ∅) f' ->
    reachable orc RECIPES MODULE_SPECS cfg f'
| reach_step (f f' : Factory) (duration_hours : Q) :
    reachable orc RECIPES MODULE_SPECS cfg f ->
    ended_at (simulate_step orc MODULE_SPECS f duration_hours) f' ->
    reachable orc RECIPES MODULE_SPECS cfg f'.

End Props.

(** As the specification words the throughput of a module, and the
    factors the code applies. *)
Module SpecWords.

(** As the specification words it:
    [temp_derate = 1 - 0.01 * max(0, |T - 22| - 5)]. *)
Definition spec_temp_derate (t : Q) : Q :=
  1 - (1 # 100) * Qmax 0 (Qabs (t - 22) - 5).

(** [effective_throughput = spec.max_throughput * efficiency * temp_derate] *)
Definition spec_effective_throughput (sp : MSpec.ModuleSpec) (efficiency t : Q) : Q :=
  MSpec.max_throughput sp * efficiency * spec_temp_derate t.

(** The factors [get_effective_throughput] applies. *)
Definition temp_factor (t : Q) : Q :=
  if Py.gtb (Qabs (t - 22)) 5 then 1 - (1 # 100) * Qabs (t - 22) else 1.

Definition software_factor (software_version : option string) : Q :=
  if Py.truthy_str software_version then 95 # 100 else 1.

End SpecWords.

(** * Scenarios

    Concrete factories, built with the constructors and methods above,
    on which the properties are exercised. *)

Module Scenario.

Import Fac.


(** Oracles of an uneventful run: every [random.random()] is [1] (no
    failure is drawn), every [random.gauss(mu, sigma)] is [mu], powers
    are [1] and the sun stands at 1000 W/m2. *)
Definition nominal : Oracles := {|
  random_random := fun _ => 1;
  random_gauss := fun _ mu _ => mu;
  float_pow := fun _ _ => 1;
  base_irradiance := fun _ _ _ => 1000
|}.

Definition recipe (out : string) (out_qty : Q) (ins : list (string * Q))
           (energy hours : Q) (module : string) : Rcp.Recipe := {|
  Rcp.output := out;
  Rcp.output_quantity := out_qty;
  Rcp.inputs := ins;
  Rcp.energy_kwh := energy;
  Rcp.time_hours := hours;
  Rcp.required_module := Some module;
  Rcp.parallel_capable := true;
  Rcp.tolerance_um := None;
  Rcp.cleanroom_class := None;
  Rcp.software_required := None;
  Rcp.waste_products := None
|}.

(** [Recipe(ResourceType.PLC_PROGRAM, 1, {}, 0.5, 40.0, "software")],
    as in [RECIPES]. *)
Definition plc_program : Rcp.Recipe :=
  recipe "plc_program" 1 [] (5 # 10) 40 "software".

(** The state a call ends in. *)
Definition state_of {A : Type} (o : Outcome A) (otherwise : Factory) : Factory :=
  match o with
  | Returned f _ => f
  | Raised f _ => f
  | OutOfFuel => otherwise
  end.

(** A factory asked for one PLC program, then stepped twice with
    [simulate_step(2.0)]: the task starts in the first step (ready at
    1.1 h) and is due in the second. *)
Definition plc_requested (cfg : Config) : Factory :=
  let f := init MODULE_SPECS_DEFAULT cfg in
  state_of (create_production_task [plc_program] (expansion_fuel [plc_program])
                                   f "plc_program" 1 1 ∅) f.

Definition plc_running (cfg : Config) : Factory :=
  let f := plc_requested cfg in
  state_of (simulate_step nominal MODULE_SPECS_DEFAULT f 2) f.

Definition plc_finished (cfg : Config) : Factory :=
  let f := plc_running cfg in
  state_of (simulate_step nominal MODULE_SPECS_DEFAULT f 2) f.

(** [CONFIG] with [max_storage_volume_m3] lowered to 50. *)
Definition small_store : Config := {|
  battery_efficiency := battery_efficiency CONFIG;
  factory_area_m2 := factory_area_m2 CONFIG;
  ambient_temperature := ambient_temperature CONFIG;
  agv_fleet_size := agv_fleet_size CONFIG;
  enable_degradation := enable_degradation CONFIG;
  enable_maintenance := enable_maintenance CONFIG;
  enable_weather := enable_weather CONFIG;
  enable_batch_processing := enable_batch_processing CONFIG;
  initial_solar_capacity_kw := initial_solar_capacity_kw CONFIG;
  latitude := latitude CONFIG;
  average_cloud_cover := average_cloud_cover CONFIG;
  max_storage_volume_m3 := 50;
  max_storage_weight_tons := max_storage_weight_tons CONFIG;
  enable_storage_limits := enable_storage_limits CONFIG
|}.

(** A recipe whose module kind, "smelter", no factory has. *)
Definition ingot : Rcp.Recipe := recipe "ingot" 1 [] 10 1 "smelter".

Fixpoint request (n : nat) (recipes : list Rcp.Recipe) (out : string)
         (f : Factory) : Factory :=
  match n with
  | 0%nat => f
  | S n' =>
      request n' recipes out
              (state_of (create_production_task recipes (expansion_fuel recipes)
                                                f out 1 1 ∅) f)
  end.

(** Six queued tasks that no module can run. *)
Definition six_ingots : Factory :=
  request 6 [ingot] "ingot" (init MODULE_SPECS_DEFAULT CONFIG).

(** A spec-defined refining module that idles at 10 kW and runs at
    50 MW, fast enough for the energy gate to pass. *)
Definition hot_refining : MSpec.ModuleSpec := {|
  MSpec.spec_module_type := "refining";
  MSpec.max_throughput := 1000000;
  MSpec.power_consumption_idle := 10;
  MSpec.power_consumption_active := 50000;
  MSpec.mtbf_hours := 4000;
  MSpec.maintenance_interval := 400;
  MSpec.degradation_rate := 3 # 100;
  MSpec.physical_footprint := 800;
  MSpec.max_batch_size := 200;
  MSpec.min_batch_size := 1;
  MSpec.setup_time := 0;
  MSpec.quality_base_rate := 96 # 100;
  MSpec.tolerance_capability := None;
  MSpec.cleanroom_capable := None
|}.

Definition hot_specs : list (string * MSpec.ModuleSpec) :=
  [("refining", hot_refining)].

Definition slag : Rcp.Recipe := recipe "slag" 1 [] 1 1 "refining".

Definition hot_factory : Factory :=
  request 1 [slag] "slag" (init hot_specs CONFIG).

(** The first queued task of a factory. *)
Definition first_task (f : Factory) : Tk.Task :=
  match task_queue f with
  | (_, _, t) :: _ => t
  | [] => Tk.new EmptyString 0 EmptyString 0 slag
  end.

Definition popped (f : Factory) : Factory := with_task_queue f (tl (task_queue f)).


(** The mining module at 32 degrees. *)
Definition at_temperature (m : Mod.ModuleState) (t : Q) : Mod.ModuleState := {|
  Mod.module_id := Mod.module_id m;
  Mod.module_type := Mod.module_type m;
  Mod.spec := Mod.spec m;
  Mod.operating_hours := Mod.operating_hours m;
  Mod.cycles_completed := Mod.cycles_completed m;
  Mod.time_since_maintenance := Mod.time_since_maintenance m;
  Mod.current_efficiency := Mod.current_efficiency m;
  Mod.is_failed := Mod.is_failed m;
  Mod.is_in_maintenance := Mod.is_in_maintenance m;
  Mod.maintenance_end_time := Mod.maintenance_end_time m;
  Mod.current_task := Mod.current_task m;
  Mod.setup_end_time := Mod.setup_end_time m;
  Mod.last_product_type := Mod.last_product_type m;
  Mod.software_version := Mod.software_version m;
  Mod.contamination_level := Mod.contamination_level m;
  Mod.temperature := t
|}.

Definition warm_mining : Mod.ModuleState :=
  at_temperature
    (Mod.new "mining_001" "mining" (Dict.get MODULE_SPECS_DEFAULT "mining")) 32.

(** [CONFIG] with a fleet of 30 vehicles. *)
Definition large_fleet : Config := {|
  battery_efficiency := battery_efficiency CONFIG;
  factory_area_m2 := factory_area_m2 CONFIG;
  ambient_temperature := ambient_temperature CONFIG;
  agv_fleet_size := 30;
  enable_degradation := enable_degradation CONFIG;
  enable_maintenance := enable_maintenance CONFIG;
  enable_weather := enable_weather CONFIG;
  enable_batch_processing := enable_batch_processing CONFIG;
  initial_solar_capacity_kw := initial_solar_capacity_kw CONFIG;
  latitude := latitude CONFIG;
  average_cloud_cover := average_cloud_cover CONFIG;
  max_storage_volume_m3 := max_storage_volume_m3 CONFIG;
  max_storage_weight_tons := max_storage_weight_tons CONFIG;
  enable_storage_limits := enable_storage_limits CONFIG
|}.

(** 25 jobs of 2000 kg from storage to assembly, then the transport
    part of five consecutive ticks of 0.1 h. *)
Definition busy_transport : Transport.TransportSystem :=
  fold_left Transport.tick [0; 1 # 10; 2 # 10; 3 # 10; 4 # 10]
    (fold_left
       (fun ts _ =>
          fst (Transport.schedule_transport ts "storage" "assembly" "steel" 2000 100))
       (seq 0 25) (Transport.init large_fleet)).

(** A two-step chain: a beam needs ten units of steel, steel needs
    nothing. After the admission phase the beam waits for the steel
    task. *)
Definition chain : list Rcp.Recipe :=
  [recipe "steel_beam" 1 [("steel", 10)] 5 1 "cnc";
   recipe "steel" 500 [] 150 (15 # 10) "refining"].

Definition beam_requested : Factory :=
  request 1 chain "steel_beam" (init MODULE_SPECS_DEFAULT CONFIG).

Definition beam_waiting : Factory :=
  state_of (admit_new_tasks nominal beam_requested) beam_requested.

(** The first entry of the blocked map. *)
Definition first_blocked (f : Factory) : string * Tk.Task :=
  match blocked_tasks f with
  | e :: _ => e
  | [] => (EmptyString, first_task f)
  end.

(** The first entry of the active map. *)
Definition first_active (f : Factory) : string * Tk.Task :=
  match active_tasks f with
  | e :: _ => e
  | [] => (EmptyString, first_task f)
  end.

End Scenario.

(** ** Vocabulary of the further properties *)

Module Conditions.

Import Fac.

(** The test [find_available_agv] makes on a vehicle. *)
Definition fit (agv : Transport.Agv) (load_weight : Q) : Prop :=
  Transport.status agv = Transport.idle
  /\ (2 # 10) < Transport.battery_level agv
  /\ load_weight <= Transport.max_load agv.

(** [current_time >= job.completion_time] for an active job. *)
Definition due (current_time : Q) (job : Transport.TransportJob) : bool :=
  match Transport.completion_time job with
  | Some done_at => Py.geb current_time done_at
  | None => false
  end.

(** The power the modules draw, as [simulate_step] sums it. *)
Definition module_power (module_states : list (string * Mod.ModuleState)) : Q :=
  Qsum (map (fun e => Mod.get_power_consumption (snd e)) module_states).

End Conditions.

Module Stock.

(** [sum(self.current_inventory.values())], as [can_store] computes
    it. *)
Definition stored_weight (s : Storage.StorageSystem) : Q :=
  map_fold (fun _ q acc => acc + q) 0 (Storage.current_inventory s).

(** [sum(q / density(r) for r, q in self.current_inventory.items())] *)
Definition stored_volume (s : Storage.StorageSystem) : Q :=
  map_fold (fun r q acc => acc + q / Storage.density r) 0
           (Storage.current_inventory s).

(** No two stored materials need storage temperatures more than ten
    degrees apart. *)
Definition compatible (s : Storage.StorageSystem) : Prop :=
  forall r1 r2 q1 q2,
    Storage.current_inventory s !! r1 = Some q1 ->
    Storage.current_inventory s !! r2 = Some q2 ->
    Qabs (Storage.storage_temp r1 - Storage.storage_temp r2) <= 10.

(** A store after a sequence of [add_resource] calls, accepted or
    not. *)
Definition fill (s : Storage.StorageSystem) (deposits : list (string * Q))
  : Storage.StorageSystem :=
  fold_left (fun s d => fst (Storage.add_resource s (fst d) (snd d))) deposits s.

End Stock.

Module Selection.

Import Fac.

(** The test [find_available_module] makes on an entry of
    [module_states]. *)
Definition available (f : Factory) (module_type : string)
           (e : string * Mod.ModuleState) : Prop :=
  Mod.module_type (snd e) = module_type
  /\ Mod.is_failed (snd e) = false
  /\ Mod.is_in_maintenance (snd e) = false
  /\ Mod.current_task (snd e) = None
  /\ Thermal.check_thermal_constraints
       (thermal_system f) (Thermal.calculate_module_heat [e]) = true.

(** [bug_rates.get(software_type, 0.1)] *)
Definition base_bug_rate (s : Software.SoftwareProductionSystem)
           (software_type : string) : Q :=
  match Dict.get (Software.bug_rates s) software_type with
  | Some r => r
  | None => 1 # 10
  end.

End Selection.

Module Placement.

Import Fac Props.

Definition is_blocked (s : Tk.Status) : Prop :=
  s = Tk.blocked_dependencies \/ other_blocked s.

(** Where [process_task] leaves the task it was given: running on a
    module that is marked with it, or in the blocked map with the
    status of the gate that stopped it. *)
Definition placed (f : Factory) (task_id : string) (started : bool) : Prop :=
  if started then
    exists t mid m,
      Dict.get (active_tasks f) task_id = Some t
      /\ Tk.status t = Tk.active
      /\ Tk.task_id t = task_id
      /\ Tk.assigned_module t = Some mid
      /\ Dict.get (module_states f) mid = Some m
      /\ Mod.current_task m = Some task_id
  else
    exists t,
      Dict.get (blocked_tasks f) task_id = Some t
      /\ is_blocked (Tk.status t)
      /\ Tk.task_id t = task_id.

End Placement.

Module Recipes.

Import Fac.

(** [Recipe(output, output_quantity, inputs, energy_kwh, time_hours,
    required_module, tolerance_um=.., cleanroom_class=..,
    software_required=..)] with the defaults of the dataclass for the
    fields the table never sets. *)
Definition mk (output : string) (output_quantity : Q) (inputs : list (string * Q))
           (energy_kwh time_hours : Q) (required_module : string)
           (tolerance_um : option Q) (cleanroom_class : option Z)
           (software_required : option string) : Rcp.Recipe := {|
  Rcp.output := output;
  Rcp.output_quantity := output_quantity;
  Rcp.inputs := inputs;
  Rcp.energy_kwh := energy_kwh;
  Rcp.time_hours := time_hours;
  Rcp.required_module := Some required_module;
  Rcp.parallel_capable := true;
  Rcp.tolerance_um := tolerance_um;
  Rcp.cleanroom_class := cleanroom_class;
  Rcp.software_required := software_required;
  Rcp.waste_products := None
|}.

(** [RECIPES] as the module leaves it: the list literal followed by
    [additional_recipes] and [missing_basics], which the two
    [RECIPES.extend] calls append. *)
Definition RECIPES_DEFAULT : list Rcp.Recipe :=
 [
  mk "silicon_ore" 1000 []
     50 1 "mining" None None None;
  mk "iron_ore" 1000 []
     40 (4 # 5) "mining" None None None;
  mk "copper_ore" 1000 []
     60 (6 # 5) "mining" None None None;
  mk "aluminum_ore" 1000 []
     70 (3 # 2) "mining" None None None;
  mk "lithium_ore" 100 []
     100 3 "mining" None None None;
  mk "rare_earth_ore" 10 []
     200 5 "mining" None None None;
  mk "carbon_ore" 500 []
     30 (1 # 2) "mining" None None None;
  mk "sulfuric_acid" 100 [("carbon_ore", 50)]
     80 2 "chemical" None None None;
  mk "polymer_resin" 50 [("carbon_ore", 100); ("catalyst", 1)]
     120 3 "chemical" None None None;
  mk "electrolyte_solution" 100 [("lithium_compound", 20); ("organic_solvent", 50)]
     60 (3 # 2) "chemical" None None None;
  mk "epoxy" 20 [("polymer_resin", 10); ("catalyst", (1 # 2))]
     40 1 "chemical" None None None;
  mk "lubricant" 100 [("carbon_ore", 50)]
     30 (4 # 5) "chemical" None None None;
  mk "coolant" 200 [("organic_solvent", 100)]
     20 (1 # 2) "chemical" None None None;
  mk "pure_silicon" 100 [("silicon_ore", 500)]
     200 2 "refining" None None None;
  mk "steel" 500 [("iron_ore", 600); ("carbon_ore", 10)]
     150 (3 # 2) "refining" None None None;
  mk "copper_wire" 200 [("copper_ore", 250)]
     80 1 "refining" None None None;
  mk "aluminum_sheet" 300 [("aluminum_ore", 400)]
     100 (6 # 5) "refining" None None None;
  mk "lithium_compound" 50 [("lithium_ore", 80)]
     120 2 "refining" None None None;
  mk "rare_earth_magnets" 5 [("rare_earth_ore", 8)]
     150 3 "refining" None None None;
  mk "glass" 100 [("silicon_ore", 150)]
     80 (4 # 5) "refining" None None None;
  mk "plastic" 100 [("polymer_resin", 80)]
     60 (1 # 2) "refining" None None None;
  mk "carbon_fiber" 10 [("carbon_ore", 50); ("polymer_resin", 5)]
     200 4 "refining" None None None;
  mk "precision_bearing" 10 [("steel", 5); ("lubricant", (1 # 10))]
     40 1 "cnc" (Some 5) None None;
  mk "ball_screw" 5 [("steel", 10); ("lubricant", (1 # 5))]
     60 2 "cnc" (Some 10) None None;
  mk "linear_guide" 5 [("steel", 15); ("lubricant", (3 # 10))]
     80 (5 # 2) "cnc" (Some 10) None None;
  mk "silicon_wafer" 100 [("pure_silicon", 10)]
     50 (1 # 2) "cleanroom" None (Some 100%Z) None;
  mk "transistor" 10000 [("silicon_wafer", 1)]
     20 (1 # 5) "cleanroom" None (Some 10%Z) None;
  mk "integrated_circuit" 100 [("silicon_wafer", 1); ("transistor", 1000); ("capacitor", 100); ("resistor", 200)]
     100 1 "cleanroom" None (Some 10%Z) None;
  mk "plc_program" 1 []
     (1 # 2) 40 "software" None None None;
  mk "robot_firmware" 1 []
     1 80 "software" None None (Some "plc_program");
  mk "ai_model" 1 []
     5 200 "software" None None (Some "robot_firmware");
  mk "scada_system" 1 []
     2 120 "software" None None (Some "plc_program");
  mk "agv_chassis" 1 [("steel", 200); ("plastic", 50); ("bearing", 20)]
     300 5 "assembly" None None None;
  mk "agv_navigation" 1 [("lidar", 2); ("camera_module", 4); ("control_board", 1); ("ai_model", 1)]
     100 3 "assembly" None None None;
  mk "conveyor_belt" 10 [("plastic", 100); ("steel", 20)]
     50 1 "assembly" None None None;
  mk "conveyor_motor" 1 [("electric_motor", 1); ("gear", 5); ("bearing", 4)]
     40 (1 # 2) "assembly" None None None;
  mk "reaction_vessel" 1 [("steel", 500); ("glass", 50); ("gasket", 10); ("pressure_transducer", 2)]
     400 8 "assembly" None None None;
  mk "distillation_column" 1 [("steel", 800); ("heat_exchanger", 5); ("thermocouple", 10); ("control_board", 1)]
     600 12 "assembly" None None None;
  mk "cmm_probe" 1 [("precision_bearing", 6); ("linear_actuator", 3); ("encoder", 3); ("control_board", 1)]
     200 4 "assembly" (Some (1 # 10)) None None;
  mk "shredder" 1 [("steel", 300); ("electric_motor", 5); ("gear", 20)]
     500 6 "assembly" None None None;
  mk "magnetic_separator" 1 [("rare_earth_magnets", 50); ("steel", 100); ("conveyor_belt", 5)]
     300 4 "assembly" None None None;
  mk "solar_cell" 100 [("silicon_wafer", 10); ("glass", 10); ("aluminum_sheet", 2); ("copper_wire", 5)]
     120 (6 # 5) "cleanroom" None (Some 1000%Z) None;
  mk "solar_panel" 10 [("solar_cell", 60); ("glass", 50); ("aluminum_sheet", 20); ("plastic", 30); ("connector", 10)]
     200 2 "assembly" None None None;
  mk "battery_pack" 10 [("battery_cell", 100); ("control_board", 1); ("plastic", 50); ("copper_wire", 20); ("coolant", 5)]
     250 (5 # 2) "assembly" None None None;
  mk "control_board" 20 [("microprocessor", 2); ("memory_chip", 8); ("power_regulator", 4); ("integrated_circuit", 10); ("capacitor", 200); ("resistor", 500); ("pcb_substrate", 1); ("solder_paste", (1 # 2))]
     150 (3 # 2) "cleanroom" None (Some 10000%Z) None;
  mk "robotic_arm" 5 [("servo_motor", 6); ("linear_actuator", 3); ("encoder", 6); ("control_board", 2); ("steel", 100); ("aluminum_sheet", 50); ("wire_harness", 2); ("robot_firmware", 1)]
     500 5 "assembly" None None None;
  mk "mining_module" 1 [("robotic_arm", 4); ("conveyor_system", 2); ("control_board", 10); ("steel", 2000); ("electric_motor", 20); ("plc_program", 1)]
     2000 20 "assembly" None None None;
  mk "chemical_module" 1 [("reaction_vessel", 3); ("distillation_column", 2); ("chemical_pump", 10); ("control_board", 15); ("steel", 2500); ("scada_system", 1)]
     3000 30 "assembly" None None None;
  mk "cnc_module" 1 [("cnc_spindle", 3); ("linear_guide", 9); ("ball_screw", 9); ("servo_motor", 12); ("control_board", 5); ("steel", 1500); ("robot_firmware", 1)]
     2500 25 "assembly" None None None;
  mk "cleanroom_module" 1 [("hepa_filter", 20); ("laminar_flow_hood", 5); ("particle_counter", 10); ("control_board", 10); ("steel", 3000); ("glass", 500); ("scada_system", 1)]
     4000 40 "assembly" None None None;
  mk "software_module" 1 [("microprocessor", 100); ("memory_chip", 500); ("control_board", 50); ("cooling_fan", 20); ("steel", 500); ("ai_model", 1)]
     2000 20 "assembly" None None None;
  mk "transport_module" 1 [("agv_chassis", 10); ("agv_navigation", 10); ("conveyor_motor", 20); ("conveyor_belt", 50); ("control_board", 20); ("ai_model", 1)]
     3500 35 "assembly" None None None;
  mk "recycling_module" 1 [("shredder", 2); ("magnetic_separator", 3); ("optical_sorter", 2); ("conveyor_system", 3); ("control_board", 10); ("steel", 2000); ("plc_program", 1)]
     2800 28 "assembly" None None None;
  mk "testing_module" 1 [("cmm_probe", 2); ("oscilloscope", 5); ("tensile_tester", 2); ("control_board", 20); ("steel", 1500); ("scada_system", 1)]
     3000 30 "assembly" None None None;
  mk "thermal_module" 1 [("chiller_unit", 2); ("heat_exchanger", 10); ("radiator", 5); ("cooling_fan", 20); ("thermocouple", 50); ("control_board", 10); ("steel", 1500); ("coolant", 500); ("plc_program", 1)]
     2500 25 "assembly" None None None;
  mk "power_module" 1 [("solar_panel", 100); ("battery_pack", 50); ("inverter", 20); ("transformer", 10); ("control_board", 20); ("copper_wire", 2000); ("scada_system", 1)]
     4000 40 "assembly" None None None;
  mk "control_module" 1 [("microprocessor", 50); ("memory_chip", 200); ("control_board", 50); ("proximity_sensor", 100); ("encoder", 50); ("copper_wire", 2000); ("ai_model", 1); ("scada_system", 1)]
     3000 30 "assembly" None None None;
  mk "bearing" 100 [("steel", 5)]
     30 (3 # 10) "mechanical" None None None;
  mk "gear" 50 [("steel", 10)]
     40 (2 # 5) "mechanical" None None None;
  mk "spring" 200 [("steel", 2)]
     10 (1 # 10) "mechanical" None None None;
  mk "coupling" 50 [("steel", 5)]
     20 (1 # 5) "mechanical" None None None;
  mk "bolt" 1000 [("steel", 5)]
     10 (1 # 10) "mechanical" None None None;
  mk "screw" 1000 [("steel", 3)]
     8 (2 # 25) "mechanical" None None None;
  mk "washer" 2000 [("steel", 2)]
     5 (1 # 20) "mechanical" None None None;
  mk "oring" 500 [("plastic", 2)]
     10 (1 # 10) "mechanical" None None None;
  mk "gasket" 200 [("plastic", 5)]
     15 (3 # 20) "mechanical" None None None;
  mk "capacitor" 1000 [("aluminum_sheet", 1); ("plastic", 2)]
     10 (1 # 10) "electronics" None None None;
  mk "resistor" 1000 [("copper_wire", 1); ("ceramic", (1 # 2))]
     5 (1 # 20) "electronics" None None None;
  mk "inductor" 500 [("copper_wire", 5); ("steel", 1)]
     20 (1 # 5) "electronics" None None None;
  mk "diode" 1000 [("silicon_wafer", (1 # 2))]
     15 (3 # 20) "electronics" None None None;
  mk "led" 500 [("silicon_wafer", 1); ("plastic", 1)]
     15 (3 # 20) "electronics" None None None;
  mk "electric_motor" 20 [("motor_coil", 4); ("rare_earth_magnets", 2); ("bearing", 4); ("steel", 20)]
     100 1 "mechanical" None None None;
  mk "servo_motor" 10 [("electric_motor", 1); ("encoder", 1); ("control_board", (1 # 5)); ("gear", 5)]
     150 (3 # 2) "assembly" None None None;
  mk "stepper_motor" 20 [("motor_coil", 8); ("rare_earth_magnets", 4); ("bearing", 2); ("steel", 10)]
     120 (6 # 5) "mechanical" None None None;
  mk "linear_actuator" 10 [("electric_motor", 1); ("ball_screw", 1); ("linear_guide", 2); ("encoder", 1)]
     200 2 "assembly" None None None;
  mk "pneumatic_cylinder" 20 [("aluminum_sheet", 10); ("oring", 4); ("steel", 5)]
     80 (4 # 5) "mechanical" None None None;
  mk "solenoid_valve" 50 [("steel", 2); ("copper_wire", 5); ("oring", 2)]
     40 (2 # 5) "mechanical" None None None;
  mk "thermocouple" 100 [("copper_wire", 2); ("steel", (1 # 2))]
     20 (1 # 5) "electronics" None None None;
  mk "pressure_transducer" 50 [("silicon_wafer", (1 # 2)); ("steel", 2); ("integrated_circuit", (1 # 2))]
     60 (3 # 5) "electronics" None None None;
  mk "flow_meter" 20 [("steel", 5); ("pressure_transducer", 1); ("integrated_circuit", 1)]
     100 1 "assembly" None None None;
  mk "proximity_sensor" 100 [("led", 1); ("integrated_circuit", (1 # 2)); ("plastic", 2)]
     30 (3 # 10) "electronics" None None None;
  mk "encoder" 50 [("led", 2); ("integrated_circuit", 1); ("glass", 1)]
     80 (4 # 5) "electronics" None None None;
  mk "load_cell" 20 [("steel", 5); ("strain_gauge", 4); ("integrated_circuit", 1)]
     120 (6 # 5) "assembly" None None None;
  mk "camera_module" 10 [("integrated_circuit", 5); ("glass", 2); ("plastic", 5)]
     150 (3 # 2) "electronics" None None None;
  mk "lidar" 5 [("laser_diode", 1); ("integrated_circuit", 10); ("glass", 5); ("servo_motor", 1)]
     300 3 "assembly" None None None;
  mk "voltage_regulator" 100 [("integrated_circuit", 1); ("capacitor", 10); ("inductor", 2)]
     40 (2 # 5) "electronics" None None None;
  mk "crystal_oscillator" 200 [("silicon_wafer", (1 # 5)); ("steel", (1 # 2))]
     30 (3 # 10) "electronics" None None None;
  mk "transformer" 20 [("copper_wire", 100); ("steel", 50)]
     150 (3 # 2) "mechanical" None None None;
  mk "inverter" 10 [("power_regulator", 4); ("capacitor", 50); ("heat_sink", 2); ("control_board", 1)]
     200 2 "assembly" None None None;
  mk "heat_sink" 100 [("aluminum_sheet", 5)]
     30 (3 # 10) "mechanical" None None None;
  mk "heat_exchanger" 10 [("aluminum_sheet", 50); ("copper_wire", 20); ("steel", 20)]
     200 2 "mechanical" None None None;
  mk "cooling_fan" 50 [("plastic", 5); ("electric_motor", (1 # 2)); ("bearing", 2)]
     40 (2 # 5) "assembly" None None None;
  mk "radiator" 10 [("aluminum_sheet", 30); ("copper_wire", 10); ("cooling_fan", 2)]
     150 (3 # 2) "assembly" None None None;
  mk "chiller_unit" 2 [("heat_exchanger", 2); ("compressor", 1); ("control_board", 2); ("steel", 200)]
     500 5 "assembly" None None None;
  mk "chemical_pump" 20 [("steel", 20); ("electric_motor", 1); ("gasket", 5); ("coupling", 2)]
     150 (3 # 2) "assembly" None None None;
  mk "catalyst" 10 [("rare_earth_ore", 5)]
     100 2 "chemical" None None None;
  mk "separation_membrane" 20 [("polymer_resin", 10); ("ceramic", 5)]
     150 3 "chemical" None None None;
  mk "cnc_spindle" 5 [("steel", 50); ("precision_bearing", 10); ("servo_motor", 1)]
     300 3 "assembly" None None None;
  mk "laser_diode" 50 [("silicon_wafer", 2); ("rare_earth_magnets", (1 # 2))]
     100 1 "cleanroom" None (Some 1000%Z) None;
  mk "focusing_lens" 100 [("glass", 5)]
     50 (1 # 2) "mechanical" (Some 1) None None;
  mk "vacuum_pump" 5 [("steel", 100); ("electric_motor", 2); ("gasket", 10)]
     400 4 "assembly" None None None;
  mk "mass_flow_controller" 20 [("flow_meter", 1); ("solenoid_valve", 2); ("control_board", (1 # 2))]
     200 2 "assembly" None None None;
  mk "oscilloscope" 5 [("control_board", 5); ("display_panel", 1); ("plastic", 20)]
     500 5 "assembly" None None None;
  mk "multimeter" 50 [("integrated_circuit", 2); ("display_panel", (1 # 5)); ("plastic", 2)]
     50 (1 # 2) "assembly" None None None;
  mk "tensile_tester" 2 [("load_cell", 2); ("linear_actuator", 2); ("steel", 200); ("control_board", 2)]
     600 6 "assembly" None None None;
  mk "hepa_filter" 50 [("polymer_resin", 10); ("aluminum_sheet", 5)]
     100 1 "assembly" None None None;
  mk "laminar_flow_hood" 5 [("hepa_filter", 4); ("cooling_fan", 4); ("steel", 100); ("glass", 20)]
     400 4 "assembly" None None None;
  mk "particle_counter" 10 [("laser_diode", 1); ("integrated_circuit", 5); ("plastic", 10)]
     200 2 "assembly" None None None;
  mk "pcb_substrate" 100 [("glass", 10); ("polymer_resin", 5); ("copper_wire", 2)]
     100 1 "electronics" None None None;
  mk "solder_paste" 10 [("lead", 5); ("tin", 5); ("flux", 1)]
     50 (1 # 2) "chemical" None None None;
  mk "connector" 500 [("plastic", 5); ("copper_wire", 2)]
     30 (3 # 10) "mechanical" None None None;
  mk "wire_harness" 20 [("copper_wire", 50); ("connector", 20); ("plastic", 10)]
     100 1 "assembly" None None None;
  mk "optical_sorter" 2 [("camera_module", 10); ("conveyor_belt", 5); ("control_board", 5); ("ai_model", 1)]
     600 6 "assembly" None None None;
  mk "ceramic" 100 [("silicon_ore", 50); ("aluminum_ore", 20)]
     200 2 "refining" None None None;
  mk "organic_solvent" 100 [("carbon_ore", 50)]
     80 1 "chemical" None None None;
  mk "motor_coil" 20 [("copper_wire", 50); ("steel", 5)]
     25 (1 # 2) "mechanical" None None None;
  mk "lead" 100 [("carbon_ore", 20)]
     50 (1 # 2) "refining" None None None;
  mk "tin" 100 [("aluminum_ore", 20)]
     50 (1 # 2) "refining" None None None;
  mk "flux" 50 [("organic_solvent", 10)]
     30 (3 # 10) "chemical" None None None;
  mk "strain_gauge" 100 [("resistor", 10); ("steel", 1)]
     40 (2 # 5) "electronics" None None None;
  mk "compressor" 5 [("electric_motor", 1); ("steel", 50)]
     200 2 "mechanical" None None None;
  mk "display_panel" 10 [("glass", 20); ("led", 100); ("integrated_circuit", 5)]
     300 3 "assembly" None None None
 ].

(** What expanding a recipe asks for: its inputs, then the software it
    requires. *)
Definition needs (r : Rcp.Recipe) : list string :=
  (map fst (Rcp.inputs r)
   ++ match Rcp.software_required r with Some sw => [sw] | None => [] end)%list.

(** Every recipe produces a quantity that is not zero and needs only
    resources of a lower rank than its output. *)
Definition ranked_by (rank : string -> nat) (RECIPES : list Rcp.Recipe) : bool :=
  forallb (fun r =>
             negb (Qeq_bool (Rcp.output_quantity r) 0)
             && forallb (fun i => Nat.ltb (rank i) (rank (Rcp.output r))) (needs r))
          RECIPES.

(** The height of a resource in the recipe graph, explored to depth
    [fuel]; a resource without recipe has height 0. *)
Fixpoint depth (fuel : nat) (RECIPES : list Rcp.Recipe) (o : string) : nat :=
  match fuel with
  | O => O
  | S fuel' =>
      match find (fun r => String.eqb (Rcp.output r) o) RECIPES with
      | None => O
      | Some r => S (list_max (map (depth fuel' RECIPES) (needs r)))
      end
  end.

(** The call did not raise. *)
Definition never_raised {A : Type} (o : Outcome A) : Prop :=
  match o with Raised _ _ => False | _ => True end.

End Recipes.

Module Order.

Import Fac Props.

(** The order [heapq] keeps the entries of the task queue in: by
    priority, then by task id. *)
Definition entry_le {A : Type} (x y : Z * string * A) : Prop :=
  Heap.key_le (fst (fst x)) (snd (fst x)) (fst (fst y)) (snd (fst y)) = true.

(** Every entry comes before the entries behind it. *)
Definition ordered {A : Type} (h : list (Z * string * A)) : Prop :=
  StronglySorted entry_le h.

(** The entries of [f] are still queued in [f']. *)
Definition queue_grew (f f' : Factory) : Prop :=
  forall x, In x (task_queue f) -> In x (task_queue f').

(** The ids in the dependency set of [task] are ids of queued
    tasks. *)
Definition backed (f : Factory) (task : Tk.Task) : Prop :=
  forall dep_id, dep_id ∈ Tk.dependencies task ->
    exists dep, In (Tk.priority dep, dep_id, dep) (task_queue f)
                /\ Tk.task_id dep = dep_id.

(** What the recursive call returns has been queued. *)
Definition sound (rec : expander) : Prop :=
  forall f o q p v f' t,
    rec f o q p v = Returned f' (Some t) ->
    In (Tk.priority t, Tk.task_id t, t) (task_queue f').

End Order.

Module Upkeep.

Import Fac Props.

(** A component of the state that the phases of [simulate_step]
    around task admission never assign: the energy update, the
    transport tick, task completion, maintenance, cleaning and
    metrics. *)
Definition untouched_by_upkeep {X : Type} (proj : Factory -> X) : Prop :=
  untouched_by_completion proj
  /\ (forall f v, proj (with_active_tasks f v) = proj f)
  /\ (forall f v, proj (with_energy_system f v) = proj f)
  /\ (forall f v, proj (with_last_metric_time f v) = proj f)
  /\ (forall f v, proj (with_metrics f v) = proj f).

(** The last two assignments of [simulate_step]: the clock and the
    age of the equipment. *)
Definition advance_clock (f : Factory) (duration_hours : Q) : Factory :=
  let f := with_time f (time f + duration_hours) in
  with_energy_system f
    (age_equipment (energy_system f) duration_hours (enable_weather (config f))).

End Upkeep.

Module Service.

(** What [update_maintenance] does to one module at time [now]: a
    module whose maintenance has ended goes back into service with
    its efficiency raised by a tenth, up to 1. *)
Definition serviced (now : Q) (m : Mod.ModuleState) : Mod.ModuleState :=
  if Mod.is_in_maintenance m && Py.geb now (Mod.maintenance_end_time m)
  then Mod.with_maintenance m false (Mod.maintenance_end_time m) 0
                            (Qmin 1 (Mod.current_efficiency m * (11 # 10)))
  else m.

End Service.

Module Ids.

Import Fac.

(** [int(s)] for a string of decimal digits. *)
Definition int_of (s : string) : option nat :=
  option_map Nat.of_uint (NilEmpty.uint_of_string s).

(** No character of [s] is an underscore. *)
Fixpoint no_underscore (s : string) : Prop :=
  match s with
  | EmptyString => True
  | String c rest => c <> "_"%char /\ no_underscore rest
  end.

(** The module stored under [module_id] is free. *)
Definition idle_at (f : Factory) (module_id : string) : Prop :=
  exists m, Dict.get (module_states f) module_id = Some m
            /\ Mod.current_task m = None.

End Ids.

(** The jobs the transport system holds. *)
Module Jobs.

(** The ids under which the system holds a job: those of the queued
    entries, then the keys of [active_transports]. *)
Definition held_ids (ts : Transport.TransportSystem) : list string :=
  (map (fun e => snd (fst e)) (Transport.transport_queue ts)
   ++ Dict.keys (Transport.active_transports ts))%list.

(** [job'] is [job] once started: the same cargo, route, priority and
    id, with a completion time. *)
Definition started_from (job job' : Transport.TransportJob) : Prop :=
  Transport.job_id job' = Transport.job_id job
  /\ Transport.from_module job' = Transport.from_module job
  /\ Transport.to_module job' = Transport.to_module job
  /\ Transport.resource_type job' = Transport.resource_type job
  /\ Transport.quantity job' = Transport.quantity job
  /\ Transport.priority job' = Transport.priority job
  /\ Transport.distance job' = Transport.distance job
  /\ Transport.completion_time job' <> None.

(** [e] ties with an entry of [h] on both the priority and the id:
    the case in which [heapq] goes on to compare the jobs themselves,
    which have no order. *)
Definition tied (h : list (Z * string * Transport.TransportJob))
           (e : Z * string * Transport.TransportJob) : bool :=
  existsb (fun x => Z.eqb (fst (fst x)) (fst (fst e))
                    && String.eqb (snd (fst x)) (snd (fst e))) h.

(** A job is scheduled and dispatched, then a second one. *)
Definition one_after_another : Transport.TransportSystem * Transport.TransportSystem :=
  let ts := Transport.init CONFIG in
  let ts := fst (Transport.schedule_transport ts "mining" "storage" "iron_ore" 10 50) in
  let first := Transport.process_transport_queue ts 0 in
  let ts := fst (Transport.schedule_transport first "refining" "storage" "steel" 20 50) in
  (first, Transport.process_transport_queue ts 0).

(** Two jobs are scheduled, then dispatched. *)
Definition two_queued : Transport.TransportSystem :=
  let ts := Transport.init CONFIG in
  let ts := fst (Transport.schedule_transport ts "mining" "storage" "iron_ore" 10 50) in
  fst (Transport.schedule_transport ts "refining" "storage" "steel" 2000 50).

End Jobs.

(** The cycle error of recipe expansion. *)
Module Cycles.

Import Fac.


End Cycles.

(** The draw on the waste stream in recipe expansion. *)
Module Draws.

Import Fac Scenario.


(** What the waste stream and storage hold of a resource. *)
Definition in_waste (f : Factory) (resource : string) : Q :=
  default 0 (Waste.waste_inventory (waste_stream f) !! resource).



(** The part of the draw that is recovered. *)
Definition recovered (f : Factory) (resource : string) (required : Q) : Q :=
  match Dict.get (Waste.recyclable_materials (waste_stream f)) resource with
  | Some recovery_rate => Qmin required (in_waste f resource) * recovery_rate
  | None => 0
  end.






End Draws.

(** The admission phase as a sequence of calls. *)
Module Admission.

Import Fac.

(** The admission phase took the entries [popped] off the head of the
    queue of [f], one after the other, called [process_task] on the
    task of each in the state the call before it had left, the entry
    gone from the queue, got the answers [results], and ended in
    [f']. *)
Inductive admitted (orc : Oracles)
  : Factory -> list (Z * string * Tk.Task) -> list bool -> Factory -> Prop :=
| admitted_none (f : Factory) : admitted orc f [] [] f
| admitted_next (f f1 f' : Factory) (e : Z * string * Tk.Task)
                (rest popped : list (Z * string * Tk.Task))
                (ok : bool) (results : list bool) :
    Heap.heappop (task_queue f) = Some (e, rest) ->
    process_task orc (with_task_queue f rest) (snd e) = Returned f1 ok ->
    admitted orc f1 popped results f' ->
    admitted orc f (e :: popped) (ok :: results) f'.

(** The number of calls that answered [True]. *)
Definition starts (results : list bool) : nat :=
  List.length (List.filter (fun ok : bool => ok) results).

End Admission.

(** What the due tasks of a step leave in storage and in the record. *)
Module Ledger.

Import Fac.

(** The deposits that the due entries of a snapshot of the active map
    lead to, tried in order on the store [s]: the entries whose output
    storage accepts, and the store after them. A rejected deposit
    leaves the store as it is. *)
Fixpoint settle (now : Q) (snapshot : list (string * Tk.Task))
         (s : Storage.StorageSystem)
  : list (string * Tk.Task) * Storage.StorageSystem :=
  match snapshot with
  | [] => ([], s)
  | (task_id, task) :: rest =>
      if Py.geb now (Tk.completion_time task) then
        let deposit :=
          Storage.add_resource s (Tk.output task) (Tk.actual_output task) in
        if snd deposit
        then let r := settle now rest (fst deposit) in
             ((task_id, task) :: fst r, snd r)
        else settle now rest s
      else settle now rest s
  end.

Definition accepted (now : Q) (snapshot : list (string * Tk.Task))
           (s : Storage.StorageSystem) : list (string * Tk.Task) :=
  fst (settle now snapshot s).

Definition store_after (now : Q) (snapshot : list (string * Tk.Task))
           (s : Storage.StorageSystem) : Storage.StorageSystem :=
  snd (settle now snapshot s).

(** The task as it is appended to the completed tasks. *)
Definition finished (e : string * Tk.Task) : Tk.Task :=
  Tk.with_status (snd e) Tk.completed.

(** [self.time >= task.completion_time] *)
Definition is_due (now : Q) (e : string * Tk.Task) : bool :=
  Py.geb now (Tk.completion_time (snd e)).

End Ledger.

(** The bounds on the output of a task. *)
Module Batches.

Import Fac.

(** The spec of a module is the one [MODULE_SPECS] holds for its
    type, or none when it holds none. *)
Definition of_its_kind (MODULE_SPECS : list (string * MSpec.ModuleSpec))
           (m : Mod.ModuleState) : Prop :=
  Mod.spec m = Dict.get MODULE_SPECS (Mod.module_type m).

(** An output [expected] for a task of [quantity] units made with
    [recipe]: with [B] the batch size on a module of the kind the
    recipe requires, between half of [B] and [B] if [B] is not
    negative; the quantity itself where that kind has no spec. *)
Definition yields (cfg : Config) (MODULE_SPECS : list (string * MSpec.ModuleSpec))
           (task : Tk.Task) (expected : Q) : Prop :=
  match Dict.get MODULE_SPECS (required_module_of task) with
  | Some sp =>
      let b := batch_size_of cfg sp (Tk.quantity task) in
      0 <= b -> (5 # 10) * b <= expected /\ expected <= b
  | None => expected = Tk.quantity task
  end.

Definition within_batch (cfg : Config)
           (MODULE_SPECS : list (string * MSpec.ModuleSpec)) (t : Tk.Task) : Prop :=
  yields cfg MODULE_SPECS t (Tk.actual_output t).

(** What the factory keeps true of its modules and of the tasks it
    has started. *)
Definition books_kept (cfg : Config)
           (MODULE_SPECS : list (string * MSpec.ModuleSpec)) (f : Factory) : Prop :=
  config f = cfg
  /\ NoDup (Dict.keys (module_states f))
  /\ (forall mid m, In (mid, m) (module_states f) -> of_its_kind MODULE_SPECS m)
  /\ (forall k t, In (k, t) (active_tasks f) -> within_batch cfg MODULE_SPECS t)
  /\ (forall t, In t (completed_tasks f) ->
                Tk.status t = Tk.completed /\ within_batch cfg MODULE_SPECS t).

(** The components [books_kept] speaks of. *)
Definition books (f : Factory)
  : Config * list (string * Mod.ModuleState) * list (string * Tk.Task) * list Tk.Task :=
  (config f, module_states f, active_tasks f, completed_tasks f).

End Batches.

(** * Properties *)

Import Props SpecWords Scenario.
Import Fac.

(** Case analysis on every [match] of an unfolded method, for goals
    that hold by computation in each branch. *)
Ltac by_cases :=
  repeat case_match; simpl;
  repeat match goal with
    | H : (_, _) = (_, _) |- _ => inversion H; subst; clear H
    end;
  simpl; try reflexivity; try assumption.

(** ** Comparisons and the battery *)

Lemma Py_ltb_lt a b : Py.ltb a b = true <-> a < b.
Proof.
  unfold Py.ltb. rewrite negb_true_iff, <- not_true_iff_false, Qle_bool_iff.
  split; [apply Qnot_le_lt | apply Qlt_not_le].
Qed.

Lemma Py_ltb_ge a b : Py.ltb a b = false <-> b <= a.
Proof. unfold Py.ltb. rewrite negb_false_iff. apply Qle_bool_iff. Qed.

Lemma Py_leb_le a b : Py.leb a b = true <-> a <= b.
Proof. apply Qle_bool_iff. Qed.

Lemma Py_leb_gt a b : Py.leb a b = false <-> b < a.
Proof.
  unfold Py.leb. rewrite <- not_true_iff_false, Qle_bool_iff.
  split; [apply Qnot_le_lt | apply Qlt_not_le].
Qed.

Lemma update_battery_in_bounds (e : Energy.EnergySystem) (delta hours : Q) :
  0 <= battery_efficiency (Energy.config e) ->
  Energy.in_bounds e ->
  Energy.in_bounds (fst (Energy.update_battery e delta hours)).
Proof.
  intros Heff [Hlo Hhi]. unfold Energy.update_battery, Energy.in_bounds.
  destruct (Py.gtb delta 0) eqn:Hd; simpl.
  - apply Py_ltb_lt in Hd.
    assert (Hcap : 0 <= Energy.battery_capacity_kwh e) by lra.
    assert (Hrate : 0 <= Qmin delta (Energy.battery_capacity_kwh e * (5 # 10))).
    { apply Q.min_glb; lra. }
    pose proof (Qmult_le_0_compat _ _ Hrate Heff) as Hgain.
    split.
    + apply Q.min_glb; lra.
    + pose proof (Q.le_min_l (Energy.battery_capacity_kwh e * (95 # 100))
                    (Energy.battery_charge_kwh e
                     + Qmin delta (Energy.battery_capacity_kwh e * (5 # 10))
                       * battery_efficiency (Energy.config e))).
      lra.
  - set (d := Qmin (Qmin (Qabs delta) (Energy.battery_capacity_kwh e * (5 # 10)))
                   (Energy.battery_charge_kwh e
                    - Energy.battery_capacity_kwh e * (2 # 10))).
    assert (Hcap : 0 <= Energy.battery_capacity_kwh e) by lra.
    assert (Hd0 : 0 <= d).
    { unfold d. apply Q.min_glb; [apply Q.min_glb|]; try lra. apply Qabs_nonneg. }
    assert (Hd1 : d <= Energy.battery_charge_kwh e
                       - Energy.battery_capacity_kwh e * (2 # 10))
      by apply Q.le_min_r.
    split; lra.
Qed.

(** ** Recipe expansion *)

Lemma ends_in_bind {A B : Type} (P Q : Factory -> Prop)
      (m : Outcome A) (k : Factory -> A -> Outcome B) :
  ends_in P m ->
  (forall f, P f -> Q f) ->
  (forall f a, P f -> ends_in Q (k f a)) ->
  ends_in Q (bind m k).
Proof.
  intros Hm HPQ Hk. destruct m as [f a | f e |]; simpl in *; auto.
Qed.

Lemma terminates_bind {A B : Type} (m : Outcome A) (k : Factory -> A -> Outcome B) :
  terminates m -> (forall f a, terminates (k f a)) -> terminates (bind m k).
Proof. intros Hm Hk. destruct m; simpl in *; auto. Qed.

Lemma remaining_shrinks (producible visited : gset string) (o : string) :
  o ∈ producible -> o ∉ visited ->
  (size (producible ∖ (visited ∪ {[o]})) < size (producible ∖ visited))%nat.
Proof.
  intros Hin Hnot. apply subset_size. split; [set_solver |].
  intros Hsub. assert (o ∈ producible ∖ (visited ∪ {[o]})) by set_solver.
  set_solver.
Qed.

Section Expansion.
Variable RECIPES : list Rcp.Recipe.


Lemma expand_inputs_terminates (rec : expander) (visited : gset string) :
  (forall f o q p, terminates (rec f o q p visited)) ->
  forall ins recipe quantity priority f task,
    terminates (expand_inputs rec ins recipe quantity priority visited f task).
Proof.
  intros Hrec. induction ins as [| [input_resource input_qty] rest IH];
    intros recipe quantity priority f task; simpl.
  - exact I.
  - destruct (Qeq_bool (Rcp.output_quantity recipe) 0); [exact I |].
    destruct (Py.ltb _ _); [| apply IH].
    apply terminates_bind; [apply Hrec |]. intros f2 dep. apply IH.
Qed.

Lemma find_recipe_producible (o : string) (recipe : Rcp.Recipe) :
  find (fun r => String.eqb (Rcp.output r) o) RECIPES = Some recipe ->
  o ∈ producible RECIPES.
Proof.
  intros Hfind. apply find_some in Hfind as [Hin Heq].
  apply String.eqb_eq in Heq. subst o. unfold producible.
  apply elem_of_list_to_set, list_elem_of_In, in_map, Hin.
Qed.

(** Enough fuel: one unit per producible resource not yet visited, and
    one for the call itself. *)
Lemma create_production_task_terminates (fuel : nat) :
  forall f output quantity priority visited,
    (size (producible RECIPES ∖ visited) < fuel)%nat ->
    terminates (create_production_task RECIPES fuel f output quantity priority visited).
Proof.
  induction fuel as [| fuel IH]; intros f output quantity priority visited Hfuel;
    [lia |].
  simpl. unfold create_production_task_body.
  destruct (bool_decide (output ∈ visited)) eqn:Hvis; [exact I |].
  apply bool_decide_eq_false in Hvis.
  destruct (find _ RECIPES) as [recipe |] eqn:Hfind; [| exact I].
  destruct (negb _); [exact I |].
  pose proof (remaining_shrinks (producible RECIPES) visited output
                (find_recipe_producible _ _ Hfind) Hvis) as Hlt.
  assert (Hrec : forall f0 o q p,
             terminates (create_production_task RECIPES fuel f0 o q p
                                                (visited ∪ {[output]}))).
  { intros. apply IH. lia. }
  apply terminates_bind; [apply expand_inputs_terminates; exact Hrec |].
  intros f2 task2. simpl.
  destruct (Rcp.software_required recipe); simpl; [| exact I].
  apply terminates_bind; [apply Hrec |]. intros; exact I.
Qed.

End Expansion.

Section ExpansionFrame.
Variable RECIPES : list Rcp.Recipe.


Variable X : Type.
Variable proj : Factory -> X.
Hypothesis Hproj : untouched_by_expansion proj.

Lemma expand_inputs_frame (rec : expander) (x : X) :
  (forall f o q p v, proj f = x -> ends_in (fun f' => proj f' = x) (rec f o q p v)) ->
  forall ins recipe quantity priority visited f task,
    proj f = x ->
    ends_in (fun f' => proj f' = x)
            (expand_inputs rec ins recipe quantity priority visited f task).
Proof.
  intros Hrec. induction ins as [| [input_resource input_qty] rest IH];
    intros recipe quantity priority visited f task Hs; simpl.
  - exact Hs.
  - destruct (Qeq_bool (Rcp.output_quantity recipe) 0); [exact Hs |].
    set (recycled := if Dict.mem _ _ then _ else _).
    assert (Hf1 : proj (fst recycled) = x).
    { unfold recycled. destruct (Dict.mem _ _); simpl; [| exact Hs].
      destruct Hproj as (Hw & _). rewrite Hw. exact Hs. }
    destruct (Py.ltb _ _).
    + eapply ends_in_bind; [apply Hrec; exact Hf1 | auto |].
      intros f2 dep Hf2. apply IH. exact Hf2.
    + apply IH. exact Hf1.
Qed.

Lemma body_frame (rec : expander) (x : X) :
  (forall f o q p v, proj f = x -> ends_in (fun f' => proj f' = x) (rec f o q p v)) ->
  forall f output quantity priority visited,
    proj f = x ->
    ends_in (fun f' => proj f' = x)
            (create_production_task_body RECIPES rec f output quantity priority visited).
Proof.
  intros Hrec f output quantity priority visited Hs.
  destruct Hproj as (Hw & Hc & Hq & Hl).
  assert (Hlog : forall f m l, proj (log f m l) = proj f)
    by (intros; unfold log; apply Hl).
  unfold create_production_task_body.
  destruct (bool_decide _); [exact Hs |].
  destruct (find _ RECIPES) as [recipe |]; [| simpl; rewrite Hlog; exact Hs].
  destruct (negb _); [simpl; rewrite Hlog; exact Hs |].
  eapply ends_in_bind.
  - apply expand_inputs_frame; [exact Hrec | rewrite Hc; exact Hs].
  - auto.
  - intros f2 task2 Hf2. simpl.
    destruct (Rcp.software_required recipe) as [sw |]; simpl;
      [| rewrite Hlog, Hq; exact Hf2].
    eapply ends_in_bind; [apply Hrec; exact Hf2 | auto |].
    intros f3 sw_task Hf3. simpl. rewrite Hlog, Hq. exact Hf3.
Qed.

Lemma create_production_task_frame (fuel : nat) :
  forall f output quantity priority visited,
    ends_in (fun f' => proj f' = proj f)
            (create_production_task RECIPES fuel f output quantity priority visited).
Proof.
  induction fuel as [| fuel IH]; intros f output quantity priority visited; simpl.
  - exact I.
  - apply body_frame; [| reflexivity].
    intros f0 o q p v Hf0. rewrite <- Hf0. apply IH.
Qed.

End ExpansionFrame.

Lemma process_recycling_draw (w : Waste.WasteStream) (r : string) (q rate : Q) :
  Dict.get (Waste.recyclable_materials w) r = Some rate ->
  let have := default 0 (Waste.waste_inventory w !! r) in
  Waste.waste_inventory (fst (Waste.process_recycling w r q)) !! r
    = Some (have - Qmin q have)
  /\ snd (Waste.process_recycling w r q) = Qmin q have * rate.
Proof.
  intros Hrate. unfold Waste.process_recycling. rewrite Hrate. simpl.
  split; [apply lookup_insert_eq | reflexivity].
Qed.

(** ** Starting tasks *)

Lemma halts_in_bind {A B : Type} (P : Factory -> Prop)
      (m : Outcome A) (k : Factory -> A -> Outcome B) :
  halts_in P m ->
  (forall f a, P f -> halts_in P (k f a)) ->
  halts_in P (bind m k).
Proof. intros Hm Hk. destruct m as [f a | f e |]; simpl in *; auto. Qed.

Section Frames.
Variable orc : Oracles.
Variable P : Factory -> Prop.
Hypothesis HP : kept_when_starting P.

Lemma kept_log f msg lvl : P f -> P (log f msg lvl).
Proof. intros H. unfold log. apply HP. exact H. Qed.

Lemma kept_block f task st : P f -> P (block f task st).
Proof. intros H. unfold block. apply HP. exact H. Qed.

Lemma calculate_production_parameters_keeps f task mid ms :
  P f -> halts_in P (calculate_production_parameters orc f task mid ms).
Proof.
  intros H. destruct HP as (_ & _ & _ & Hms & Hdr & _).
  unfold calculate_production_parameters.
  repeat case_match; simpl;
    repeat match goal with
      | E : (_, _) = (_, _) |- _ => inversion E; subst; clear E
      end;
    simpl; repeat first [apply kept_log | apply Hdr | apply Hms]; exact H.
Qed.

Lemma schedule_inputs_keeps ins : forall f task to_module tt,
  P f -> halts_in P (schedule_inputs ins f task to_module tt).
Proof.
  induction ins as [| [r q] rest IH]; intros f task to_module tt H; simpl;
    [exact H |].
  case_match; [exact H |]. apply IH. apply HP. exact H.
Qed.

Lemma missing_input_keeps ins : forall f task,
  P f -> halts_in P (missing_input ins f task).
Proof.
  induction ins as [| [r q] rest IH]; intros f task H; simpl; [exact H |].
  repeat case_match; simpl; auto.
Qed.

Lemma consume_inputs_keeps ins : forall f task,
  P f -> halts_in P (consume_inputs ins f task).
Proof.
  induction ins as [| [r q] rest IH]; intros f task H; simpl; [exact H |].
  repeat case_match; simpl; auto. apply IH. apply HP. exact H.
Qed.

Lemma start_production_keeps f task mid p :
  P f -> halts_in P (start_production f task mid p).
Proof.
  intros H. unfold start_production.
  apply halts_in_bind.
  - apply consume_inputs_keeps. case_match; [apply HP |]; exact H.
  - intros f1 [] Hf1. simpl. apply kept_log.
    destruct HP as (_ & Hact & _ & _ & _ & _ & _ & Hbat).
    apply Hact, Hbat, Hf1.
Qed.

Lemma resource_gate_keeps f task mid p :
  P f -> halts_in P (resource_gate f task mid p).
Proof.
  intros H. unfold resource_gate.
  apply halts_in_bind; [apply schedule_inputs_keeps; exact H |]. intros f1 tt1 H1.
  apply halts_in_bind; [apply missing_input_keeps; exact H1 |]. intros f2 missing H2.
  destruct missing as [[input_resource required] |].
  - simpl. apply kept_log, kept_block, H2.
  - apply start_production_keeps, H2.
Qed.

Lemma energy_gate_keeps f task mid p :
  P f -> halts_in P (energy_gate orc f task mid p).
Proof.
  intros H. unfold energy_gate.
  assert (Hd : forall n, P (with_draws f n)) by (intros; apply HP; exact H).
  case_match; simpl.
  - apply kept_log, kept_block, Hd.
  - apply resource_gate_keeps, Hd.
Qed.

Lemma thermal_gate_keeps f task mid p :
  P f -> halts_in P (thermal_gate orc f task mid p).
Proof.
  intros H. unfold thermal_gate. case_match; simpl.
  - apply kept_log, kept_block, H.
  - apply energy_gate_keeps, H.
Qed.

Lemma process_task_keeps f task :
  P f -> halts_in P (process_task orc f task).
Proof.
  intros H. unfold process_task.
  case_match; [simpl; apply kept_block, H |].
  case_match; [| simpl; apply kept_log, kept_block, H].
  case_match; [simpl; apply kept_log, kept_block, H |].
  case_match; [| exact H].
  apply halts_in_bind; [apply calculate_production_parameters_keeps, H |].
  intros f1 tp Hf1. case_match.
  - apply thermal_gate_keeps, Hf1.
  - simpl. apply kept_block, Hf1.
Qed.
End Frames.

Lemma halts_in_weaken {A} (P Q : Factory -> Prop) (o : Outcome A) :
  (forall f, P f -> Q f) -> halts_in P o -> halts_in Q o.
Proof. intros H. destruct o; simpl; auto. Qed.

Lemma queue_kept_when_starting (q : list (Z * string * Tk.Task)) :
  kept_when_starting (fun f => task_queue f = q).
Proof. repeat split; intros; assumption. Qed.

Section Admission.
Variable orc : Oracles.

Lemma process_task_queue f task :
  halts_in (fun f' => task_queue f' = task_queue f) (process_task orc f task).
Proof.
  apply process_task_keeps; [apply queue_kept_when_starting | reflexivity].
Qed.

(** The admission loop pops from the head of the queue and nothing
    else touches the queue. *)
Lemma admission_loop_spec fuel : forall f started,
  (List.length (task_queue f) < fuel)%nat ->
  (started <= MAX_TASK_STARTS_PER_STEP)%nat ->
  match admission_loop orc fuel f started with
  | Returned f' n =>
      (started <= n <= MAX_TASK_STARTS_PER_STEP)%nat
      /\ (exists k, task_queue f' = skipn k (task_queue f))
      /\ (n = MAX_TASK_STARTS_PER_STEP \/ task_queue f' = [])
  | Raised _ _ => True
  | OutOfFuel => False
  end.
Proof.
  induction fuel as [| fuel IH]; intros f started Hfuel Hstarted; [lia |].
  simpl. destruct (task_queue f) as [| [[priority task_id] task] rest] eqn:Hq; simpl.
  - split; [lia |]. split; [exists 0%nat; rewrite ?Hq; reflexivity | right; exact Hq].
  - destruct (Nat.ltb started MAX_TASK_STARTS_PER_STEP) eqn:Hlt.
    + apply Nat.ltb_lt in Hlt.
      pose proof (process_task_queue (with_task_queue f rest) task) as Hframe.
      destruct (process_task orc (with_task_queue f rest) task) as [f1 ok | |];
        simpl in *; [| exact I | exact Hframe].
      specialize (IH f1 (if ok then S started else started)).
      rewrite Hframe in IH.
      assert (Hs : ((if ok then S started else started)
                    <= MAX_TASK_STARTS_PER_STEP)%nat)
        by (destruct ok; lia).
      specialize (IH ltac:(simpl in Hfuel; lia) Hs).
      destruct (admission_loop orc fuel f1 _) as [f' n | |]; [| exact I | exact IH].
      destruct IH as (Hn & [k Hk] & Hexit).
      split; [destruct ok; lia |].
      split; [exists (S k); exact Hk | exact Hexit].
    + apply Nat.ltb_ge in Hlt.
      split; [lia |]. split; [exists 0%nat; rewrite ?Hq; reflexivity | left; lia].
Qed.
End Admission.

(** ** Blocked tasks *)

Section DictFacts.
Context {V : Type}.
Implicit Types (d : list (string * V)) (k : string) (v : V).

Lemma dict_get_in d k v :
  NoDup (Dict.keys d) -> In (k, v) d -> Dict.get d k = Some v.
Proof.
  induction d as [| [k' v'] d IH]; intros Hnd Hin; [destruct Hin |].
  simpl in *. apply NoDup_cons in Hnd as [Hk' Hnd].
  destruct Hin as [Heq | Hin].
  - inversion Heq; subst. rewrite String.eqb_refl. reflexivity.
  - destruct (String.eqb_spec k' k) as [-> | Hne]; [| auto].
    exfalso. apply Hk'. apply list_elem_of_In.
    change k with (fst (k, v)). apply in_map. exact Hin.
Qed.

Lemma dict_get_del_same d k : NoDup (Dict.keys d) -> Dict.get (Dict.del d k) k = None.
Proof.
  induction d as [| [k' v'] d IH]; intros Hnd; [reflexivity |].
  simpl in *. apply NoDup_cons in Hnd as [Hk' Hnd].
  destruct (String.eqb_spec k' k) as [-> | Hne].
  - destruct (Dict.get d k) as [v |] eqn:Hget; [| reflexivity].
    exfalso. apply Hk'. clear -Hget. induction d as [| [k2 v2] d IH]; [discriminate |].
    simpl in *. destruct (String.eqb_spec k2 k) as [-> | Hne]; [left | right; auto].
  - simpl. destruct (String.eqb_spec k' k); [contradiction | auto].
Qed.

Lemma dict_get_del_other d k k' : k <> k' -> Dict.get (Dict.del d k) k' = Dict.get d k'.
Proof.
  intros Hne. induction d as [| [k2 v2] d IH]; [reflexivity |]. simpl.
  destruct (String.eqb_spec k2 k) as [-> | Hne2]; simpl.
  - destruct (String.eqb_spec k k'); [contradiction | reflexivity].
  - rewrite IH. reflexivity.
Qed.

Lemma dict_keys_del d k : NoDup (Dict.keys d) -> NoDup (Dict.keys (Dict.del d k)).
Proof.
  induction d as [| [k' v'] d IH]; intros Hnd; [constructor |]. simpl in *.
  apply NoDup_cons in Hnd as [Hk' Hnd].
  destruct (String.eqb k' k); [exact Hnd |]. simpl. apply NoDup_cons. split; [| auto].
  intros Hin. apply Hk'. clear -Hin. apply list_elem_of_In in Hin. apply list_elem_of_In.
  induction d as [| [k2 v2] d IH]; [destruct Hin |]. simpl in *.
  destruct (String.eqb k2 k); [right; exact Hin |].
  destruct Hin as [Heq | Hin]; [left; exact Heq | right; auto].
Qed.

(** Deleting a list of keys one after the other. *)
Lemma dict_get_del_all (ks : list string) : forall d k,
  NoDup (Dict.keys d) ->
  Dict.get (fold_left (fun a key => Dict.del a key) ks d) k
  = if bool_decide (k ∈ ks) then None else Dict.get d k.
Proof.
  induction ks as [| k0 ks IH]; intros d k Hnd; cbn [fold_left].
  - case_bool_decide as H; [| reflexivity].
    exfalso. exact (not_elem_of_nil _ H).
  - rewrite IH by (apply dict_keys_del; exact Hnd).
    destruct (String.eqb_spec k0 k) as [-> | Hne].
    + rewrite dict_get_del_same by exact Hnd.
      repeat case_bool_decide; try reflexivity.
      all: exfalso;
        match goal with H : _ ∉ _ :: _ |- _ => apply H; apply list_elem_of_here end.
    + rewrite dict_get_del_other by exact Hne.
      case_bool_decide as H1; case_bool_decide as H2; try reflexivity; exfalso.
      * apply H2. apply list_elem_of_further. exact H1.
      * apply elem_of_cons in H2 as [-> | H2]; contradiction.
Qed.
End DictFacts.

Lemma heappush_In {A : Type} (h : list (Z * string * A)) (e x : Z * string * A) :
  In x (Heap.heappush h e) <-> x = e \/ In x h.
Proof.
  induction h as [| y h IH]; simpl.
  - split; [intros [-> | []]; left; reflexivity | intros [-> | []]; left; reflexivity].
  - destruct (Heap.key_le _ _ _ _); simpl; [rewrite IH |]; intuition congruence.
Qed.

Lemma should_retry_dependencies (f : Factory) (t : Tk.Task) :
  Tk.status t = Tk.blocked_dependencies ->
  should_retry f t = true <-> Tk.dependencies t ⊆ completed_task_ids f.
Proof.
  intros Hst. unfold should_retry. rewrite Hst. rewrite forallb_forall. split.
  - intros H d Hd. eapply bool_decide_eq_true_1. apply H.
    apply list_elem_of_In, elem_of_elements, Hd.
  - intros H d Hd. apply bool_decide_eq_true_2, H.
    apply elem_of_elements, list_elem_of_In, Hd.
Qed.

Lemma should_retry_other (f : Factory) (t : Tk.Task) :
  other_blocked (Tk.status t) -> should_retry f t = true.
Proof.
  unfold other_blocked, should_retry. intros H.
  destruct (Tk.status t); try reflexivity;
    repeat (destruct H as [H | H]; try discriminate H); discriminate H.
Qed.

(** What the first loop of [check_blocked_tasks] computes. *)
Lemma check_blocked_fold (f0 : Factory) (l : list (string * Tk.Task)) :
  forall acc : Factory * list string,
    completed_task_ids (fst acc) = completed_task_ids f0 ->
    let step := fun (acc : Factory * list string) (e : string * Tk.Task) =>
      if should_retry (fst acc) (snd e) then
        (with_task_queue (fst acc)
           (Heap.heappush (task_queue (fst acc)) (requeued (snd e))),
         (snd acc ++ [fst e])%list)
      else acc in
    let r := fold_left step l acc in
    blocked_tasks (fst r) = blocked_tasks (fst acc)
    /\ snd r = (snd acc
                ++ map fst (List.filter (fun e => should_retry f0 (snd e)) l))%list
    /\ forall x, In x (task_queue (fst r)) <->
                 In x (task_queue (fst acc))
                 \/ exists e, In e l /\ should_retry f0 (snd e) = true
                              /\ x = requeued (snd e).
Proof.
  induction l as [| e l IH]; intros acc Hids; simpl.
  - split; [reflexivity |]. split; [rewrite app_nil_r; reflexivity |].
    intros x. split; [auto | intros [H | (e & [] & _)]; exact H].
  - assert (Hsame : should_retry (fst acc) (snd e) = should_retry f0 (snd e)).
    { unfold should_retry. rewrite Hids. reflexivity. }
    rewrite Hsame. destruct (should_retry f0 (snd e)) eqn:Hretry.
    + specialize (IH (with_task_queue (fst acc)
                        (Heap.heappush (task_queue (fst acc)) (requeued (snd e))),
                      (snd acc ++ [fst e])%list) Hids).
      simpl in IH. destruct IH as (Hb & Hk & Hq).
      split; [exact Hb |]. split; [rewrite Hk, <- app_assoc; reflexivity |].
      intros x. rewrite Hq, heappush_In. split.
      * intros [[-> | H] | (e' & Hin & Hr & ->)]; eauto 6.
      * intros [H | (e' & [-> | Hin] & Hr & ->)]; eauto 6.
    + specialize (IH acc Hids). simpl in IH. destruct IH as (Hb & Hk & Hq).
      split; [exact Hb |]. split; [exact Hk |].
      intros x. rewrite Hq. split.
      * intros [H | (e' & Hin & Hr & ->)]; eauto 6.
      * intros [H | (e' & [-> | Hin] & Hr & ->)]; eauto 6. congruence.
Qed.

Lemma check_blocked_tasks_entry (f : Factory) (k : string) (t : Tk.Task) :
  NoDup (Dict.keys (blocked_tasks f)) ->
  In (k, t) (blocked_tasks f) ->
  if should_retry f t
  then moved_to_queue (check_blocked_tasks f) k t
  else still_blocked (check_blocked_tasks f) k t.
Proof.
  intros Hnd Hin.
  pose proof (check_blocked_fold f (blocked_tasks f) (f, []) eq_refl) as H.
  cbv zeta in H. destruct H as (Hb & Hk & Hq). simpl in Hb, Hk, Hq.
  unfold moved_to_queue, still_blocked, check_blocked_tasks.
  change (fun (acc : Factory * list string) (e : string * Tk.Task) =>
            if should_retry (fst acc) (snd e) then
              (with_task_queue (fst acc)
                 (Heap.heappush (task_queue (fst acc))
                    (Tk.priority (Tk.with_status (snd e) Tk.queued),
                     Tk.task_id (Tk.with_status (snd e) Tk.queued),
                     Tk.with_status (snd e) Tk.queued)),
               (snd acc ++ [fst e])%list)
            else acc)
    with (fun (acc : Factory * list string) (e : string * Tk.Task) =>
            if should_retry (fst acc) (snd e) then
              (with_task_queue (fst acc)
                 (Heap.heappush (task_queue (fst acc)) (requeued (snd e))),
               (snd acc ++ [fst e])%list)
            else acc).
  set (r := fold_left _ (blocked_tasks f) (f, [])) in *.
  simpl. rewrite Hk, Hb. rewrite dict_get_del_all by exact Hnd.
  destruct (should_retry f t) eqn:Hretry.
  - split.
    + rewrite bool_decide_eq_true_2; [reflexivity |].
      apply list_elem_of_In. change k with (fst (k, t)). apply in_map.
      apply filter_In. split; [exact Hin | exact Hretry].
    + apply Hq. right. exists (k, t). auto.
  - rewrite bool_decide_eq_false_2; [apply dict_get_in; assumption |].
    intros Hk'. apply list_elem_of_In, in_map_iff in Hk' as ([k2 t2] & Heq & Hf).
    simpl in Heq. subst k2.
    apply filter_In in Hf as [Hin2 Hr2]. simpl in Hr2.
    assert (Some t2 = Some t) as Heq.
    { rewrite <- (dict_get_in _ _ _ Hnd Hin2). apply dict_get_in; assumption. }
    inversion Heq; subst. congruence.
Qed.

Theorem blocked_retry_rule (f : Factory) (k : string) (t : Tk.Task) :
  NoDup (Dict.keys (blocked_tasks f)) ->
  In (k, t) (blocked_tasks f) ->
  let f' := check_blocked_tasks f in
  (Tk.status t = Tk.blocked_dependencies ->
   (moved_to_queue f' k t <-> Tk.dependencies t ⊆ completed_task_ids f)
   /\ (~ Tk.dependencies t ⊆ completed_task_ids f -> still_blocked f' k t))
  /\ (other_blocked (Tk.status t) -> moved_to_queue f' k t).
Proof.
  intros Hnd Hin f'.
  pose proof (check_blocked_tasks_entry f k t Hnd Hin) as H. fold f' in H.
  split.
  - intros Hst. pose proof (should_retry_dependencies f t Hst) as Hiff.
    destruct (should_retry f t).
    + split; [split; [intros _; apply Hiff; reflexivity | intros _; exact H] |].
      intros Hn. exfalso. apply Hn, Hiff. reflexivity.
    + split; [| intros _; exact H]. split.
      * intros [Hnone _]. unfold still_blocked in H. congruence.
      * intros Hsub. apply Hiff in Hsub. discriminate Hsub.
  - intros Hother. rewrite (should_retry_other f t Hother) in H. exact H.
Qed.

(** ** Completing tasks *)

Lemma log_entries_log (f : Factory) (msg : LogMsg) (lvl : string) :
  exists n e,
    message e = msg /\ level e = lvl
    /\ log_entries (log f msg lvl) = (skipn n (log_entries f) ++ [e])%list.
Proof.
  unfold log. simpl.
  set (e := {| timestamp := time f; level := lvl; message := msg;
               thermal_load := _; waste_total := _ |}).
  destruct (Nat.ltb _ _) eqn:Hlt.
  - exists (List.length (log_entries f ++ [e]) - LOG_TRIM_SIZE)%nat, e.
    split; [reflexivity |]. split; [reflexivity |].
    rewrite length_app. simpl. rewrite skipn_app.
    replace (List.length (log_entries f) + 1 - LOG_TRIM_SIZE - List.length (log_entries f))%nat
      with 0%nat by (unfold LOG_TRIM_SIZE; lia).
    reflexivity.
  - exists 0%nat, e. split; [reflexivity |]. split; reflexivity.
Qed.

Lemma logged_now (f : Factory) (msg : LogMsg) (lvl : string) :
  logged_recently 0 (log f msg lvl) msg lvl.
Proof.
  destruct (log_entries_log f msg lvl) as (n & e & Hm & Hl & Heq).
  exists (skipn n (log_entries f)), e, []. rewrite Heq. auto.
Qed.

Lemma logged_then_log (n : nat) (f : Factory) (msg msg' : LogMsg) (lvl lvl' : string) :
  (S n < LOG_TRIM_SIZE)%nat ->
  logged_recently n f msg lvl ->
  logged_recently (S n) (log f msg' lvl') msg lvl.
Proof.
  intros Hn (pre & e & post & Heq & Hm & Hl & Hlen).
  unfold log. simpl. rewrite Heq.
  set (e' := {| timestamp := time f; level := lvl'; message := msg';
                thermal_load := _; waste_total := _ |}).
  destruct (Nat.ltb _ _) eqn:Hlt.
  - apply Nat.ltb_lt in Hlt. unfold MAX_LOG_ENTRIES in Hlt.
    repeat (rewrite length_app in Hlt; simpl in Hlt).
    repeat (rewrite length_app; simpl).
    set (k := (List.length pre + S (List.length post) + 1 - LOG_TRIM_SIZE)%nat).
    assert (Hk : (k <= List.length pre)%nat) by (unfold k, LOG_TRIM_SIZE in *; lia).
    exists (skipn k pre), e, (post ++ [e'])%list.
    split; [| split; [exact Hm | split; [exact Hl | rewrite length_app; simpl; lia]]].
    rewrite <- app_assoc. rewrite skipn_app.
    replace (k - List.length pre)%nat with 0%nat by lia. simpl.
    reflexivity.
  - exists pre, e, (post ++ [e'])%list.
    split; [rewrite <- app_assoc; reflexivity |].
    split; [exact Hm | split; [exact Hl | rewrite length_app; simpl; lia]].
Qed.

Section Completion.
Variable orc : Oracles.
Variable MODULE_SPECS : list (string * MSpec.ModuleSpec).

Lemma fold_add_waste_frame {X} (proj : Factory -> X) :
  (forall f w, proj (with_waste_stream f w) = proj f) ->
  forall (l : list (string * Q)) f,
    proj (fold_left (fun f w =>
                       with_waste_stream f
                         (Waste.add_waste (waste_stream f) (fst w) (snd w)))
                    l f) = proj f.
Proof.
  intros Hp. induction l as [| w l IH]; intros f; simpl; [reflexivity |].
  rewrite IH. apply Hp.
Qed.

Lemma wear_and_waste_frame {X} (proj : Factory -> X) f task mid ms :
  (forall f w, proj (with_waste_stream f w) = proj f) ->
  (forall f v, proj (with_draws f v) = proj f) ->
  (forall f v, proj (with_module_states f v) = proj f) ->
  (forall f v, proj (with_cleanroom_environments f v) = proj f) ->
  (forall f v, proj (with_transport_system f v) = proj f) ->
  proj (fst (wear_and_waste orc f task mid ms)) = proj f.
Proof.
  intros H1 H2 H3 H4 H5. unfold wear_and_waste. simpl.
  rewrite H5, (fold_add_waste_frame proj H1).
  case_match; rewrite ?H4, H3, H2; reflexivity.
Qed.

Lemma record_completion_record f k t mid :
  let f' := fst (record_completion MODULE_SPECS f k t mid) in
  completed_tasks f' = (completed_tasks f ++ [Tk.with_status t Tk.completed])%list
  /\ completed_task_ids f' = completed_task_ids f ∪ {[k]}
  /\ active_tasks f' = active_tasks f.
Proof. unfold record_completion. by_cases; auto. Qed.

Lemma touch_frame {X} (proj : Factory -> X) f mid d g :
  (forall f v, proj (with_module_states f v) = proj f) ->
  proj (touch f mid d g) = proj f.
Proof. intros H. unfold touch. by_cases; auto. Qed.

Lemma schedule_maintenance_returns f mid f' :
  schedule_maintenance f mid = Returned f' tt ->
  completed_tasks f' = completed_tasks f
  /\ completed_task_ids f' = completed_task_ids f
  /\ active_tasks f' = active_tasks f
  /\ storage f' = storage f
  /\ forall n msg lvl, (S n < LOG_TRIM_SIZE)%nat ->
                       logged_recently n f msg lvl -> logged_recently (S n) f' msg lvl.
Proof.
  unfold schedule_maintenance. intros H.
  assert (Hkeep : forall n msg lvl, logged_recently n f msg lvl ->
                                    logged_recently (S n) f msg lvl).
  { intros n msg lvl (pre & e & post & ? & ? & ? & ?).
    exists pre, e, post. repeat split; auto. }
  repeat case_match; inversion H; subst; clear H; simpl;
    repeat split; auto.
  intros n msg lvl Hn Hlog.
  apply (logged_then_log n _ msg _ lvl _ Hn).
  destruct Hlog as (pre & e & post & ? & ? & ? & ?).
  exists pre, e, post. repeat split; auto.
Qed.

Lemma release_module_returns f mid d c f' :
  release_module f mid d c = Returned f' tt ->
  completed_tasks f' = completed_tasks f
  /\ completed_task_ids f' = completed_task_ids f
  /\ active_tasks f' = active_tasks f
  /\ storage f' = storage f
  /\ forall n msg lvl, (S n < LOG_TRIM_SIZE)%nat ->
                       logged_recently n f msg lvl -> logged_recently (S n) f' msg lvl.
Proof.
  unfold release_module. intros H.
  set (f1 := touch f mid d _) in H.
  assert (Hlog1 : forall n msg lvl, logged_recently n f msg lvl ->
                                    logged_recently n f1 msg lvl).
  { intros n msg lvl Hl. unfold logged_recently, f1.
    rewrite (touch_frame log_entries) by reflexivity. exact Hl. }
  assert (Hf1 : completed_tasks f1 = completed_tasks f
                /\ completed_task_ids f1 = completed_task_ids f
                /\ active_tasks f1 = active_tasks f /\ storage f1 = storage f).
  { unfold f1. rewrite (touch_frame completed_tasks), (touch_frame completed_task_ids),
      (touch_frame active_tasks), (touch_frame storage) by reflexivity. auto. }
  destruct Hf1 as (Ha & Hb & Hc & Hd).
  destruct c.
  - inversion H; subst. repeat split; auto.
    intros n msg lvl Hn (pre & e & post & ? & ? & ? & ?).
    exists pre, e, post. rewrite <- H1. unfold f1.
    rewrite (touch_frame log_entries) by reflexivity. repeat split; auto.
  - inversion H; subst; clear H. simpl.
    rewrite (touch_frame completed_tasks), (touch_frame completed_task_ids),
      (touch_frame active_tasks), (touch_frame storage) by reflexivity.
    repeat split; auto.
    intros n msg lvl Hn Hl. apply logged_then_log; [exact Hn |].
    unfold logged_recently. rewrite (touch_frame log_entries) by reflexivity.
    apply Hlog1, Hl.
  - apply schedule_maintenance_returns in H as (? & ? & ? & ? & Hl).
    repeat split; try congruence.
    intros n msg lvl Hn Hlog. apply Hl; [exact Hn | apply Hlog1, Hlog].
Qed.

(** What completing one due task does to the record of finished work,
    according to the answer of storage. *)
Lemma complete_task_returns f k t f' :
  complete_task orc MODULE_SPECS f k t = Returned f' tt ->
  active_tasks f' = active_tasks f
  /\ if snd (Storage.add_resource (storage f) (Tk.output t) (Tk.actual_output t))
     then completed_tasks f'
          = (completed_tasks f ++ [Tk.with_status t Tk.completed])%list
          /\ completed_task_ids f' = completed_task_ids f ∪ {[k]}
     else completed_tasks f' = completed_tasks f
          /\ completed_task_ids f' = completed_task_ids f
          /\ storage f' = storage f
          /\ logged_recently 1 f' (OutputRejected k) "WARNING".
Proof.
  unfold complete_task. intros H.
  destruct (Tk.assigned_module t) as [mid |]; [| discriminate H].
  destruct (Dict.get (module_states f) mid) as [ms |]; [| discriminate H].
  destruct (Mod.update_condition_raises ms (config f)); [discriminate H |].
  set (worn := wear_and_waste orc f t mid ms) in H.
  assert (Hw : storage (fst worn) = storage f
               /\ completed_tasks (fst worn) = completed_tasks f
               /\ completed_task_ids (fst worn) = completed_task_ids f
               /\ active_tasks (fst worn) = active_tasks f).
  { unfold worn. rewrite !wear_and_waste_frame by reflexivity. auto. }
  destruct Hw as (Hs & Hc & Hi & Ha). clearbody worn.
  apply release_module_returns in H as (Hc' & Hi' & Ha' & Hs' & Hlog).
  unfold deposit_output in *. rewrite Hs in *.
  destruct (snd (Storage.add_resource (storage f) (Tk.output t) (Tk.actual_output t))).
  - pose proof (record_completion_record
                  (with_storage (fst worn)
                     (fst (Storage.add_resource (storage f) (Tk.output t)
                                                (Tk.actual_output t))))
                  k t mid) as (Rc & Ri & Ra).
    simpl in Rc, Ri, Ra. rewrite Hc', Hi', Ha', Rc, Ri, Ra, Hc, Hi, Ha. auto.
  - simpl in *. rewrite Hc', Hi', Ha', Hs', Hc, Hi, Ha, Hs.
    repeat split; auto.
    apply Hlog; [unfold LOG_TRIM_SIZE; lia | apply logged_now].
Qed.

Lemma complete_task_frame {X} (proj : Factory -> X) f k t :
  untouched_by_completion proj ->
  halts_in (fun f' => proj f' = proj f) (complete_task orc MODULE_SPECS f k t).
Proof.
  intros (H1 & H2 & H3 & H4 & H5 & H6 & H7 & H8 & H9 & H10).
  assert (Hlog : forall f m l, proj (log f m l) = proj f)
    by (intros; unfold log; apply H10).
  unfold complete_task.
  destruct (Tk.assigned_module t) as [mid |]; [| reflexivity].
  destruct (Dict.get (module_states f) mid) as [ms |]; [| reflexivity].
  destruct (Mod.update_condition_raises ms (config f)); [apply H2 |].
  set (worn := wear_and_waste orc f t mid ms).
  assert (Hw : proj (fst worn) = proj f)
    by (unfold worn; apply wear_and_waste_frame; auto).
  clearbody worn.
  set (fd := deposit_output MODULE_SPECS (fst worn) k t mid).
  assert (Hd : proj (fst fd) = proj f).
  { rewrite <- Hw. unfold fd, deposit_output, record_completion.
    repeat case_match; simpl; rewrite ?Hlog, ?H9, ?Hlog, ?H3, ?H2, ?Hlog, ?H8, ?H7, ?H6;
      reflexivity. }
  clearbody fd. rewrite <- Hd.
  unfold release_module, schedule_maintenance.
  repeat case_match; simpl;
    rewrite ?Hlog, ?H2, ?(touch_frame proj), ?(touch_frame proj); auto.
Qed.

Lemma untouched_time : untouched_by_completion time.
Proof. repeat split. Qed.

Lemma untouched_active_tasks : untouched_by_completion active_tasks.
Proof. repeat split. Qed.

Lemma complete_due_returns (snapshot : list (string * Tk.Task)) :
  forall f acc f' acc',
    complete_due orc MODULE_SPECS snapshot f acc = Returned f' acc' ->
    active_tasks f' = active_tasks f
    /\ time f' = time f
    /\ acc' = (acc ++ map fst (List.filter
                                 (fun e => Py.geb (time f) (Tk.completion_time (snd e)))
                                 snapshot))%list.
Proof.
  induction snapshot as [| [k t] rest IH]; intros f acc f' acc' H; simpl in *.
  - inversion H; subst. rewrite app_nil_r. auto.
  - destruct (Py.geb (time f) (Tk.completion_time t)) eqn:Hdue.
    + pose proof (complete_task_frame time f k t untouched_time) as Ht.
      pose proof (complete_task_frame active_tasks f k t untouched_active_tasks) as Ha.
      destruct (complete_task orc MODULE_SPECS f k t) as [f1 [] | |];
        simpl in *; try discriminate H.
      apply IH in H as (Ha' & Ht' & Hacc). rewrite Ht in *.
      split; [congruence |]. split; [congruence |].
      rewrite Hacc, <- app_assoc. reflexivity.
    + apply IH in H. exact H.
Qed.

(** After [update_active_tasks] no due task is left in the active
    map, and the others are still there. *)
Lemma update_active_tasks_removes f f' :
  NoDup (Dict.keys (active_tasks f)) ->
  update_active_tasks orc MODULE_SPECS f = Returned f' tt ->
  forall k t, In (k, t) (active_tasks f) ->
              if Py.geb (time f) (Tk.completion_time t)
              then Dict.get (active_tasks f') k = None
              else Dict.get (active_tasks f') k = Some t.
Proof.
  intros Hnd H k t Hin. unfold update_active_tasks in H.
  destruct (complete_due orc MODULE_SPECS (active_tasks f) f []) as [f1 done | |] eqn:Hdue;
    simpl in H; try discriminate H.
  inversion H; subst; clear H. simpl.
  apply complete_due_returns in Hdue as (Ha & _ & Hdone). simpl in Hdone.
  rewrite Ha, Hdone, dict_get_del_all by exact Hnd.
  destruct (Py.geb (time f) (Tk.completion_time t)) eqn:Hgeb.
  - rewrite bool_decide_eq_true_2; [reflexivity |].
    apply list_elem_of_In. change k with (fst (k, t)). apply in_map.
    apply filter_In. split; [exact Hin | exact Hgeb].
  - rewrite bool_decide_eq_false_2; [apply dict_get_in; assumption |].
    intros Hk. apply list_elem_of_In, in_map_iff in Hk as ([k2 t2] & Heq & Hf).
    simpl in Heq. subst k2. apply filter_In in Hf as [Hin2 Hg2]. simpl in Hg2.
    assert (Some t2 = Some t) as Heq.
    { rewrite <- (dict_get_in _ _ _ Hnd Hin2). apply dict_get_in; assumption. }
    inversion Heq; subst. congruence.
Qed.
End Completion.

Lemma dict_get_set_same {V} (d : list (string * V)) k v :
  Dict.get (Dict.set d k v) k = Some v.
Proof.
  induction d as [| [k' v'] d IH]; simpl.
  - rewrite String.eqb_refl. reflexivity.
  - destruct (String.eqb_spec k' k) as [-> | Hne]; simpl.
    + rewrite String.eqb_refl. reflexivity.
    + destruct (String.eqb_spec k' k); [contradiction | exact IH].
Qed.

Lemma clamp_scales (b c : Q) :
  0 <= b ->
  (5 # 10) * b <= b * Qmax (5 # 10) (Qmin 1 c) /\ b * Qmax (5 # 10) (Qmin 1 c) <= b.
Proof.
  intros Hb. set (x := Qmax (5 # 10) (Qmin 1 c)).
  assert (Hlo : 5 # 10 <= x) by apply Q.le_max_l.
  assert (Hhi : x <= 1).
  { unfold x. apply Q.max_lub; [lra | apply Q.le_min_l]. }
  split.
  - rewrite (Qmult_comm b x). apply Qmult_le_compat_r; assumption.
  - rewrite (Qmult_comm b x). apply Qle_trans with (1 * b).
    + apply Qmult_le_compat_r; assumption.
    + rewrite Qmult_1_l. apply Qle_refl.
Qed.

Section Starting.
Variable orc : Oracles.

(** What a successful [calculate_production_parameters] promises
    about the yield. *)
Lemma calculate_yield_bounds f task mid ms f1 task1 p :
  calculate_production_parameters orc f task mid ms = Returned f1 (task1, Some p) ->
  Tk.task_id task1 = Tk.task_id task
  /\ Tk.quantity task1 = Tk.quantity task
  /\ match Mod.spec ms with
     | Some sp =>
         let b := batch_size_of (config f) sp (Tk.quantity task) in
         0 <= b -> (5 # 10) * b <= p_expected_yield p /\ p_expected_yield p <= b
     | None => p_expected_yield p = Tk.quantity task
     end.
Proof.
  unfold calculate_production_parameters. intros H.
  destruct (Mod.spec ms) as [sp |].
  - repeat case_match; try discriminate H;
      repeat match goal with
        | E : (_, _) = (_, _) |- _ => inversion E; subst; clear E
        end;
      inversion H; subst; clear H; simpl;
      (split; [reflexivity | split; [reflexivity |]]);
      intros Hb; apply clamp_scales; exact Hb.
  - case_match; inversion H; subst. simpl. auto.
Qed.

Lemma calculate_needs_throughput f task mid ms f1 task1 p sp q :
  calculate_production_parameters orc f task mid ms = Returned f1 (task1, Some p) ->
  Mod.spec ms = Some sp ->
  Mod.get_effective_throughput ms = Fin q ->
  0 < q.
Proof.
  unfold calculate_production_parameters. intros H Hsp Hq. rewrite Hsp in H.
  assert (Hsame : forall m o, Mod.get_effective_throughput (Mod.with_last_product m o)
                              = Mod.get_effective_throughput m) by reflexivity.
  destruct (negb (opt_string_eqb (Mod.last_product_type ms) (Some (Tk.output task))));
    rewrite ?Hsame, Hq in H;
    (destruct (Py.leb q 0) eqn:Hle; [discriminate H | apply Py_leb_gt in Hle; exact Hle]).
Qed.

Lemma schedule_inputs_returns ins : forall f task to_module tt f' r,
  schedule_inputs ins f task to_module tt = Returned f' r ->
  Tk.task_id (fst r) = Tk.task_id task
  /\ Tk.quantity (fst r) = Tk.quantity task
  /\ Tk.recipe (fst r) = Tk.recipe task
  /\ time f' = time f
  /\ active_tasks f' = active_tasks f.
Proof.
  induction ins as [| [res qty] rest IH]; intros f task to_module tt f' r H; simpl in H.
  - inversion H; subst. auto.
  - case_match; [discriminate H |].
    apply IH in H as (? & ? & ? & ? & ?). simpl in *. auto.
Qed.

Lemma missing_input_returns ins : forall f task f' r,
  missing_input ins f task = Returned f' r -> f' = f.
Proof.
  induction ins as [| [res qty] rest IH]; intros f task f' r H; simpl in H.
  - inversion H; reflexivity.
  - repeat case_match; try discriminate H; [inversion H; reflexivity | eauto].
Qed.

Lemma consume_inputs_returns ins : forall f task f' r,
  consume_inputs ins f task = Returned f' r ->
  active_tasks f' = active_tasks f /\ time f' = time f.
Proof.
  induction ins as [| [res qty] rest IH]; intros f task f' r H; simpl in H.
  - inversion H; auto.
  - repeat case_match; try discriminate H.
    apply IH in H as (? & ?). simpl in *. auto.
Qed.

Lemma start_production_returns f task mid p f' b :
  start_production f task mid p = Returned f' b ->
  b = true
  /\ Dict.get (active_tasks f') (Tk.task_id task)
     = Some (started task mid (time f) p).
Proof.
  unfold start_production. intros H.
  set (f1 := match Dict.get (module_states f) mid with Some _ => _ | None => f end) in H.
  assert (Hf1 : active_tasks f1 = active_tasks f /\ time f1 = time f)
    by (unfold f1; case_match; auto).
  clearbody f1.
  destruct (consume_inputs _ f1 _) as [f2 [] | |] eqn:Hc; simpl in H; try discriminate H.
  apply consume_inputs_returns in Hc as (Ha & Ht).
  inversion H; subst; clear H. split; [reflexivity |]. simpl.
  apply dict_get_set_same.
Qed.

Lemma resource_gate_returns f task mid p f' :
  resource_gate f task mid p = Returned f' true ->
  exists task2 p2,
    Tk.task_id task2 = Tk.task_id task
    /\ Tk.quantity task2 = Tk.quantity task
    /\ p_expected_yield p2 = p_expected_yield p
    /\ Dict.get (active_tasks f') (Tk.task_id task)
       = Some (started task2 mid (time f) p2).
Proof.
  unfold resource_gate. intros H.
  destruct (schedule_inputs _ f task _ _) as [f1 r | |] eqn:Hs; simpl in H;
    try discriminate H.
  apply schedule_inputs_returns in Hs as (Hid & Hq & Hr & Ht & Ha).
  destruct (missing_input _ f1 _) as [f2 missing | |] eqn:Hm; simpl in H;
    try discriminate H.
  apply missing_input_returns in Hm. subst f2.
  destruct missing as [[res required] |]; [discriminate H |].
  apply start_production_returns in H as (_ & Hget).
  match type of Hget with
  | _ = Some (started _ _ _ ?pp) => exists (fst r), pp
  end.
  rewrite <- Hid, <- Ht. repeat split; auto.
Qed.

(** A task that [process_task] starts went through module selection,
    parameter calculation and the thermal gate; what lands in
    [active_tasks] carries the calculated yield. *)
Lemma process_task_started f task f' :
  process_task orc f task = Returned f' true ->
  exists mid ms f1 task1 p t',
    find_available_module f (required_module_of task) = Some mid
    /\ Dict.get (module_states f) mid = Some ms
    /\ calculate_production_parameters orc f task mid ms = Returned f1 (task1, Some p)
    /\ Thermal.check_thermal_constraints (thermal_system f1) (projected_heat f1) = true
    /\ Dict.get (active_tasks f') (Tk.task_id task) = Some t'
    /\ Tk.assigned_module t' = Some mid
    /\ Tk.quantity t' = Tk.quantity task
    /\ Tk.actual_output t' = p_expected_yield p.
Proof.
  unfold process_task. intros H.
  destruct (dependencies_incomplete f task); [discriminate H |].
  destruct (find_available_module f _) as [mid |] eqn:Hfind; [| discriminate H].
  destruct (String.eqb mid EmptyString); [discriminate H |].
  destruct (Dict.get (module_states f) mid) as [ms |] eqn:Hget; [| discriminate H].
  destruct (calculate_production_parameters orc f task mid ms)
    as [f1 [task1 op] | |] eqn:Hcalc; simpl in H; try discriminate H.
  destruct op as [p |]; [| discriminate H].
  pose proof (calculate_yield_bounds _ _ _ _ _ _ _ Hcalc) as (Hid & Hq & _).
  unfold thermal_gate in H.
  destruct (Thermal.check_thermal_constraints _ _) eqn:Hth; simpl in H;
    [| discriminate H].
  unfold energy_gate in H. case_match; [discriminate H |].
  apply resource_gate_returns in H as (task2 & p2 & Hid2 & Hq2 & Hy & Hact).
  exists mid, ms, f1, task1, p, (started task2 mid (time f1) p2).
  rewrite <- Hid. repeat split; auto; simpl; congruence.
Qed.
End Starting.

(** ** The battery across simulation steps *)

Lemma update_battery_config (e : Energy.EnergySystem) (delta hours : Q) :
  Energy.config (fst (Energy.update_battery e delta hours)) = Energy.config e.
Proof. unfold Energy.update_battery. destruct (Py.gtb delta 0); reflexivity. Qed.

Lemma battery_kept_when_starting : kept_when_starting battery_ok.
Proof.
  unfold kept_when_starting.
  repeat apply conj; try (intros g v [Hb Hc]; split; assumption).
  intros g delta hours [Hb Hc]. split; simpl.
  - apply update_battery_in_bounds; assumption.
  - rewrite update_battery_config. exact Hc.
Qed.

Lemma age_equipment_keeps (g : Factory) (e : Energy.EnergySystem)
      (duration_hours : Q) (weather : bool) :
  battery_ok (with_energy_system g e) ->
  battery_ok (with_energy_system g (age_equipment e duration_hours weather)).
Proof. intros [Hb Hc]. split; assumption. Qed.

Lemma fold_frame {S X E : Type} (proj : S -> X) (step : S -> E -> S) :
  (forall f e, proj (step f e) = proj f) ->
  forall (l : list E) f, proj (fold_left step l f) = proj f.
Proof.
  intros H. induction l as [| e l IH]; intros f; simpl; [reflexivity |].
  rewrite IH. apply H.
Qed.

Section Tick.
Variable orc : Oracles.
Variable MODULE_SPECS : list (string * MSpec.ModuleSpec).

Lemma initialize_modules_energy f :
  energy_system (initialize_modules MODULE_SPECS f) = energy_system f.
Proof.
  unfold initialize_modules. apply fold_frame. intros f0 e.
  repeat case_match; reflexivity.
Qed.

Lemma update_maintenance_energy f :
  energy_system (update_maintenance f) = energy_system f.
Proof.
  unfold update_maintenance. apply fold_frame. intros f0 e.
  case_match; reflexivity.
Qed.

Lemma clean_rooms_energy f : energy_system (clean_rooms f) = energy_system f.
Proof.
  unfold clean_rooms. case_match; [| reflexivity]. apply fold_frame. intros f0 e.
  case_match; reflexivity.
Qed.

Lemma check_blocked_tasks_energy f :
  energy_system (check_blocked_tasks f) = energy_system f.
Proof.
  unfold check_blocked_tasks. simpl.
  apply (fold_frame (fun acc : Factory * list string => energy_system (fst acc))).
  intros acc e. case_match; reflexivity.
Qed.

Lemma collect_metrics_energy f : energy_system (collect_metrics orc f) = energy_system f.
Proof. unfold collect_metrics. case_match; reflexivity. Qed.

Lemma untouched_energy : untouched_by_completion energy_system.
Proof. repeat split. Qed.

Lemma complete_due_frame {X} (proj : Factory -> X) (snapshot : list (string * Tk.Task)) :
  untouched_by_completion proj ->
  forall f acc,
    halts_in (fun f' => proj f' = proj f)
             (complete_due orc MODULE_SPECS snapshot f acc).
Proof.
  intros Hp. induction snapshot as [| [k t] rest IH]; intros f acc; simpl;
    [reflexivity |].
  case_match; [| apply IH].
  pose proof (complete_task_frame orc MODULE_SPECS proj f k t Hp) as Hc.
  destruct (complete_task orc MODULE_SPECS f k t) as [f1 [] | |]; simpl in *; auto.
  eapply halts_in_weaken; [| apply IH]. simpl. congruence.
Qed.

Lemma update_active_tasks_energy f :
  halts_in (fun f' => energy_system f' = energy_system f)
           (update_active_tasks orc MODULE_SPECS f).
Proof.
  unfold update_active_tasks.
  pose proof (complete_due_frame energy_system (active_tasks f) untouched_energy f [])
    as H.
  destruct (complete_due _ _ _ f []) as [f1 done | |]; simpl in *; auto.
Qed.

Lemma admission_loop_keeps (P : Factory -> Prop) :
  kept_when_starting P ->
  (forall f v, P f -> P (with_task_queue f v)) ->
  forall fuel f started,
    (List.length (task_queue f) < fuel)%nat ->
    P f -> halts_in P (admission_loop orc fuel f started).
Proof.
  intros HP Hq. induction fuel as [| fuel IH]; intros f started Hfuel H; [lia |].
  simpl. destruct (task_queue f) as [| [[priority task_id] task] rest] eqn:Hqueue;
    simpl; [exact H |].
  case_match; [| exact H].
  pose proof (process_task_keeps orc P HP (with_task_queue f rest) task (Hq _ _ H))
    as Hkeep.
  pose proof (process_task_queue orc (with_task_queue f rest) task) as Hframe.
  destruct (process_task orc (with_task_queue f rest) task) as [f1 ok | |];
    simpl in *; auto.
  apply IH; [| exact Hkeep]. rewrite Hframe. simpl in Hfuel. lia.
Qed.

Lemma simulate_step_battery f duration_hours :
  battery_ok f -> halts_in battery_ok (simulate_step orc MODULE_SPECS f duration_hours).
Proof.
  intros Hok. unfold simulate_step.
  assert (Hvia : forall g g', energy_system g' = energy_system g ->
                              battery_ok g -> battery_ok g').
  { intros g g' Heq. unfold battery_ok. rewrite Heq. auto. }
  set (f1 := update_energy orc f duration_hours).
  assert (H1 : battery_ok f1).
  { unfold f1, update_energy. apply battery_kept_when_starting.
    apply (Hvia f); [reflexivity | exact Hok]. }
  clearbody f1.
  set (f2 := with_transport_system f1 _).
  assert (H2 : battery_ok f2) by (apply (Hvia f1); [reflexivity | exact H1]).
  clearbody f2.
  pose proof (update_active_tasks_energy f2) as H3.
  destruct (update_active_tasks orc MODULE_SPECS f2) as [f3 [] | f3 e |];
    simpl in *; [| apply (Hvia f2); assumption | exact H3].
  set (f4 := clean_rooms (update_maintenance f3)).
  assert (H4 : battery_ok f4).
  { apply (Hvia f2); [| exact H2]. unfold f4.
    rewrite clean_rooms_energy, update_maintenance_energy. exact H3. }
  clearbody f4.
  pose proof (admission_loop_keeps battery_ok battery_kept_when_starting
                ltac:(intros g v Hg; exact Hg)
                (S (List.length (task_queue f4))) f4 0%nat ltac:(lia) H4) as H5.
  unfold admit_new_tasks.
  destruct (admission_loop orc _ f4 0) as [f5 n | f5 e |]; simpl in *; auto.
  apply age_equipment_keeps.
  apply (Hvia f5); [| exact H5]. simpl.
  rewrite collect_metrics_energy.
  case_match; [apply check_blocked_tasks_energy | reflexivity].
Qed.

Theorem reachable_battery_ok (RECIPES : list Rcp.Recipe) (cfg : Config) (f : Factory) :
  0 <= battery_efficiency cfg ->
  reachable orc RECIPES MODULE_SPECS cfg f ->
  battery_ok f.
Proof.
  intros Heff Hreach. induction Hreach as [| f f' fuel o q p Hr IH He | f f' d Hr IH He].
  - unfold battery_ok, init. rewrite initialize_modules_energy. simpl.
    split; [| exact Heff]. unfold Energy.in_bounds. simpl. split; lra.
  - pose proof (create_production_task_frame RECIPES _ energy_system
                  ltac:(repeat split) fuel f o q p ∅) as Hframe.
    destruct (create_production_task RECIPES fuel f o q p ∅); simpl in *;
      try contradiction; subst; unfold battery_ok; rewrite Hframe; exact IH.
  - pose proof (simulate_step_battery f d IH) as Hstep.
    destruct (simulate_step orc MODULE_SPECS f d); simpl in *;
      try contradiction; subst; exact Hstep.
Qed.

Lemma init_battery cfg :
  0 <= battery_efficiency cfg -> battery_ok (init MODULE_SPECS cfg).
Proof.
  intros Heff. unfold battery_ok, init. rewrite initialize_modules_energy. simpl.
  split; [| exact Heff]. unfold Energy.in_bounds. simpl. split; lra.
Qed.
End Tick.

(** ** The claims *)

(** From the initial charge of half the capacity, the charge after any
    sequence of [update_battery] calls lies between 20% and 95% of the
    capacity. *)
Lemma battery_updates_within_bounds (cfg : Config) (calls : list (Q * Q)) :
  0 <= battery_efficiency cfg ->
  Energy.in_bounds (Energy.run_updates (Energy.init cfg) calls).
Proof.
  intros Heff. unfold Energy.run_updates.
  assert (Hinv : Energy.in_bounds (Energy.init cfg)
                 /\ Energy.config (Energy.init cfg) = cfg).
  { split; [| reflexivity]. unfold Energy.in_bounds. simpl. split; lra. }
  revert Hinv. generalize (Energy.init cfg) as e.
  induction calls as [| [delta hours] calls IH]; intros e [Hb Hc]; simpl.
  - exact Hb.
  - apply IH. split.
    + apply update_battery_in_bounds; [rewrite Hc; exact Heff | exact Hb].
    + rewrite <- Hc. apply update_battery_config.
Qed.

(** C4. In every state the factory reaches from its construction,
    through product requests and simulation steps of any length, the
    battery charge lies between 20% and 95% of the battery capacity, and
    one more [update_battery], charging or discharging, keeps it there.
    The battery efficiency of the configuration is taken not to be
    negative (configuration validation demands a positive one). *)
Theorem battery_within_bounds_every_tick
        (orc : Oracles) (RECIPES : list Rcp.Recipe)
        (MODULE_SPECS : list (string * MSpec.ModuleSpec))
        (cfg : Config) (f : Factory) :
  0 <= battery_efficiency cfg ->
  reachable orc RECIPES MODULE_SPECS cfg f ->
  ((2 # 10) * Energy.battery_capacity_kwh (energy_system f)
   <= Energy.battery_charge_kwh (energy_system f)
   /\ Energy.battery_charge_kwh (energy_system f)
      <= (95 # 100) * Energy.battery_capacity_kwh (energy_system f))
  /\ forall delta hours,
       Energy.in_bounds (fst (Energy.update_battery (energy_system f) delta hours)).
Proof.
  intros Heff Hreach.
  destruct (reachable_battery_ok orc MODULE_SPECS RECIPES cfg f Heff Hreach) as [Hb Hc].
  split; [exact Hb |]. intros delta hours.
  apply update_battery_in_bounds; assumption.
Qed.

Lemma battery_within_bounds_every_tick_witness :
  let f := plc_finished CONFIG in
  ((2 # 10) * Energy.battery_capacity_kwh (energy_system f)
   <= Energy.battery_charge_kwh (energy_system f)
   /\ Energy.battery_charge_kwh (energy_system f)
      <= (95 # 100) * Energy.battery_capacity_kwh (energy_system f))
  /\ forall delta hours,
       Energy.in_bounds (fst (Energy.update_battery (energy_system f) delta hours)).
Proof.
  intros f.
  apply (battery_within_bounds_every_tick nominal [plc_program] MODULE_SPECS_DEFAULT
                                          CONFIG f).
  - unfold Qle. simpl. lia.
  - apply (reach_step _ _ _ _ (plc_running CONFIG) f 2).
    + apply (reach_step _ _ _ _ (plc_requested CONFIG) (plc_running CONFIG) 2).
      * apply (reach_request _ _ _ _ (init MODULE_SPECS_DEFAULT CONFIG)
                             (plc_requested CONFIG)
                             (expansion_fuel [plc_program]) "plc_program" 1 1).
        -- apply reach_init.
        -- vm_compute. reflexivity.
      * vm_compute. reflexivity.
    + vm_compute. reflexivity.
Defined.


(** C6, as stated, fails: at 32 degrees the mining module (efficiency
    1, maximum throughput 10) has an effective throughput of 9, while
    [10 * 1 * (1 - 0.01 * max(0, 10 - 5))] is 9.5. *)
Lemma throughput_derate_counterexample :
  exists sp q,
    Mod.spec warm_mining = Some sp
    /\ Mod.is_failed warm_mining = false
    /\ Mod.is_in_maintenance warm_mining = false
    /\ Mod.get_effective_throughput warm_mining = Fin q
    /\ q == 9
    /\ spec_effective_throughput sp (Mod.current_efficiency warm_mining)
                                 (Mod.temperature warm_mining) == 19 # 2
    /\ ~ q == spec_effective_throughput sp (Mod.current_efficiency warm_mining)
                                        (Mod.temperature warm_mining).
Proof.
  eexists _, _. repeat split; try reflexivity. vm_compute. discriminate.
Qed.

(** C6, amended. A module with a spec, neither failed nor in
    maintenance, has effective throughput
    [max_throughput * efficiency * temp_factor * software_factor], where
    [temp_factor] is [1 - 0.01 * |T - 22|] when [|T - 22| > 5] and 1
    otherwise, and [software_factor] is 0.95 when a software version is
    set and 1 otherwise; and whenever [process_task] starts a task, the
    module it assigned has a positive effective throughput (if it has a
    spec). *)
Theorem throughput_formula_and_assignment
        (orc : Oracles) (m : Mod.ModuleState) (sp : MSpec.ModuleSpec)
        (f f' : Factory) (task : Tk.Task) :
  Mod.spec m = Some sp ->
  Mod.is_failed m = false ->
  Mod.is_in_maintenance m = false ->
  process_task orc f task = Returned f' true ->
  (exists q, Mod.get_effective_throughput m = Fin q
             /\ q == MSpec.max_throughput sp * Mod.current_efficiency m
                     * temp_factor (Mod.temperature m)
                     * software_factor (Mod.software_version m))
  /\ (exists mid ms t',
         Dict.get (active_tasks f') (Tk.task_id task) = Some t'
         /\ Tk.assigned_module t' = Some mid
         /\ Dict.get (module_states f) mid = Some ms
         /\ forall sp' q', Mod.spec ms = Some sp' ->
                           Mod.get_effective_throughput ms = Fin q' -> 0 < q').
Proof.
  intros Hsp Hf Hm Hstart. split.
  - unfold Mod.get_effective_throughput, temp_factor, software_factor.
    rewrite Hsp, Hf, Hm. simpl.
    eexists. split; [reflexivity |].
    destruct (Py.gtb _ 5), (Py.truthy_str _); ring.
  - apply process_task_started in Hstart
      as (mid & ms & f1 & task1 & p & t' & _ & Hget & Hcalc & _ & Hact & Hmod & _).
    exists mid, ms, t'. repeat split; auto.
    intros sp' q' Hsp' Hq'.
    exact (calculate_needs_throughput orc _ _ _ _ _ _ _ _ _ Hcalc Hsp' Hq').
Qed.

Lemma throughput_formula_and_assignment_witness :
  let f := popped (plc_requested CONFIG) in
  let task := first_task (plc_requested CONFIG) in
  let f' := state_of (process_task nominal f task) f in
  let sp := default hot_refining (Mod.spec warm_mining) in
  (exists q, Mod.get_effective_throughput warm_mining = Fin q
             /\ q == MSpec.max_throughput sp * Mod.current_efficiency warm_mining
                     * temp_factor (Mod.temperature warm_mining)
                     * software_factor (Mod.software_version warm_mining))
  /\ (exists mid ms t',
         Dict.get (active_tasks f') (Tk.task_id task) = Some t'
         /\ Tk.assigned_module t' = Some mid
         /\ Dict.get (module_states f) mid = Some ms
         /\ forall sp' q', Mod.spec ms = Some sp' ->
                           Mod.get_effective_throughput ms = Fin q' -> 0 < q').
Proof.
  intros f task f' sp.
  refine (throughput_formula_and_assignment nominal warm_mining sp f f' task _ _ _ _).
  - reflexivity.
  - reflexivity.
  - reflexivity.
  - vm_compute. reflexivity.
Defined.

(** One call of the dispatch loop starts at most [max_starts] (five)
    jobs. *)
Lemma dispatch_starts_bounded (n : nat) :
  forall ts now, (snd (Transport.dispatch n ts now) <= n)%nat.
Proof.
  induction n as [| n IH]; intros ts now; simpl; [lia |].
  destruct (Heap.heappop (Transport.transport_queue ts)) as [[[[prio jid] job] rest] |];
    simpl; [| lia].
  destruct (Transport.start_job _ now jid job) as [ts' |]; simpl; [| lia].
  specialize (IH ts' now). lia.
Qed.

(** C9. Every invocation of [process_transport_queue] starts at most
    five jobs; but no code bounds the number of active jobs: with a fleet
    of 30 vehicles and 25 queued jobs of 2000 kg, after the transport
    phase of five consecutive ticks of 0.1 h, 25 jobs are active at once,
    more than [MAX_CONCURRENT_TRANSPORTS]. *)
Theorem transport_concurrency_exceeds_limit :
  (forall ts now, (snd (Transport.dispatch Transport.max_starts ts now) <= 5)%nat)
  /\ List.length (Transport.active_transports busy_transport) = 25%nat
  /\ (MAX_CONCURRENT_TRANSPORTS < List.length (Transport.active_transports busy_transport))%nat.
Proof.
  split; [intros; apply dispatch_starts_bounded |].
  split; [vm_compute; reflexivity |].
  vm_compute. lia.
Qed.

(** C7, as stated, fails: with six queued tasks that no module can
    run, the admission phase of one step pops all six (each goes through
    [process_task] and ends in the blocked map) and starts none. *)
Lemma admission_pops_six :
  match admit_new_tasks nominal six_ingots with
  | Returned f' started =>
      List.length (task_queue six_ingots) = 6%nat
      /\ task_queue f' = []
      /\ List.length (blocked_tasks f') = 6%nat
      /\ started = 0%nat
      /\ (MAX_TASK_STARTS_PER_STEP
          < List.length (task_queue six_ingots) - List.length (task_queue f'))%nat
  | _ => False
  end.
Proof. vm_compute. repeat split; lia. Qed.

(** C8. On every re-evaluation, a task blocked on dependencies moves
    back to the priority queue exactly when all its dependencies are in
    [completed_task_ids], and stays blocked otherwise; a task with any
    other [blocked_*] status moves back unconditionally. *)
Theorem blocked_tasks_retry_rule (f : Factory) (k : string) (t : Tk.Task) :
  NoDup (Dict.keys (blocked_tasks f)) ->
  In (k, t) (blocked_tasks f) ->
  (Tk.status t = Tk.blocked_dependencies ->
   (moved_to_queue (check_blocked_tasks f) k t
    <-> Tk.dependencies t ⊆ completed_task_ids f)
   /\ (~ Tk.dependencies t ⊆ completed_task_ids f ->
       still_blocked (check_blocked_tasks f) k t))
  /\ (other_blocked (Tk.status t) -> moved_to_queue (check_blocked_tasks f) k t).
Proof. intros Hnd Hin. exact (blocked_retry_rule f k t Hnd Hin). Qed.

Lemma blocked_tasks_retry_rule_witness :
  let f := beam_waiting in
  let k := fst (first_blocked f) in
  let t := snd (first_blocked f) in
  (Tk.status t = Tk.blocked_dependencies ->
   (moved_to_queue (check_blocked_tasks f) k t
    <-> Tk.dependencies t ⊆ completed_task_ids f)
   /\ (~ Tk.dependencies t ⊆ completed_task_ids f ->
       still_blocked (check_blocked_tasks f) k t))
  /\ (other_blocked (Tk.status t) -> moved_to_queue (check_blocked_tasks f) k t).
Proof.
  intros f k t. apply (blocked_tasks_retry_rule f k t).
  - refine (bool_decide_unpack _ _). vm_compute. exact I.
  - vm_compute. left. reflexivity.
Defined.

(** The beam of the scenario is blocked on its dependency and a
    re-evaluation leaves it so. *)
Example beam_stays_blocked :
  Tk.status (snd (first_blocked beam_waiting)) = Tk.blocked_dependencies
  /\ still_blocked (check_blocked_tasks beam_waiting)
                   (fst (first_blocked beam_waiting))
                   (snd (first_blocked beam_waiting)).
Proof. split; vm_compute; reflexivity. Qed.

(** C1, as stated, fails: with a storage volume of 50 m3 a task for one
    PLC program runs as a batch of 100 and delivers 90 units; when it is
    due, storage rejects the deposit, and [update_active_tasks] takes
    the task out of the active map without recording it as completed. *)
Lemma rejected_task_is_not_completed :
  let f := plc_running small_store in
  match update_active_tasks nominal MODULE_SPECS_DEFAULT f with
  | Returned f' _ =>
      active_tasks f = [first_active f]
      /\ Py.geb (time f) (Tk.completion_time (snd (first_active f))) = true
      /\ snd (Storage.add_resource (storage f)
                                   (Tk.output (snd (first_active f)))
                                   (Tk.actual_output (snd (first_active f)))) = false
      /\ active_tasks f' = []
      /\ completed_tasks f' = []
      /\ completed_task_ids f' = ∅
  | _ => False
  end.
Proof. vm_compute. repeat split. Qed.

(** C2, as stated, fails: the task for one PLC program runs on the
    software module, whose minimum batch is 100, and completes with an
    actual output of 90, ninety times the quantity requested. *)
Lemma completed_output_exceeds_quantity :
  match completed_tasks (plc_finished CONFIG) with
  | [t] =>
      Tk.status t = Tk.completed
      /\ Tk.quantity t == 1
      /\ Tk.actual_output t == 90
      /\ ~ Tk.actual_output t <= Tk.quantity t
  | _ => False
  end.
Proof.
  vm_compute. repeat split; try discriminate. intros H. apply H. reflexivity.
Qed.

(** C5. The heat the thermal gate tests is that of the modules as they
    are when the gate runs, the candidate module still idle. With a
    refining module that idles at 10 kW and runs at 50 MW the gate sees
    8 kW and lets the task start; with the module running, the heat is
    40000 kW and the same feasibility test fails. *)
Theorem thermal_gate_ignores_active_power :
  let f := popped hot_factory in
  let task := first_task hot_factory in
  match process_task nominal f task with
  | Returned f' started =>
      started = true
      /\ projected_heat f == 8
      /\ Thermal.check_thermal_constraints (thermal_system f) (projected_heat f) = true
      /\ Thermal.calculate_module_heat (module_states f') == 40000
      /\ Thermal.check_thermal_constraints
           (thermal_system f') (Thermal.calculate_module_heat (module_states f')) = false
      /\ blocked_tasks f' = []
  | _ => False
  end.
Proof. vm_compute. repeat split. Qed.

(** * Further properties *)

Import Conditions Stock Selection Placement Recipes Order Upkeep Service Ids Jobs.

(** ** The energy system on its own *)

Lemma Py_gtb_false a b : Py.gtb a b = false <-> a <= b.
Proof. unfold Py.gtb. apply Py_ltb_ge. Qed.

Lemma Py_gtb_true a b : Py.gtb a b = true <-> b < a.
Proof. unfold Py.gtb. apply Py_ltb_lt. Qed.

Lemma Py_geb_true a b : Py.geb a b = true <-> b <= a.
Proof. unfold Py.geb. apply Py_leb_le. Qed.

Lemma Py_geb_false a b : Py.geb a b = false <-> a < b.
Proof. unfold Py.geb. apply Py_leb_gt. Qed.

(** X1. What [update_battery] returns is what the battery took or
    gave. *)
Theorem update_battery_reports_transfer (e : Energy.EnergySystem) (delta hours : Q) :
  Energy.in_bounds e ->
  0 <= battery_efficiency (Energy.config e) ->
  let r := Energy.update_battery e delta hours in
  (delta <= 0 ->
   Energy.battery_charge_kwh (fst r) == Energy.battery_charge_kwh e + snd r
   /\ delta <= snd r <= 0
   /\ - (Energy.battery_capacity_kwh e * (5 # 10)) <= snd r
   /\ Energy.battery_capacity_kwh e * (2 # 10) - Energy.battery_charge_kwh e <= snd r)
  /\ (0 < delta ->
      snd r == Qmin delta (Energy.battery_capacity_kwh e * (5 # 10))
               * battery_efficiency (Energy.config e)
      /\ 0 <= snd r
      /\ Energy.battery_charge_kwh e <= Energy.battery_charge_kwh (fst r)
      /\ Energy.battery_charge_kwh (fst r) <= Energy.battery_charge_kwh e + snd r).
Proof.
  intros [Hlo Hhi] Heff r. subst r.
  assert (Hcap : 0 <= Energy.battery_capacity_kwh e) by lra.
  unfold Energy.update_battery. split; intros Hd.
  - apply Py_gtb_false in Hd as Hg. rewrite Hg. simpl.
    set (d := Qmin (Qmin (Qabs delta) (Energy.battery_capacity_kwh e * (5 # 10)))
                   (Energy.battery_charge_kwh e
                    - Energy.battery_capacity_kwh e * (2 # 10))).
    assert (Habs : Qabs delta == - delta) by (apply Qabs_neg; exact Hd).
    assert (H1 : d <= Qabs delta).
    { unfold d. eapply Qle_trans; [apply Q.le_min_l | apply Q.le_min_l]. }
    assert (H2 : d <= Energy.battery_capacity_kwh e * (5 # 10)).
    { unfold d. eapply Qle_trans; [apply Q.le_min_l | apply Q.le_min_r]. }
    assert (H3 : d <= Energy.battery_charge_kwh e
                      - Energy.battery_capacity_kwh e * (2 # 10))
      by apply Q.le_min_r.
    assert (H0 : 0 <= d).
    { unfold d. apply Q.min_glb; [apply Q.min_glb |];
        first [apply Qabs_nonneg | lra]. }
    repeat apply conj; lra.
  - apply Py_gtb_true in Hd as Hg. rewrite Hg. simpl.
    set (c := Qmin delta (Energy.battery_capacity_kwh e * (5 # 10))).
    assert (Hc : 0 <= c) by (unfold c; apply Q.min_glb; lra).
    pose proof (Qmult_le_0_compat _ _ Hc Heff) as Hgain.
    repeat apply conj;
      first [reflexivity | lra | apply Q.le_min_r | apply Q.min_glb; lra].
Qed.

Lemma update_battery_reports_transfer_witness :
  let e := Energy.init CONFIG in
  let r := Energy.update_battery e (-700) 1 in
  (-700 <= 0 ->
   Energy.battery_charge_kwh (fst r) == Energy.battery_charge_kwh e + snd r
   /\ -700 <= snd r <= 0
   /\ - (Energy.battery_capacity_kwh e * (5 # 10)) <= snd r
   /\ Energy.battery_capacity_kwh e * (2 # 10) - Energy.battery_charge_kwh e <= snd r)
  /\ (0 < -700 ->
      snd r == Qmin (-700) (Energy.battery_capacity_kwh e * (5 # 10))
               * battery_efficiency (Energy.config e)
      /\ 0 <= snd r
      /\ Energy.battery_charge_kwh e <= Energy.battery_charge_kwh (fst r)
      /\ Energy.battery_charge_kwh (fst r) <= Energy.battery_charge_kwh e + snd r).
Proof.
  intros e. apply (update_battery_reports_transfer e (-700) 1).
  - unfold Energy.in_bounds. simpl. split; lra.
  - unfold Qle. simpl. lia.
Defined.

(** X2. The solar generation is never negative, whatever the weather
    draw, the irradiance and the ageing factor are. *)
Theorem solar_generation_never_negative
        (orc : Oracles) (e : Energy.EnergySystem) (draws : nat)
        (hour_of_day : Q) (day_of_year : Z) :
  0 <= Energy.solar_capacity_kw e ->
  let r := Energy.calculate_solar_generation orc e draws hour_of_day day_of_year in
  0 <= fst r
  /\ (enable_weather (Energy.config e) = false ->
      fst r == Energy.solar_capacity_kw e / 3 /\ snd r = draws)
  /\ (enable_weather (Energy.config e) = true -> snd r = S draws).
Proof.
  intros Hcap r. subst r. unfold Energy.calculate_solar_generation.
  destruct (enable_weather (Energy.config e)); simpl.
  - repeat apply conj; [apply Q.le_max_l | discriminate | reflexivity].
  - repeat apply conj; [| intros _; split; [field | reflexivity] | discriminate].
    apply Qle_shift_div_l; [reflexivity | lra].
Qed.

Lemma solar_generation_never_negative_witness :
  let e := Energy.init CONFIG in
  let r := Energy.calculate_solar_generation nominal e 0 12 100 in
  0 <= fst r
  /\ (enable_weather (Energy.config e) = false ->
      fst r == Energy.solar_capacity_kw e / 3 /\ snd r = 0%nat)
  /\ (enable_weather (Energy.config e) = true -> snd r = 1%nat).
Proof.
  intros e. apply (solar_generation_never_negative nominal e 0 12 100).
  unfold Qle. simpl. lia.
Defined.

(** ** Module wear and heat *)

(** X3. The condition [update_condition] returns tells what it did to
    the module. *)
Theorem update_condition_reports_state
        (orc : Oracles) (m : Mod.ModuleState) (draws : nat)
        (hours_operated : Q) (cfg : Config) :
  let r := Mod.update_condition orc m draws hours_operated cfg in
  let m' := fst (fst r) in
  let condition := snd (fst r) in
  (condition = Mod.FAILED ->
   Mod.is_failed m = false /\ Mod.is_failed m' = true
   /\ Mod.current_efficiency m' = Mod.current_efficiency m)
  /\ (condition <> Mod.FAILED -> Mod.is_failed m' = Mod.is_failed m)
  /\ (condition = Mod.MAINTENANCE_REQUIRED ->
      enable_maintenance cfg = true
      /\ exists sp, Mod.spec m = Some sp
                    /\ MSpec.maintenance_interval sp <= Mod.time_since_maintenance m')
  /\ (enable_degradation cfg = false -> m' = m /\ condition = Mod.OPERATIONAL)
  /\ (enable_degradation cfg = true ->
      Mod.operating_hours m' = Mod.operating_hours m + hours_operated
      /\ Mod.time_since_maintenance m'
         = Mod.time_since_maintenance m + hours_operated)
  /\ Mod.spec m' = Mod.spec m
  /\ Mod.current_task m' = Mod.current_task m
  /\ Mod.is_in_maintenance m' = Mod.is_in_maintenance m.
Proof.
  intros r m' condition. subst r m' condition. unfold Mod.update_condition.
  destruct (enable_degradation cfg); simpl.
  2: { repeat apply conj; try discriminate; try reflexivity; auto;
       intros H; exfalso; apply H. }
  destruct (Mod.spec m) as [sp |] eqn:Hsp; simpl.
  2: { repeat apply conj; try discriminate; try reflexivity; auto. }
  destruct (Mod.is_failed m) eqn:Hf; simpl.
  - destruct (enable_maintenance cfg && Py.geb _ _) eqn:Hmt; simpl;
      repeat apply conj; try discriminate; try reflexivity; auto.
    intros _. apply andb_true_iff in Hmt as [Hen Hge].
    split; [exact Hen |]. exists sp. split; [reflexivity |].
    apply Py_geb_true in Hge. exact Hge.
  - destruct (Py.ltb _ _); simpl.
    + repeat apply conj; try discriminate; try reflexivity; auto.
      intros H; exfalso; apply H; reflexivity.
    + destruct (enable_maintenance cfg && Py.geb _ _) eqn:Hmt; simpl;
        repeat apply conj; try discriminate; try reflexivity; auto.
      intros _. apply andb_true_iff in Hmt as [Hen Hge].
      split; [exact Hen |]. exists sp. split; [reflexivity |].
      apply Py_geb_true in Hge. exact Hge.
Qed.

(** X4. Operating a module never raises its efficiency and never takes
    it under 30%. *)
Theorem wear_lowers_efficiency_to_a_floor
        (orc : Oracles) (m : Mod.ModuleState) (draws : nat)
        (hours_operated : Q) (cfg : Config) :
  (3 # 10) <= Mod.current_efficiency m ->
  0 <= hours_operated ->
  (forall sp, Mod.spec m = Some sp -> 0 <= MSpec.degradation_rate sp) ->
  let m' := fst (fst (Mod.update_condition orc m draws hours_operated cfg)) in
  (3 # 10) <= Mod.current_efficiency m'
  /\ Mod.current_efficiency m' <= Mod.current_efficiency m.
Proof.
  intros Heff Hh Hrate m'. subst m'. unfold Mod.update_condition.
  destruct (enable_degradation cfg); simpl; [| split; [exact Heff | lra]].
  destruct (Mod.spec m) as [sp |] eqn:Hsp; simpl; [| split; [exact Heff | lra]].
  specialize (Hrate sp eq_refl).
  assert (Hd : 0 <= MSpec.degradation_rate sp * (hours_operated / 1000)).
  { apply Qmult_le_0_compat; [exact Hrate |].
    apply Qle_shift_div_l; [reflexivity | lra]. }
  assert (Hm : Qmax (3 # 10)
                    (Mod.current_efficiency m
                     * (1 - MSpec.degradation_rate sp * (hours_operated / 1000)))
               <= Mod.current_efficiency m).
  { apply Q.max_lub; [exact Heff |].
    set (d := MSpec.degradation_rate sp * (hours_operated / 1000)) in *.
    assert (0 <= Mod.current_efficiency m * d)
      by (apply Qmult_le_0_compat; lra).
    lra. }
  destruct (Mod.is_failed m); simpl.
  - destruct (enable_maintenance cfg && Py.geb _ _); simpl;
      (split; [apply Q.le_max_l | exact Hm]).
  - destruct (Py.ltb _ _); simpl; [split; [exact Heff | lra] |].
    destruct (enable_maintenance cfg && Py.geb _ _); simpl;
      (split; [apply Q.le_max_l | exact Hm]).
Qed.

Lemma wear_lowers_efficiency_to_a_floor_witness :
  let m := Mod.new "mining_001" "mining" (Dict.get MODULE_SPECS_DEFAULT "mining") in
  let m' := fst (fst (Mod.update_condition nominal m 0 100 CONFIG)) in
  (3 # 10) <= Mod.current_efficiency m'
  /\ Mod.current_efficiency m' <= Mod.current_efficiency m.
Proof.
  intros m. apply (wear_lowers_efficiency_to_a_floor nominal m 0 100 CONFIG).
  - unfold Qle. simpl. lia.
  - unfold Qle. simpl. lia.
  - intros sp Hsp. vm_compute in Hsp. inversion Hsp. unfold Qle. simpl. lia.
Defined.

(** ** Heat and cooling *)

Lemma fold_Qplus_from (l : list Q) : forall a, fold_left Qplus l a == a + Qsum l.
Proof.
  unfold Qsum. induction l as [| x l IH]; intros a; simpl; [ring |].
  rewrite (IH (a + x)), (IH (0 + x)). ring.
Qed.

Lemma Qsum_cons (x : Q) (l : list Q) : Qsum (x :: l) == x + Qsum l.
Proof. unfold Qsum at 1. simpl. rewrite fold_Qplus_from. ring. Qed.

Lemma module_heat_from (ms : list (string * Mod.ModuleState)) : forall a,
  fold_left
    (fun total_heat e =>
       match Mod.spec (snd e) with
       | Some _ => total_heat + Mod.get_power_consumption (snd e) * (8 # 10)
       | None => total_heat
       end) ms a
  == a + (8 # 10) * module_power ms.
Proof.
  unfold module_power. induction ms as [| e ms IH]; intros a; cbn [fold_left map].
  - unfold Qsum. simpl. ring.
  - rewrite IH, Qsum_cons.
    destruct (Mod.spec (snd e)) eqn:Hsp; [ring |].
    assert (Hp : Mod.get_power_consumption (snd e) = 0)
      by (unfold Mod.get_power_consumption; rewrite Hsp; reflexivity).
    rewrite Hp. ring.
Qed.

(** X5. The heat of a set of modules is 80% of the power they draw:
    a module without spec draws nothing, so the guard on the spec in
    [calculate_module_heat] leaves nothing out. *)
Theorem module_heat_is_four_fifths_of_power (ms : list (string * Mod.ModuleState)) :
  Thermal.calculate_module_heat ms == (8 # 10) * module_power ms.
Proof.
  unfold Thermal.calculate_module_heat. rewrite module_heat_from. ring.
Qed.

Lemma cop_positive (t : Thermal.ThermalManagementSystem) :
  (15 # 10) <= Qmax (15 # 10)
                    (Thermal.chiller_efficiency t
                     - (5 # 100) * Qabs (Thermal.ambient_temp t - 22)).
Proof. apply Q.le_max_l. Qed.

(** X6. Cooling is monotone in the heat: more heat never needs less
    cooling power, so a load that passes [check_thermal_constraints]
    passes at every lower load; and since the coefficient of performance
    is at least 1.5, the cooling power is at most two thirds of the heat
    to remove. *)
Theorem cooling_is_monotone (t : Thermal.ThermalManagementSystem) (h1 h2 : Q) :
  h1 <= h2 ->
  Thermal.calculate_cooling_requirement t h1
  <= Thermal.calculate_cooling_requirement t h2
  /\ (Thermal.check_thermal_constraints t h2 = true ->
      Thermal.check_thermal_constraints t h1 = true)
  /\ (0 <= h1 + factory_area_m2 (Thermal.config t) * (1 # 10) ->
      0 <= Thermal.calculate_cooling_requirement t h1
      /\ (15 # 10) * Thermal.calculate_cooling_requirement t h1
         <= h1 + factory_area_m2 (Thermal.config t) * (1 # 10)).
Proof.
  intros Hle. unfold Thermal.check_thermal_constraints.
  unfold Thermal.calculate_cooling_requirement.
  pose proof (cop_positive t) as Hcop.
  set (cop := Qmax _ _) in *.
  set (gain := factory_area_m2 (Thermal.config t) * (1 # 10)).
  assert (Hpos : 0 < cop) by lra.
  assert (Hinv : 0 <= / cop) by (apply Qinv_le_0_compat; lra).
  assert (Hmono : (h1 + gain) / cop <= (h2 + gain) / cop).
  { unfold Qdiv. apply Qmult_le_compat_r; [lra | exact Hinv]. }
  split; [exact Hmono |]. split.
  - intros H. apply Py_leb_le in H. apply Py_leb_le. lra.
  - intros Htot.
    assert (Hq : 0 <= (h1 + gain) / cop)
      by (unfold Qdiv; apply Qmult_le_0_compat; assumption).
    split; [exact Hq |].
    assert (Heq : (h1 + gain) / cop * cop == h1 + gain)
      by (field; lra).
    assert (Hm : (15 # 10) * ((h1 + gain) / cop) <= cop * ((h1 + gain) / cop))
      by (apply Qmult_le_compat_r; assumption).
    lra.
Qed.

Lemma cooling_is_monotone_witness :
  let t := Thermal.init CONFIG in
  Thermal.calculate_cooling_requirement t 100
  <= Thermal.calculate_cooling_requirement t 200
  /\ (Thermal.check_thermal_constraints t 200 = true ->
      Thermal.check_thermal_constraints t 100 = true)
  /\ (0 <= 100 + factory_area_m2 (Thermal.config t) * (1 # 10) ->
      0 <= Thermal.calculate_cooling_requirement t 100
      /\ (15 # 10) * Thermal.calculate_cooling_requirement t 100
         <= 100 + factory_area_m2 (Thermal.config t) * (1 # 10)).
Proof.
  intros t. apply (cooling_is_monotone t 100 200).
  unfold Qle. simpl. lia.
Defined.

(** ** Transport: distances and vehicles *)

(** X7. [calculate_distance] is a metric on the modules of the layout:
    never negative, symmetric, zero from a module to itself, and it
    obeys the triangle inequality; with a module that is not in the
    layout the distance is 100. *)
Theorem calculate_distance_is_a_metric
        (ts : Transport.TransportSystem) (a b c : string) :
  0 <= Transport.calculate_distance ts a b
  /\ Transport.calculate_distance ts a b == Transport.calculate_distance ts b a
  /\ (Dict.mem (Transport.module_locations ts) a = true ->
      Transport.calculate_distance ts a a == 0)
  /\ (Dict.mem (Transport.module_locations ts) a = true ->
      Dict.mem (Transport.module_locations ts) b = true ->
      Dict.mem (Transport.module_locations ts) c = true ->
      Transport.calculate_distance ts a c
      <= Transport.calculate_distance ts a b + Transport.calculate_distance ts b c)
  /\ (Dict.mem (Transport.module_locations ts) a = false
      \/ Dict.mem (Transport.module_locations ts) b = false ->
      Transport.calculate_distance ts a b = 100).
Proof.
  unfold Transport.calculate_distance, Dict.mem.
  destruct (Dict.get (Transport.module_locations ts) a) as [[xa ya] |];
    destruct (Dict.get (Transport.module_locations ts) b) as [[xb yb] |];
    destruct (Dict.get (Transport.module_locations ts) c) as [[xc yc] |].
  all: repeat apply conj;
    [ try (pose proof (Qabs_nonneg (xb - xa)); pose proof (Qabs_nonneg (yb - ya)));
      lra
    | first [ reflexivity
            | rewrite (Qabs_Qminus xb xa), (Qabs_Qminus yb ya); reflexivity ]
    | intros H;
      first [ discriminate H
            | unfold Qminus; rewrite !Qplus_opp_r; reflexivity ]
    | intros Ha Hb Hc;
      first [ discriminate Ha | discriminate Hb | discriminate Hc
            | pose proof (Qabs_triangle (xc - xb) (xb - xa)) as Hx;
              pose proof (Qabs_triangle (yc - yb) (yb - ya)) as Hy;
              assert (Ex : Qabs (xc - xa) == Qabs (xc - xb + (xb - xa)))
                by (apply Qabs_wd; ring);
              assert (Ey : Qabs (yc - ya) == Qabs (yc - yb + (yb - ya)))
                by (apply Qabs_wd; ring);
              lra ]
    | intros [H | H]; first [discriminate H | reflexivity] ].
Qed.

Lemma find_in_fleet_spec (fleet : list (string * Transport.Agv)) (load_weight : Q) :
  match Transport.find_in_fleet fleet load_weight with
  | Some v =>
      exists pre agv post,
        fleet = (pre ++ (v, agv) :: post)%list
        /\ fit agv load_weight
        /\ Forall (fun e => ~ fit (snd e) load_weight) pre
  | None => Forall (fun e => ~ fit (snd e) load_weight) fleet
  end.
Proof.
  induction fleet as [| [v agv] fleet IH]; simpl; [constructor |].
  destruct (Transport.AgvStatus_eqb (Transport.status agv) Transport.idle
            && Py.gtb (Transport.battery_level agv) (2 # 10)
            && Py.geb (Transport.max_load agv) load_weight) eqn:Hfit.
  - exists [], agv, fleet. split; [reflexivity |]. split; [| constructor].
    apply andb_true_iff in Hfit as [Hfit Hload].
    apply andb_true_iff in Hfit as [Hst Hbat].
    repeat split.
    + destruct (Transport.status agv); try discriminate Hst; reflexivity.
    + apply Py_gtb_true, Hbat.
    + apply Py_geb_true, Hload.
  - assert (Hno : ~ fit agv load_weight).
    { intros (Hst & Hbat & Hload).
      rewrite Hst in Hfit. simpl in Hfit.
      apply Py_gtb_true in Hbat. apply Py_geb_true in Hload.
      rewrite Hbat, Hload in Hfit. discriminate Hfit. }
    destruct (Transport.find_in_fleet fleet load_weight) as [w |].
    + destruct IH as (pre & a & post & -> & Hf & Hpre).
      exists ((v, agv) :: pre), a, post.
      split; [reflexivity |]. split; [exact Hf |]. constructor; assumption.
    + constructor; assumption.
Qed.

(** X8. [find_available_agv] returns the first vehicle of the fleet,
    in fleet order, that is idle, charged above 20% and able to carry
    the load, and [None] exactly when no vehicle is. *)
Theorem find_available_agv_first_fit
        (ts : Transport.TransportSystem) (load_weight : Q) :
  match Transport.find_available_agv ts load_weight with
  | Some v =>
      exists pre agv post,
        Transport.agv_fleet ts = (pre ++ (v, agv) :: post)%list
        /\ fit agv load_weight
        /\ Forall (fun e => ~ fit (snd e) load_weight) pre
  | None => Forall (fun e => ~ fit (snd e) load_weight) (Transport.agv_fleet ts)
  end.
Proof. apply find_in_fleet_spec. Qed.

(** X9. One maintenance pass over a vehicle charged to at most 100%:
    the charge does not drop and stays at most 100%; a vehicle left idle
    holds at least 30%; a vehicle in the maintenance status stays
    there, no branch takes it out; a transporting vehicle keeps
    transporting unless it is sent to maintenance; and the hours towards
    maintenance are at most 100 afterwards. *)
Theorem maintain_agv_rules (agv : Transport.Agv) :
  Transport.battery_level agv <= 1 ->
  let agv' := Transport.maintain_agv agv in
  Transport.battery_level agv <= Transport.battery_level agv'
  /\ Transport.battery_level agv' <= 1
  /\ (Transport.status agv' = Transport.idle ->
      (3 # 10) <= Transport.battery_level agv')
  /\ (Transport.status agv = Transport.maintenance ->
      Transport.status agv' = Transport.maintenance)
  /\ (Transport.status agv = Transport.transporting ->
      (Transport.status agv' = Transport.transporting
       \/ Transport.status agv' = Transport.maintenance)
      /\ Transport.battery_level agv' = Transport.battery_level agv)
  /\ Transport.maintenance_hours agv' <= 100
  /\ Transport.max_load agv' = Transport.max_load agv
  /\ Transport.current_load agv' = Transport.current_load agv.
Proof.
  intros Hlvl agv'. subst agv'. unfold Transport.maintain_agv.
  destruct agv as [st lvl load maxl speed loc hours]. simpl in *.
  assert (Hup : lvl <= Qmin 1 (lvl + (1 # 10))) by (apply Q.min_glb; lra).
  assert (Hcap : Qmin 1 (lvl + (1 # 10)) <= 1) by apply Q.le_min_l.
  destruct st; simpl;
    repeat match goal with
      | |- context [Py.ltb ?a ?b] =>
          let E := fresh "E" in
          destruct (Py.ltb a b) eqn:E;
          [apply Py_ltb_lt in E | apply Py_ltb_ge in E]; simpl
      | |- context [Py.geb ?a ?b] =>
          let E := fresh "E" in
          destruct (Py.geb a b) eqn:E;
          [apply Py_geb_true in E | apply Py_geb_false in E]; simpl
      | |- context [Py.gtb ?a ?b] =>
          let E := fresh "E" in
          destruct (Py.gtb a b) eqn:E;
          [apply Py_gtb_true in E | apply Py_gtb_false in E]; simpl
      end;
    repeat apply conj; try discriminate; try reflexivity; try lra;
    try (intros _; lra); try (intros _; split; [auto | reflexivity]).
Qed.

Lemma maintain_agv_rules_witness :
  let agv := Transport.new_agv in
  let agv' := Transport.maintain_agv agv in
  Transport.battery_level agv <= Transport.battery_level agv'
  /\ Transport.battery_level agv' <= 1
  /\ (Transport.status agv' = Transport.idle ->
      (3 # 10) <= Transport.battery_level agv')
  /\ (Transport.status agv = Transport.maintenance ->
      Transport.status agv' = Transport.maintenance)
  /\ (Transport.status agv = Transport.transporting ->
      (Transport.status agv' = Transport.transporting
       \/ Transport.status agv' = Transport.maintenance)
      /\ Transport.battery_level agv' = Transport.battery_level agv)
  /\ Transport.maintenance_hours agv' <= 100
  /\ Transport.max_load agv' = Transport.max_load agv
  /\ Transport.current_load agv' = Transport.current_load agv.
Proof.
  intros agv. apply (maintain_agv_rules agv).
  unfold Qle. simpl. lia.
Defined.

(** ** Transport: dispatch and completion *)

Lemma dict_get_set_other {V} (d : list (string * V)) k k' v :
  k <> k' -> Dict.get (Dict.set d k v) k' = Dict.get d k'.
Proof.
  intros Hne. induction d as [| [k2 v2] d IH]; simpl.
  - destruct (String.eqb_spec k k'); [contradiction | reflexivity].
  - destruct (String.eqb_spec k2 k) as [-> | Hne2]; simpl.
    + destruct (String.eqb_spec k k'); [contradiction | reflexivity].
    + rewrite IH. reflexivity.
Qed.

Lemma dict_mem_set {V} (d : list (string * V)) k k' v :
  Dict.mem (Dict.set d k v) k' = true <-> k = k' \/ Dict.mem d k' = true.
Proof.
  unfold Dict.mem. destruct (String.eqb_spec k k') as [-> | Hne].
  - rewrite dict_get_set_same. intuition.
  - rewrite dict_get_set_other by exact Hne. intuition.
Qed.

Lemma heappush_length {A : Type} (h : list (Z * string * A)) (e : Z * string * A) :
  List.length (Heap.heappush h e) = S (List.length h).
Proof.
  induction h as [| x h IH]; simpl; [reflexivity |].
  destruct (Heap.key_le _ _ _ _); simpl; [rewrite IH |]; reflexivity.
Qed.

Lemma heappush_perm {A : Type} (h : list (Z * string * A)) (e : Z * string * A) :
  Permutation (Heap.heappush h e) (e :: h).
Proof.
  induction h as [| x h IH]; simpl; [reflexivity |].
  destruct (Heap.key_le _ _ _ _); [| reflexivity].
  rewrite IH. apply perm_swap.
Qed.

Lemma dict_get_absent {V : Type} (d : list (string * V)) (k : string) :
  ~ In k (Dict.keys d) -> Dict.get d k = None.
Proof.
  induction d as [| [k' v'] d IH]; simpl; [reflexivity |].
  intros H. destruct (String.eqb_spec k' k) as [-> | Hne].
  - exfalso. apply H. left. reflexivity.
  - apply IH. intros Hin. apply H. right. exact Hin.
Qed.

Lemma dict_get_key {V : Type} (d : list (string * V)) (k : string) (v : V) :
  Dict.get d k = Some v -> In k (Dict.keys d).
Proof.
  induction d as [| [k' v'] d IH]; simpl; [discriminate |].
  destruct (String.eqb_spec k' k) as [-> | Hne]; [left; reflexivity |].
  intros H. right. apply IH. exact H.
Qed.

Lemma dict_set_new_key {V : Type} (d : list (string * V)) (k : string) (v : V) :
  ~ In k (Dict.keys d) -> Dict.keys (Dict.set d k v) = (Dict.keys d ++ [k])%list.
Proof.
  induction d as [| [k' v'] d IH]; simpl; [reflexivity |].
  intros H. destruct (String.eqb_spec k' k) as [-> | Hne].
  - exfalso. apply H. left. reflexivity.
  - simpl. f_equal. apply IH. intros Hin. apply H. right. exact Hin.
Qed.

(** The job a started entry leaves in [active_transports]. *)
Lemma start_job_starts (ts ts' : Transport.TransportSystem) (now : Q)
      (jid : string) (job : Transport.TransportJob) :
  Transport.start_job ts now jid job = Some ts' ->
  Transport.transport_queue ts' = Transport.transport_queue ts
  /\ Transport.completed_transports ts' = Transport.completed_transports ts
  /\ exists job', Transport.active_transports ts'
                  = Dict.set (Transport.active_transports ts) jid job'
                  /\ started_from job job'.
Proof.
  unfold Transport.start_job, started_from. intros H.
  repeat case_match; try discriminate H; inversion H; subst; clear H; simpl.
  all: split; [reflexivity |]. all: split; [reflexivity |].
  all: eexists; split; [reflexivity |]. all: simpl; repeat split; discriminate.
Qed.

Lemma dispatch_jobs (n : nat) : forall ts now,
  NoDup (held_ids ts) ->
  let r := Transport.dispatch n ts now in
  Permutation (held_ids (fst r)) (held_ids ts)
  /\ (List.length (Transport.transport_queue (fst r)) + snd r
      = List.length (Transport.transport_queue ts))%nat
  /\ Transport.completed_transports (fst r) = Transport.completed_transports ts
  /\ (forall k job, Dict.get (Transport.active_transports ts) k = Some job ->
                    Dict.get (Transport.active_transports (fst r)) k = Some job)
  /\ (forall prio jid job,
        In (prio, jid, job) (Transport.transport_queue ts) ->
        In (prio, jid, job) (Transport.transport_queue (fst r))
        \/ exists job', Dict.get (Transport.active_transports (fst r)) jid = Some job'
                        /\ started_from job job').
Proof.
  induction n as [| n IH]; intros ts now Hnd; cbn [Transport.dispatch].
  - simpl. repeat apply conj; first [reflexivity | lia | auto].
  - destruct (Transport.transport_queue ts) as [| [[prio jid] job] rest] eqn:Hq;
      cbn [Heap.heappop].
    + simpl. rewrite Hq. repeat apply conj;
        first [reflexivity | solve [auto] | intros p j b []].
    + unfold held_ids in Hnd. rewrite Hq in Hnd. cbn [map fst snd app] in Hnd.
      apply NoDup_cons in Hnd as [Hfresh Hnd].
      assert (Hnew : ~ In jid (Dict.keys (Transport.active_transports ts))).
      { intros Hin. apply Hfresh. apply list_elem_of_In, in_or_app. right. exact Hin. }
      destruct (Transport.start_job (Transport.with_queue ts rest) now jid job)
        as [ts' |] eqn:Hstart.
      * apply start_job_starts in Hstart as (Hq' & Hc' & job' & Ha' & Hjob).
        simpl in Hq', Hc', Ha'.
        assert (Hids : Permutation (held_ids ts') (held_ids ts)).
        { unfold held_ids. rewrite Hq', Ha', Hq, dict_set_new_key by exact Hnew.
          cbn [map fst snd app]. rewrite app_assoc.
          symmetry. apply Permutation_cons_append. }
        assert (Hnd' : NoDup (held_ids ts')).
        { rewrite Hids. unfold held_ids. rewrite Hq. cbn [map fst snd app].
          apply NoDup_cons. split; assumption. }
        specialize (IH ts' now Hnd'). cbv zeta in IH.
        destruct IH as (Hperm & Hlen & Hcomp & Hkeep & Hin).
        cbn [fst snd]. rewrite Hq' in Hlen, Hin.
        repeat apply conj.
        -- rewrite Hperm. exact Hids.
        -- simpl. lia.
        -- congruence.
        -- intros k b Hk. apply Hkeep. rewrite Ha'.
           rewrite dict_get_set_other; [exact Hk |].
           intros ->. apply Hnew. eapply dict_get_key. exact Hk.
        -- intros p j b [Heq | Hx]; [| apply Hin; exact Hx].
           inversion Heq; subst p j b. right. exists job'. split; [| exact Hjob].
           apply Hkeep. rewrite Ha'. apply dict_get_set_same.
      * cbn [fst snd]. simpl. rewrite heappush_length.
        repeat apply conj.
        -- unfold held_ids. simpl. rewrite Hq.
           apply Permutation_app_tail, Permutation_map, heappush_perm.
        -- lia.
        -- reflexivity.
        -- auto.
        -- intros p j b Hx. left. apply heappush_In.
           destruct Hx as [<- | Hx]; auto.
Qed.

Lemma distinct_ids_never_tie (q before after : list (Z * string * Transport.TransportJob))
      (e : Z * string * Transport.TransportJob) :
  NoDup (map (fun x => snd (fst x)) q) ->
  q = (before ++ e :: after)%list ->
  tied (before ++ after) e = false.
Proof.
  intros Hnd ->. destruct (tied (before ++ after) e) eqn:Ht; [| reflexivity].
  exfalso. unfold tied in Ht. apply existsb_exists in Ht as (x & Hx & Hk).
  apply andb_true_iff in Hk as [_ Hid]. apply String.eqb_eq in Hid.
  rewrite List.map_app in Hnd. cbn [map] in Hnd.
  rewrite <- Permutation_middle in Hnd. apply NoDup_cons in Hnd as [Hfresh _].
  apply Hfresh. rewrite <- List.map_app, <- Hid.
  apply list_elem_of_In. apply (in_map (fun x => snd (fst x))). exact Hx.
Qed.

(** Ids repeat: [schedule_transport] numbers a job by the length of
    the queue, so the job scheduled after the first one was started
    gets the first one's id, and starting it replaces the running job
    in [active_transports]. *)
Example second_job_replaces_first :
  let first := fst one_after_another in
  let second := snd one_after_another in
  map (fun e => (fst e, Transport.resource_type (snd e)))
      (Transport.active_transports first) = [("transport_000000", "iron_ore")]
  /\ map (fun e => (fst e, Transport.resource_type (snd e)))
         (Transport.active_transports second) = [("transport_000000", "steel")]
  /\ Transport.completed_transports second = [].
Proof. vm_compute. repeat split. Qed.

(** X10. While the ids of the jobs the system holds, queued or
    running, are pairwise distinct, dispatch loses no job: every queued
    entry is afterwards still queued or its job, started, is the one
    [active_transports] holds under its id; every running job is still
    held under its key, unchanged; the queue shrinks by exactly the
    number of jobs started; [completed_transports] is unchanged; and the
    ids are the same ones, still pairwise distinct. With distinct ids no
    entry of the queue ties with another on [(priority, id)], so no
    push compares two jobs. *)
Theorem dispatch_keeps_every_job (ts : Transport.TransportSystem) (now : Q) :
  NoDup (held_ids ts) ->
  let ts' := Transport.process_transport_queue ts now in
  let started := snd (Transport.dispatch Transport.max_starts ts now) in
  (List.length (Transport.transport_queue ts') + started
   = List.length (Transport.transport_queue ts))%nat
  /\ (forall prio jid job,
        In (prio, jid, job) (Transport.transport_queue ts) ->
        In (prio, jid, job) (Transport.transport_queue ts')
        \/ exists job', Dict.get (Transport.active_transports ts') jid = Some job'
                        /\ started_from job job')
  /\ (forall k job, Dict.get (Transport.active_transports ts) k = Some job ->
                    Dict.get (Transport.active_transports ts') k = Some job)
  /\ Transport.completed_transports ts' = Transport.completed_transports ts
  /\ Permutation (held_ids ts') (held_ids ts)
  /\ NoDup (held_ids ts')
  /\ (forall before e after,
        Transport.transport_queue ts = (before ++ e :: after)%list ->
        tied (before ++ after) e = false).
Proof.
  intros Hnd ts' started. subst ts' started. unfold Transport.process_transport_queue.
  destruct (dispatch_jobs Transport.max_starts ts now Hnd)
    as (Hperm & Hlen & Hcomp & Hkeep & Hin).
  repeat apply conj; try assumption.
  - rewrite Hperm. exact Hnd.
  - intros before e after Hq.
    apply (distinct_ids_never_tie (Transport.transport_queue ts)); [| exact Hq].
    unfold held_ids in Hnd. apply NoDup_app in Hnd as [Hnd _]. exact Hnd.
Qed.

Lemma dispatch_keeps_every_job_witness :
  let ts := two_queued in
  let ts' := Transport.process_transport_queue ts 0 in
  let started := snd (Transport.dispatch Transport.max_starts ts 0) in
  (List.length (Transport.transport_queue ts') + started
   = List.length (Transport.transport_queue ts))%nat
  /\ (forall prio jid job,
        In (prio, jid, job) (Transport.transport_queue ts) ->
        In (prio, jid, job) (Transport.transport_queue ts')
        \/ exists job', Dict.get (Transport.active_transports ts') jid = Some job'
                        /\ started_from job job')
  /\ (forall k job, Dict.get (Transport.active_transports ts) k = Some job ->
                    Dict.get (Transport.active_transports ts') k = Some job)
  /\ Transport.completed_transports ts' = Transport.completed_transports ts
  /\ Permutation (held_ids ts') (held_ids ts)
  /\ NoDup (held_ids ts')
  /\ (forall before e after,
        Transport.transport_queue ts = (before ++ e :: after)%list ->
        tied (before ++ after) e = false).
Proof.
  intros ts. apply (dispatch_keeps_every_job ts 0).
  apply (bool_decide_unpack _). vm_compute. reflexivity.
Defined.

(** The first loop of [update_active_transports]. *)
Lemma complete_job_fold (now : Q) (l : list (string * Transport.TransportJob)) :
  forall acc : Transport.TransportSystem * list string,
    let r := fold_left (fun acc e => Transport.complete_job acc now e) l acc in
    Transport.active_transports (fst r) = Transport.active_transports (fst acc)
    /\ Transport.transport_queue (fst r) = Transport.transport_queue (fst acc)
    /\ snd r = (snd acc ++ map fst (List.filter (fun e => due now (snd e)) l))%list
    /\ Transport.completed_transports (fst r)
       = (Transport.completed_transports (fst acc)
          ++ map snd (List.filter (fun e => due now (snd e)) l))%list.
Proof.
  induction l as [| [jid job] l IH]; intros acc; cbn [fold_left].
  - simpl. rewrite !app_nil_r. auto.
  - specialize (IH (Transport.complete_job acc now (jid, job))). cbv zeta in IH.
    destruct IH as (Ha & Hq & Hk & Hc).
    cbv zeta. rewrite Ha, Hq, Hk, Hc.
    unfold Transport.complete_job, due. cbn [fst snd List.filter].
    destruct (Transport.completion_time job) as [done_at |]; [| auto].
    destruct (Py.geb now done_at); [| auto].
    cbn [fst snd map Transport.active_transports Transport.transport_queue
         Transport.completed_transports].
    rewrite <- !app_assoc. auto.
Qed.

(** X11. [update_active_transports] retires exactly the jobs whose
    completion time has been reached: they leave [active_transports] and
    are appended, in order, to [completed_transports]; the jobs not yet
    due stay as they are, and the queue is not touched. *)
Theorem update_active_transports_retires_due_jobs
        (ts : Transport.TransportSystem) (now : Q) :
  NoDup (Dict.keys (Transport.active_transports ts)) ->
  let ts' := Transport.update_active_transports ts now in
  (forall jid job, In (jid, job) (Transport.active_transports ts) ->
     Dict.get (Transport.active_transports ts') jid
     = if due now job then None else Some job)
  /\ Transport.completed_transports ts'
     = (Transport.completed_transports ts
        ++ map snd (List.filter (fun e => due now (snd e))
                                (Transport.active_transports ts)))%list
  /\ Transport.transport_queue ts' = Transport.transport_queue ts.
Proof.
  intros Hnd ts'. subst ts'. unfold Transport.update_active_transports.
  destruct (complete_job_fold now (Transport.active_transports ts) (ts, []))
    as (Ha & Hq & Hk & Hc).
  set (r := fold_left _ (Transport.active_transports ts) (ts, [])) in *.
  cbn [fst snd] in Ha, Hq, Hk, Hc. simpl in Hk.
  cbn [Transport.with_active Transport.active_transports
       Transport.completed_transports Transport.transport_queue].
  repeat apply conj; [| exact Hc | exact Hq].
  intros jid job Hin. rewrite Ha, Hk, dict_get_del_all by exact Hnd.
  destruct (due now job) eqn:Hdue.
  - rewrite bool_decide_eq_true_2; [reflexivity |].
    apply list_elem_of_In. change jid with (fst (jid, job)). apply in_map.
    apply filter_In. split; [exact Hin | exact Hdue].
  - rewrite bool_decide_eq_false_2; [apply dict_get_in; assumption |].
    intros Hk'. apply list_elem_of_In, in_map_iff in Hk' as ([k2 j2] & Heq & Hf).
    simpl in Heq. subst k2. apply filter_In in Hf as [Hin2 Hd2]. simpl in Hd2.
    assert (Some j2 = Some job) as Heq.
    { rewrite <- (dict_get_in _ _ _ Hnd Hin2). apply dict_get_in; assumption. }
    inversion Heq; subst. congruence.
Qed.

Lemma update_active_transports_retires_due_jobs_witness :
  let ts := Transport.process_transport_queue
              (fst (Transport.schedule_transport (Transport.init CONFIG)
                      "storage" "assembly" "steel" 50 100)) 0 in
  let ts' := Transport.update_active_transports ts 1 in
  (forall jid job, In (jid, job) (Transport.active_transports ts) ->
     Dict.get (Transport.active_transports ts') jid
     = if due 1 job then None else Some job)
  /\ Transport.completed_transports ts'
     = (Transport.completed_transports ts
        ++ map snd (List.filter (fun e => due 1 (snd e))
                                (Transport.active_transports ts)))%list
  /\ Transport.transport_queue ts' = Transport.transport_queue ts.
Proof.
  intros ts. apply (update_active_transports_retires_due_jobs ts 1).
  refine (bool_decide_unpack _ _). vm_compute. exact I.
Defined.

(** ** Sums over inventories *)

Section Totals.
Variable g : string -> Q -> Q.

Lemma step_proper : forall (j : string) (z : Q),
  Proper (Qeq ==> Qeq) (fun acc : Q => acc + g j z).
Proof. intros j z x y H. rewrite H. reflexivity. Qed.

Lemma step_comm : forall (j1 j2 : string) (z1 z2 y : Q),
  y + g j2 z2 + g j1 z1 == y + g j1 z1 + g j2 z2.
Proof. intros. ring. Qed.

(** Writing one entry of an inventory changes the total by the
    difference of the two terms. *)
Lemma total_insert (m : gmap string Q) (k : string) (v : Q) :
  map_fold (fun (r : string) (q acc : Q) => acc + g r q) 0 (<[k := v]> m)
  == map_fold (fun (r : string) (q acc : Q) => acc + g r q) 0 m
     - match m !! k with Some old => g k old | None => 0 end
     + g k v.
Proof.
  set (step := fun (r : string) (q acc : Q) => acc + g r q).
  destruct (m !! k) as [old |] eqn:Hk.
  - rewrite <- insert_delete_eq.
    rewrite (map_fold_insert Qeq step 0 k v (delete k m) step_proper);
      [| intros; apply step_comm | apply lookup_delete_eq].
    rewrite (map_fold_delete Qeq step 0 k old m step_proper);
      [| intros; apply step_comm | exact Hk].
    unfold step. ring.
  - rewrite (map_fold_insert Qeq step 0 k v m step_proper);
      [| intros; apply step_comm | exact Hk].
    unfold step. ring.
Qed.

End Totals.

(** ** The waste stream *)

(** X12. [get_total_waste] after [add_waste] is the total before plus
    the quantity added. *)
Theorem add_waste_adds_to_total (w : Waste.WasteStream) (waste_type : string) (quantity : Q) :
  Waste.get_total_waste (Waste.add_waste w waste_type quantity)
  == Waste.get_total_waste w + quantity
  /\ Waste.recyclable_materials (Waste.add_waste w waste_type quantity)
     = Waste.recyclable_materials w.
Proof.
  split; [| reflexivity].
  unfold Waste.get_total_waste, Waste.add_waste. simpl.
  rewrite (total_insert (fun _ q => q)).
  destruct (Waste.waste_inventory w !! waste_type); simpl; ring.
Qed.

(** X13. Recycling takes out of the waste stream what it draws: for
    a recyclable material the total waste drops by the amount drawn,
    [min(quantity, stock)]; with a recovery rate between 0 and 1, a
    request and a stock that are not negative, the recovered amount lies
    between 0 and what was drawn and the stock does not go negative. A
    material that is not recyclable leaves the stream as it is and
    recovers nothing. *)
Theorem recycling_draws_from_waste
        (w : Waste.WasteStream) (waste_type : string) (quantity : Q) :
  let r := Waste.process_recycling w waste_type quantity in
  let stock := default 0 (Waste.waste_inventory w !! waste_type) in
  match Dict.get (Waste.recyclable_materials w) waste_type with
  | Some rate =>
      Waste.get_total_waste (fst r)
      == Waste.get_total_waste w - Qmin quantity stock
      /\ (0 <= rate <= 1 -> 0 <= quantity -> 0 <= stock ->
          0 <= snd r <= Qmin quantity stock
          /\ snd r <= quantity
          /\ 0 <= default 0 (Waste.waste_inventory (fst r) !! waste_type))
  | None => r = (w, 0)
  end.
Proof.
  intros r stock. subst r. unfold Waste.process_recycling.
  destruct (Dict.get (Waste.recyclable_materials w) waste_type) as [rate |];
    [| reflexivity].
  cbn [fst snd]. split.
  - unfold Waste.get_total_waste. simpl.
    rewrite (total_insert (fun _ q => q)). fold stock.
    unfold stock. destruct (Waste.waste_inventory w !! waste_type); simpl; ring.
  - intros [Hr0 Hr1] Hq Hs. simpl. rewrite lookup_insert_eq. simpl. fold stock.
    assert (Hm0 : 0 <= Qmin quantity stock) by (apply Q.min_glb; assumption).
    assert (Hm1 : Qmin quantity stock <= quantity) by apply Q.le_min_l.
    assert (Hm2 : Qmin quantity stock <= stock) by apply Q.le_min_r.
    assert (H0 : 0 <= Qmin quantity stock * rate)
      by (apply Qmult_le_0_compat; assumption).
    assert (H1 : Qmin quantity stock * rate <= Qmin quantity stock * 1).
    { rewrite (Qmult_comm _ rate), (Qmult_comm _ 1).
      apply Qmult_le_compat_r; assumption. }
    repeat apply conj; lra.
Qed.

(** ** Storage *)

Lemma can_store_ok (s : Storage.StorageSystem) (resource : string) (quantity : Q) :
  Storage.enabled s = true ->
  fst (Storage.can_store s resource quantity) = true ->
  stored_volume s + quantity / Storage.density resource <= Storage.total_volume_m3 s
  /\ stored_weight s + quantity <= Storage.total_weight_capacity_tons s
  /\ (Storage.temperature_controlled s = true ->
      forall r q, Storage.current_inventory s !! r = Some q ->
                  Qabs (Storage.storage_temp r - Storage.storage_temp resource) <= 10).
Proof.
  intros Hen. unfold Storage.can_store, stored_volume, stored_weight.
  rewrite Hen. simpl.
  destruct (Py.gtb _ (Storage.total_volume_m3 s)) eqn:Hv; [discriminate |].
  destruct (Py.gtb _ (Storage.total_weight_capacity_tons s)) eqn:Hw; [discriminate |].
  apply Py_gtb_false in Hv. apply Py_gtb_false in Hw.
  destruct (Storage.temperature_controlled s && _) eqn:Ht; [discriminate |].
  intros _. repeat apply conj; [exact Hv | exact Hw |].
  intros Htc r q Hr. rewrite Htc in Ht. simpl in Ht.
  assert (Hin : In (r, q) (map_to_list (Storage.current_inventory s)))
    by (apply list_elem_of_In, elem_of_map_to_list; exact Hr).
  destruct (Py.gtb (Qabs (Storage.storage_temp r - Storage.storage_temp resource)) 10)
    eqn:Hgt; [| apply Py_gtb_false; exact Hgt].
  exfalso. apply not_true_iff_false in Ht. apply Ht.
  apply existsb_exists. exists (r, q). split; [exact Hin | exact Hgt].
Qed.

(** What one call of [add_resource] does to a store with limits. *)
Lemma add_resource_effect
        (s : Storage.StorageSystem) (resource : string) (quantity : Q) :
  Storage.enabled s = true ->
  let r := Storage.add_resource s resource quantity in
  if snd r then
    stored_weight (fst r) == stored_weight s + quantity
    /\ stored_volume (fst r) == stored_volume s + quantity / Storage.density resource
    /\ stored_weight (fst r) <= Storage.total_weight_capacity_tons (fst r)
    /\ stored_volume (fst r) <= Storage.total_volume_m3 (fst r)
    /\ Storage.current_inventory (fst r) !! resource
       = Some (default 0 (Storage.current_inventory s !! resource) + quantity)
    /\ forall other, other <> resource ->
         Storage.current_inventory (fst r) !! other
         = Storage.current_inventory s !! other
  else fst r = s.
Proof.
  intros Hen r. subst r. unfold Storage.add_resource.
  destruct (fst (Storage.can_store s resource quantity)) eqn:Hcs; [| reflexivity].
  destruct (can_store_ok s resource quantity Hen Hcs) as (Hv & Hw & _).
  cbn [fst snd].
  assert (Ew : stored_weight
                 (Storage.with_inventory s
                    (<[resource := default 0 (Storage.current_inventory s !! resource)
                                   + quantity]> (Storage.current_inventory s)))
               == stored_weight s + quantity).
  { unfold stored_weight. simpl. rewrite (total_insert (fun _ q => q)).
    destruct (Storage.current_inventory s !! resource); simpl; ring. }
  assert (Ev : stored_volume
                 (Storage.with_inventory s
                    (<[resource := default 0 (Storage.current_inventory s !! resource)
                                   + quantity]> (Storage.current_inventory s)))
               == stored_volume s + quantity / Storage.density resource).
  { unfold stored_volume. simpl.
    rewrite (total_insert (fun r q => q / Storage.density r)).
    destruct (Storage.current_inventory s !! resource); simpl;
      unfold Qdiv; ring. }
  repeat apply conj.
  - exact Ew.
  - exact Ev.
  - simpl. rewrite Ew. exact Hw.
  - simpl. rewrite Ev. exact Hv.
  - simpl. apply lookup_insert_eq.
  - intros other Hne. simpl. apply lookup_insert_ne. congruence.
Qed.

(** X14. [add_resource] on a store with limits never overfills it:
    when it returns [True] the stored weight and volume, which grew by
    the deposit, are within the capacities, and only the entry of the
    resource changed; when it returns [False] the store is as it was. *)
Theorem add_resource_respects_capacity
        (s : Storage.StorageSystem) (resource : string) (quantity : Q) :
  Storage.enabled s = true ->
  let r := Storage.add_resource s resource quantity in
  if snd r then
    stored_weight (fst r) == stored_weight s + quantity
    /\ stored_volume (fst r) == stored_volume s + quantity / Storage.density resource
    /\ stored_weight (fst r) <= Storage.total_weight_capacity_tons (fst r)
    /\ stored_volume (fst r) <= Storage.total_volume_m3 (fst r)
    /\ Storage.current_inventory (fst r) !! resource
       = Some (default 0 (Storage.current_inventory s !! resource) + quantity)
    /\ forall other, other <> resource ->
         Storage.current_inventory (fst r) !! other
         = Storage.current_inventory s !! other
  else fst r = s.
Proof. exact (add_resource_effect s resource quantity). Qed.

Lemma add_resource_respects_capacity_witness :
  let s := Storage.new 15000 10000 true in
  let r := Storage.add_resource s "steel" 500 in
  if snd r then
    stored_weight (fst r) == stored_weight s + 500
    /\ stored_volume (fst r) == stored_volume s + 500 / Storage.density "steel"
    /\ stored_weight (fst r) <= Storage.total_weight_capacity_tons (fst r)
    /\ stored_volume (fst r) <= Storage.total_volume_m3 (fst r)
    /\ Storage.current_inventory (fst r) !! "steel"
       = Some (default 0 (Storage.current_inventory s !! "steel") + 500)
    /\ forall other, other <> "steel" ->
         Storage.current_inventory (fst r) !! other
         = Storage.current_inventory s !! other
  else fst r = s.
Proof.
  intros s. apply (add_resource_respects_capacity s "steel" 500). reflexivity.
Defined.

Lemma add_resource_flags (s : Storage.StorageSystem) (resource : string) (quantity : Q) :
  Storage.enabled (fst (Storage.add_resource s resource quantity)) = Storage.enabled s
  /\ Storage.temperature_controlled (fst (Storage.add_resource s resource quantity))
     = Storage.temperature_controlled s
  /\ Storage.total_volume_m3 (fst (Storage.add_resource s resource quantity))
     = Storage.total_volume_m3 s
  /\ Storage.total_weight_capacity_tons (fst (Storage.add_resource s resource quantity))
     = Storage.total_weight_capacity_tons s.
Proof.
  unfold Storage.add_resource.
  destruct (fst (Storage.can_store s resource quantity)); simpl;
    repeat apply conj; reflexivity.
Qed.

Lemma add_resource_compatible (s : Storage.StorageSystem) (resource : string) (quantity : Q) :
  Storage.enabled s = true ->
  Storage.temperature_controlled s = true ->
  compatible s ->
  compatible (fst (Storage.add_resource s resource quantity)).
Proof.
  intros Hen Htc Hc. unfold Storage.add_resource.
  destruct (fst (Storage.can_store s resource quantity)) eqn:Hcs; [| exact Hc].
  destruct (can_store_ok s resource quantity Hen Hcs) as (_ & _ & Ht).
  specialize (Ht Htc). cbn [fst].
  intros r1 r2 q1 q2.
  cbn [Storage.current_inventory Storage.with_inventory].
  destruct (decide (resource = r1)) as [<- | H1];
    destruct (decide (resource = r2)) as [<- | H2].
  - intros _ _.
    assert (E : forall x : Q, Qabs (x - x) <= 10).
    { intros x. assert (Hx : Qabs (x - x) == Qabs 0) by (apply Qabs_wd; ring).
      rewrite Hx. unfold Qle. simpl. lia. }
    apply E.
  - rewrite (lookup_insert_ne _ _ _ _ H2). intros _ Hr2.
    rewrite Qabs_Qminus. exact (Ht r2 q2 Hr2).
  - rewrite (lookup_insert_ne _ _ _ _ H1). intros Hr1 _. exact (Ht r1 q1 Hr1).
  - rewrite (lookup_insert_ne _ _ _ _ H1), (lookup_insert_ne _ _ _ _ H2).
    apply Hc.
Qed.

(** X15. A temperature-controlled store with limits that is filled
    through [add_resource] alone, from empty, never holds two materials
    whose storage temperatures are more than ten degrees apart, and its
    weight and volume stay within the capacities, whatever deposits are
    attempted. *)
Theorem filled_store_stays_consistent
        (volume weight : Q) (deposits : list (string * Q)) :
  0 <= volume -> 0 <= weight ->
  let s := fill (Storage.new volume weight true) deposits in
  compatible s
  /\ stored_weight s <= weight
  /\ stored_volume s <= volume.
Proof.
  intros Hv Hw s. subst s.
  assert (Hinv : forall s,
             Storage.enabled s = true -> Storage.temperature_controlled s = true ->
             Storage.total_volume_m3 s = volume ->
             Storage.total_weight_capacity_tons s = weight ->
             compatible s -> stored_weight s <= weight -> stored_volume s <= volume ->
             compatible (fill s deposits)
             /\ stored_weight (fill s deposits) <= weight
             /\ stored_volume (fill s deposits) <= volume).
  { induction deposits as [| [resource quantity] deposits IH];
      intros s Hen Htc Hvol Hwt Hc Hsw Hsv; [auto |].
    unfold fill. cbn [fold_left fst snd]. fold (fill (fst (Storage.add_resource s resource quantity)) deposits).
    destruct (add_resource_flags s resource quantity) as (Een & Etc & Evol & Ewt).
    apply IH.
    - rewrite Een. exact Hen.
    - rewrite Etc. exact Htc.
    - rewrite Evol. exact Hvol.
    - rewrite Ewt. exact Hwt.
    - apply add_resource_compatible; assumption.
    - pose proof (add_resource_effect s resource quantity Hen) as H.
      cbv zeta in H. destruct (snd (Storage.add_resource s resource quantity)).
      + destruct H as (_ & _ & H & _). rewrite Ewt, Hwt in H. exact H.
      + rewrite H. exact Hsw.
    - pose proof (add_resource_effect s resource quantity Hen) as H.
      cbv zeta in H. destruct (snd (Storage.add_resource s resource quantity)).
      + destruct H as (_ & _ & _ & H & _). rewrite Evol, Hvol in H. exact H.
      + rewrite H. exact Hsv. }
  apply Hinv; try reflexivity.
  - intros r1 r2 q1 q2 H. simpl in H. rewrite lookup_empty in H. discriminate H.
  - unfold stored_weight. simpl. rewrite map_fold_empty. exact Hw.
  - unfold stored_volume. simpl. rewrite map_fold_empty. exact Hv.
Qed.

Lemma filled_store_stays_consistent_witness :
  let s := fill (Storage.new 15000 10000 true)
                [("steel", 500); ("organic_solvent", 10); ("silicon_wafer", 20000)] in
  compatible s
  /\ stored_weight s <= 10000
  /\ stored_volume s <= 15000.
Proof.
  intros s.
  apply (filled_store_stays_consistent 15000 10000
           [("steel", 500); ("organic_solvent", 10); ("silicon_wafer", 20000)]).
  - unfold Qle. simpl. lia.
  - unfold Qle. simpl. lia.
Defined.

(** ** Cleanrooms *)

(** X16. The yield factor of a cleanroom lies between 0 and 1 and
    drops as particles accumulate; activity only adds particles (the
    power [1.001 ** hours] being at least 1), and cleaning puts the room
    back into the state it was created in. *)
Theorem cleanroom_yield_rules
        (orc : Oracles) (c : CleanRoom.CleanRoomEnvironment)
        (process_sensitivity activity_level time_hours : Q) :
  0 <= CleanRoom.particle_count c ->
  0 <= process_sensitivity ->
  0 <= CleanRoom.calculate_yield_impact c process_sensitivity <= 1
  /\ (forall c2, CleanRoom.particle_count c <= CleanRoom.particle_count c2 ->
                 CleanRoom.calculate_yield_impact c2 process_sensitivity
                 <= CleanRoom.calculate_yield_impact c process_sensitivity)
  /\ (0 <= activity_level -> 0 <= time_hours ->
      1 <= float_pow orc (1001 # 1000) time_hours ->
      CleanRoom.particle_count c
      <= CleanRoom.particle_count
           (CleanRoom.update_contamination orc c activity_level time_hours))
  /\ CleanRoom.perform_cleaning c = CleanRoom.new (CleanRoom.cleanroom_class c).
Proof.
  intros Hp Hs. unfold CleanRoom.calculate_yield_impact.
  assert (Hdiv : forall x, 0 <= x -> 0 <= x / 1000000).
  { intros x Hx. apply Qle_shift_div_l; [reflexivity | lra]. }
  assert (Hred : 0 <= CleanRoom.particle_count c / 1000000 * process_sensitivity)
    by (apply Qmult_le_0_compat; auto).
  repeat apply conj.
  - apply Q.le_max_l.
  - apply Q.max_lub; lra.
  - intros c2 Hle. apply Q.max_le_compat_l.
    assert (CleanRoom.particle_count c / 1000000 * process_sensitivity
            <= CleanRoom.particle_count c2 / 1000000 * process_sensitivity).
    { apply Qmult_le_compat_r; [| exact Hs].
      unfold Qdiv. apply Qmult_le_compat_r; [exact Hle |].
      unfold Qle. simpl. lia. }
    lra.
  - intros Ha Ht Hpow. unfold CleanRoom.update_contamination. simpl.
    set (added := activity_level * 100 * time_hours).
    assert (Hadd : 0 <= added).
    { unfold added. apply Qmult_le_0_compat; [| exact Ht].
      apply Qmult_le_0_compat; lra. }
    assert (H1 : (CleanRoom.particle_count c + added) * 1
                 <= (CleanRoom.particle_count c + added)
                    * float_pow orc (1001 # 1000) time_hours).
    { rewrite (Qmult_comm _ 1), (Qmult_comm _ (float_pow _ _ _)).
      apply Qmult_le_compat_r; lra. }
    lra.
  - reflexivity.
Qed.

Lemma cleanroom_yield_rules_witness :
  let c := CleanRoom.new 100 in
  0 <= CleanRoom.calculate_yield_impact c (1 # 100) <= 1
  /\ (forall c2, CleanRoom.particle_count c <= CleanRoom.particle_count c2 ->
                 CleanRoom.calculate_yield_impact c2 (1 # 100)
                 <= CleanRoom.calculate_yield_impact c (1 # 100))
  /\ (0 <= 2 -> 0 <= 3 ->
      1 <= float_pow nominal (1001 # 1000) 3 ->
      CleanRoom.particle_count c
      <= CleanRoom.particle_count (CleanRoom.update_contamination nominal c 2 3))
  /\ CleanRoom.perform_cleaning c = CleanRoom.new (CleanRoom.cleanroom_class c).
Proof.
  intros c. apply (cleanroom_yield_rules nominal c (1 # 100) 2 3).
  - unfold Qle. simpl. lia.
  - unfold Qle. simpl. lia.
Defined.

(** ** Software *)

(** X17. [develop_software] numbers the versions of a kind of software
    1, 2, 3, ..., files the package under [<kind>_v<n>.0], and the
    reliability [calculate_software_reliability] then reports for the
    kind is that of the package just developed; its bug rate is between
    5% and 10% of the base rate of the kind once the hours spent are not
    negative. *)
Theorem develop_software_sets_reliability
        (s : Software.SoftwareProductionSystem) (software_type : string) (dev_hours : Q) :
  let r := Software.develop_software s software_type dev_hours in
  let n := default 0%nat (Software.version_counter s !! software_type) in
  Software.version (snd r) = "v" ++ Software.decimal (S n) ++ ".0"
  /\ Software.version_counter (fst r) !! software_type = Some (S n)
  /\ Dict.get (Software.software_library (fst r))
              (software_type ++ "_" ++ Software.version (snd r)) = Some (snd r)
  /\ Software.calculate_software_reliability (fst r) software_type
     = (if Dict.mem (Software.bug_rates s) software_type
        then 1 - Software.bug_rate (snd r) else 1)
  /\ (0 <= default 0 (Software.development_hours s !! software_type) + dev_hours ->
      0 <= base_bug_rate s software_type ->
      base_bug_rate s software_type * (5 # 100) <= Software.bug_rate (snd r)
      /\ Software.bug_rate (snd r) <= base_bug_rate s software_type * (1 # 10)).
Proof.
  intros r n. subst r n. unfold Software.develop_software. cbn [fst snd].
  repeat apply conj.
  - reflexivity.
  - simpl. apply lookup_insert_eq.
  - simpl. apply dict_get_set_same.
  - unfold Software.calculate_software_reliability. simpl.
    destruct (Dict.mem (Software.bug_rates s) software_type); simpl; [| reflexivity].
    rewrite lookup_insert_eq. simpl.
    rewrite dict_get_set_same. reflexivity.
  - intros Hh Hb. simpl. fold (base_bug_rate s software_type).
    set (b := base_bug_rate s software_type) in *.
    set (h := default 0 (Software.development_hours s !! software_type) + dev_hours) in *.
    set (x := Qmax (5 # 10) (1 - h / 1000)).
    assert (Hlo : (5 # 10) <= x) by apply Q.le_max_l.
    assert (Hhi : x <= 1).
    { unfold x. apply Q.max_lub; [lra |].
      assert (0 <= h / 1000) by (apply Qle_shift_div_l; [reflexivity | lra]). lra. }
    assert (H1 : b * (5 # 10) <= b * x)
      by (rewrite !(Qmult_comm b); apply Qmult_le_compat_r; assumption).
    assert (H2 : b * x <= b * 1)
      by (rewrite !(Qmult_comm b); apply Qmult_le_compat_r; assumption).
    split; lra.
Qed.

(** ** The log *)

(** X18. [log] appends one entry stamped with the current time; the
    log never holds more than [MAX_LOG_ENTRIES] entries, because the
    call that would exceed the limit keeps the newest [LOG_TRIM_SIZE]
    entries only, the new one included; nothing but the log changes. *)
Theorem log_is_bounded (f : Factory) (msg : LogMsg) (lvl : string) :
  (List.length (log_entries f) <= MAX_LOG_ENTRIES)%nat ->
  let f' := log f msg lvl in
  exists e,
    message e = msg /\ level e = lvl /\ timestamp e = time f
    /\ (List.length (log_entries f') <= MAX_LOG_ENTRIES)%nat
    /\ (if Nat.ltb (List.length (log_entries f)) MAX_LOG_ENTRIES
        then log_entries f' = (log_entries f ++ [e])%list
        else log_entries f'
             = (skipn (S MAX_LOG_ENTRIES - LOG_TRIM_SIZE) (log_entries f) ++ [e])%list
             /\ List.length (log_entries f') = LOG_TRIM_SIZE)
    /\ f' = with_log_entries f (log_entries f').
Proof.
  intros Hlen f'. subst f'. unfold log.
  set (e := {| timestamp := time f; level := lvl; message := msg;
               thermal_load := _; waste_total := _ |}).
  exists e. split; [reflexivity |]. split; [reflexivity |]. split; [reflexivity |].
  cbn [log_entries with_log_entries].
  rewrite length_app. cbn [List.length].
  destruct (Nat.ltb (List.length (log_entries f)) MAX_LOG_ENTRIES) eqn:Hlt.
  - apply Nat.ltb_lt in Hlt.
    replace (Nat.ltb MAX_LOG_ENTRIES (List.length (log_entries f) + 1)) with false
      by (symmetry; apply Nat.ltb_ge; lia).
    rewrite length_app. cbn [List.length].
    split; [lia |]. split; reflexivity.
  - apply Nat.ltb_ge in Hlt.
    assert (Heq : List.length (log_entries f) = MAX_LOG_ENTRIES) by lia.
    replace (Nat.ltb MAX_LOG_ENTRIES (List.length (log_entries f) + 1)) with true
      by (symmetry; apply Nat.ltb_lt; lia).
    rewrite skipn_app.
    replace (List.length (log_entries f) + 1 - LOG_TRIM_SIZE
             - List.length (log_entries f))%nat with 0%nat
      by (unfold LOG_TRIM_SIZE; lia).
    cbn [skipn]. rewrite Heq.
    replace (MAX_LOG_ENTRIES + 1)%nat with (S MAX_LOG_ENTRIES) by lia.
    rewrite length_app, length_skipn, Heq. cbn [List.length].
    unfold MAX_LOG_ENTRIES, LOG_TRIM_SIZE.
    split; [lia |]. split; [split; [reflexivity | lia] | reflexivity].
Qed.

Lemma log_is_bounded_witness :
  let f := init MODULE_SPECS_DEFAULT CONFIG in
  let f' := log f CleanroomCleaned "INFO" in
  exists e,
    message e = CleanroomCleaned /\ level e = "INFO" /\ timestamp e = time f
    /\ (List.length (log_entries f') <= MAX_LOG_ENTRIES)%nat
    /\ (if Nat.ltb (List.length (log_entries f)) MAX_LOG_ENTRIES
        then log_entries f' = (log_entries f ++ [e])%list
        else log_entries f'
             = (skipn (S MAX_LOG_ENTRIES - LOG_TRIM_SIZE) (log_entries f) ++ [e])%list
             /\ List.length (log_entries f') = LOG_TRIM_SIZE)
    /\ f' = with_log_entries f (log_entries f').
Proof.
  intros f. apply (log_is_bounded f CleanroomCleaned "INFO").
  apply Nat.leb_le. vm_compute. reflexivity.
Defined.

(** ** Choosing a module *)

(** The greatest tuple of a non-empty list, as the fold of
    [find_available_module] finds it. *)
Lemma best_tuple (rest : list (Q * string)) : forall x,
  let best := fold_left (fun best c => if tuple_gtb c best then c else best) rest x in
  In best (x :: rest) /\ forall c, In c (x :: rest) -> fst c <= fst best.
Proof.
  induction rest as [| y rest IH]; intros x; cbn [fold_left].
  - split; [left; reflexivity |]. intros c [<- | []]. apply Qle_refl.
  - specialize (IH (if tuple_gtb y x then y else x)). cbv zeta in IH.
    destruct IH as (Hin & Hmax). split.
    + destruct Hin as [Heq | Hin]; [| right; right; exact Hin].
      rewrite <- Heq. destruct (tuple_gtb y x); [right; left | left]; reflexivity.
    + intros c Hc.
      assert (Hxy : fst x <= fst (if tuple_gtb y x then y else x)
                    /\ fst y <= fst (if tuple_gtb y x then y else x)).
      { unfold tuple_gtb. destruct (Py.gtb (fst y) (fst x)) eqn:Hgt; simpl.
        - apply Py_gtb_true in Hgt. split; lra.
        - apply Py_gtb_false in Hgt.
          destruct (Qeq_bool (fst y) (fst x)) eqn:Heq; simpl.
          + apply Qeq_bool_iff in Heq. destruct (String.ltb _ _); split; lra.
          + split; lra. }
      destruct Hxy as (Hx & Hy).
      pose proof (Hmax _ (or_introl eq_refl)) as Hb.
      destruct Hc as [<- | [<- | Hc]].
      * lra.
      * lra.
      * apply Hmax. right. exact Hc.
Qed.

Lemma suitable_modules_spec (f : Factory) (module_type : string)
      (ms : list (string * Mod.ModuleState)) (c : Q * string) :
  In c (flat_map
          (fun e : string * Mod.ModuleState =>
             if String.eqb (Mod.module_type (snd e)) module_type
                && negb (Mod.is_failed (snd e))
                && negb (Mod.is_in_maintenance (snd e))
                && match Mod.current_task (snd e) with None => true | Some _ => false end
             then
               if negb (Thermal.check_thermal_constraints
                          (thermal_system f)
                          (Thermal.calculate_module_heat [(fst e, snd e)]))
               then []
               else [(Mod.current_efficiency (snd e), fst e)]
             else [])
          ms)
  <-> exists e, In e ms /\ available f module_type e
                /\ c = (Mod.current_efficiency (snd e), fst e).
Proof.
  rewrite in_flat_map. split.
  - intros ([mid st] & Hin & Hc). exists (mid, st). split; [exact Hin |].
    cbn [fst snd] in *.
    destruct (String.eqb_spec (Mod.module_type st) module_type) as [Hty |];
      [| destruct Hc].
    destruct (Mod.is_failed st) eqn:Hf; [destruct Hc |].
    destruct (Mod.is_in_maintenance st) eqn:Hm; [destruct Hc |].
    destruct (Mod.current_task st) eqn:Ht; [destruct Hc |].
    cbn [andb negb] in Hc.
    destruct (Thermal.check_thermal_constraints _ _) eqn:Hth; [| destruct Hc].
    destruct Hc as [<- | []].
    split; [| reflexivity]. unfold available. cbn [snd]. auto.
  - intros ([mid st] & Hin & (Hty & Hf & Hm & Ht & Hth) & ->).
    exists (mid, st). split; [exact Hin |]. cbn [fst snd] in *.
    rewrite Hf, Hm, Ht, Hth. apply String.eqb_eq in Hty. rewrite Hty.
    left. reflexivity.
Qed.

(** X19. [find_available_module] returns a module of the requested
    type that is neither failed nor in maintenance, has no current task
    and passes the thermal test on its own; none of the modules that
    qualify is more efficient than the one returned; and it returns
    [None] exactly when no module qualifies. *)
Theorem find_available_module_most_efficient (f : Factory) (module_type : string) :
  match find_available_module f module_type with
  | Some module_id =>
      exists state,
        In (module_id, state) (module_states f)
        /\ available f module_type (module_id, state)
        /\ forall e, In e (module_states f) -> available f module_type e ->
                     Mod.current_efficiency (snd e) <= Mod.current_efficiency state
  | None => forall e, In e (module_states f) -> ~ available f module_type e
  end.
Proof.
  unfold find_available_module.
  pose proof (suitable_modules_spec f module_type (module_states f)) as Hspec.
  set (suitable := flat_map _ (module_states f)) in *.
  destruct suitable as [| x rest] eqn:Hs.
  - intros e Hin Hav. apply (proj2 (Hspec (Mod.current_efficiency (snd e), fst e))).
    exists e. auto.
  - destruct (best_tuple rest x) as (Hin & Hmax).
    set (best := fold_left _ rest x) in *.
    apply Hspec in Hin as ([mid st] & Hin & Hav & Hbest).
    rewrite Hbest. cbn [fst snd]. exists st.
    split; [exact Hin |]. split; [exact Hav |].
    intros e He Hae.
    assert (Hc : In (Mod.current_efficiency (snd e), fst e) (x :: rest))
      by (apply Hspec; exists e; auto).
    apply Hmax in Hc. rewrite Hbest in Hc. exact Hc.
Qed.

(** ** Where a task goes *)

Section Outcome.
Variable orc : Oracles.

Lemma calculate_parameters_frame f task mid ms f1 task1 op :
  calculate_production_parameters orc f task mid ms = Returned f1 (task1, op) ->
  Tk.task_id task1 = Tk.task_id task
  /\ blocked_tasks f1 = blocked_tasks f
  /\ active_tasks f1 = active_tasks f
  /\ task_queue f1 = task_queue f
  /\ (module_states f1 = module_states f
      \/ exists ms1, module_states f1 = Dict.set (module_states f) mid ms1).
Proof.
  unfold calculate_production_parameters, log. intros H.
  repeat case_match; try discriminate H;
    repeat match goal with
      | E : (_, _) = (_, _) |- _ => inversion E; subst; clear E
      end;
    inversion H; subst; clear H; simpl;
    repeat apply conj; try reflexivity; eauto.
Qed.

Lemma schedule_inputs_frame ins : forall f task to_module tt f' r,
  schedule_inputs ins f task to_module tt = Returned f' r ->
  blocked_tasks f' = blocked_tasks f /\ module_states f' = module_states f.
Proof.
  induction ins as [| [res qty] rest IH]; intros f task to_module tt f' r H; simpl in H.
  - inversion H; subst. auto.
  - case_match; [discriminate H |].
    apply IH in H as (? & ?). simpl in *. auto.
Qed.

Lemma consume_inputs_frame ins : forall f task f' r,
  consume_inputs ins f task = Returned f' r ->
  blocked_tasks f' = blocked_tasks f /\ module_states f' = module_states f.
Proof.
  induction ins as [| [res qty] rest IH]; intros f task f' r H; simpl in H.
  - inversion H; auto.
  - repeat case_match; try discriminate H.
    apply IH in H as (? & ?). simpl in *. auto.
Qed.

Lemma blocked_placed f task st :
  is_blocked st -> placed (block f task st) (Tk.task_id task) false.
Proof.
  intros Hst. unfold placed, block. simpl.
  exists (Tk.with_status task st).
  split; [apply dict_get_set_same | split; [exact Hst | reflexivity]].
Qed.

Lemma blocked_logged_placed f task st msg lvl :
  is_blocked st -> placed (log (block f task st) msg lvl) (Tk.task_id task) false.
Proof. intros Hst. exact (blocked_placed f task st Hst). Qed.

Lemma start_production_outcome f task mid p f' b m :
  Dict.get (module_states f) mid = Some m ->
  start_production f task mid p = Returned f' b ->
  b = true
  /\ placed f' (Tk.task_id task) true
  /\ blocked_tasks f' = blocked_tasks f.
Proof.
  unfold start_production. intros Hm H. rewrite Hm in H.
  set (f1 := with_module_states f _) in H.
  destruct (consume_inputs _ f1 _) as [f2 [] | |] eqn:Hc; simpl in H; try discriminate H.
  apply consume_inputs_frame in Hc as (Hb & Hms).
  inversion H; subst; clear H. split; [reflexivity |]. split.
  - unfold placed, log. simpl.
    exists (started task mid (time f) p), mid,
           (Mod.with_task m (Some (Tk.task_id task))
                          (time f + p_setup_time p)).
    repeat apply conj; try reflexivity.
    + apply dict_get_set_same.
    + rewrite Hms. unfold f1. simpl. apply dict_get_set_same.
  - unfold log. simpl. rewrite Hb. reflexivity.
Qed.

Lemma resource_gate_outcome f task mid p f' b m :
  Dict.get (module_states f) mid = Some m ->
  resource_gate f task mid p = Returned f' b ->
  placed f' (Tk.task_id task) b
  /\ if b then blocked_tasks f' = blocked_tasks f
     else active_tasks f' = active_tasks f.
Proof.
  unfold resource_gate. intros Hm H.
  destruct (schedule_inputs _ f task _ _) as [f1 r | |] eqn:Hs; simpl in H;
    try discriminate H.
  pose proof (schedule_inputs_returns _ _ _ _ _ _ _ Hs) as (Hid & _ & _ & _ & Ha).
  apply schedule_inputs_frame in Hs as (Hb & Hms).
  destruct (missing_input _ f1 _) as [f2 missing | |] eqn:Hmi; simpl in H;
    try discriminate H.
  apply missing_input_returns in Hmi. subst f2.
  destruct missing as [[res required] |].
  - inversion H; subst; clear H. rewrite <- Hid. split.
    + apply blocked_logged_placed. unfold is_blocked, other_blocked. auto 10.
    + unfold log, block. simpl. exact Ha.
  - rewrite <- Hms in Hm.
    apply (start_production_outcome _ _ _ _ _ _ _ Hm) in H as (-> & Hp & Hb').
    rewrite <- Hid. split; [exact Hp | congruence].
Qed.

Lemma thermal_gate_outcome f task mid p f' b m :
  Dict.get (module_states f) mid = Some m ->
  thermal_gate orc f task mid p = Returned f' b ->
  placed f' (Tk.task_id task) b
  /\ if b then blocked_tasks f' = blocked_tasks f
     else active_tasks f' = active_tasks f.
Proof.
  unfold thermal_gate, energy_gate. intros Hm H.
  destruct (negb (Thermal.check_thermal_constraints _ _)); simpl in H.
  { inversion H; subst; clear H. split.
    - apply blocked_logged_placed. unfold is_blocked, other_blocked. auto 10.
    - reflexivity. }
  destruct (Py.ltb _ _); simpl in H.
  { inversion H; subst; clear H. split.
    - apply blocked_logged_placed. unfold is_blocked, other_blocked. auto 10.
    - reflexivity. }
  apply (resource_gate_outcome _ _ _ _ _ _ m) in H; [| exact Hm].
  exact H.
Qed.

Lemma process_task_outcome f task f' b :
  process_task orc f task = Returned f' b ->
  placed f' (Tk.task_id task) b
  /\ if b then blocked_tasks f' = blocked_tasks f
     else active_tasks f' = active_tasks f.
Proof.
  unfold process_task. intros H.
  destruct (dependencies_incomplete f task).
  { inversion H; subst; clear H. split.
    - apply blocked_placed. unfold is_blocked. auto.
    - reflexivity. }
  assert (Hno : forall m : string,
             Returned (log (block f task Tk.blocked_module)
                           (BlockedNoModule (Tk.task_id task) m) "INFO") false
             = Returned f' b ->
             placed f' (Tk.task_id task) b
             /\ if b then blocked_tasks f' = blocked_tasks f
                else active_tasks f' = active_tasks f).
  { intros m Hr. inversion Hr; subst; clear Hr. split.
    - apply blocked_logged_placed. unfold is_blocked, other_blocked. auto 10.
    - reflexivity. }
  destruct (find_available_module f _) as [mid |]; [| apply (Hno _ H)].
  destruct (String.eqb mid EmptyString); [apply (Hno _ H) |].
  destruct (Dict.get (module_states f) mid) as [ms |] eqn:Hget; [| discriminate H].
  destruct (calculate_production_parameters orc f task mid ms)
    as [f1 [task1 op] | |] eqn:Hcalc; simpl in H; try discriminate H.
  apply calculate_parameters_frame in Hcalc as (Hid & Hb & Ha & _ & Hms).
  assert (Hm1 : exists m1, Dict.get (module_states f1) mid = Some m1).
  { destruct Hms as [-> | (ms1 & ->)]; [eauto |].
    exists ms1. apply dict_get_set_same. }
  destruct Hm1 as (m1 & Hm1).
  destruct op as [p |].
  - apply (thermal_gate_outcome _ _ _ _ _ _ m1 Hm1) in H as (Hp & Hf).
    rewrite <- Hid. split; [exact Hp |]. destruct b; congruence.
  - inversion H; subst; clear H. rewrite <- Hid. split.
    + apply blocked_placed. unfold is_blocked, other_blocked. auto 10.
    + exact Ha.
Qed.

End Outcome.

(** X20. [process_task] never loses the task it is given: a task it
    starts is in [active_tasks] with status [active] and its module is
    marked with the task id; a task it does not start is in
    [blocked_tasks] with a [blocked_*] status. Starting leaves the
    blocked map alone, blocking leaves the active map alone, and the
    priority queue is never touched. *)
Theorem process_task_places_task
        (orc : Oracles) (f f' : Factory) (task : Tk.Task) (started : bool) :
  process_task orc f task = Returned f' started ->
  placed f' (Tk.task_id task) started
  /\ (if started then blocked_tasks f' = blocked_tasks f
      else active_tasks f' = active_tasks f)
  /\ task_queue f' = task_queue f.
Proof.
  intros H. destruct (process_task_outcome orc f task f' started H) as (Hp & Hf).
  split; [exact Hp |]. split; [exact Hf |].
  pose proof (process_task_queue orc f task) as Hq. rewrite H in Hq. exact Hq.
Qed.

Lemma process_task_places_task_witness :
  let f := popped (plc_requested CONFIG) in
  let task := first_task (plc_requested CONFIG) in
  let f' := state_of (process_task nominal f task) f in
  placed f' (Tk.task_id task) true
  /\ blocked_tasks f' = blocked_tasks f
  /\ task_queue f' = task_queue f.
Proof.
  intros f task f'.
  apply (process_task_places_task nominal f f' task true).
  vm_compute. reflexivity.
Defined.

(** ** Expansion over an acyclic recipe table *)

Section Ranked.
Variable RECIPES : list Rcp.Recipe.
Variable rank : string -> nat.
Hypothesis Hranked : ranked_by rank RECIPES = true.

Lemma ranked_recipe (o : string) (recipe : Rcp.Recipe) :
  find (fun r => String.eqb (Rcp.output r) o) RECIPES = Some recipe ->
  Qeq_bool (Rcp.output_quantity recipe) 0 = false
  /\ forall i, In i (needs recipe) -> (rank i < rank o)%nat.
Proof.
  intros Hfind. apply find_some in Hfind as [Hin Heq].
  apply String.eqb_eq in Heq. subst o.
  unfold ranked_by in Hranked. rewrite forallb_forall in Hranked.
  specialize (Hranked recipe Hin). apply andb_true_iff in Hranked as [Hq Hn].
  split; [apply negb_true_iff; exact Hq |].
  intros i Hi. rewrite forallb_forall in Hn. apply Nat.ltb_lt, Hn, Hi.
Qed.

Lemma never_raised_bind {A B : Type} (m : Outcome A) (k : Factory -> A -> Outcome B) :
  never_raised m -> (forall f a, never_raised (k f a)) -> never_raised (bind m k).
Proof. intros Hm Hk. destruct m; simpl in *; auto. Qed.

Lemma expand_inputs_never_raises (rec : expander) (recipe : Rcp.Recipe)
      (visited : gset string) :
  Qeq_bool (Rcp.output_quantity recipe) 0 = false ->
  forall ins quantity priority f task,
    (forall i f q p, In i (map fst ins) -> never_raised (rec f i q p visited)) ->
    never_raised (expand_inputs rec ins recipe quantity priority visited f task).
Proof.
  intros Hq. induction ins as [| [input_resource input_qty] rest IH];
    intros quantity priority f task Hrec; simpl.
  - exact I.
  - rewrite Hq.
    assert (Hrest : forall i f q p, In i (map fst rest) ->
                                    never_raised (rec f i q p visited))
      by (intros; apply Hrec; right; assumption).
    destruct (Py.ltb _ _); [| apply IH; exact Hrest].
    apply never_raised_bind; [apply Hrec; left; reflexivity |].
    intros f2 dep. apply IH. exact Hrest.
Qed.

Lemma create_production_task_never_raises (fuel : nat) :
  forall f output quantity priority visited,
    (forall v, v ∈ visited -> (rank output < rank v)%nat) ->
    never_raised (create_production_task RECIPES fuel f output quantity priority visited).
Proof.
  induction fuel as [| fuel IH]; intros f output quantity priority visited Hvis;
    [exact I |].
  simpl. unfold create_production_task_body.
  destruct (bool_decide (output ∈ visited)) eqn:Hin.
  { apply bool_decide_eq_true_1 in Hin. apply Hvis in Hin. lia. }
  destruct (find _ RECIPES) as [recipe |] eqn:Hfind; [| exact I].
  destruct (negb _); [exact I |].
  destruct (ranked_recipe _ _ Hfind) as (Hq & Hneeds).
  assert (Hrec : forall i f0 q p,
             In i (needs recipe) ->
             never_raised (create_production_task RECIPES fuel f0 i q p
                                                  (visited ∪ {[output]}))).
  { intros i f0 q p Hi. apply IH. intros v Hv.
    specialize (Hneeds i Hi).
    apply elem_of_union in Hv as [Hv | Hv].
    - specialize (Hvis v Hv). lia.
    - apply elem_of_singleton in Hv. subst v. exact Hneeds. }
  apply never_raised_bind.
  - apply expand_inputs_never_raises; [exact Hq |].
    intros i f0 q p Hi. apply Hrec. unfold needs. apply in_or_app. left. exact Hi.
  - intros f2 task2. simpl.
    destruct (Rcp.software_required recipe) as [sw |] eqn:Hsw; simpl; [| exact I].
    apply never_raised_bind; [| intros; exact I].
    apply Hrec. unfold needs. rewrite Hsw. apply in_or_app. right. left. reflexivity.
Qed.

End Ranked.

(** What a call that returns gives back: [None] on the two early
    exits only. *)
Lemma create_production_task_result (RECIPES : list Rcp.Recipe) (fuel : nat)
      (f f' : Factory) (output : string) (quantity : Q) (priority : Z)
      (visited : gset string) (result : option Tk.Task) :
  create_production_task RECIPES fuel f output quantity priority visited
  = Returned f' result ->
  match result with
  | None =>
      find (fun r => String.eqb (Rcp.output r) output) RECIPES = None
      \/ fst (Storage.can_store (storage f) output quantity) = false
  | Some task =>
      exists recipe,
        find (fun r => String.eqb (Rcp.output r) output) RECIPES = Some recipe
        /\ fst (Storage.can_store (storage f) output quantity) = true
        /\ Tk.recipe task = recipe
        /\ Tk.task_id task = task_id_of (S (task_counter f)) output
        /\ Tk.output task = output
        /\ Tk.quantity task = quantity
        /\ Tk.priority task = priority
        /\ Tk.status task = Tk.queued
        /\ In (priority, Tk.task_id task, task) (task_queue f')
  end.
Proof.
  destruct fuel as [| fuel]; [discriminate |].
  simpl. unfold create_production_task_body.
  destruct (bool_decide _); [discriminate |].
  destruct (find _ RECIPES) as [recipe |] eqn:Hfind.
  2: { intros H. inversion H; subst. left. reflexivity. }
  destruct (fst (Storage.can_store (storage f) output quantity)) eqn:Hcs; simpl.
  2: { intros H. inversion H; subst. right. reflexivity. }
  set (task := Tk.new _ priority output quantity recipe).
  assert (Hexp : forall ins v f0 t f1 t1,
             expand_inputs (create_production_task RECIPES fuel) ins recipe
                           quantity priority v f0 t = Returned f1 t1 ->
             Tk.recipe t1 = Tk.recipe t /\ Tk.task_id t1 = Tk.task_id t
             /\ Tk.output t1 = Tk.output t /\ Tk.quantity t1 = Tk.quantity t
             /\ Tk.priority t1 = Tk.priority t /\ Tk.status t1 = Tk.status t).
  { induction ins as [| [r q] ins IHi]; intros v f0 t f1 t1 H; simpl in H.
    - inversion H; subst. repeat split.
    - destruct (Qeq_bool _ _); [discriminate |].
      destruct (Py.ltb _ _); [| apply IHi in H; exact H].
      destruct (create_production_task RECIPES fuel _ r _ _ v) as [f2 dep | |];
        simpl in H; try discriminate.
      apply IHi in H. destruct dep; simpl in H; exact H. }
  destruct (expand_inputs _ _ _ _ _ _ _ task) as [f2 task2 | |] eqn:He; simpl;
    try discriminate.
  apply Hexp in He as (Hr & Hid & Ho & Hq & Hp & Hs). simpl in Hr, Hid, Ho, Hq, Hp, Hs.
  assert (Hfinish : forall f3 (task3 : Tk.Task),
             Tk.recipe task3 = recipe ->
             Tk.task_id task3 = task_id_of (S (task_counter f)) output ->
             Tk.output task3 = output -> Tk.quantity task3 = quantity ->
             Tk.priority task3 = priority -> Tk.status task3 = Tk.queued ->
             Returned
               (log (with_task_queue f3
                       (Heap.heappush (task_queue f3)
                          (Tk.priority task3, Tk.task_id task3, task3)))
                    (CreatedTask (task_id_of (S (task_counter f)) output)
                                 quantity output) "INFO")
               (Some task3) = Returned f' result ->
             match result with
             | None => Some recipe = None \/ true = false
             | Some task =>
                 exists recipe0,
                   Some recipe = Some recipe0
                   /\ true = true
                   /\ Tk.recipe task = recipe0
                   /\ Tk.task_id task = task_id_of (S (task_counter f)) output
                   /\ Tk.output task = output
                   /\ Tk.quantity task = quantity
                   /\ Tk.priority task = priority
                   /\ Tk.status task = Tk.queued
                   /\ In (priority, Tk.task_id task, task) (task_queue f')
             end).
  { intros f3 task3 Er Ei Eo Eq Ep Es H. inversion H; subst f' result; clear H.
    exists recipe. repeat split; auto.
    unfold log. simpl. apply heappush_In. left. rewrite Ep. reflexivity. }
  destruct (Rcp.software_required recipe) as [sw |]; simpl.
  - destruct (create_production_task RECIPES fuel f2 sw 1 _ _) as [f3 sw_task | |];
      simpl; try discriminate.
    destruct sw_task; apply Hfinish; simpl; assumption.
  - apply Hfinish; assumption.
Qed.

(** X21. Over a recipe table that is acyclic (each recipe needs only
    resources of a lower rank than its output) and divides by no zero
    output quantity, [create_production_task] called from outside never
    raises: it returns, with [None] exactly when the resource has no
    recipe or storage cannot hold the quantity, and otherwise with the
    task it queued. *)
Theorem acyclic_recipes_expand_without_error
        (RECIPES : list Rcp.Recipe) (rank : string -> nat)
        (f : Factory) (output : string) (quantity : Q) (priority : Z) :
  ranked_by rank RECIPES = true ->
  exists f' result,
    create_production_task RECIPES (expansion_fuel RECIPES) f output quantity priority ∅
    = Returned f' result
    /\ (result = None <->
        find (fun r => String.eqb (Rcp.output r) output) RECIPES = None
        \/ fst (Storage.can_store (storage f) output quantity) = false)
    /\ forall task, result = Some task ->
         In (priority, Tk.task_id task, task) (task_queue f')
         /\ Tk.task_id task = task_id_of (S (task_counter f)) output.
Proof.
  intros Hranked.
  pose proof (create_production_task_never_raises RECIPES rank Hranked
                (expansion_fuel RECIPES) f output quantity priority ∅) as Hnr.
  pose proof (create_production_task_terminates RECIPES (expansion_fuel RECIPES)
                f output quantity priority ∅) as Hterm.
  destruct (create_production_task RECIPES (expansion_fuel RECIPES) f output
                                   quantity priority ∅)
    as [f' result | f' e |] eqn:Hrun.
  - exists f', result. split; [reflexivity |].
    apply create_production_task_result in Hrun.
    destruct result as [task |].
    + destruct Hrun as (recipe & Hfind & Hcs & _ & Hid & _ & _ & _ & _ & Hin).
      split.
      * split; [discriminate |]. intros [H | H]; congruence.
      * intros t Ht. inversion Ht; subst. auto.
    + split; [split; auto | discriminate].
  - exfalso. apply Hnr. intros v Hv. exfalso. exact (not_elem_of_empty v Hv).
  - exfalso. apply Hterm. unfold expansion_fuel.
    apply Nat.lt_succ_r, subseteq_size. set_solver.
Qed.

Lemma acyclic_recipes_expand_without_error_witness :
  let f := init MODULE_SPECS_DEFAULT CONFIG in
  exists f' result,
    create_production_task RECIPES_DEFAULT (expansion_fuel RECIPES_DEFAULT)
                           f "mining_module" 1 1 ∅
    = Returned f' result
    /\ (result = None <->
        find (fun r => String.eqb (Rcp.output r) "mining_module") RECIPES_DEFAULT = None
        \/ fst (Storage.can_store (storage f) "mining_module" 1) = false)
    /\ forall task, result = Some task ->
         In (1%Z, Tk.task_id task, task) (task_queue f')
         /\ Tk.task_id task = task_id_of (S (task_counter f)) "mining_module".
Proof.
  intros f.
  apply (acyclic_recipes_expand_without_error
           RECIPES_DEFAULT (depth (List.length RECIPES_DEFAULT) RECIPES_DEFAULT)
           f "mining_module" 1 1).
  vm_compute. reflexivity.
Defined.

(** ** The order of the task queue *)

Lemma ascii_compare_trans_lt (a b c : ascii) :
  Ascii.compare a b = Lt -> Ascii.compare b c = Lt -> Ascii.compare a c = Lt.
Proof.
  unfold Ascii.compare. rewrite !N.compare_lt_iff. apply N.lt_trans.
Qed.

Lemma string_compare_trans_lt : forall s1 s2 s3,
  String.compare s1 s2 = Lt -> String.compare s2 s3 = Lt -> String.compare s1 s3 = Lt.
Proof.
  induction s1 as [| a s1 IH]; intros [| b s2] [| c s3]; simpl; try discriminate; auto.
  destruct (Ascii.compare a b) eqn:Hab; try discriminate.
  - apply Ascii.compare_eq_iff in Hab. subst b.
    destruct (Ascii.compare a c); try discriminate; auto.
    intros H1 H2. eapply IH; eassumption.
  - intros _. destruct (Ascii.compare b c) eqn:Hbc; try discriminate.
    + apply Ascii.compare_eq_iff in Hbc. subst c. rewrite Hab. reflexivity.
    + rewrite (ascii_compare_trans_lt a b c Hab Hbc). reflexivity.
Qed.

Lemma string_leb_trans (s1 s2 s3 : string) :
  String.leb s1 s2 = true -> String.leb s2 s3 = true -> String.leb s1 s3 = true.
Proof.
  unfold String.leb.
  destruct (String.compare s1 s2) eqn:H12; try discriminate; intros _.
  - apply String.compare_eq_iff in H12. subst s2. auto.
  - destruct (String.compare s2 s3) eqn:H23; try discriminate; intros _.
    + apply String.compare_eq_iff in H23. subst s3. rewrite H12. reflexivity.
    + rewrite (string_compare_trans_lt _ _ _ H12 H23). reflexivity.
Qed.

Lemma key_le_total p1 i1 p2 i2 :
  Heap.key_le p1 i1 p2 i2 = false -> Heap.key_le p2 i2 p1 i1 = true.
Proof.
  unfold Heap.key_le.
  destruct (Z.ltb_spec p1 p2); [discriminate |].
  destruct (Z.eqb_spec p1 p2) as [-> | Hne].
  - rewrite Z.ltb_irrefl, Z.eqb_refl. intros Hf.
    destruct (String.leb_total i1 i2) as [Ht | Ht]; congruence.
  - intros _. destruct (Z.ltb_spec p2 p1); [reflexivity | lia].
Qed.

Lemma key_le_trans p1 i1 p2 i2 p3 i3 :
  Heap.key_le p1 i1 p2 i2 = true -> Heap.key_le p2 i2 p3 i3 = true ->
  Heap.key_le p1 i1 p3 i3 = true.
Proof.
  unfold Heap.key_le.
  destruct (Z.ltb_spec p1 p2), (Z.ltb_spec p2 p3), (Z.ltb_spec p1 p3);
    try reflexivity; try lia;
    destruct (Z.eqb_spec p1 p2), (Z.eqb_spec p2 p3), (Z.eqb_spec p1 p3);
    try discriminate; try lia; try reflexivity.
  apply string_leb_trans.
Qed.

Lemma heappush_ordered {A : Type} (h : list (Z * string * A)) (e : Z * string * A) :
  ordered h -> ordered (Heap.heappush h e).
Proof.
  unfold ordered. induction h as [| x h IH]; intros Hs; simpl.
  - constructor; constructor.
  - apply StronglySorted_inv in Hs as [Hs Hx].
    rewrite List.Forall_forall in Hx.
    destruct (Heap.key_le _ _ _ _) eqn:Hle.
    + constructor; [apply IH; exact Hs |].
      apply List.Forall_forall. intros y Hy. apply heappush_In in Hy as [-> | Hy].
      * exact Hle.
      * apply Hx. exact Hy.
    + apply key_le_total in Hle.
      constructor.
      * constructor; [exact Hs | apply List.Forall_forall; exact Hx].
      * constructor; [exact Hle |].
        apply List.Forall_forall. intros y Hy.
        specialize (Hx y Hy). unfold entry_le in *.
        eapply key_le_trans; eassumption.
Qed.

(** ** Invariants of recipe expansion *)

Section ExpansionKeeps.
Variable RECIPES : list Rcp.Recipe.
Variable P : Factory -> Prop.
Hypothesis Hwaste : forall f v, P f -> P (with_waste_stream f v).
Hypothesis Hcounter : forall f v, P f -> P (with_task_counter f v).
Hypothesis Hlog : forall f v, P f -> P (with_log_entries f v).
Hypothesis Hpush : forall f e,
  P f -> P (with_task_queue f (Heap.heappush (task_queue f) e)).

Lemma expand_inputs_keeps (rec : expander) :
  (forall f o q p v, P f -> ends_in P (rec f o q p v)) ->
  forall ins recipe quantity priority visited f task,
    P f ->
    ends_in P (expand_inputs rec ins recipe quantity priority visited f task).
Proof.
  intros Hrec. induction ins as [| [input_resource input_qty] rest IH];
    intros recipe quantity priority visited f task Hf; simpl.
  - exact Hf.
  - destruct (Qeq_bool (Rcp.output_quantity recipe) 0); [exact Hf |].
    set (recycled := if Dict.mem _ _ then _ else _).
    assert (Hf1 : P (fst recycled)).
    { unfold recycled. destruct (Dict.mem _ _); simpl; [apply Hwaste |]; exact Hf. }
    destruct (Py.ltb _ _).
    + eapply ends_in_bind; [apply Hrec; exact Hf1 | auto |].
      intros f2 dep Hf2. apply IH. exact Hf2.
    + apply IH. exact Hf1.
Qed.

Lemma create_production_task_keeps (fuel : nat) :
  forall f output quantity priority visited,
    P f ->
    ends_in P (create_production_task RECIPES fuel f output quantity priority visited).
Proof.
  induction fuel as [| fuel IH]; intros f output quantity priority visited Hf; simpl.
  - exact I.
  - unfold create_production_task_body.
    assert (Hl : forall f m l, P f -> P (log f m l))
      by (intros; unfold log; apply Hlog; assumption).
    destruct (bool_decide _); [exact Hf |].
    destruct (find _ RECIPES) as [recipe |]; [| simpl; apply Hl; exact Hf].
    destruct (negb _); [simpl; apply Hl; exact Hf |].
    eapply ends_in_bind.
    + apply expand_inputs_keeps; [intros; apply IH; assumption |].
      apply Hcounter. exact Hf.
    + auto.
    + intros f2 task2 Hf2. simpl.
      destruct (Rcp.software_required recipe) as [sw |]; simpl;
        [| apply Hl, Hpush, Hf2].
      eapply ends_in_bind; [apply IH; exact Hf2 | auto |].
      intros f3 sw_task Hf3. simpl. apply Hl, Hpush, Hf3.
Qed.

End ExpansionKeeps.

Lemma create_production_task_queue_grows (RECIPES : list Rcp.Recipe) (fuel : nat)
      (f : Factory) output quantity priority visited :
  ends_in (queue_grew f)
          (create_production_task RECIPES fuel f output quantity priority visited).
Proof.
  apply (create_production_task_keeps RECIPES (queue_grew f)).
  - intros g v H. exact H.
  - intros g v H. exact H.
  - intros g v H. exact H.
  - intros g e H x Hx. simpl. apply heappush_In. right. apply H. exact Hx.
  - intros x Hx. exact Hx.
Qed.

Section Dependencies.
Variable RECIPES : list Rcp.Recipe.

Lemma backed_grows f f' task : queue_grew f f' -> backed f task -> backed f' task.
Proof.
  intros Hg Hb d Hd. destruct (Hb d Hd) as (dep & Hin & Hid).
  exists dep. split; [apply Hg; exact Hin | exact Hid].
Qed.

Lemma expand_inputs_backed (rec : expander) :
  sound rec ->
  (forall f o q p v, ends_in (queue_grew f) (rec f o q p v)) ->
  forall ins recipe quantity priority visited f task f' task',
    backed f task ->
    expand_inputs rec ins recipe quantity priority visited f task = Returned f' task' ->
    backed f' task' /\ queue_grew f f'.
Proof.
  intros Hsound Hgrow. induction ins as [| [input_resource input_qty] rest IH];
    intros recipe quantity priority visited f task f' task' Hb H; simpl in H.
  - inversion H; subst. split; [exact Hb | intros x Hx; exact Hx].
  - destruct (Qeq_bool _ _); [discriminate |].
    set (recycled := if Dict.mem _ _ then _ else _) in H.
    assert (Hq : task_queue (fst recycled) = task_queue f)
      by (unfold recycled; destruct (Dict.mem _ _); reflexivity).
    assert (Hb1 : backed (fst recycled) task)
      by (intros d Hd; rewrite Hq; apply Hb; exact Hd).
    assert (Hg1 : queue_grew f (fst recycled))
      by (intros x Hx; rewrite Hq; exact Hx).
    clearbody recycled.
    destruct (Py.ltb _ _).
    + pose proof (Hgrow (fst recycled) input_resource
                    ((input_qty * quantity / Rcp.output_quantity recipe
                      - snd recycled) * (11 # 10))
                    (priority + 1)%Z visited) as Hg2.
      destruct (rec (fst recycled) input_resource _ _ visited)
        as [f2 dep | |] eqn:Hrec; simpl in H, Hg2; try discriminate.
      apply IH in H.
      * destruct H as (Hb' & Hg'). split; [exact Hb' |].
        intros x Hx. apply Hg', Hg2, Hg1, Hx.
      * destruct dep as [d |]; [| eapply backed_grows; eassumption].
        intros dep_id Hd. simpl in Hd. apply elem_of_union in Hd as [Hd | Hd].
        -- eapply backed_grows; [exact Hg2 | exact Hb1 | exact Hd].
        -- apply elem_of_singleton in Hd. subst dep_id.
           exists d. split; [| reflexivity]. eapply Hsound. exact Hrec.
    + apply IH in H; [| exact Hb1]. destruct H as (Hb' & Hg'). split; [exact Hb' |].
      intros x Hx. apply Hg', Hg1, Hx.
Qed.

Lemma create_production_task_backed (fuel : nat) :
  forall f output quantity priority visited f' task,
    create_production_task RECIPES fuel f output quantity priority visited
    = Returned f' (Some task) ->
    In (Tk.priority task, Tk.task_id task, task) (task_queue f')
    /\ backed f' task.
Proof.
  induction fuel as [| fuel IH]; intros f output quantity priority visited f' task H;
    [discriminate |].
  simpl in H. unfold create_production_task_body in H.
  destruct (bool_decide _); [discriminate |].
  destruct (find _ RECIPES) as [recipe |]; [| inversion H].
  destruct (negb _); [inversion H |].
  assert (Hsound : sound (create_production_task RECIPES fuel)).
  { intros g o q p v g' t Hr. apply IH in Hr. apply Hr. }
  assert (Hgrow : forall g o q p v,
             ends_in (queue_grew g) (create_production_task RECIPES fuel g o q p v))
    by (intros; apply create_production_task_queue_grows).
  set (t0 := Tk.new _ priority output quantity recipe) in H.
  destruct (expand_inputs _ _ _ _ _ _ _ t0) as [f2 task2 | |] eqn:He; simpl in H;
    try discriminate.
  apply (expand_inputs_backed _ Hsound Hgrow) in He as (Hb2 & _).
  2: { intros d Hd. simpl in Hd. exfalso. exact (not_elem_of_empty d Hd). }
  assert (Hfinish : forall f3 task3,
             backed f3 task3 ->
             Returned
               (log (with_task_queue f3
                       (Heap.heappush (task_queue f3)
                          (Tk.priority task3, Tk.task_id task3, task3)))
                    (CreatedTask (task_id_of (S (task_counter f)) output)
                                 quantity output) "INFO")
               (Some task3) = Returned f' (Some task) ->
             In (Tk.priority task, Tk.task_id task, task) (task_queue f')
             /\ backed f' task).
  { intros f3 task3 Hb3 Hr. inversion Hr; subst f' task; clear Hr.
    unfold log. simpl. split; [apply heappush_In; left; reflexivity |].
    intros d Hd. destruct (Hb3 d Hd) as (dep & Hin & Hid).
    exists dep. split; [| exact Hid]. simpl. apply heappush_In. right. exact Hin. }
  destruct (Rcp.software_required recipe) as [sw |]; simpl in H.
  - pose proof (Hgrow f2 sw 1 (priority + 2)%Z (visited ∪ {[output]})) as Hg3.
    destruct (create_production_task RECIPES fuel f2 sw 1 _ _)
      as [f3 sw_task | |] eqn:Hsw; simpl in H, Hg3; try discriminate.
    apply Hfinish in H; [exact H |].
    destruct sw_task as [d |]; [| eapply backed_grows; eassumption].
    intros dep_id Hd. simpl in Hd. apply elem_of_union in Hd as [Hd | Hd].
    + eapply backed_grows; [exact Hg3 | exact Hb2 | exact Hd].
    + apply elem_of_singleton in Hd. subst dep_id.
      exists d. split; [| reflexivity]. eapply Hsound. exact Hsw.
  - apply Hfinish in H; [exact H | exact Hb2].
Qed.

End Dependencies.

(** X22. The task [create_production_task] returns is in the queue,
    and so is a task for every id in its dependency set: the tasks
    created for missing inputs and for required software are queued
    before the task that waits for them, and expansion never takes an
    entry out of the queue. *)
Theorem returned_task_and_dependencies_are_queued
        (RECIPES : list Rcp.Recipe) (fuel : nat) (f f' : Factory)
        (output : string) (quantity : Q) (priority : Z) (visited : gset string)
        (task : Tk.Task) :
  create_production_task RECIPES fuel f output quantity priority visited
  = Returned f' (Some task) ->
  In (Tk.priority task, Tk.task_id task, task) (task_queue f')
  /\ (forall dep_id, dep_id ∈ Tk.dependencies task ->
        exists dep, In (Tk.priority dep, dep_id, dep) (task_queue f')
                    /\ Tk.task_id dep = dep_id)
  /\ queue_grew f f'.
Proof.
  intros H. destruct (create_production_task_backed RECIPES fuel _ _ _ _ _ _ _ H)
    as (Hin & Hb).
  split; [exact Hin |]. split; [exact Hb |].
  pose proof (create_production_task_queue_grows RECIPES fuel f output quantity
                                                 priority visited) as Hg.
  rewrite H in Hg. exact Hg.
Qed.

Lemma returned_task_and_dependencies_are_queued_witness :
  let f := init MODULE_SPECS_DEFAULT CONFIG in
  let r := create_production_task chain (expansion_fuel chain) f "steel_beam" 1 1 ∅ in
  let f' := state_of r f in
  let task := first_task f' in
  In (Tk.priority task, Tk.task_id task, task) (task_queue f')
  /\ (forall dep_id, dep_id ∈ Tk.dependencies task ->
        exists dep, In (Tk.priority dep, dep_id, dep) (task_queue f')
                    /\ Tk.task_id dep = dep_id)
  /\ queue_grew f f'.
Proof.
  intros f r f' task.
  apply (returned_task_and_dependencies_are_queued
           chain (expansion_fuel chain) f f' "steel_beam" 1 1 ∅ task).
  vm_compute. reflexivity.
Defined.

(** ** Invariants of the simulation step *)

Section StepKeeps.
Variable orc : Oracles.
Variable MODULE_SPECS : list (string * MSpec.ModuleSpec).
Variable X : Type.
Variable proj : Factory -> X.
Hypothesis Hproj : untouched_by_upkeep proj.

Lemma update_energy_frame f d : proj (update_energy orc f d) = proj f.
Proof.
  destruct Hproj as ((Hdraws & _) & _ & Hen & _).
  unfold update_energy. rewrite Hen, Hdraws. reflexivity.
Qed.

Lemma update_active_tasks_frame f :
  halts_in (fun f' => proj f' = proj f) (update_active_tasks orc MODULE_SPECS f).
Proof.
  destruct Hproj as (Hc & Hact & _).
  unfold update_active_tasks.
  pose proof (complete_due_frame orc MODULE_SPECS proj (active_tasks f) Hc f []) as H.
  destruct (complete_due _ _ _ f []) as [f1 done | |]; simpl in *; auto.
  rewrite Hact. exact H.
Qed.

Lemma update_maintenance_frame f : proj (update_maintenance f) = proj f.
Proof.
  destruct Hproj as ((_ & Hms & _ & _ & _ & _ & _ & _ & _ & Hlog) & _).
  unfold update_maintenance. apply fold_frame. intros f0 e.
  case_match; [| reflexivity]. unfold log. rewrite Hlog, Hms. reflexivity.
Qed.

Lemma clean_rooms_frame f : proj (clean_rooms f) = proj f.
Proof.
  destruct Hproj as ((_ & _ & Hcr & _ & _ & _ & _ & _ & _ & Hlog) & _).
  unfold clean_rooms. case_match; [| reflexivity]. apply fold_frame. intros f0 e.
  case_match; [| reflexivity]. unfold log. rewrite Hlog, Hcr. reflexivity.
Qed.

Lemma collect_metrics_frame f : proj (collect_metrics orc f) = proj f.
Proof.
  destruct Hproj as ((Hdraws & _) & _ & _ & Hlast & Hmet).
  unfold collect_metrics. case_match; [reflexivity |].
  rewrite Hmet, Hdraws, Hlast. reflexivity.
Qed.

Variable P : Factory -> Prop.
Hypothesis Hvia : forall f g, proj g = proj f -> P f -> P g.
Hypothesis Hstart : kept_when_starting P.
Hypothesis Hpop : forall f x rest,
  task_queue f = x :: rest -> P f -> P (with_task_queue f rest).
Hypothesis Hpush : forall f e,
  P f -> P (with_task_queue f (Heap.heappush (task_queue f) e)).
Hypothesis Hblocked : forall f v, P f -> P (with_blocked_tasks f v).

Lemma admission_loop_invariant : forall fuel f started,
  (List.length (task_queue f) < fuel)%nat ->
  P f -> halts_in P (admission_loop orc fuel f started).
Proof.
  induction fuel as [| fuel IH]; intros f started Hfuel H; [lia |].
  simpl. destruct (task_queue f) as [| [[priority task_id] task] rest] eqn:Hqueue;
    simpl; [exact H |].
  case_match; [| exact H].
  pose proof (process_task_keeps orc P Hstart (with_task_queue f rest) task
                (Hpop _ _ _ Hqueue H)) as Hkeep.
  pose proof (process_task_queue orc (with_task_queue f rest) task) as Hframe.
  destruct (process_task orc (with_task_queue f rest) task) as [f1 ok | |];
    simpl in *; auto.
  apply IH; [| exact Hkeep]. rewrite Hframe. simpl in Hfuel. lia.
Qed.

Lemma check_blocked_tasks_invariant f : P f -> P (check_blocked_tasks f).
Proof.
  intros H. unfold check_blocked_tasks. apply Hblocked.
  set (step := fun (acc : Factory * list string) (e : string * Tk.Task) => _).
  assert (Hfold : forall l acc, P (fst acc) -> P (fst (fold_left step l acc))).
  { induction l as [| e l IHl]; intros acc Hacc; simpl; [exact Hacc |].
    apply IHl. unfold step. case_match; [| exact Hacc]. simpl. apply Hpush. exact Hacc. }
  apply Hfold. exact H.
Qed.

(** A step that raises ends in a state where [P] holds; a step that
    returns ends by advancing the clock of such a state. *)
Lemma simulate_step_invariant f d :
  P f ->
  match simulate_step orc MODULE_SPECS f d with
  | Returned f' _ => exists g, P g /\ f' = advance_clock g d
  | Raised f' _ => P f'
  | OutOfFuel => False
  end.
Proof.
  intros H. unfold simulate_step.
  set (f1 := update_energy orc f d).
  assert (H1 : P f1) by (apply (Hvia f); [apply update_energy_frame | exact H]).
  clearbody f1.
  set (f2 := with_transport_system f1 _).
  assert (H2 : P f2).
  { apply (Hvia f1); [| exact H1]. unfold f2.
    destruct Hproj as ((_ & _ & _ & _ & Htr & _) & _). apply Htr. }
  clearbody f2.
  pose proof (update_active_tasks_frame f2) as H3.
  destruct (update_active_tasks orc MODULE_SPECS f2) as [f3 [] | f3 e |];
    simpl in *; [| apply (Hvia f2); assumption | exact H3].
  set (f4 := clean_rooms (update_maintenance f3)).
  assert (H4 : P f4).
  { apply (Hvia f2); [| exact H2]. unfold f4.
    rewrite clean_rooms_frame, update_maintenance_frame. exact H3. }
  clearbody f4.
  pose proof (admission_loop_invariant (S (List.length (task_queue f4))) f4 0%nat
                ltac:(lia) H4) as H5.
  unfold admit_new_tasks.
  destruct (admission_loop orc _ f4 0) as [f5 n | f5 e |]; simpl in *; auto.
  set (f6 := if Z.eqb _ 0 then check_blocked_tasks f5 else f5).
  assert (H6 : P f6)
    by (unfold f6; case_match; [apply check_blocked_tasks_invariant |]; exact H5).
  clearbody f6.
  exists (collect_metrics orc f6). split; [| reflexivity].
  apply (Hvia f6); [apply collect_metrics_frame | exact H6].
Qed.

End StepKeeps.

(** X23. One simulation step that returns advances the clock by
    exactly [duration_hours], however many tasks complete or start in
    it; a step that raises leaves the clock where it was. *)
Theorem simulate_step_advances_the_clock
        (orc : Oracles) (MODULE_SPECS : list (string * MSpec.ModuleSpec))
        (f : Factory) (duration_hours : Q) :
  match simulate_step orc MODULE_SPECS f duration_hours with
  | Returned f' _ => time f' = time f + duration_hours
  | Raised f' _ => time f' = time f
  | OutOfFuel => False
  end.
Proof.
  pose proof (simulate_step_invariant orc MODULE_SPECS Q time
                ltac:(repeat split)
                (fun g => time g = time f)
                ltac:(intros g g' Hg Hp; congruence)
                ltac:(repeat split; intros; assumption)
                ltac:(intros; assumption) ltac:(intros; assumption)
                ltac:(intros; assumption)
                f duration_hours eq_refl) as H.
  destruct (simulate_step orc MODULE_SPECS f duration_hours) as [f' [] | f' e |];
    [| exact H | exact H].
  destruct H as (g & Hg & ->). unfold advance_clock. simpl. rewrite Hg. reflexivity.
Qed.

Lemma reachable_ordered (orc : Oracles) (RECIPES : list Rcp.Recipe)
      (MODULE_SPECS : list (string * MSpec.ModuleSpec)) (cfg : Config) (f : Factory) :
  reachable orc RECIPES MODULE_SPECS cfg f -> ordered (task_queue f).
Proof.
  intros Hreach. induction Hreach as [| f f' fuel o q p Hr IH He | f f' d Hr IH He].
  - unfold init, initialize_modules.
    rewrite (fold_frame task_queue); [constructor |].
    intros f0 e. repeat case_match; reflexivity.
  - pose proof (create_production_task_keeps RECIPES
                  (fun g => ordered (task_queue g))
                  ltac:(intros; assumption) ltac:(intros; assumption)
                  ltac:(intros; assumption)
                  ltac:(intros g e Hg; apply heappush_ordered; exact Hg)
                  fuel f o q p ∅ IH) as Hk.
    destruct (create_production_task RECIPES fuel f o q p ∅); simpl in *;
      try contradiction; subst; exact Hk.
  - pose proof (simulate_step_invariant orc MODULE_SPECS _ task_queue
                  ltac:(repeat split)
                  (fun g => ordered (task_queue g))
                  ltac:(intros g g' Hg Hp; cbv beta in *; rewrite Hg; exact Hp)
                  ltac:(repeat split; intros; assumption)
                  ltac:(intros g x rest Hq Hp; cbv beta in *; simpl;
                        rewrite Hq in Hp;
                        apply StronglySorted_inv in Hp; apply Hp)
                  ltac:(intros g e Hg; apply heappush_ordered; exact Hg)
                  ltac:(intros; assumption)
                  f d IH) as Hs.
    destruct (simulate_step orc MODULE_SPECS f d) as [f1 [] | f1 e |];
      simpl in He; try contradiction; subst f'.
    + destruct Hs as (g & Hg & ->). exact Hg.
    + exact Hs.
Qed.

(** X24. In every state a factory reaches through product requests
    and simulation steps, the task queue is in [(priority, task_id)]
    order: the entry the admission phase pops next has the lowest
    priority number of all queued tasks, and the lowest id among those
    of that priority. *)
Theorem admission_takes_least_priority_first
        (orc : Oracles) (RECIPES : list Rcp.Recipe)
        (MODULE_SPECS : list (string * MSpec.ModuleSpec)) (cfg : Config)
        (f : Factory) :
  reachable orc RECIPES MODULE_SPECS cfg f ->
  ordered (task_queue f)
  /\ forall next rest,
       Heap.heappop (task_queue f) = Some (next, rest) ->
       ordered rest
       /\ forall other, In other rest ->
            (fst (fst next) <= fst (fst other))%Z
            /\ (fst (fst next) = fst (fst other) ->
                String.leb (snd (fst next)) (snd (fst other)) = true).
Proof.
  intros Hreach. pose proof (reachable_ordered _ _ _ _ _ Hreach) as Hord.
  split; [exact Hord |]. intros next rest Hpop.
  destruct (task_queue f) as [| x q]; [discriminate |].
  inversion Hpop; subst; clear Hpop.
  apply StronglySorted_inv in Hord as [Hrest Hall].
  split; [exact Hrest |]. intros other Hin.
  rewrite List.Forall_forall in Hall. specialize (Hall other Hin).
  unfold entry_le, Heap.key_le in Hall.
  destruct (Z.ltb_spec (fst (fst next)) (fst (fst other))).
  - split; [lia | intros Heq; lia].
  - destruct (Z.eqb_spec (fst (fst next)) (fst (fst other))); [| discriminate].
    split; [lia | intros _; exact Hall].
Qed.

Lemma admission_takes_least_priority_first_witness :
  let f := beam_requested in
  ordered (task_queue f)
  /\ forall next rest,
       Heap.heappop (task_queue f) = Some (next, rest) ->
       ordered rest
       /\ forall other, In other rest ->
            (fst (fst next) <= fst (fst other))%Z
            /\ (fst (fst next) = fst (fst other) ->
                String.leb (snd (fst next)) (snd (fst other)) = true).
Proof.
  intros f.
  apply (admission_takes_least_priority_first nominal chain MODULE_SPECS_DEFAULT CONFIG f).
  apply (reach_request _ _ _ _ (init MODULE_SPECS_DEFAULT CONFIG) f
                       (expansion_fuel chain) "steel_beam" 1 1).
  - apply reach_init.
  - vm_compute. reflexivity.
Defined.

(** ** Retrying blocked tasks: nothing is lost *)

Lemma fold_del_skips {V : Type} (ks : list string) : forall (d : list (string * V)) k v,
  ~ In k ks ->
  fold_left (fun a key => Dict.del a key) ks ((k, v) :: d)
  = (k, v) :: fold_left (fun a key => Dict.del a key) ks d.
Proof.
  induction ks as [| k0 ks IH]; intros d k v Hk; simpl; [reflexivity |].
  destruct (String.eqb_spec k k0) as [-> | Hne].
  - exfalso. apply Hk. left. reflexivity.
  - apply IH. intros Hin. apply Hk. right. exact Hin.
Qed.

(** Deleting the keys of the entries that satisfy [p] leaves the
    entries that do not. *)
Lemma fold_del_filter {V : Type} (p : string * V -> bool) (d : list (string * V)) :
  NoDup (Dict.keys d) ->
  fold_left (fun a key => Dict.del a key) (map fst (List.filter p d)) d
  = List.filter (fun e => negb (p e)) d.
Proof.
  induction d as [| [k v] d IH]; intros Hnd; [reflexivity |].
  simpl in Hnd. apply NoDup_cons in Hnd as [Hk Hnd].
  cbn [List.filter]. destruct (p (k, v)) eqn:Hp; cbn [negb map fold_left fst].
  - simpl. rewrite String.eqb_refl. apply IH. exact Hnd.
  - rewrite fold_del_skips; [rewrite IH by exact Hnd; reflexivity |].
    intros Hin. apply Hk. apply list_elem_of_In.
    apply in_map_iff in Hin as (e & He & Hf). apply filter_In in Hf as [Hin _].
    unfold Dict.keys. rewrite <- He. apply in_map. exact Hin.
Qed.

Lemma check_blocked_queue_length (f0 : Factory) (l : list (string * Tk.Task)) :
  forall acc : Factory * list string,
    completed_task_ids (fst acc) = completed_task_ids f0 ->
    let step := fun (acc : Factory * list string) (e : string * Tk.Task) =>
      if should_retry (fst acc) (snd e) then
        (with_task_queue (fst acc)
           (Heap.heappush (task_queue (fst acc)) (requeued (snd e))),
         (snd acc ++ [fst e])%list)
      else acc in
    List.length (task_queue (fst (fold_left step l acc)))
    = (List.length (task_queue (fst acc))
       + List.length (List.filter (fun e => should_retry f0 (snd e)) l))%nat.
Proof.
  induction l as [| e l IH]; intros acc Hids; simpl; [lia |].
  assert (Hsame : should_retry (fst acc) (snd e) = should_retry f0 (snd e)).
  { unfold should_retry. rewrite Hids. reflexivity. }
  rewrite Hsame. destruct (should_retry f0 (snd e)).
  - rewrite IH by exact Hids. simpl. rewrite heappush_length. lia.
  - apply IH. exact Hids.
Qed.

(** X25. [check_blocked_tasks] loses no task and duplicates none: the
    blocked map keeps, in order, exactly the entries that are not
    retried, the queue grows by the number of entries retried, and the
    two together hold as many tasks as before. *)
Theorem check_blocked_tasks_conserves_tasks (f : Factory) :
  NoDup (Dict.keys (blocked_tasks f)) ->
  let f' := check_blocked_tasks f in
  blocked_tasks f'
  = List.filter (fun e => negb (should_retry f (snd e))) (blocked_tasks f)
  /\ List.length (task_queue f')
     = (List.length (task_queue f)
        + List.length (List.filter (fun e => should_retry f (snd e))
                                   (blocked_tasks f)))%nat
  /\ (List.length (blocked_tasks f') + List.length (task_queue f')
      = List.length (blocked_tasks f) + List.length (task_queue f))%nat
  /\ active_tasks f' = active_tasks f
  /\ completed_tasks f' = completed_tasks f.
Proof.
  intros Hnd f'. subst f'.
  pose proof (check_blocked_fold f (blocked_tasks f) (f, []) eq_refl) as H.
  pose proof (check_blocked_queue_length f (blocked_tasks f) (f, []) eq_refl) as Hlen.
  cbv zeta in H, Hlen. destruct H as (Hb & Hk & _). simpl in Hb, Hk, Hlen.
  unfold check_blocked_tasks.
  change (fun (acc : Factory * list string) (e : string * Tk.Task) =>
            if should_retry (fst acc) (snd e) then
              (with_task_queue (fst acc)
                 (Heap.heappush (task_queue (fst acc))
                    (Tk.priority (Tk.with_status (snd e) Tk.queued),
                     Tk.task_id (Tk.with_status (snd e) Tk.queued),
                     Tk.with_status (snd e) Tk.queued)),
               (snd acc ++ [fst e])%list)
            else acc)
    with (fun (acc : Factory * list string) (e : string * Tk.Task) =>
            if should_retry (fst acc) (snd e) then
              (with_task_queue (fst acc)
                 (Heap.heappush (task_queue (fst acc)) (requeued (snd e))),
               (snd acc ++ [fst e])%list)
            else acc).
  set (r := fold_left _ (blocked_tasks f) (f, [])) in *.
  assert (Hact : active_tasks (fst r) = active_tasks f
                 /\ completed_tasks (fst r) = completed_tasks f).
  { unfold r. split.
    - apply (fold_frame (fun acc : Factory * list string => active_tasks (fst acc))).
      intros acc e. case_match; reflexivity.
    - apply (fold_frame (fun acc : Factory * list string => completed_tasks (fst acc))).
      intros acc e. case_match; reflexivity. }
  destruct Hact as (Hact & Hcomp).
  assert (Eb : blocked_tasks
                 (with_blocked_tasks (fst r)
                    (fold_left (fun b task_id => Dict.del b task_id) (snd r)
                               (blocked_tasks (fst r))))
               = List.filter (fun e => negb (should_retry f (snd e)))
                             (blocked_tasks f)).
  { simpl. rewrite Hk, Hb. apply fold_del_filter. exact Hnd. }
  split; [exact Eb |]. split; [simpl; exact Hlen |].
  split; [| split; [simpl; exact Hact | simpl; exact Hcomp]].
  rewrite Eb. simpl. rewrite Hlen.
  pose proof (filter_length (fun e : string * Tk.Task => should_retry f (snd e))
                            (blocked_tasks f)) as Hf.
  lia.
Qed.

Lemma check_blocked_tasks_conserves_tasks_witness :
  let f := beam_waiting in
  let f' := check_blocked_tasks f in
  blocked_tasks f'
  = List.filter (fun e => negb (should_retry f (snd e))) (blocked_tasks f)
  /\ List.length (task_queue f')
     = (List.length (task_queue f)
        + List.length (List.filter (fun e => should_retry f (snd e))
                                   (blocked_tasks f)))%nat
  /\ (List.length (blocked_tasks f') + List.length (task_queue f')
      = List.length (blocked_tasks f) + List.length (task_queue f))%nat
  /\ active_tasks f' = active_tasks f
  /\ completed_tasks f' = completed_tasks f.
Proof.
  intros f. apply (check_blocked_tasks_conserves_tasks f).
  refine (bool_decide_unpack _ _). vm_compute. exact I.
Defined.

(** ** Maintenance *)

Lemma dict_set_middle {V : Type} (pre : list (string * V)) k v v' post :
  ~ In k (Dict.keys pre) ->
  Dict.set (pre ++ (k, v) :: post) k v' = (pre ++ (k, v') :: post)%list.
Proof.
  induction pre as [| [k0 v0] pre IH]; intros Hk; simpl.
  - rewrite String.eqb_refl. reflexivity.
  - destruct (String.eqb_spec k0 k) as [-> | Hne].
    + exfalso. apply Hk. left. reflexivity.
    + rewrite IH; [reflexivity |]. intros Hin. apply Hk. right. exact Hin.
Qed.

Lemma update_maintenance_fold (l : list (string * Mod.ModuleState)) :
  forall (f : Factory) (pre : list (string * Mod.ModuleState)),
    module_states f = (pre ++ l)%list ->
    NoDup (Dict.keys (pre ++ l)) ->
    let step := fun (f : Factory) (e : string * Mod.ModuleState) =>
      if Mod.is_in_maintenance (snd e)
         && Py.geb (time f) (Mod.maintenance_end_time (snd e))
      then
        log (with_module_states f
               (Dict.set (module_states f) (fst e)
                  (Mod.with_maintenance (snd e) false
                     (Mod.maintenance_end_time (snd e)) 0
                     (Qmin 1 (Mod.current_efficiency (snd e) * (11 # 10))))))
            (MaintenanceCompleted (fst e)) "INFO"
      else f in
    module_states (fold_left step l f)
    = (pre ++ map (fun e => (fst e, serviced (time f) (snd e))) l)%list
    /\ time (fold_left step l f) = time f.
Proof.
  induction l as [| [k m] l IH]; intros f pre Hms Hnd; cbn [fold_left map].
  - rewrite Hms. auto.
  - cbn [fst snd].
    assert (Hk : ~ In k (Dict.keys pre)).
    { unfold Dict.keys in *. rewrite map_app in Hnd. simpl in Hnd.
      apply NoDup_app in Hnd as (_ & Hdis & _).
      intros Hin. apply (Hdis k); [apply list_elem_of_In; exact Hin |].
      apply list_elem_of_here. }
    assert (Hnd' : NoDup (Dict.keys ((pre ++ [(k, serviced (time f) m)]) ++ l))).
    { unfold Dict.keys in *. rewrite <- app_assoc. simpl.
      rewrite map_app in *. simpl in *. exact Hnd. }
    assert (Es : serviced (time f) m
                 = if Mod.is_in_maintenance m
                      && Py.geb (time f) (Mod.maintenance_end_time m)
                   then Mod.with_maintenance m false (Mod.maintenance_end_time m) 0
                          (Qmin 1 (Mod.current_efficiency m * (11 # 10)))
                   else m) by reflexivity.
    destruct (Mod.is_in_maintenance m && Py.geb (time f) (Mod.maintenance_end_time m))
      eqn:Hdue.
    + match goal with
      | |- context [fold_left ?s l ?f1] =>
          destruct (IH f1 (pre ++ [(k, serviced (time f) m)])%list) as (Hm & Ht)
      end.
      * unfold log. simpl. rewrite Hms, dict_set_middle by exact Hk.
        rewrite Es, <- app_assoc. reflexivity.
      * exact Hnd'.
      * cbv zeta in Hm, Ht. unfold log in *. simpl in *.
        rewrite Hm, Ht. rewrite <- app_assoc. simpl. auto.
    + destruct (IH f (pre ++ [(k, serviced (time f) m)])%list) as (Hm & Ht).
      * rewrite Hms, Es, <- app_assoc. reflexivity.
      * exact Hnd'.
      * cbv zeta in Hm, Ht. rewrite Hm, Ht. rewrite <- app_assoc. simpl. auto.
Qed.

(** X26. [update_maintenance] releases exactly the modules whose
    maintenance end time has been reached: they leave maintenance with
    [time_since_maintenance] zero and their efficiency raised by a
    tenth, capped at 1; every other module is untouched, so a module
    still in maintenance afterwards has an end time in the future. *)
Theorem update_maintenance_releases_due_modules (f : Factory) :
  NoDup (Dict.keys (module_states f)) ->
  let f' := update_maintenance f in
  module_states f'
  = map (fun e => (fst e, serviced (time f) (snd e))) (module_states f)
  /\ time f' = time f
  /\ forall module_id m',
       In (module_id, m') (module_states f') ->
       (Mod.is_in_maintenance m' = true -> time f < Mod.maintenance_end_time m')
       /\ exists m, In (module_id, m) (module_states f)
                    /\ (Mod.is_in_maintenance m = true ->
                        Mod.is_in_maintenance m' = false ->
                        Mod.time_since_maintenance m' = 0
                        /\ Mod.current_efficiency m'
                           = Qmin 1 (Mod.current_efficiency m * (11 # 10))
                        /\ Mod.current_efficiency m' <= 1).
Proof.
  intros Hnd f'. subst f'. unfold update_maintenance.
  destruct (update_maintenance_fold (module_states f) f [] eq_refl Hnd) as (Hm & Ht).
  cbv zeta in Hm, Ht. simpl in Hm.
  split; [exact Hm |]. split; [exact Ht |].
  intros module_id m' Hin. rewrite Hm in Hin.
  apply in_map_iff in Hin as ([k m] & Heq & Hin). simpl in Heq.
  inversion Heq; subst; clear Heq.
  unfold serviced.
  destruct (Mod.is_in_maintenance m) eqn:Hmt; simpl.
  - destruct (Py.geb (time f) (Mod.maintenance_end_time m)) eqn:Hge; simpl.
    + split; [discriminate |]. exists m. split; [exact Hin |].
      intros _ _. split; [reflexivity |]. split; [reflexivity | apply Q.le_min_l].
    + apply Py_geb_false in Hge. split; [intros _; exact Hge |].
      exists m. split; [exact Hin |]. intros _ H. congruence.
  - split; [intros H; congruence |]. exists m. split; [exact Hin |].
    intros H. congruence.
Qed.

Lemma update_maintenance_releases_due_modules_witness :
  let f := init MODULE_SPECS_DEFAULT CONFIG in
  let f' := update_maintenance f in
  module_states f'
  = map (fun e => (fst e, serviced (time f) (snd e))) (module_states f)
  /\ time f' = time f
  /\ forall module_id m',
       In (module_id, m') (module_states f') ->
       (Mod.is_in_maintenance m' = true -> time f < Mod.maintenance_end_time m')
       /\ exists m, In (module_id, m) (module_states f)
                    /\ (Mod.is_in_maintenance m = true ->
                        Mod.is_in_maintenance m' = false ->
                        Mod.time_since_maintenance m' = 0
                        /\ Mod.current_efficiency m'
                           = Qmin 1 (Mod.current_efficiency m * (11 # 10))
                        /\ Mod.current_efficiency m' <= 1).
Proof.
  intros f. apply (update_maintenance_releases_due_modules f).
  refine (bool_decide_unpack _ _). vm_compute. exact I.
Defined.

(** ** Identifiers *)

Lemma uint_of_zeros (k : nat) (s : string) (d : Decimal.uint) :
  NilEmpty.uint_of_string s = Some d ->
  exists d', NilEmpty.uint_of_string (Fmt.zeros k ++ s) = Some d'
             /\ Nat.of_uint d' = Nat.of_uint d.
Proof.
  intros Hs. induction k as [| k IH]; simpl.
  - exists d. auto.
  - destruct IH as (d' & Hd' & Hv). rewrite Hd'. simpl.
    exists (Decimal.D0 d'). split; [reflexivity |]. rewrite <- Hv. reflexivity.
Qed.

Lemma int_of_padded (width n : nat) : int_of (Fmt.padded width n) = Some n.
Proof.
  unfold int_of, Fmt.padded.
  destruct (uint_of_zeros
              (width - String.length (NilEmpty.string_of_uint (Nat.to_uint n)))
              (NilEmpty.string_of_uint (Nat.to_uint n)) (Nat.to_uint n)
              (NilEmpty.usu _)) as (d' & Hd' & Hv).
  rewrite Hd'. simpl. rewrite Hv, DecimalNat.Unsigned.of_to. reflexivity.
Qed.

Lemma padded_inj (width n1 n2 : nat) :
  Fmt.padded width n1 = Fmt.padded width n2 -> n1 = n2.
Proof.
  intros H. pose proof (int_of_padded width n1) as H1.
  rewrite H, int_of_padded in H1. congruence.
Qed.

Lemma no_underscore_app (s1 s2 : string) :
  no_underscore s1 -> no_underscore s2 -> no_underscore (s1 ++ s2).
Proof. induction s1; simpl; intuition. Qed.

Lemma no_underscore_zeros (k : nat) : no_underscore (Fmt.zeros k).
Proof. induction k; simpl; [exact I | split; [discriminate | assumption]]. Qed.

Lemma no_underscore_digits (d : Decimal.uint) :
  no_underscore (NilEmpty.string_of_uint d).
Proof. induction d; simpl; try exact I; split; try discriminate; assumption. Qed.

Lemma no_underscore_padded (width n : nat) : no_underscore (Fmt.padded width n).
Proof.
  unfold Fmt.padded.
  apply no_underscore_app; [apply no_underscore_zeros | apply no_underscore_digits].
Qed.

(** The first underscore after a run of digits ends the run. *)
Lemma split_at_underscore : forall s1 s2 x y,
  no_underscore s1 -> no_underscore s2 ->
  s1 ++ String "_" x = s2 ++ String "_" y -> s1 = s2 /\ x = y.
Proof.
  induction s1 as [| c1 s1 IH]; intros [| c2 s2] x y H1 H2 Heq; simpl in *.
  - inversion Heq. auto.
  - inversion Heq; subst. destruct H2 as [H2 _]. exfalso. apply H2. reflexivity.
  - inversion Heq; subst. destruct H1 as [H1 _]. exfalso. apply H1. reflexivity.
  - inversion Heq; subst. destruct H1 as [_ H1]. destruct H2 as [_ H2].
    destruct (IH s2 x y H1 H2 ltac:(assumption)) as (-> & ->). auto.
Qed.

Lemma append_inj_l (p s1 s2 : string) : p ++ s1 = p ++ s2 -> s1 = s2.
Proof. induction p; simpl; intros H; [exact H | inversion H; auto]. Qed.

(** X27. Identifiers determine the counter they were made from:
    reading the zero-padded number back gives the number; the id of
    a task determines both the value of [task_counter] and the resource,
    so tasks created at different counter values never share an id;
    the id of a transport job is made from the length of the queue when
    it is scheduled, so two jobs get the same id exactly when they are
    scheduled at the same queue length. *)
Theorem ids_determine_their_counter :
  (forall width n, int_of (Fmt.padded width n) = Some n)
  /\ (forall c1 c2 o1 o2,
        task_id_of c1 o1 = task_id_of c2 o2 -> c1 = c2 /\ o1 = o2)
  /\ (forall ts1 ts2 from1 to1 res1 qty1 prio1 from2 to2 res2 qty2 prio2,
        Transport.job_id
          (snd (Transport.schedule_transport ts1 from1 to1 res1 qty1 prio1))
        = Transport.job_id
            (snd (Transport.schedule_transport ts2 from2 to2 res2 qty2 prio2))
        <-> List.length (Transport.transport_queue ts1)
            = List.length (Transport.transport_queue ts2)).
Proof.
  split; [exact int_of_padded |]. split.
  - intros c1 c2 o1 o2 H. unfold task_id_of in H.
    apply (append_inj_l "task_") in H.
    change ("_" ++ o1) with (String "_" o1) in H.
    change ("_" ++ o2) with (String "_" o2) in H.
    apply split_at_underscore in H;
      [| apply no_underscore_padded | apply no_underscore_padded].
    destruct H as (Hp & Ho). split; [eapply padded_inj; exact Hp | exact Ho].
  - intros. unfold Transport.schedule_transport. cbn [snd Transport.job_id]. split.
    + intros H. apply (append_inj_l "transport_") in H.
      eapply padded_inj. exact H.
    + intros H. rewrite H. reflexivity.
Qed.

(** ** What completing a task leaves behind *)

Section Leaving.
Variable orc : Oracles.
Variable MODULE_SPECS : list (string * MSpec.ModuleSpec).

Lemma add_waste_total (w : Waste.WasteStream) (waste_type : string) (quantity : Q) :
  Waste.get_total_waste (Waste.add_waste w waste_type quantity)
  == Waste.get_total_waste w + quantity.
Proof.
  unfold Waste.get_total_waste, Waste.add_waste. simpl.
  rewrite (total_insert (fun _ q => q)).
  destruct (Waste.waste_inventory w !! waste_type); simpl; ring.
Qed.

Lemma fold_add_waste_total (l : list (string * Q)) : forall f,
  let f' := fold_left (fun f w =>
                         with_waste_stream f
                           (Waste.add_waste (waste_stream f) (fst w) (snd w)))
                      l f in
  Waste.get_total_waste (waste_stream f')
  == Waste.get_total_waste (waste_stream f) + Qsum (map snd l).
Proof.
  induction l as [| w l IH]; intros f; cbn [fold_left map].
  - unfold Qsum. simpl. ring.
  - cbv zeta in IH. rewrite IH. simpl. rewrite add_waste_total, Qsum_cons. ring.
Qed.

Lemma wear_and_waste_leaves f task mid ms :
  let f1 := fst (wear_and_waste orc f task mid ms) in
  storage f1 = storage f
  /\ (exists m1, module_states f1 = Dict.set (module_states f) mid m1)
  /\ Waste.get_total_waste (waste_stream f1)
     == Waste.get_total_waste (waste_stream f)
        + Qsum (map snd (Tk.waste_generated task)).
Proof.
  unfold wear_and_waste. cbn [fst]. cbn [storage module_states waste_stream
                                          with_transport_system].
  set (f0 := match Dict.get _ mid with Some _ => _ | None => _ end).
  assert (H0 : storage f0 = storage f
               /\ module_states f0
                  = Dict.set (module_states f) mid
                      (fst (fst (Mod.update_condition orc ms (draws f)
                                   (Tk.setup_time task + Tk.process_time task)
                                   (config f))))
               /\ waste_stream f0 = waste_stream f).
  { unfold f0. case_match; simpl; auto. }
  destruct H0 as (Hs & Hm & Hw). clearbody f0.
  repeat apply conj.
  - rewrite (fold_add_waste_frame storage) by reflexivity. exact Hs.
  - eexists. rewrite (fold_add_waste_frame module_states) by reflexivity. exact Hm.
  - rewrite fold_add_waste_total, Hw. reflexivity.
Qed.

Lemma record_completion_leaves f k t mid :
  let r := record_completion MODULE_SPECS f k t mid in
  storage (fst r) = storage f
  /\ waste_stream (fst r) = waste_stream f
  /\ if snd r then idle_at (fst r) mid
     else Dict.get (module_states (fst r)) mid = Dict.get (module_states f) mid.
Proof.
  assert (Lm : forall g m l, module_states (log g m l) = module_states g)
    by reflexivity.
  assert (Ls : forall g m l, storage (log g m l) = storage g) by reflexivity.
  assert (Lw : forall g m l, waste_stream (log g m l) = waste_stream g)
    by reflexivity.
  unfold record_completion, idle_at. cbv zeta.
  destruct (existsb _ software_kinds);
    destruct (Fmt.endswith _ "_module");
    try destruct (Dict.get MODULE_SPECS _) as [sp |];
    try destruct (MSpec.cleanroom_capable sp) as [c |];
    try destruct (Z.eqb c 0);
    repeat (rewrite ?Lm, ?Ls, ?Lw;
            cbn [fst snd storage waste_stream module_states with_module_states
                 with_cleanroom_environments with_software_system
                 with_completed_tasks with_completed_task_ids]);
    (split; [reflexivity |]); (split; [reflexivity |]);
    lazymatch goal with
    | |- context [String.eqb ?a mid] =>
        destruct (String.eqb_spec a mid) as [E | E];
        [ rewrite <- E; eexists; split; [apply dict_get_set_same | reflexivity]
        | apply dict_get_set_other; exact E ]
    | |- _ => reflexivity
    end.
Qed.

Lemma touch_idle f mid (d : bool) g :
  (forall m, Mod.current_task (g m) = None) ->
  (if d then idle_at f mid else exists m, Dict.get (module_states f) mid = Some m) ->
  idle_at (touch f mid d g) mid.
Proof.
  intros Hg H. unfold touch. destruct d; [exact H |].
  destruct H as (m & Hm). rewrite Hm. unfold idle_at. simpl.
  exists (g m). split; [apply dict_get_set_same | apply Hg].
Qed.

Lemma touch_keeps_idle f mid (d : bool) g :
  (forall m, Mod.current_task (g m) = Mod.current_task m) ->
  idle_at f mid -> idle_at (touch f mid d g) mid.
Proof.
  intros Hg (m & Hm & Hi). unfold touch. destruct d; [exists m; auto |].
  rewrite Hm. unfold idle_at. simpl.
  exists (g m). split; [apply dict_get_set_same | rewrite Hg; exact Hi].
Qed.

Lemma schedule_maintenance_leaves f mid f' :
  idle_at f mid ->
  schedule_maintenance f mid = Returned f' tt ->
  idle_at f' mid /\ waste_stream f' = waste_stream f.
Proof.
  intros (m & Hget & Hidle) H. unfold schedule_maintenance in H.
  rewrite Hget in H.
  destruct (negb (enable_maintenance (config f))).
  { inversion H; subst. split; [exists m; auto | reflexivity]. }
  destruct (negb (Mod.is_in_maintenance m)); inversion H; subst; clear H;
    (split; [| reflexivity]).
  - unfold idle_at.
    change (module_states (log ?g _ _)) with (module_states g).
    cbn [module_states with_module_states].
    eexists. split; [apply dict_get_set_same | exact Hidle].
  - exists m. auto.
Qed.

Lemma release_module_leaves f mid (d : bool) c f' :
  (if d then idle_at f mid else exists m, Dict.get (module_states f) mid = Some m) ->
  release_module f mid d c = Returned f' tt ->
  idle_at f' mid /\ waste_stream f' = waste_stream f.
Proof.
  intros Hm H. unfold release_module in H.
  pose proof (touch_idle f mid d
                (fun m => Mod.with_task m None (Mod.setup_end_time m))
                ltac:(reflexivity) Hm) as H1.
  pose proof (touch_frame waste_stream f mid d
                (fun m => Mod.with_task m None (Mod.setup_end_time m))
                ltac:(reflexivity)) as W1.
  set (f1 := touch f mid d _) in *. clearbody f1.
  destruct c.
  - inversion H; subst. auto.
  - inversion H; subst; clear H. split.
    + unfold idle_at.
      change (module_states (log ?g _ _)) with (module_states g).
      apply (touch_keeps_idle f1 mid d (fun m => Mod.with_failed m true));
        [reflexivity | exact H1].
    + change (waste_stream (log ?g _ _)) with (waste_stream g).
      rewrite (touch_frame waste_stream) by reflexivity. exact W1.
  - apply schedule_maintenance_leaves in H; [| exact H1].
    destruct H as (Hi & Hw). split; [exact Hi | congruence].
Qed.

Lemma complete_task_leaves f k t f' mid :
  Tk.assigned_module t = Some mid ->
  complete_task orc MODULE_SPECS f k t = Returned f' tt ->
  idle_at f' mid
  /\ Waste.get_total_waste (waste_stream f')
     == Waste.get_total_waste (waste_stream f) + Qsum (map snd (Tk.waste_generated t))
  /\ storage f'
     = if snd (Storage.add_resource (storage f) (Tk.output t) (Tk.actual_output t))
       then fst (Storage.add_resource (storage f) (Tk.output t) (Tk.actual_output t))
       else storage f.
Proof.
  intros Hmid H. unfold complete_task in H. rewrite Hmid in H.
  destruct (Dict.get (module_states f) mid) as [ms |]; [| discriminate H].
  destruct (Mod.update_condition_raises ms (config f)); [discriminate H |].
  destruct (wear_and_waste_leaves f t mid ms) as (Hs & (m1 & Hm) & Hw).
  set (worn := wear_and_waste orc f t mid ms) in *. clearbody worn.
  set (fd := deposit_output MODULE_SPECS (fst worn) k t mid) in *.
  assert (Hd : (if snd fd then idle_at (fst fd) mid
                else exists m, Dict.get (module_states (fst fd)) mid = Some m)
               /\ waste_stream (fst fd) = waste_stream (fst worn)
               /\ storage (fst fd)
                  = if snd (Storage.add_resource (storage f) (Tk.output t)
                                                 (Tk.actual_output t))
                    then fst (Storage.add_resource (storage f) (Tk.output t)
                                                   (Tk.actual_output t))
                    else storage f).
  { unfold fd, deposit_output. rewrite Hs.
    destruct (snd (Storage.add_resource _ _ _)).
    - destruct (record_completion_leaves
                  (with_storage (fst worn)
                     (fst (Storage.add_resource (storage f) (Tk.output t)
                                                (Tk.actual_output t))))
                  k t mid) as (Hs' & Hw' & Hi).
      split; [| split; [exact Hw' | exact Hs']].
      destruct (snd (record_completion _ _ _ _ _)); [exact Hi |].
      rewrite Hi. cbn [module_states with_storage]. rewrite Hm.
      eexists. apply dict_get_set_same.
    - cbn [fst snd].
      change (module_states (log ?g _ _)) with (module_states g).
      change (waste_stream (log ?g _ _)) with (waste_stream g).
      change (storage (log ?g _ _)) with (storage g).
      split; [| split; [reflexivity | exact Hs]].
      rewrite Hm. eexists. apply dict_get_set_same. }
  clearbody fd. destruct Hd as (Hd & Hwd & Hsd).
  pose proof (release_module_returns _ _ _ _ _ H) as (_ & _ & _ & Hs' & _).
  apply release_module_leaves in H; [| exact Hd].
  destruct H as (Hi & Hw'). split; [exact Hi |]. split.
  - rewrite Hw', Hwd. exact Hw.
  - rewrite Hs'. exact Hsd.
Qed.

End Leaving.

(** X28. When a due task is completed its module is free again:
    whatever storage answers and whatever the condition of the module,
    [current_task] of the module stored under the task's module id is
    [None] afterwards. The waste of the task has been added to the
    waste stream, and storage is the store that [add_resource] returned
    if it accepted the output and is unchanged if not. *)
Theorem completion_frees_the_module
        (orc : Oracles) (MODULE_SPECS : list (string * MSpec.ModuleSpec))
        (f f' : Factory) (task_id : string) (task : Tk.Task) (module_id : string) :
  Tk.assigned_module task = Some module_id ->
  complete_task orc MODULE_SPECS f task_id task = Returned f' tt ->
  idle_at f' module_id
  /\ Waste.get_total_waste (waste_stream f')
     == Waste.get_total_waste (waste_stream f)
        + Qsum (map snd (Tk.waste_generated task))
  /\ storage f'
     = if snd (Storage.add_resource (storage f) (Tk.output task)
                                    (Tk.actual_output task))
       then fst (Storage.add_resource (storage f) (Tk.output task)
                                      (Tk.actual_output task))
       else storage f.
Proof.
  intros Hmid H.
  exact (complete_task_leaves orc MODULE_SPECS f task_id task f' module_id Hmid H).
Qed.

Lemma completion_frees_the_module_witness :
  let f := plc_running CONFIG in
  let k := fst (first_active f) in
  let t := snd (first_active f) in
  let f' := state_of (complete_task nominal MODULE_SPECS_DEFAULT f k t) f in
  idle_at f' "software_001"
  /\ Waste.get_total_waste (waste_stream f')
     == Waste.get_total_waste (waste_stream f)
        + Qsum (map snd (Tk.waste_generated t))
  /\ storage f'
     = if snd (Storage.add_resource (storage f) (Tk.output t)
                                    (Tk.actual_output t))
       then fst (Storage.add_resource (storage f) (Tk.output t)
                                      (Tk.actual_output t))
       else storage f.
Proof.
  intros f k t f'.
  apply (completion_frees_the_module nominal MODULE_SPECS_DEFAULT f f' k t "software_001").
  - vm_compute. reflexivity.
  - vm_compute. reflexivity.
Defined.

(** * The scheduler end to end *)

Import Cycles Draws Admission Ledger Batches.

(** ** The cycle error *)

Section CycleError.
Variable RECIPES : list Rcp.Recipe.





End CycleError.



(** ** Recycled material in recipe expansion *)







(** ** Admission of new tasks *)

Section Admitting.
Variable orc : Oracles.

Lemma start_production_active f task mid p f' b :
  start_production f task mid p = Returned f' b ->
  active_tasks f'
  = Dict.set (active_tasks f) (Tk.task_id task) (started task mid (time f) p).
Proof.
  unfold start_production. intros H.
  set (f1 := match Dict.get (module_states f) mid with Some _ => _ | None => f end) in H.
  assert (Hf1 : active_tasks f1 = active_tasks f /\ time f1 = time f)
    by (unfold f1; case_match; auto).
  clearbody f1. destruct Hf1 as (Ha1 & Ht1).
  destruct (consume_inputs _ f1 _) as [f2 [] | |] eqn:Hc; simpl in H; try discriminate H.
  apply consume_inputs_returns in Hc as (Ha & Ht).
  inversion H; subst; clear H. simpl. rewrite Ha, Ha1. reflexivity.
Qed.

Lemma resource_gate_active f task mid p f' :
  resource_gate f task mid p = Returned f' true ->
  exists t', active_tasks f' = Dict.set (active_tasks f) (Tk.task_id task) t'
             /\ Tk.status t' = Tk.active.
Proof.
  unfold resource_gate. intros H.
  destruct (schedule_inputs _ f task _ _) as [f1 r | |] eqn:Hs; simpl in H;
    try discriminate H.
  apply schedule_inputs_returns in Hs as (Hid & _ & _ & _ & Ha).
  destruct (missing_input _ f1 _) as [f2 missing | |] eqn:Hm; simpl in H;
    try discriminate H.
  apply missing_input_returns in Hm. subst f2.
  destruct missing as [[res required] |]; [discriminate H |].
  apply start_production_active in H. rewrite H, Ha, Hid.
  eexists. split; reflexivity.
Qed.

(** A task that starts is written to the active map under its id;
    a task that does not start leaves the active map alone. *)
Lemma process_task_active f task f' ok :
  process_task orc f task = Returned f' ok ->
  if ok
  then exists t', active_tasks f' = Dict.set (active_tasks f) (Tk.task_id task) t'
                  /\ Tk.status t' = Tk.active
  else active_tasks f' = active_tasks f.
Proof.
  intros H. destruct ok.
  2: { apply process_task_outcome in H as (_ & H). exact H. }
  unfold process_task in H.
  destruct (dependencies_incomplete f task); [discriminate H |].
  destruct (find_available_module f _) as [mid |]; [| discriminate H].
  destruct (String.eqb mid EmptyString); [discriminate H |].
  destruct (Dict.get (module_states f) mid) as [ms |]; [| discriminate H].
  destruct (calculate_production_parameters orc f task mid ms)
    as [f1 [task1 op] | |] eqn:Hcalc; simpl in H; try discriminate H.
  apply calculate_parameters_frame in Hcalc as (Hid & _ & Ha & _).
  destruct op as [p |]; [| discriminate H].
  unfold thermal_gate in H.
  destruct (negb (Thermal.check_thermal_constraints _ _)); [discriminate H |].
  unfold energy_gate in H.
  destruct (Py.ltb _ _); [discriminate H |].
  apply resource_gate_active in H as (t' & Hact & Hst).
  exists t'. simpl in Hact. rewrite Hact, Ha, Hid. auto.
Qed.

Lemma dict_set_length {V : Type} (d : list (string * V)) k v :
  (List.length (Dict.set d k v) <= S (List.length d))%nat.
Proof.
  induction d as [| [k' v'] d IH]; simpl; [lia |].
  destruct (String.eqb k' k); simpl; lia.
Qed.

Lemma starts_app (l1 l2 : list bool) : starts (l1 ++ l2) = (starts l1 + starts l2)%nat.
Proof. unfold starts. rewrite List.filter_app, List.length_app. reflexivity. Qed.

(** The loop, from a count of [started]: what it popped, what
    [process_task] answered, and where that leaves the queue and the
    active map. *)
Lemma admission_loop_trace (fuel : nat) : forall f started,
  (List.length (task_queue f) < fuel)%nat ->
  (started <= MAX_TASK_STARTS_PER_STEP)%nat ->
  match admission_loop orc fuel f started with
  | Returned f' n =>
      exists popped results,
        admitted orc f popped results f'
        /\ n = (started + starts results)%nat
        /\ (n <= MAX_TASK_STARTS_PER_STEP)%nat
        /\ task_queue f = (popped ++ task_queue f')%list
        /\ (n = MAX_TASK_STARTS_PER_STEP \/ task_queue f' = [])
        /\ (forall earlier ok,
              results = (earlier ++ [ok])%list ->
              (started + starts earlier < MAX_TASK_STARTS_PER_STEP)%nat)
        /\ (List.length (active_tasks f')
            <= List.length (active_tasks f) + starts results)%nat
        /\ (forall k, Dict.mem (active_tasks f) k = true ->
                      Dict.mem (active_tasks f') k = true)
        /\ Forall2 (fun e (ok : bool) =>
                      ok = true ->
                      Dict.mem (active_tasks f') (Tk.task_id (snd e)) = true)
                   popped results
  | Raised _ _ => True
  | OutOfFuel => False
  end.
Proof.
  induction fuel as [| fuel IH]; intros f started Hfuel Hstarted; [lia |].
  simpl. destruct (task_queue f) as [| [[priority task_id] task] rest] eqn:Hq; simpl.
  - exists [], []. unfold starts. simpl.
    split; [constructor |]. split; [lia |]. split; [exact Hstarted |].
    split; [rewrite ?Hq; reflexivity |]. split; [right; exact Hq |].
    split; [intros [| ? ?] ok Heq; discriminate Heq |].
    split; [lia |]. split; [auto | constructor].
  - destruct (Nat.ltb started MAX_TASK_STARTS_PER_STEP) eqn:Hlt.
    + apply Nat.ltb_lt in Hlt.
      pose proof (process_task_queue orc (with_task_queue f rest) task) as Hframe.
      destruct (process_task orc (with_task_queue f rest) task) as [f1 ok | |] eqn:Hrun;
        simpl in *; [| exact I | exact Hframe].
      pose proof (process_task_active _ _ _ _ Hrun) as Hact. simpl in Hact.
      specialize (IH f1 (if ok then S started else started)).
      rewrite Hframe in IH.
      assert (Hs : ((if ok then S started else started)
                    <= MAX_TASK_STARTS_PER_STEP)%nat)
        by (destruct ok; lia).
      specialize (IH ltac:(simpl in Hfuel; lia) Hs).
      destruct (admission_loop orc fuel f1 _) as [f' n | |]; [| exact I | exact IH].
      destruct IH as (popped & results & Hadm & Hn & Hle & Hqueue & Hexit & Hlast
                      & Hlen & Hkeep & Hin).
      exists ((priority, task_id, task) :: popped), (ok :: results).
      assert (Hcount : starts (ok :: results)
                       = ((if ok then 1 else 0) + starts results)%nat)
        by (unfold starts; destruct ok; reflexivity).
      assert (Hkeep1 : forall k, Dict.mem (active_tasks f) k = true ->
                                 Dict.mem (active_tasks f1) k = true).
      { intros k Hk. destruct ok.
        - destruct Hact as (t' & -> & _). apply dict_mem_set. right. exact Hk.
        - rewrite Hact. exact Hk. }
      repeat apply conj.
      * eapply admitted_next; [rewrite Hq; reflexivity | exact Hrun | exact Hadm].
      * rewrite Hcount. destruct ok; lia.
      * exact Hle.
      * simpl. rewrite Hqueue. reflexivity.
      * exact Hexit.
      * intros earlier ok' Heq. destruct earlier as [| b earlier]; simpl in Heq.
        -- unfold starts. simpl. lia.
        -- inversion Heq; subst.
           specialize (Hlast earlier ok' eq_refl).
           change (b :: earlier) with ([b] ++ earlier)%list.
           rewrite starts_app. unfold starts at 1. destruct b; simpl in *; lia.
      * rewrite Hcount. destruct ok.
        -- destruct Hact as (t' & Hact & _). rewrite Hact in Hlen.
           pose proof (dict_set_length (active_tasks f) (Tk.task_id task) t'). lia.
        -- rewrite Hact in Hlen. lia.
      * intros k Hk. apply Hkeep, Hkeep1, Hk.
      * constructor; [| exact Hin]. intros ->. simpl. apply Hkeep.
        destruct Hact as (t' & -> & _). apply dict_mem_set. left. reflexivity.
    + apply Nat.ltb_ge in Hlt.
      exists [], []. unfold starts. simpl.
      split; [constructor |]. split; [lia |]. split; [exact Hstarted |].
      split; [rewrite ?Hq; reflexivity |]. split; [left; lia |].
      split; [intros [| ? ?] ok Heq; discriminate Heq |].
      split; [lia |]. split; [auto | constructor].
Qed.

End Admitting.

(** C7, amended. In every simulation step the admission phase starts
    at most [MAX_TASK_STARTS_PER_STEP = 5] tasks. It pops entries from
    the head of the priority queue and calls [process_task] on each;
    the count it keeps is the number of calls that answered [True], the
    tasks then in the active map; a popped task that fails a gate is
    not counted, so more than five may be popped. The loop stops when
    the queue is empty or the count is five, and pops nothing after the
    fifth start. The active map grows by at most the count, and every
    key it held is still a key of it. The loop always ends; when a call
    of [process_task] raises, the phase ends with that exception. *)
Theorem admission_starts_at_most_five (orc : Oracles) (f : Factory) :
  match admit_new_tasks orc f with
  | Returned f' started =>
      exists popped results,
        admitted orc f popped results f'
        /\ started = starts results
        /\ (started <= MAX_TASK_STARTS_PER_STEP)%nat
        /\ task_queue f = (popped ++ task_queue f')%list
        /\ (started = MAX_TASK_STARTS_PER_STEP \/ task_queue f' = [])
        /\ (forall earlier ok,
              results = (earlier ++ [ok])%list ->
              (starts earlier < MAX_TASK_STARTS_PER_STEP)%nat)
        /\ (List.length (active_tasks f')
            <= List.length (active_tasks f) + started)%nat
        /\ (forall k, Dict.mem (active_tasks f) k = true ->
                      Dict.mem (active_tasks f') k = true)
        /\ Forall2 (fun e (ok : bool) =>
                      ok = true ->
                      Dict.mem (active_tasks f') (Tk.task_id (snd e)) = true)
                   popped results
  | Raised _ _ => True
  | OutOfFuel => False
  end.
Proof.
  unfold admit_new_tasks.
  pose proof (admission_loop_trace orc (S (List.length (task_queue f))) f 0%nat
                ltac:(lia) ltac:(unfold MAX_TASK_STARTS_PER_STEP; lia)) as H.
  destruct (admission_loop orc _ f 0) as [f' n | |]; [| exact I | exact H].
  destruct H as (popped & results & Hadm & Hn & Hle & Hqueue & Hexit & Hlast
                 & Hlen & Hkeep & Hin).
  simpl in Hn. subst n.
  exists popped, results. repeat apply conj; auto.
Qed.

(** ** The record of completed tasks *)

Section Settling.
Variable orc : Oracles.
Variable MODULE_SPECS : list (string * MSpec.ModuleSpec).

(** One due task: the store it leaves, and what it records. *)
Lemma complete_task_books f k t f' :
  complete_task orc MODULE_SPECS f k t = Returned f' tt ->
  time f' = time f
  /\ if snd (Storage.add_resource (storage f) (Tk.output t) (Tk.actual_output t))
     then storage f'
          = fst (Storage.add_resource (storage f) (Tk.output t) (Tk.actual_output t))
          /\ completed_tasks f' = (completed_tasks f ++ [finished (k, t)])%list
          /\ completed_task_ids f' = completed_task_ids f ∪ {[k]}
     else storage f' = storage f
          /\ completed_tasks f' = completed_tasks f
          /\ completed_task_ids f' = completed_task_ids f
          /\ logged_recently 1 f' (OutputRejected k) "WARNING".
Proof.
  intros H.
  pose proof (complete_task_frame orc MODULE_SPECS time f k t untouched_time) as Ht.
  rewrite H in Ht. simpl in Ht. split; [exact Ht |].
  pose proof (complete_task_returns orc MODULE_SPECS f k t f' H) as (_ & Hrec).
  assert (Hmid : exists mid, Tk.assigned_module t = Some mid).
  { unfold complete_task in H. destruct (Tk.assigned_module t); [eauto | discriminate H]. }
  destruct Hmid as (mid & Hmid).
  pose proof (complete_task_leaves orc MODULE_SPECS f k t f' mid Hmid H)
    as (_ & _ & Hst).
  destruct (snd (Storage.add_resource (storage f) (Tk.output t) (Tk.actual_output t))).
  - destruct Hrec as (Hc & Hi). auto.
  - destruct Hrec as (Hc & Hi & _ & Hlog). auto.
Qed.

Lemma complete_due_app (l1 l2 : list (string * Tk.Task)) : forall f acc,
  complete_due orc MODULE_SPECS (l1 ++ l2) f acc
  = bind (complete_due orc MODULE_SPECS l1 f acc)
         (fun g done => complete_due orc MODULE_SPECS l2 g done).
Proof.
  induction l1 as [| [k t] l1 IH]; intros f acc; simpl; [reflexivity |].
  destruct (Py.geb (time f) (Tk.completion_time t)); [| apply IH].
  destruct (complete_task orc MODULE_SPECS f k t) as [f1 [] | |]; simpl;
    [apply IH | reflexivity | reflexivity].
Qed.

(** The loop over a snapshot records exactly the deposits storage
    accepted, the store threaded through them. *)
Lemma complete_due_ledger (snapshot : list (string * Tk.Task)) :
  forall f acc f' acc',
    complete_due orc MODULE_SPECS snapshot f acc = Returned f' acc' ->
    completed_tasks f'
    = (completed_tasks f ++ map finished (accepted (time f) snapshot (storage f)))%list
    /\ completed_task_ids f'
       = completed_task_ids f
         ∪ list_to_set (map fst (accepted (time f) snapshot (storage f)))
    /\ storage f' = store_after (time f) snapshot (storage f).
Proof.
  unfold accepted, store_after.
  induction snapshot as [| [k t] rest IH]; intros f acc f' acc' H; simpl in *.
  - inversion H; subst. rewrite app_nil_r.
    split; [reflexivity |]. split; [| reflexivity].
    apply leibniz_equiv. set_solver.
  - destruct (Py.geb (time f) (Tk.completion_time t)); [| apply (IH _ _ _ _ H)].
    destruct (complete_task orc MODULE_SPECS f k t) as [f1 [] | |] eqn:Hone;
      simpl in H; try discriminate H.
    apply complete_task_books in Hone as (Ht & Hone).
    apply IH in H as (Hc & Hi & Hs). rewrite Ht in *.
    destruct (snd (Storage.add_resource (storage f) (Tk.output t) (Tk.actual_output t))).
    + destruct Hone as (Hs1 & Hc1 & Hi1). rewrite Hs1 in *. simpl.
      rewrite Hc, Hc1, Hi, Hi1, Hs, <- app_assoc. simpl.
      split; [reflexivity |]. split; [| reflexivity].
      apply leibniz_equiv. set_solver.
    + destruct Hone as (Hs1 & Hc1 & Hi1 & _). rewrite Hs1 in *.
      rewrite Hc, Hc1, Hi, Hi1, Hs. auto.
Qed.

(** When the loop reaches a due entry that storage rejects, it logs
    the warning before it goes on. *)
Lemma complete_due_warns (before after : list (string * Tk.Task)) (k : string)
      (t : Tk.Task) f f' acc' :
  complete_due orc MODULE_SPECS (before ++ (k, t) :: after) f [] = Returned f' acc' ->
  is_due (time f) (k, t) = true ->
  snd (Storage.add_resource (store_after (time f) before (storage f))
                            (Tk.output t) (Tk.actual_output t)) = false ->
  exists g done,
    complete_due orc MODULE_SPECS (before ++ [(k, t)]) f [] = Returned g done
    /\ logged_recently 1 g (OutputRejected k) "WARNING".
Proof.
  intros H Hdue Hrej. rewrite complete_due_app in H. rewrite complete_due_app.
  destruct (complete_due orc MODULE_SPECS before f []) as [g0 done0 | |] eqn:Hpre;
    simpl in H; try discriminate H.
  pose proof (complete_due_ledger _ _ _ _ _ Hpre) as (_ & _ & Hs).
  pose proof (complete_due_returns orc MODULE_SPECS _ _ _ _ _ Hpre) as (_ & Ht & _).
  unfold is_due in Hdue. simpl in *. rewrite Ht, Hdue in *.
  destruct (complete_task orc MODULE_SPECS g0 k t) as [g [] | |] eqn:Hone;
    simpl in H; try discriminate H.
  exists g, (done0 ++ [k])%list. split; [reflexivity |].
  apply complete_task_books in Hone as (_ & Hone).
  rewrite Hs, Hrej in Hone. apply Hone.
Qed.

End Settling.

(** C1, amended. When [update_active_tasks] returns, no task whose
    completion time has been reached is left in the active map, and the
    others are left as they were. The due tasks are taken in the order
    of the active map, each offering its [actual_output] to the store
    the ones before it left: a task is appended to the completed tasks,
    and its id added to [completed_task_ids], exactly when storage
    accepts the deposit. When storage rejects it the output is lost:
    the store stays as it is, the task is recorded neither as completed
    nor as active, and the loop logs the warning before it goes on. The
    active map is a dict, so its keys are distinct. *)
Theorem due_task_handling
        (orc : Oracles) (MODULE_SPECS : list (string * MSpec.ModuleSpec))
        (f f' : Factory) :
  NoDup (Dict.keys (active_tasks f)) ->
  update_active_tasks orc MODULE_SPECS f = Returned f' tt ->
  active_tasks f'
  = List.filter (fun e => negb (is_due (time f) e)) (active_tasks f)
  /\ (forall k t, In (k, t) (active_tasks f) ->
        Dict.get (active_tasks f') k
        = if is_due (time f) (k, t) then None else Some t)
  /\ completed_tasks f'
     = (completed_tasks f
        ++ map finished (accepted (time f) (active_tasks f) (storage f)))%list
  /\ completed_task_ids f'
     = completed_task_ids f
       ∪ list_to_set (map fst (accepted (time f) (active_tasks f) (storage f)))
  /\ storage f' = store_after (time f) (active_tasks f) (storage f)
  /\ forall before k t after,
       active_tasks f = (before ++ (k, t) :: after)%list ->
       is_due (time f) (k, t) = true ->
       snd (Storage.add_resource (store_after (time f) before (storage f))
                                 (Tk.output t) (Tk.actual_output t)) = false ->
       exists g done,
         complete_due orc MODULE_SPECS (before ++ [(k, t)]) f [] = Returned g done
         /\ logged_recently 1 g (OutputRejected k) "WARNING".
Proof.
  intros Hnd H.
  pose proof (update_active_tasks_removes orc MODULE_SPECS f f' Hnd H) as Hget.
  unfold update_active_tasks in H.
  destruct (complete_due orc MODULE_SPECS (active_tasks f) f []) as [f1 done | |] eqn:Hdue;
    simpl in H; try discriminate H.
  inversion H; subst; clear H.
  pose proof (complete_due_ledger _ _ _ _ _ _ _ Hdue) as (Hc & Hi & Hs).
  pose proof (complete_due_returns orc MODULE_SPECS _ _ _ _ _ Hdue) as (Ha & _ & Hdone).
  simpl in Hdone. cbn [active_tasks completed_tasks completed_task_ids storage
                       with_active_tasks].
  repeat apply conj.
  - rewrite Ha, Hdone. apply (fold_del_filter (is_due (time f))). exact Hnd.
  - intros k t Hin. specialize (Hget k t Hin). unfold is_due. simpl.
    cbn [active_tasks with_active_tasks] in Hget.
    destruct (Py.geb (time f) (Tk.completion_time t)); exact Hget.
  - exact Hc.
  - exact Hi.
  - exact Hs.
  - intros before k t after Hsplit Hd Hrej. rewrite Hsplit in Hdue.
    exact (complete_due_warns _ _ _ _ _ _ _ _ _ Hdue Hd Hrej).
Qed.

Lemma due_task_handling_witness :
  let f := plc_running small_store in
  let f' := state_of (update_active_tasks nominal MODULE_SPECS_DEFAULT f) f in
  active_tasks f'
  = List.filter (fun e => negb (is_due (time f) e)) (active_tasks f)
  /\ (forall k t, In (k, t) (active_tasks f) ->
        Dict.get (active_tasks f') k
        = if is_due (time f) (k, t) then None else Some t)
  /\ completed_tasks f'
     = (completed_tasks f
        ++ map finished (accepted (time f) (active_tasks f) (storage f)))%list
  /\ completed_task_ids f'
     = completed_task_ids f
       ∪ list_to_set (map fst (accepted (time f) (active_tasks f) (storage f)))
  /\ storage f' = store_after (time f) (active_tasks f) (storage f)
  /\ forall before k t after,
       active_tasks f = (before ++ (k, t) :: after)%list ->
       is_due (time f) (k, t) = true ->
       snd (Storage.add_resource (store_after (time f) before (storage f))
                                 (Tk.output t) (Tk.actual_output t)) = false ->
       exists g done,
         complete_due nominal MODULE_SPECS_DEFAULT (before ++ [(k, t)]) f []
         = Returned g done
         /\ logged_recently 1 g (OutputRejected k) "WARNING".
Proof.
  intros f f'.
  apply (due_task_handling nominal MODULE_SPECS_DEFAULT f f').
  - refine (bool_decide_unpack _ _). vm_compute. exact I.
  - vm_compute. reflexivity.
Defined.

(** ** The output of completed tasks *)

Lemma dict_get_elem {V : Type} (d : list (string * V)) (k : string) (v : V) :
  Dict.get d k = Some v -> In (k, v) d.
Proof.
  induction d as [| [k' v'] d IH]; simpl; [discriminate |].
  destruct (String.eqb_spec k' k) as [-> | Hne].
  - intros H. inversion H. left. reflexivity.
  - intros H. right. apply IH, H.
Qed.

Lemma dict_set_elem {V : Type} (d : list (string * V)) (k : string) (v : V)
      (e : string * V) :
  In e (Dict.set d k v) -> e = (k, v) \/ In e d.
Proof.
  induction d as [| [k' v'] d IH]; simpl.
  - intros [<- | []]. left. reflexivity.
  - destruct (String.eqb k' k); simpl.
    + intros [<- | H]; auto.
    + intros [<- | H]; [auto |]. destruct (IH H); auto.
Qed.

Lemma dict_set_keys {V : Type} (d : list (string * V)) (k : string) (v : V) :
  NoDup (Dict.keys d) -> NoDup (Dict.keys (Dict.set d k v)).
Proof.
  assert (Hin : forall (d : list (string * V)) x,
             In x (Dict.keys (Dict.set d k v)) -> x = k \/ In x (Dict.keys d)).
  { intros d0 x Hx. unfold Dict.keys in *. apply in_map_iff in Hx as (e & <- & He).
    apply dict_set_elem in He as [-> | He]; [left; reflexivity |].
    right. apply in_map. exact He. }
  induction d as [| [k' v'] d IH]; intros Hnd; simpl.
  - apply NoDup_cons. split; [intros H; inversion H | constructor].
  - simpl in Hnd. apply NoDup_cons in Hnd as [Hk' Hnd].
    destruct (String.eqb_spec k' k) as [-> | Hne]; simpl.
    + apply NoDup_cons. split; assumption.
    + apply NoDup_cons. split; [| apply IH; exact Hnd].
      intros Hx. apply list_elem_of_In, Hin in Hx as [-> | Hx]; [congruence |].
      apply Hk'. apply list_elem_of_In. exact Hx.
Qed.

Lemma dict_del_elem {V : Type} (d : list (string * V)) (k : string) (e : string * V) :
  In e (Dict.del d k) -> In e d.
Proof.
  induction d as [| [k' v'] d IH]; simpl; [auto |].
  destruct (String.eqb k' k); simpl; [auto |]. intros [<- | H]; auto.
Qed.

Lemma fold_del_elem {V : Type} (ks : list string) : forall (d : list (string * V)) e,
  In e (fold_left (fun a key => Dict.del a key) ks d) -> In e d.
Proof.
  induction ks as [| k ks IH]; intros d e H; simpl in H; [exact H |].
  apply IH in H. eapply dict_del_elem. exact H.
Qed.

Section Books.
Variable orc : Oracles.
Variable MODULE_SPECS : list (string * MSpec.ModuleSpec).
Variable cfg : Config.

Lemma kept_via f g :
  books g = books f ->
  books_kept cfg MODULE_SPECS f -> books_kept cfg MODULE_SPECS g.
Proof.
  unfold books, books_kept. intros H. inversion H as [[Hc Hm Ha Hd]].
  rewrite Hc, Hm, Ha, Hd. auto.
Qed.

Lemma kept_touch f k m :
  books_kept cfg MODULE_SPECS f -> of_its_kind MODULE_SPECS m ->
  books_kept cfg MODULE_SPECS (with_module_states f (Dict.set (module_states f) k m)).
Proof.
  intros (Hc & Hnd & Hm & Ha & Hd) Hk. unfold books_kept. simpl.
  split; [exact Hc |]. split; [apply dict_set_keys; exact Hnd |].
  split; [| auto]. intros mid m' Hin.
  apply dict_set_elem in Hin as [Heq | Hin]; [inversion Heq; subst; exact Hk |].
  eapply Hm. exact Hin.
Qed.

Lemma kept_start f k t :
  books_kept cfg MODULE_SPECS f -> within_batch cfg MODULE_SPECS t ->
  books_kept cfg MODULE_SPECS (with_active_tasks f (Dict.set (active_tasks f) k t)).
Proof.
  intros (Hc & Hnd & Hm & Ha & Hd) Ht. unfold books_kept. simpl.
  repeat apply conj; auto. intros k' t' Hin.
  apply dict_set_elem in Hin as [Heq | Hin]; [inversion Heq; subst; exact Ht |].
  eapply Ha. exact Hin.
Qed.

Lemma kept_done f t :
  books_kept cfg MODULE_SPECS f -> within_batch cfg MODULE_SPECS t ->
  books_kept cfg MODULE_SPECS (with_completed_tasks f
          (completed_tasks f ++ [Tk.with_status t Tk.completed])%list).
Proof.
  intros (Hc & Hnd & Hm & Ha & Hd) Ht. unfold books_kept. simpl.
  repeat apply conj; auto. intros t' Hin.
  apply in_app_or in Hin as [Hin | [<- | []]]; [apply Hd; exact Hin |].
  split; [reflexivity | exact Ht].
Qed.

Lemma kept_fewer f v :
  books_kept cfg MODULE_SPECS f -> (forall e, In e v -> In e (active_tasks f)) ->
  books_kept cfg MODULE_SPECS (with_active_tasks f v).
Proof.
  intros (Hc & Hnd & Hm & Ha & Hd) Hv. unfold books_kept. simpl.
  repeat apply conj; auto. intros k t Hin. eapply Ha. apply Hv. exact Hin.
Qed.

Lemma kept_module f mid m :
  books_kept cfg MODULE_SPECS f ->
  Dict.get (module_states f) mid = Some m -> of_its_kind MODULE_SPECS m.
Proof.
  intros (_ & _ & Hm & _) Hget. eapply Hm. apply dict_get_elem. exact Hget.
Qed.


Lemma kept_as f g k m :
  books_kept cfg MODULE_SPECS f ->
  config g = config f ->
  module_states g = Dict.set (module_states f) k m ->
  of_its_kind MODULE_SPECS m ->
  active_tasks g = active_tasks f ->
  completed_tasks g = completed_tasks f ->
  books_kept cfg MODULE_SPECS g.
Proof.
  intros H Hc Hm Hk Ha Hd.
  apply (kept_via (with_module_states f (Dict.set (module_states f) k m))).
  - unfold books. simpl. rewrite Hc, Hm, Ha, Hd. reflexivity.
  - apply kept_touch; assumption.
Qed.

Ltac keep H Hk :=
  cbn [halts_in];
  first [ exact H
        | apply (kept_via _ _ _ _ eq_refl H)
        | eapply kept_as;
          [exact H | reflexivity | reflexivity | exact Hk | reflexivity | reflexivity] ].

Lemma calculate_parameters_books f task mid ms :
  books_kept cfg MODULE_SPECS f -> of_its_kind MODULE_SPECS ms ->
  halts_in (books_kept cfg MODULE_SPECS)
           (calculate_production_parameters orc f task mid ms).
Proof.
  intros H Hk. unfold calculate_production_parameters.
  destruct (Mod.spec ms) as [sp |]; [| case_match; exact H].
  cbv zeta. destruct (negb (opt_string_eqb _ _));
    repeat case_match;
    repeat match goal with
      | E : (_, _) = (_, _) |- _ => inversion E; subst; clear E
      end;
    keep H Hk.
Qed.

Lemma calculate_parameters_recipe f task mid ms f1 task1 op :
  calculate_production_parameters orc f task mid ms = Returned f1 (task1, op) ->
  Tk.recipe task1 = Tk.recipe task /\ Tk.quantity task1 = Tk.quantity task.
Proof.
  unfold calculate_production_parameters. intros H.
  repeat case_match; try discriminate H;
    repeat match goal with
      | E : (_, _) = (_, _) |- _ => inversion E; subst; clear E
      end;
    inversion H; subst; clear H; simpl; auto.
Qed.

Lemma schedule_inputs_books ins : forall f task to_module tt,
  books_kept cfg MODULE_SPECS f ->
  halts_in (books_kept cfg MODULE_SPECS) (schedule_inputs ins f task to_module tt).
Proof.
  induction ins as [| [r q] rest IH]; intros f task to_module tt H; simpl;
    [exact H |].
  case_match; [exact H |]. apply IH. exact H.
Qed.

Lemma missing_input_books ins : forall f task,
  books_kept cfg MODULE_SPECS f ->
  halts_in (books_kept cfg MODULE_SPECS) (missing_input ins f task).
Proof.
  induction ins as [| [r q] rest IH]; intros f task H; simpl; [exact H |].
  repeat case_match; simpl; auto.
Qed.

Lemma consume_inputs_books ins : forall f task,
  books_kept cfg MODULE_SPECS f ->
  halts_in (books_kept cfg MODULE_SPECS) (consume_inputs ins f task).
Proof.
  induction ins as [| [r q] rest IH]; intros f task H; simpl; [exact H |].
  repeat case_match; simpl; auto.
Qed.

Lemma start_production_books f task mid p :
  books_kept cfg MODULE_SPECS f ->
  yields cfg MODULE_SPECS task (p_expected_yield p) ->
  halts_in (books_kept cfg MODULE_SPECS) (start_production f task mid p).
Proof.
  intros H Hy. unfold start_production.
  apply halts_in_bind.
  - apply consume_inputs_books.
    destruct (Dict.get (module_states f) mid) as [m |] eqn:Hget; [| exact H].
    apply kept_touch; [exact H |]. exact (kept_module f mid m H Hget).
  - intros f1 [] Hf1. cbn [halts_in].
    apply (kept_via
             (with_active_tasks f1
                (Dict.set (active_tasks f1) (Tk.task_id task)
                          (started task mid (time f) p)))); [reflexivity |].
    apply kept_start; [exact Hf1 | exact Hy].
Qed.

Lemma resource_gate_books f task mid p :
  books_kept cfg MODULE_SPECS f ->
  yields cfg MODULE_SPECS task (p_expected_yield p) ->
  halts_in (books_kept cfg MODULE_SPECS) (resource_gate f task mid p).
Proof.
  intros H Hy. unfold resource_gate.
  pose proof (schedule_inputs_books (Rcp.inputs (Tk.recipe task)) f task
                (match Dict.get (module_states f) mid with
                 | Some m => Mod.module_type m
                 | None => EmptyString
                 end) (p_transport_time p) H) as Hs.
  destruct (schedule_inputs _ f task _ _) as [f1 r | |] eqn:Hrun; simpl in *;
    [| exact Hs | exact Hs].
  apply schedule_inputs_returns in Hrun as (_ & Hq & Hr & _).
  pose proof (missing_input_books (Rcp.inputs (Tk.recipe (fst r))) f1 (fst r) Hs) as Hm.
  destruct (missing_input _ f1 _) as [f2 missing | |]; simpl in *;
    [| exact Hm | exact Hm].
  destruct missing as [[input_resource required] |]; [exact Hm |].
  apply start_production_books; [exact Hm |].
  unfold yields, required_module_of in *. simpl. rewrite Hq, Hr. exact Hy.
Qed.

Lemma thermal_gate_books f task mid p :
  books_kept cfg MODULE_SPECS f ->
  yields cfg MODULE_SPECS task (p_expected_yield p) ->
  halts_in (books_kept cfg MODULE_SPECS) (thermal_gate orc f task mid p).
Proof.
  intros H Hy. unfold thermal_gate, energy_gate.
  repeat case_match; try exact H.
  apply resource_gate_books; [exact H | exact Hy].
Qed.

Lemma find_available_module_kind f module_type mid :
  find_available_module f module_type = Some mid ->
  exists state, In (mid, state) (module_states f)
                /\ Mod.module_type state = module_type.
Proof.
  unfold find_available_module.
  pose proof (suitable_modules_spec f module_type (module_states f)) as Hspec.
  set (suitable := flat_map _ (module_states f)) in *.
  destruct suitable as [| x rest] eqn:Hs; [discriminate |].
  intros H. inversion H; subst; clear H.
  destruct (best_tuple rest x) as (Hin & _).
  apply Hspec in Hin as ([mid st] & Hin & (Hty & _) & Hbest).
  rewrite Hbest. simpl. exists st. auto.
Qed.

Lemma process_task_books f task :
  books_kept cfg MODULE_SPECS f ->
  halts_in (books_kept cfg MODULE_SPECS) (process_task orc f task).
Proof.
  intros H. unfold process_task.
  case_match; [exact H |].
  destruct (find_available_module f _) as [mid |] eqn:Hfind; [| exact H].
  case_match; [exact H |].
  destruct (Dict.get (module_states f) mid) as [ms |] eqn:Hget; [| exact H].
  pose proof (kept_module f mid ms H Hget) as Hk.
  pose proof (calculate_parameters_books f task mid ms H Hk) as Hcalc.
  destruct (calculate_production_parameters orc f task mid ms)
    as [f1 [task1 op] | |] eqn:Hrun; simpl in *; [| exact Hcalc | exact Hcalc].
  destruct op as [p |]; [| exact Hcalc].
  apply thermal_gate_books; [exact Hcalc |].
  pose proof (calculate_parameters_recipe _ _ _ _ _ _ _ Hrun) as (Hr & Hq).
  apply calculate_yield_bounds in Hrun as (_ & _ & Hb).
  apply find_available_module_kind in Hfind as (state & Hin & Hty).
  destruct H as (Hc & Hnd & _).
  rewrite (dict_get_in _ _ _ Hnd Hin) in Hget. inversion Hget; subst state.
  unfold yields, required_module_of. rewrite Hr, Hq.
  unfold of_its_kind in Hk. rewrite Hty in Hk.
  unfold required_module_of in Hk. rewrite <- Hk, <- Hc. exact Hb.
Qed.


Lemma update_condition_kind ms draws hours_operated c :
  of_its_kind MODULE_SPECS ms ->
  of_its_kind MODULE_SPECS
    (fst (fst (Mod.update_condition orc ms draws hours_operated c))).
Proof.
  intros H. unfold Mod.update_condition. cbv zeta.
  repeat case_match; exact H.
Qed.

Lemma wear_and_waste_kept f task mid ms :
  books_kept cfg MODULE_SPECS f -> of_its_kind MODULE_SPECS ms ->
  books_kept cfg MODULE_SPECS (fst (wear_and_waste orc f task mid ms)).
Proof.
  intros H Hk. unfold wear_and_waste. cbn [fst].
  set (m1 := fst (fst (Mod.update_condition orc ms (draws f)
                         (Tk.setup_time task + Tk.process_time task) (config f)))).
  apply (kept_via (with_module_states f (Dict.set (module_states f) mid m1))).
  - change (books (with_transport_system ?a _)) with (books a).
    rewrite (fold_add_waste_frame books) by reflexivity.
    case_match; reflexivity.
  - apply kept_touch; [exact H |]. apply update_condition_kind. exact Hk.
Qed.

Lemma record_completion_kept f k t mid :
  books_kept cfg MODULE_SPECS f -> within_batch cfg MODULE_SPECS t ->
  books_kept cfg MODULE_SPECS (fst (record_completion MODULE_SPECS f k t mid)).
Proof.
  intros H Ht. pose proof (kept_done f t H Ht) as H1.
  unfold record_completion. cbv zeta.
  destruct (existsb _ software_kinds);
    destruct (Fmt.endswith _ "_module");
    try destruct (Dict.get MODULE_SPECS _) as [sp |] eqn:Hsp;
    try destruct (MSpec.cleanroom_capable sp) as [c |];
    try destruct (Z.eqb c 0);
    cbn [fst snd];
    first [ apply (kept_via _ _ eq_refl H1)
          | eapply kept_as;
            [ exact H1 | reflexivity | reflexivity
            | unfold of_its_kind; cbn [Mod.spec Mod.module_type Mod.new];
              symmetry; exact Hsp
            | reflexivity | reflexivity ] ].
Qed.

Lemma deposit_output_kept f k t mid :
  books_kept cfg MODULE_SPECS f -> within_batch cfg MODULE_SPECS t ->
  books_kept cfg MODULE_SPECS (fst (deposit_output MODULE_SPECS f k t mid)).
Proof.
  intros H Ht. unfold deposit_output. case_match.
  - apply record_completion_kept; [| exact Ht].
    apply (kept_via f); [reflexivity | exact H].
  - apply (kept_via f); [reflexivity | exact H].
Qed.

Lemma touch_kept f mid (d : bool) g :
  (forall m, of_its_kind MODULE_SPECS m -> of_its_kind MODULE_SPECS (g m)) ->
  books_kept cfg MODULE_SPECS f -> books_kept cfg MODULE_SPECS (touch f mid d g).
Proof.
  intros Hg H. unfold touch. destruct d; [exact H |].
  destruct (Dict.get (module_states f) mid) as [m |] eqn:Hget; [| exact H].
  apply kept_touch; [exact H |]. apply Hg. exact (kept_module f mid m H Hget).
Qed.

Lemma schedule_maintenance_kept f mid :
  books_kept cfg MODULE_SPECS f ->
  halts_in (books_kept cfg MODULE_SPECS) (schedule_maintenance f mid).
Proof.
  intros H. unfold schedule_maintenance.
  case_match; [exact H |].
  destruct (Dict.get (module_states f) mid) as [m |] eqn:Hget; [| exact H].
  case_match; [| exact H]. cbn [halts_in].
  apply (kept_via (with_module_states f
                     (Dict.set (module_states f) mid
                        (Mod.with_maintenance m true (time f + 8)
                           (Mod.time_since_maintenance m)
                           (Mod.current_efficiency m)))));
    [reflexivity |].
  apply kept_touch; [exact H |]. exact (kept_module f mid m H Hget).
Qed.

Lemma release_module_kept f mid (d : bool) c :
  books_kept cfg MODULE_SPECS f ->
  halts_in (books_kept cfg MODULE_SPECS) (release_module f mid d c).
Proof.
  intros H. unfold release_module.
  pose proof (touch_kept f mid d
                (fun m => Mod.with_task m None (Mod.setup_end_time m))
                ltac:(intros m Hm; exact Hm) H) as H1.
  set (f1 := touch f mid d _) in *. clearbody f1.
  destruct c.
  - exact H1.
  - cbn [halts_in].
    apply (kept_via (touch f1 mid d (fun m => Mod.with_failed m true)));
      [reflexivity |].
    apply touch_kept; [intros m Hm; exact Hm | exact H1].
  - apply schedule_maintenance_kept. exact H1.
Qed.

Lemma complete_task_kept f k t :
  books_kept cfg MODULE_SPECS f -> within_batch cfg MODULE_SPECS t ->
  halts_in (books_kept cfg MODULE_SPECS) (complete_task orc MODULE_SPECS f k t).
Proof.
  intros H Ht. unfold complete_task.
  destruct (Tk.assigned_module t) as [mid |]; [| exact H].
  destruct (Dict.get (module_states f) mid) as [ms |] eqn:Hget; [| exact H].
  pose proof (kept_module f mid ms H Hget) as Hk.
  destruct (Mod.update_condition_raises ms (config f)).
  - cbn [halts_in]. apply kept_touch; [exact H | exact Hk].
  - apply release_module_kept. apply deposit_output_kept; [| exact Ht].
    apply wear_and_waste_kept; [exact H | exact Hk].
Qed.

Lemma complete_due_kept snapshot : forall f done,
  books_kept cfg MODULE_SPECS f ->
  (forall e, In e snapshot -> within_batch cfg MODULE_SPECS (snd e)) ->
  halts_in (books_kept cfg MODULE_SPECS)
           (complete_due orc MODULE_SPECS snapshot f done).
Proof.
  induction snapshot as [| [k t] rest IH]; intros f done H Hs; simpl; [exact H |].
  assert (Hrest : forall e, In e rest -> within_batch cfg MODULE_SPECS (snd e))
    by (intros e He; apply Hs; right; exact He).
  case_match; [| apply IH; assumption].
  apply halts_in_bind.
  - apply complete_task_kept; [exact H |]. apply (Hs (k, t)). left. reflexivity.
  - intros f1 [] H1. apply IH; assumption.
Qed.

Lemma update_active_tasks_kept f :
  books_kept cfg MODULE_SPECS f ->
  halts_in (books_kept cfg MODULE_SPECS) (update_active_tasks orc MODULE_SPECS f).
Proof.
  intros H. unfold update_active_tasks.
  apply halts_in_bind.
  - apply complete_due_kept; [exact H |].
    intros [k t] He. destruct H as (_ & _ & _ & Ha & _). eapply Ha. exact He.
  - intros f1 done H1. cbn [halts_in].
    apply kept_fewer; [exact H1 |]. intros e He. eapply fold_del_elem. exact He.
Qed.

Lemma update_maintenance_kept f :
  books_kept cfg MODULE_SPECS f -> books_kept cfg MODULE_SPECS (update_maintenance f).
Proof.
  intros H. unfold update_maintenance.
  assert (Hs : forall e, In e (module_states f) -> of_its_kind MODULE_SPECS (snd e)).
  { intros [mid m] He. destruct H as (_ & _ & Hm & _). eapply Hm. exact He. }
  match goal with
  | |- books_kept _ _ (fold_left ?step _ _) =>
      assert (Hfold : forall snapshot g,
                 books_kept cfg MODULE_SPECS g ->
                 (forall e, In e snapshot -> of_its_kind MODULE_SPECS (snd e)) ->
                 books_kept cfg MODULE_SPECS (fold_left step snapshot g));
      [| apply Hfold; assumption ]
  end.
  clear f H Hs.
  induction snapshot as [| e rest IH]; intros f H Hs; simpl; [exact H |].
  apply IH; [| intros e' He'; apply Hs; right; exact He'].
  case_match; [| exact H].
  eapply kept_as;
    [ exact H | reflexivity | reflexivity | apply (Hs e); left; reflexivity
    | reflexivity | reflexivity ].
Qed.

Lemma admission_loop_kept : forall fuel f started,
  (List.length (task_queue f) < fuel)%nat ->
  books_kept cfg MODULE_SPECS f ->
  halts_in (books_kept cfg MODULE_SPECS) (admission_loop orc fuel f started).
Proof.
  induction fuel as [| fuel IH]; intros f started Hfuel H; [lia |].
  simpl. destruct (task_queue f) as [| [[priority task_id] task] rest] eqn:Hqueue;
    simpl; [exact H |].
  case_match; [| exact H].
  pose proof (process_task_books (with_task_queue f rest) task
                (kept_via f _ eq_refl H)) as Hkeep.
  pose proof (process_task_queue orc (with_task_queue f rest) task) as Hframe.
  destruct (process_task orc (with_task_queue f rest) task) as [f1 ok | |];
    simpl in *; auto.
  apply IH; [| exact Hkeep]. rewrite Hframe. simpl in Hfuel. lia.
Qed.

Lemma check_blocked_tasks_books f : books (check_blocked_tasks f) = books f.
Proof.
  unfold check_blocked_tasks.
  change (books (with_blocked_tasks ?a _)) with (books a).
  apply (fold_frame (fun acc : Factory * list string => books (fst acc))).
  intros acc e. case_match; reflexivity.
Qed.

Lemma clean_rooms_books f : books (clean_rooms f) = books f.
Proof.
  unfold clean_rooms. case_match; [| reflexivity]. apply fold_frame.
  intros f0 e. case_match; reflexivity.
Qed.

Lemma collect_metrics_books f : books (collect_metrics orc f) = books f.
Proof. unfold collect_metrics. case_match; reflexivity. Qed.

Lemma simulate_step_kept f duration_hours :
  books_kept cfg MODULE_SPECS f ->
  halts_in (books_kept cfg MODULE_SPECS)
           (simulate_step orc MODULE_SPECS f duration_hours).
Proof.
  intros H. unfold simulate_step.
  set (f2 := with_transport_system (update_energy orc f duration_hours) _).
  assert (H2 : books_kept cfg MODULE_SPECS f2)
    by (apply (kept_via f); [reflexivity | exact H]).
  clearbody f2.
  apply halts_in_bind; [apply update_active_tasks_kept; exact H2 |].
  intros f3 [] H3.
  set (f4 := clean_rooms (update_maintenance f3)).
  assert (H4 : books_kept cfg MODULE_SPECS f4).
  { apply (kept_via (update_maintenance f3)); [apply clean_rooms_books |].
    apply update_maintenance_kept. exact H3. }
  clearbody f4.
  apply halts_in_bind.
  - unfold admit_new_tasks. apply admission_loop_kept; [lia | exact H4].
  - intros f5 n H5. cbn [halts_in].
    set (f6 := if Z.eqb _ 0 then check_blocked_tasks f5 else f5).
    assert (H6 : books_kept cfg MODULE_SPECS f6).
    { unfold f6. case_match; [| exact H5].
      apply (kept_via f5); [apply check_blocked_tasks_books | exact H5]. }
    clearbody f6.
    apply (kept_via (collect_metrics orc f6)); [reflexivity |].
    apply (kept_via f6); [apply collect_metrics_books | exact H6].
Qed.

Lemma init_kept : books_kept cfg MODULE_SPECS (init MODULE_SPECS cfg).
Proof.
  unfold init, initialize_modules.
  match goal with
  | |- books_kept _ _ (fold_left ?step _ _) =>
      assert (Hfold : forall types g,
                 books_kept cfg MODULE_SPECS g ->
                 books_kept cfg MODULE_SPECS (fold_left step types g));
      [| apply Hfold ]
  end.
  - induction types as [| ty types IH]; intros f H; simpl; [exact H |].
    apply IH.
    destruct (Dict.get MODULE_SPECS ty) as [sp |] eqn:Hsp;
      try destruct (MSpec.cleanroom_capable sp) as [c |];
      try destruct (Z.eqb c 0);
      (eapply kept_as;
       [ exact H | reflexivity | reflexivity
       | unfold of_its_kind; cbn [Mod.spec Mod.module_type Mod.new];
         symmetry; exact Hsp
       | reflexivity | reflexivity ]).
  - unfold books_kept. simpl. repeat apply conj.
    + reflexivity.
    + constructor.
    + intros mid m [].
    + intros k t [].
    + intros t [].
Qed.

Lemma reachable_books_kept RECIPES f :
  reachable orc RECIPES MODULE_SPECS cfg f -> books_kept cfg MODULE_SPECS f.
Proof.
  intros Hreach. induction Hreach as [| f f' fuel o q p Hr IH He | f f' d Hr IH He].
  - apply init_kept.
  - pose proof (create_production_task_frame RECIPES _ books
                  ltac:(repeat split) fuel f o q p ∅) as Hframe.
    destruct (create_production_task RECIPES fuel f o q p ∅); simpl in *;
      try contradiction; subst; apply (kept_via f); assumption.
  - pose proof (simulate_step_kept f d IH) as Hstep.
    destruct (simulate_step orc MODULE_SPECS f d); simpl in *;
      try contradiction; subst; exact Hstep.
Qed.

End Books.

Lemma batch_is_quantity (cfg : Config) (sp : MSpec.ModuleSpec) (quantity : Q) :
  (enable_batch_processing cfg = true ->
   MSpec.min_batch_size sp <= quantity /\ quantity <= MSpec.max_batch_size sp) ->
  batch_size_of cfg sp quantity == quantity.
Proof.
  intros H. unfold batch_size_of.
  destruct (enable_batch_processing cfg); [| reflexivity].
  destruct (H eq_refl) as [Hlo Hhi].
  rewrite (Q.min_l _ _ Hhi). apply Q.max_r. exact Hlo.
Qed.

(** C2, amended. In every state the factory reaches from its
    construction through product requests and simulation steps, every
    task in the completed-tasks list has status [completed] and an
    output bounded by the batch, not by the quantity: with [B] the
    batch size for the module kind its recipe requires
    ([max(min_batch, min(quantity, max_batch))], or the quantity when
    batch processing is off), if [B] is not negative then
    [0.5 * B <= actual_output <= B]; where [MODULE_SPECS] has no spec
    for that kind the output is the quantity. The same holds of every
    task in the active map. Where the quantity is not negative and lies
    within the batch limits of the spec (or batch processing is off),
    the bounds are those of the quantity:
    [0.5 * quantity <= actual_output <= quantity]. *)
Theorem completed_output_within_batch
        (orc : Oracles) (RECIPES : list Rcp.Recipe)
        (MODULE_SPECS : list (string * MSpec.ModuleSpec)) (cfg : Config)
        (f : Factory) :
  reachable orc RECIPES MODULE_SPECS cfg f ->
  (forall t, In t (completed_tasks f) ->
     Tk.status t = Tk.completed
     /\ match Dict.get MODULE_SPECS (required_module_of t) with
        | Some sp =>
            let b := batch_size_of cfg sp (Tk.quantity t) in
            (0 <= b -> (5 # 10) * b <= Tk.actual_output t /\ Tk.actual_output t <= b)
            /\ (0 <= Tk.quantity t ->
                (enable_batch_processing cfg = true ->
                 MSpec.min_batch_size sp <= Tk.quantity t
                 /\ Tk.quantity t <= MSpec.max_batch_size sp) ->
                (5 # 10) * Tk.quantity t <= Tk.actual_output t
                /\ Tk.actual_output t <= Tk.quantity t)
        | None => Tk.actual_output t = Tk.quantity t
        end)
  /\ (forall k t, In (k, t) (active_tasks f) -> within_batch cfg MODULE_SPECS t).
Proof.
  intros Hreach.
  destruct (reachable_books_kept orc MODULE_SPECS cfg RECIPES f Hreach)
    as (_ & _ & _ & Ha & Hd).
  split; [| exact Ha].
  intros t Hin. destruct (Hd t Hin) as [Hst Hb]. split; [exact Hst |].
  unfold within_batch, yields in Hb.
  destruct (Dict.get MODULE_SPECS (required_module_of t)) as [sp |]; [| exact Hb].
  cbv zeta in *. split; [exact Hb |].
  intros Hq Hlim. pose proof (batch_is_quantity cfg sp (Tk.quantity t) Hlim) as Heq.
  rewrite Heq in Hb. exact (Hb Hq).
Qed.

Lemma completed_output_within_batch_witness :
  let f := plc_finished CONFIG in
  (forall t, In t (completed_tasks f) ->
     Tk.status t = Tk.completed
     /\ match Dict.get MODULE_SPECS_DEFAULT (required_module_of t) with
        | Some sp =>
            let b := batch_size_of CONFIG sp (Tk.quantity t) in
            (0 <= b -> (5 # 10) * b <= Tk.actual_output t /\ Tk.actual_output t <= b)
            /\ (0 <= Tk.quantity t ->
                (enable_batch_processing CONFIG = true ->
                 MSpec.min_batch_size sp <= Tk.quantity t
                 /\ Tk.quantity t <= MSpec.max_batch_size sp) ->
                (5 # 10) * Tk.quantity t <= Tk.actual_output t
                /\ Tk.actual_output t <= Tk.quantity t)
        | None => Tk.actual_output t = Tk.quantity t
        end)
  /\ (forall k t, In (k, t) (active_tasks f) ->
                  within_batch CONFIG MODULE_SPECS_DEFAULT t).
Proof.
  intros f.
  apply (completed_output_within_batch nominal [plc_program] MODULE_SPECS_DEFAULT
                                       CONFIG f).
  apply (reach_step _ _ _ _ (plc_running CONFIG) f 2).
  - apply (reach_step _ _ _ _ (plc_requested CONFIG) (plc_running CONFIG) 2).
    + apply (reach_request _ _ _ _ (init MODULE_SPECS_DEFAULT CONFIG)
                           (plc_requested CONFIG)
                           (expansion_fuel [plc_program]) "plc_program" 1 1).
      * apply reach_init.
      * vm_compute. reflexivity.
    + vm_compute. reflexivity.
  - vm_compute. reflexivity.
Defined.

